(** * Deep-learning lab notebooks: datasets, models, training and evaluation loops

    A shallow embedding of the student-written Python of the notebooks:
    - the three from-scratch [Dataset] classes of lab 1 ([ImageDataset],
      [SpeechDataset], [TextDataset]);
    - the [MLPClassif] module of labs 3 and 4, [MLPClassif_var] of lab 4,
      the model of the nonlinear regression of lab 2, [init_weights] and
      the count of the parameters of a model;
    - the regression loops of lab 2 and the training and evaluation
      functions of labs 3, 4 and 6 ([training_mlp_classifier],
      [train_val_mlp_classifier], [training_val_cnn_classifier],
      [eval_mlp_classifier], [eval_cnn_classifier]).

    Conventions.
    - Python exceptions are values of [PyErr]; a call that may raise returns
      [Result A = PyErr + A].
    - Floating-point numbers are idealised as rationals [Q]; Python [int]s
      are [Z].
    - What the notebooks take from the operating system and from the
      framework (directory walks, file decoding, a module's forward pass,
      the loss, autograd, the optimizer update, the shuffling order of a
      dataloader) is kept abstract: it is a field of a record or of a type
      class, instantiated only in the examples.
    - The computing device is the default ['cpu'], where [.to(device)] is the
      identity. *)

From Stdlib Require Import ZArith QArith List String Ascii Lia.
From Stdlib Require Import Sorting.Permutation Sorting.Sorted.
From stdpp Require Import base gmap strings list sorting.

Local Open Scope string_scope.
Local Open Scope list_scope.

(** ** Python values and exceptions *)

Inductive PyErr : Type :=
| IndexError
| KeyError (key : string)
| ValueError
| ZeroDivisionError
| RuntimeError
| UnboundLocalError
| OSError
| OverflowError.

Definition Result (A : Type) : Type := (PyErr + A)%type.

Definition Ok {A} (x : A) : Result A := inr x.
Definition Raise {A} (e : PyErr) : Result A := inl e.

Definition rbind {A B} (r : Result A) (k : A -> Result B) : Result B :=
  match r with
  | inl e => inl e
  | inr x => k x
  end.

Declare Scope result_scope.
Delimit Scope result_scope with result.
Notation "x <-? r ;; k" := (rbind r (fun x => k))
  (at level 100, r at next level, right associativity) : result_scope.

(** [for x in xs: ...] over a fallible body that produces one value per
    item (a list comprehension whose element expression may raise). *)
Fixpoint rmap {A B} (f : A -> Result B) (xs : list A) : Result (list B) :=
  match xs with
  | [] => Ok []
  | x :: xs' =>
      (y <-? f x ;; ys <-? rmap f xs' ;; Ok (y :: ys))%result
  end.

(** [l[i]] for a Python list: negative indices count from the end, an index
    out of range raises [IndexError]. *)
Definition py_getitem {A} (l : list A) (i : Z) : Result A :=
  let n := Z.of_nat (length l) in
  let j := if (i <? 0)%Z then (i + n)%Z else i in
  if ((0 <=? j)%Z && (j <? n)%Z)%bool then
    match nth_error l (Z.to_nat j) with
    | Some x => Ok x
    | None => Raise IndexError
    end
  else Raise IndexError.

(** [l[:k]] for a Python sequence. *)
Definition py_slice_to {A} (l : list A) (k : Z) : list A :=
  if (k <? 0)%Z then firstn (Z.to_nat (Z.of_nat (length l) + k)) l
  else firstn (Z.to_nat k) l.

(** [int(q)] on a float: truncation toward zero. *)
Definition int_of_float (q : Q) : Z := Z.quot (Qnum q) (Zpos (Qden q)).

(** ** Python string methods (ASCII text) *)

Module Str.

(** Whitespace as [str.isspace] sees it on ASCII characters. *)
Definition is_space (c : ascii) : bool :=
  let n := nat_of_ascii c in
  ((9 <=? n)%nat && (n <=? 13)%nat) || ((28 <=? n)%nat && (n <=? 32)%nat).

(** [c in string.ascii_lowercase] for a single character [c]. *)
Definition in_ascii_lowercase (c : ascii) : bool :=
  let n := nat_of_ascii c in ((97 <=? n)%nat && (n <=? 122)%nat).

Definition lower_char (c : ascii) : ascii :=
  let n := nat_of_ascii c in
  if ((65 <=? n)%nat && (n <=? 90)%nat) then ascii_of_nat (n + 32) else c.

Fixpoint lower (s : string) : string :=
  match s with
  | EmptyString => EmptyString
  | String c s' => String (lower_char c) (lower s')
  end.

Fixpoint lstrip (s : string) : string :=
  match s with
  | EmptyString => EmptyString
  | String c s' => if is_space c then lstrip s' else s
  end.

Definition rstrip (s : string) : string := String.rev (lstrip (String.rev s)).

Definition strip (s : string) : string := rstrip (lstrip s).

(** [s.replace(old, new)] for a non-empty [old]: leftmost, non-overlapping
    occurrences; [skip] counts the characters of a match still to drop. *)
Fixpoint replace_go (old new s : string) (skip : nat) : string :=
  match s with
  | EmptyString => EmptyString
  | String c s' =>
      match skip with
      | S k => replace_go old new s' k
      | O =>
          if String.prefix old s
          then new ++ replace_go old new s' (String.length old - 1)
          else String c (replace_go old new s' 0)
      end
  end.

(** [s.replace("", new)] puts [new] around every character. *)
Fixpoint replace_empty (new s : string) : string :=
  match s with
  | EmptyString => new
  | String c s' => new ++ String c (replace_empty new s')
  end.

Definition replace (s old new : string) : string :=
  match old with
  | EmptyString => replace_empty new s
  | _ => replace_go old new s 0
  end.

(** [s.split()]: the maximal runs of non-whitespace characters; [cur] is
    the current run, reversed. *)
Fixpoint split_go (cur s : string) : list string :=
  match s with
  | EmptyString =>
      match cur with EmptyString => [] | _ => [String.rev cur] end
  | String c s' =>
      if is_space c then
        match cur with
        | EmptyString => split_go EmptyString s'
        | _ => String.rev cur :: split_go EmptyString s'
        end
      else split_go (String c cur) s'
  end.

Definition split (s : string) : list string := split_go EmptyString s.

(** [s.split(sep)] for a one-character separator. *)
Fixpoint split_on_go (sep : ascii) (cur s : string) : list string :=
  match s with
  | EmptyString => [String.rev cur]
  | String c s' =>
      if Ascii.eqb c sep then String.rev cur :: split_on_go sep EmptyString s'
      else split_on_go sep (String c cur) s'
  end.

Definition split_on (sep : ascii) (s : string) : list string :=
  split_on_go sep EmptyString s.

(** [sep.join(parts)]. *)
Definition join (sep : string) (parts : list string) : string :=
  String.concat sep parts.

Definition digit_of (c : ascii) : option Z :=
  let n := nat_of_ascii c in
  if ((48 <=? n)%nat && (n <=? 57)%nat) then Some (Z.of_nat (n - 48)) else None.

Definition is_digit (c : ascii) : bool :=
  match digit_of c with Some _ => true | None => false end.

(** The digits of an integer literal after its first digit: a single
    underscore may stand between two digits. *)
Fixpoint digits_go (acc : Z) (s : string) : option Z :=
  match s with
  | EmptyString => Some acc
  | String c s' =>
      match digit_of c with
      | Some d => digits_go (10 * acc + d)%Z s'
      | None =>
          if Ascii.eqb c "_" then
            match s' with
            | String c' _ => if is_digit c' then digits_go acc s' else None
            | EmptyString => None
            end
          else None
      end
  end.

(** [sys.get_int_max_str_digits()]: the default of CPython 3.11 and
    later, which the notebooks leave as it is. *)
Definition int_max_str_digits : nat := 4300.

(** The number of digits of a literal, its underscores not counted. *)
Definition count_digits (s : string) : nat :=
  length (List.filter is_digit (list_ascii_of_string s)).

(** A literal starts with a digit and has at most [int_max_str_digits]
    digits. *)
Definition digits (s : string) : option Z :=
  match s with
  | EmptyString => None
  | String c _ =>
      if is_digit c && (count_digits s <=? int_max_str_digits)%nat
      then digits_go 0%Z s
      else None
  end.

(** [s.isascii()]. *)
Definition isascii (s : string) : bool :=
  forallb (fun c => (nat_of_ascii c <? 128)%nat) (list_ascii_of_string s).

(** The whitespace [int] skips around a literal: of the ASCII characters,
    tab to carriage return and the space, but not the separators
    [chr(28)] to [chr(31)] that [str.isspace] and [str.strip] also take. *)
Definition is_int_space (c : ascii) : bool :=
  let n := nat_of_ascii c in
  ((9 <=? n)%nat && (n <=? 13)%nat) || (n =? 32)%nat.

Fixpoint int_lstrip (s : string) : string :=
  match s with
  | EmptyString => EmptyString
  | String c s' => if is_int_space c then int_lstrip s' else s
  end.

Definition int_strip (s : string) : string :=
  String.rev (int_lstrip (String.rev (int_lstrip s))).

(** [int(s)] on a string of ASCII characters: surrounding whitespace is
    ignored, an optional sign precedes a run of decimal digits in which
    single underscores may separate digits; a literal of more than
    [int_max_str_digits] digits raises [ValueError] as any other string
    does. Outside ASCII, [int] also takes the decimal digits and the
    whitespace of other scripts, which this definition rejects: it is
    used on ASCII text. *)
Definition int (s : string) : Result Z :=
  let body := int_strip s in
  let signed :=
    match body with
    | String "-" r => option_map Z.opp (digits r)
    | String "+" r => digits r
    | _ => digits body
    end in
  match signed with
  | Some z => Ok z
  | None => Raise ValueError
  end.

(** [fnmatch.fnmatchcase(name, pattern)] for patterns made of literal
    characters, [*] and [?] (no bracket expressions); on POSIX
    [fnmatch.filter] is case-sensitive and uses exactly this. *)
Fixpoint fnmatch_chars (p s : list ascii) : bool :=
  match p with
  | [] => match s with [] => true | _ => false end
  | c :: p' =>
      if Ascii.eqb c "*" then
        (fix star (s : list ascii) : bool :=
           fnmatch_chars p' s ||
           match s with
           | [] => false
           | _ :: s' => star s'
           end) s
      else if Ascii.eqb c "?" then
        match s with
        | [] => false
        | _ :: s' => fnmatch_chars p' s'
        end
      else
        match s with
        | [] => false
        | d :: s' => Ascii.eqb c d && fnmatch_chars p' s'
        end
  end.

Definition fnmatch (name pattern : string) : bool :=
  fnmatch_chars (list_ascii_of_string pattern) (list_ascii_of_string name).

Definition fnmatch_filter (names : list string) (pattern : string) : list string :=
  List.filter (fun name => fnmatch name pattern) names.

(** [os.path.join(root, name)] on POSIX. *)
Definition path_join (root name : string) : string :=
  match name with
  | String "/" _ => name
  | _ =>
      match String.rev root with
      | EmptyString => name
      | String "/" _ => root ++ name
      | _ => root ++ "/" ++ name
      end
  end.

(** [sorted(paths)]: strings are ordered by code point. *)
Definition sorted (l : list string) : list string := merge_sort String.le l.

End Str.

Example replace_example :
  Str.replace (Str.replace "../data/image_corpus/pikachu.png" "../data/image_corpus/" "") ".png" ""
  = "pikachu".
Proof. reflexivity. Qed.

Example split_example : Str.split "  a good  movie " = ["a"; "good"; "movie"].
Proof. reflexivity. Qed.

Example fnmatch_example :
  Str.fnmatch_filter ["a.png"; "b.txt"; ".png"; "c.PNG"; "d.png.bak"] "*.png" = ["a.png"; ".png"].
Proof. reflexivity. Qed.

Example int_example : Str.int (" 1" ++ String (ascii_of_nat 10) "") = Ok 1%Z.
Proof. reflexivity. Qed.

Example int_underscore_example :
  Str.int "-1_000" = Ok (-1000)%Z /\ Str.int "1__0" = Raise ValueError /\
  Str.int "_1" = Raise ValueError /\ Str.int "1_" = Raise ValueError /\
  Str.int "+ 1" = Raise ValueError /\ Str.int "007" = Ok 7%Z /\
  Str.int (String (ascii_of_nat 28) "1") = Raise ValueError /\
  Str.int (String (ascii_of_nat 11) "1 ") = Ok 1%Z.
Proof. repeat split. Qed.

(** ** The from-scratch [Dataset] classes (lab 1) *)

(** ** 32-bit floats made from Python integers *)

Module Float32.

(** The value of a 32-bit float made from an integer: a rational, or an
    infinity. *)
Inductive t : Type :=
  | Finite (q : Q)
  | Infinity (negative : bool).

(** The nearest integer to [z] with [bits] significant bits, ties going to
    the even significand. *)
Definition round_to (bits : Z) (z : Z) : Z :=
  let a := Z.abs z in
  let e := (Z.log2 a - (bits - 1))%Z in
  if (e <=? 0)%Z then z
  else
    let q := Z.shiftr a e in
    let r := (a - Z.shiftl q e)%Z in
    let half := Z.shiftl 1 (e - 1) in
    let q' := if (r <? half)%Z then q
              else if (half <? r)%Z then (q + 1)%Z
              else if Z.even q then q else (q + 1)%Z in
    (Z.sgn z * Z.shiftl q' e)%Z.

(** [float(z)] of a Python integer: the nearest 64-bit float, or
    [OverflowError] when the integer is too large for one. *)
Definition py_float (z : Z) : Result Z :=
  let d := round_to 53 z in
  if (Z.abs d <? 2 ^ 1024)%Z then Ok d else Raise OverflowError.

(** The conversion of an integral 64-bit float to a 32-bit one: the
    nearest 32-bit float, an infinity beyond the largest one. *)
Definition of_double (d : Z) : t :=
  let f := round_to 24 d in
  if (Z.abs f <? 2 ^ 128)%Z then Finite (inject_Z f) else Infinity (d <? 0)%Z.

(** An element of [torch.FloatTensor(data)] for a Python integer: the
    integer goes through a 64-bit float. *)
Definition of_int (z : Z) : Result t :=
  (d <-? py_float z ;; Ok (of_double d))%result.

Definition tensor (data : list Z) : Result (list t) := rmap of_int data.

End Float32.

Example float32_example :
  Float32.tensor [16777217%Z] = Ok [Float32.Finite 16777216] /\
  Float32.tensor [(-16777219)%Z] = Ok [Float32.Finite (-16777220)] /\
  Float32.tensor [1%Z; 0%Z] = Ok [Float32.Finite 1; Float32.Finite 0] /\
  Float32.tensor [(- 2 ^ 200)%Z] = Ok [Float32.Infinity true] /\
  Float32.tensor [(10 ^ 400)%Z] = Raise OverflowError.
Proof. repeat split. Qed.

(** What the classes ask of the operating system and of the libraries:
    [os.walk], [skimage.io.imread], [soundfile.read], the lines of a text
    file as iterating over [open(path, "r")] yields them, and
    [torch.FloatTensor(data)] on a list of Python integers, which converts
    each of them to a 32-bit float (rounding it when it has more than 24
    significant bits, to an infinity when it is beyond the largest 32-bit
    float) or raises (as [OverflowError] does for an integer too large for
    a Python float). *)
Record OSEnv : Type := {
  os_walk : string -> list (string * list string * list string);
  io_imread : string -> Result (list (list (list Z)));
  sf_read : string -> Result (list Q * Z);
  open_lines : string -> Result (list string);
  float_tensor : list Z -> Result (list Float32.t)
}.

(** The body shared by the three [_find_files] methods:
    [[
    for root, dirnames, filenames in os.walk(directory):
        for filename in fnmatch.filter(filenames, pattern):
            path_list.append(os.path.join(root, filename))
    ]] *)
Definition find_files_loop (os : OSEnv) (directory pattern : string) : list string :=
  fold_left
    (fun path_list entry =>
       let '(root, _, filenames) := entry in
       fold_left
         (fun path_list filename => path_list ++ [Str.path_join root filename])
         (Str.fnmatch_filter filenames pattern)
         path_list)
    (os_walk os directory)
    [].

Module ImageDataset.

Record t : Type := { image_dir : string; image_path_list : list string }.

Definition _find_files (os : OSEnv) (directory : string) (pattern : string) : list string :=
  find_files_loop os directory pattern.

Definition __init__ (os : OSEnv) (image_dir : string) : t :=
  {| image_dir := image_dir;
     image_path_list := Str.sorted (_find_files os image_dir "*.png") |}.

Definition __len__ (self : t) : Z := Z.of_nat (length (image_path_list self)).

(** [x = torch.from_numpy(x).float(); x = x / 255.0] *)
Definition normalize (x : list (list (list Z))) : list (list (list Q)) :=
  map (map (map (fun v => (inject_Z v / 255)%Q))) x.

Definition __getitem__ (os : OSEnv) (self : t) (index : Z)
  : Result (list (list (list Q)) * string) :=
  (image_path <-? py_getitem (image_path_list self) index ;;
   let name := Str.replace (Str.replace image_path (image_dir self) "") ".png" "" in
   x <-? io_imread os image_path ;;
   Ok (normalize x, name))%result.

End ImageDataset.

Module SpeechDataset.

Record t : Type := {
  audio_dir : string;
  max_dur : Q;
  audio_path_list : list string
}.

Definition _find_files (os : OSEnv) (directory : string) (pattern : string) : list string :=
  find_files_loop os directory pattern.

Definition __init__ (os : OSEnv) (audio_dir : string) (max_dur : Q) : t :=
  {| audio_dir := audio_dir;
     max_dur := max_dur;
     audio_path_list := Str.sorted (_find_files os audio_dir "*.wav") |}.

Definition __len__ (self : t) : Z := Z.of_nat (length (audio_path_list self)).

(** A one-channel signal; [torch.zeros(n)] is [n] zeros. *)
Definition _set_duration (y : list Q) (max_dur : Q) (sampling_frequency : Z) : list Q :=
  let max_len := int_of_float (max_dur * inject_Z sampling_frequency)%Q in
  if (max_len <? Z.of_nat (length y))%Z then py_slice_to y max_len
  else y ++ repeat 0%Q (Z.to_nat (max_len - Z.of_nat (length y))).

Definition __getitem__ (os : OSEnv) (self : t) (index : Z)
  : Result (list Q * Z * string) :=
  (audio_path <-? py_getitem (audio_path_list self) index ;;
   xs <-? sf_read os audio_path ;;
   let y := _set_duration (fst xs) (max_dur self) (snd xs) in
   let name := Str.replace (Str.replace audio_path (audio_dir self) "") ".wav" "" in
   Ok (y, snd xs, name))%result.

End SpeechDataset.

Module TextDataset.

Record t : Type := {
  text_dir : string;
  max_seq_len : Z;
  text_files : list string;
  labels : list Z;
  vocab : list string;
  word_to_index : gmap string Z
}.

Record features : Type := { token_ids : list Z; labels_ : list Float32.t }.

Definition _find_files (os : OSEnv) (directory : string) (pattern : string) : list string :=
  find_files_loop os directory pattern.

(** [list(open(filepath, "r"))[0]] *)
Definition first_line (os : OSEnv) (filepath : string) : Result string :=
  (lines <-? open_lines os filepath ;; py_getitem lines 0)%result.

(** [text, label = first_line.split("\t")] followed by [int(label)]. *)
Definition _get_labels (os : OSEnv) (text_files : list string) : Result (list Z) :=
  rmap
    (fun filepath =>
       (line <-? first_line os filepath ;;
        match Str.split_on (ascii_of_nat 9) line with
        | [text; label] => Str.int label
        | _ => Raise ValueError
        end)%result)
    text_files.

(** [set(c for c in s if c not in letters and c != " ")] *)
Definition not_letters (s : string) : gset ascii :=
  list_to_set
    (List.filter
       (fun c => negb (Str.in_ascii_lowercase c) && negb (Ascii.eqb c " "))
       (list_ascii_of_string s)).

(** [for char in not_letters: s = s.replace(char, " ")] *)
Definition blank_out (chars : gset ascii) (s : string) : string :=
  set_fold (fun char s => Str.replace s (String char EmptyString) " ") s chars.

Definition _create_vocabulary (os : OSEnv) (text_files : list string)
  : Result (list string) :=
  (all_texts <-? rmap
     (fun filepath =>
        line <-? first_line os filepath ;; Ok (Str.lower (Str.strip line)))
     text_files ;;
   let word_string := Str.join " " all_texts in
   let word_string := blank_out (not_letters word_string) word_string in
   let vocab : gset string := list_to_set (Str.split word_string) in
   Ok (elements vocab))%result.

(** [for i in range(n): tokens.append("[PAD]")]; [range(n)] is empty for
    [n <= 0]. *)
Definition pad_tokens (tokens : list string) (n : Z) : list string :=
  fold_left (fun tokens _ => tokens ++ ["[PAD]"]) (seq 0 (Z.to_nat n)) tokens.

Definition _tokenize_text (os : OSEnv) (max_seq_len : Z) (text_file : string)
  : Result (list string) :=
  (line <-? first_line os text_file ;;
   let text := Str.lower (Str.strip line) in
   let text := blank_out (not_letters text) text in
   let tokens := Str.split text in
   Ok (pad_tokens tokens (max_seq_len - Z.of_nat (length tokens))))%result.

(** [{word: idx for idx, word in enumerate(words)}] *)
Definition enumerate_dict (words : list string) : gmap string Z :=
  fold_left
    (fun d iw => <[snd iw := Z.of_nat (fst iw)]> d)
    (combine (seq 0 (length words)) words)
    ∅.

Definition __init__ (os : OSEnv) (text_dir : string) (max_seq_length : Z) : Result t :=
  (let text_files := Str.sorted (_find_files os text_dir "*.txt") in
   labels <-? _get_labels os text_files ;;
   words <-? _create_vocabulary os text_files ;;
   let vocab := Str.sorted words in
   let word_to_index := enumerate_dict (Str.sorted vocab) in
   let word_to_index := <["[PAD]" := (-1)%Z]> word_to_index in
   Ok {| text_dir := text_dir;
         max_seq_len := max_seq_length;
         text_files := text_files;
         labels := labels;
         vocab := vocab;
         word_to_index := word_to_index |})%result.

Definition __len__ (self : t) : Z := Z.of_nat (length (text_files self)).

Definition dict_getitem (d : gmap string Z) (word : string) : Result Z :=
  match d !! word with
  | Some idx => Ok idx
  | None => Raise (KeyError word)
  end.

Definition __getitem__ (os : OSEnv) (self : t) (index : Z) : Result features :=
  (text_file <-? py_getitem (text_files self) index ;;
   tokens <-? _tokenize_text os (max_seq_len self) text_file ;;
   x <-? rmap (dict_getitem (word_to_index self)) tokens ;;
   label <-? py_getitem (labels self) index ;;
   y <-? float_tensor os [label] ;;
   Ok {| token_ids := x; labels_ := y |})%result.

End TextDataset.

(** A small corpus used in the examples below. *)
Definition tab : string := String (ascii_of_nat 9) EmptyString.
Definition nl : string := String (ascii_of_nat 10) EmptyString.

Definition demo_os : OSEnv := {|
  os_walk := fun directory =>
    [ (directory, ["sub"], ["b.txt"; "a.txt"; "zed.png"; "clip.wav"; "notes.md"]);
      ((directory ++ "sub")%string, [], ["c.png"; "long.wav"]) ];
  io_imread := fun path =>
    if String.eqb path "corpus/zed.png" then Ok [[[0; 51; 255; 255]%Z]]
    else if String.eqb path "corpus/sub/c.png" then Ok [[[255; 0; 102; 255]%Z]]
    else Raise OSError;
  sf_read := fun path =>
    if String.eqb path "corpus/clip.wav" then Ok ([(-1 # 2); (1 # 4)]%Q, 4%Z)
    else if String.eqb path "corpus/sub/long.wav"
    then Ok ([(1 # 8); (-1 # 8); (1 # 4); (-1 # 4); (1 # 2); (-1 # 2); 0; (3 # 4); (1 # 8); (1 # 16)]%Q, 4%Z)
    else Raise OSError;
  open_lines := fun path =>
    if String.eqb path "corpus/a.txt" then Ok [("A good, GOOD movie!" ++ tab ++ "1" ++ nl)%string]
    else if String.eqb path "corpus/b.txt" then Ok [("Bad." ++ tab ++ "0" ++ nl)%string]
    else Raise OSError;
  float_tensor := Float32.tensor
|}.


(** ** Tensors *)

(** A two-dimensional tensor, one row per sample of the batch. An image
    batch of shape [[n, 1, 28, 28]] is kept with each image flattened in
    row-major order, which is the order [view] and [reshape] read it in. *)
Definition Tensor2 : Type := list (list Q).

Definition Qltb (a b : Q) : bool := negb (Qle_bool b a).

Module Tensor.

Definition shape (x : Tensor2) (rows cols : nat) : Prop :=
  length x = rows /\ Forall (fun r => length r = cols) x.

Definition numel (x : Tensor2) : nat := length (concat x).

Fixpoint rows_of (rows cols : nat) (flat : list Q) : Tensor2 :=
  match rows with
  | O => []
  | S rows' => firstn cols flat :: rows_of rows' cols (skipn cols flat)
  end.

(** [x.view(rows, -1)]: the second size is inferred; it must exist and be
    unique. *)
Definition view_infer (x : Tensor2) (rows : nat) : Result Tensor2 :=
  match rows with
  | O => Raise RuntimeError
  | S _ =>
      if (numel x mod rows =? 0)%nat
      then Ok (rows_of rows (numel x / rows) (concat x))
      else Raise RuntimeError
  end.

(** [x.view(rows, cols)] *)
Definition view (x : Tensor2) (rows cols : nat) : Result Tensor2 :=
  if (numel x =? rows * cols)%nat
  then Ok (rows_of rows cols (concat x))
  else Raise RuntimeError.

Definition dot (u v : list Q) : Q :=
  fold_left Qplus (map (fun ab => (fst ab * snd ab)%Q) (combine u v)) 0%Q.

(** The index [torch.max(row)] reports: the first position of the
    largest entry. *)
Fixpoint argmax_go (best : Q) (best_i i : nat) (row : list Q) : nat :=
  match row with
  | [] => best_i
  | v :: row' =>
      if Qltb best v then argmax_go v i (S i) row'
      else argmax_go best best_i (S i) row'
  end.

Definition row_argmax (row : list Q) : Result Z :=
  match row with
  | [] => Raise RuntimeError
  | v :: row' => Ok (Z.of_nat (argmax_go v 0 1 row'))
  end.

(** [_, idx = torch.max(y, 1)] *)
Definition argmax_dim1 (y : Tensor2) : Result (list Z) := rmap row_argmax y.

Definition count_eq (a b : list Z) : Z :=
  Z.of_nat (length (List.filter (fun ab => (fst ab =? snd ab)%Z) (combine a b))).

(** [(a == b).sum().item()] for one-dimensional integer tensors, with
    broadcasting of a one-element operand. *)
Definition eq_sum (a b : list Z) : Result Z :=
  if (length a =? length b)%nat then Ok (count_eq a b)
  else match a, b with
       | [x], _ => Ok (count_eq (repeat x (length b)) b)
       | _, [y] => Ok (count_eq a (repeat y (length a)))
       | _, _ => Raise RuntimeError
       end.

End Tensor.

(** ** Modules of the framework used by [MLPClassif] *)

(** The interface of [nn.Module] as the classifier uses it: calling a module
    on a batch. *)
Class Forward (M : Type) : Type := forward : M -> Tensor2 -> Result Tensor2.

Module Linear.

Record t : Type := {
  in_features : nat;
  out_features : nat;
  weight : list (list Q);
  bias : list Q
}.

(** [nn.Linear(in_features, out_features)]; the initial values the
    framework draws are given by [init_w] and [init_b]. *)
Definition __init__ (in_features out_features : nat)
    (init_w : nat -> nat -> Q) (init_b : nat -> Q) : t :=
  {| in_features := in_features;
     out_features := out_features;
     weight := map (fun j => map (init_w j) (seq 0 in_features)) (seq 0 out_features);
     bias := map init_b (seq 0 out_features) |}.

(** One output row: [row @ weight.T + bias]. *)
Definition affine (self : t) (row : list Q) : list Q :=
  map (fun wb => (Tensor.dot (fst wb) row + snd wb)%Q)
      (combine (weight self) (bias self)).

Definition forward_ (self : t) (x : Tensor2) : Result Tensor2 :=
  if forallb (fun row => (length row =? in_features self)%nat) x
  then Ok (map (affine self) x)
  else Raise RuntimeError.

End Linear.

#[export] Instance Linear_Forward : Forward Linear.t := Linear.forward_.

(** An element-wise activation such as [nn.Sigmoid()] or [nn.ReLU()]. *)
Record Activation : Type := { act : Q -> Q }.

#[export] Instance Activation_Forward : Forward Activation :=
  fun self x => Ok (map (map (act self)) x).

Definition ReLU : Activation :=
  {| act := fun v => if Qle_bool 0 v then v else 0%Q |}.

(** [nn.Sequential(first, second)] *)
Record Sequential (A B : Type) : Type := { first : A; second : B }.
Arguments first {A B} _.
Arguments second {A B} _.

#[export] Instance Sequential_Forward {A B} `{Forward A, Forward B}
  : Forward (Sequential A B) :=
  fun self x => (y <-? forward (first self) x ;; forward (second self) y)%result.

Module MLPClassif.

Record t : Type := {
  input_layer : Sequential Linear.t Activation;
  hidden_layer : Sequential Linear.t Activation;
  output_layer : Linear.t
}.

(** The initial weights of the three [nn.Linear] layers are arguments;
    lab 4 fixes [act_fn] to [nn.ReLU()]. *)
Definition __init__ (input_size hidden_size output_size : nat) (act_fn : Activation)
    (w1 w2 w3 : nat -> nat -> Q) (b1 b2 b3 : nat -> Q) : t :=
  {| input_layer :=
       {| first := Linear.__init__ input_size hidden_size w1 b1; second := act_fn |};
     hidden_layer :=
       {| first := Linear.__init__ hidden_size hidden_size w2 b2; second := act_fn |};
     output_layer := Linear.__init__ hidden_size output_size w3 b3 |}.

Definition forward_ (self : t) (x : Tensor2) : Result Tensor2 :=
  (y <-? forward (input_layer self) x ;;
   z <-? forward (hidden_layer self) y ;;
   out <-? forward (output_layer self) z ;;
   Ok out)%result.

End MLPClassif.

#[export] Instance MLPClassif_Forward : Forward MLPClassif.t := MLPClassif.forward_.

Definition demo_mlp : MLPClassif.t :=
  MLPClassif.__init__ 2 2 2 ReLU
    (fun j i => if (j =? i)%nat then 1%Q else (-1)%Q)
    (fun j i => if (j =? i)%nat then 1%Q else 0%Q)
    (fun j i => if (j =? 0)%nat then 1%Q else (-1)%Q)
    (fun _ => 0%Q) (fun _ => 0%Q) (fun j => if (j =? 0)%nat then (-3)%Q else 0%Q).


(** ** The framework as the training and evaluation code sees it *)

(** The second argument of a loss function: class labels for the
    classifiers, target values for the regressions. *)
Inductive Target : Type :=
| ClassLabels (labels : list Z)
| Values (y : Tensor2).

(** [loss_fn]: its value on predictions and targets, and its derivative with
    respect to the predictions, from which autograd starts. *)
Record LossFn : Type := {
  loss_value : Tensor2 -> Target -> Result Q;
  loss_dpred : Tensor2 -> Target -> Tensor2
}.

(** An optimizer class of [torch.optim]: its per-parameter state and its
    update rule, given the learning rate and the gradients. *)
Record Optimizer (P G : Type) : Type := {
  OptState : Type;
  opt_init : OptState;
  opt_update : Q -> OptState -> G -> P -> OptState * P
}.
Arguments OptState {P G} _.
Arguments opt_init {P G} _.
Arguments opt_update {P G} _ _ _ _ _.

Class Framework : Type := {
  (** the parameters and buffers of the module class under training *)
  Params : Type;
  (** one gradient per parameter, as stored in their [.grad] *)
  Grad : Type;
  grad_zero : Grad;
  grad_add : Grad -> Grad -> Grad;
  (** [model(x)] in training ([true]) or evaluation ([false]) mode: the
      output, and the module with its buffers updated *)
  module_call : bool -> Params -> Tensor2 -> Result (Params * Tensor2);
  (** reverse-mode differentiation of that call: the gradient with respect to
      the parameters, given the gradient with respect to the output *)
  module_vjp : bool -> Params -> Tensor2 -> Tensor2 -> Grad;
  SGD : Optimizer Params Grad;
  Adam : Optimizer Params Grad;
  (** the order the random sampler of a shuffling dataloader gives to [n]
      samples at its [k]-th use *)
  randperm : nat -> nat -> list nat;
  randperm_perm : forall k n, Permutation (randperm k n) (seq 0 n)
}.

(** One labelled image, flattened. *)
Definition Sample : Type := (list Q * Z)%type.

(** [DataLoader(dataset, batch_size=..., shuffle=..., drop_last=...)]; the
    constructor rejects a batch size that is not positive, so [dl_batch_size]
    is at least 1 in every dataloader that exists. *)
Record DataLoader : Type := {
  dataset : list Sample;
  dl_batch_size : nat;
  shuffle : bool;
  drop_last : bool
}.

Fixpoint chunk_go {A} (fuel k : nat) (l : list A) : list (list A) :=
  match fuel with
  | O => []
  | S fuel' =>
      match l with
      | [] => []
      | _ => firstn k l :: chunk_go fuel' k (skipn k l)
      end
  end.

(** Consecutive groups of [k] items, the last one possibly shorter. *)
Definition chunk {A} (k : nat) (l : list A) : list (list A) :=
  chunk_go (length l) k l.

Definition select {A} (l : list A) (order : list nat) : list A :=
  flat_map (fun i => match nth_error l i with Some x => [x] | None => [] end) order.

(** Default collation: the images stacked into one tensor, the labels into
    another. *)
Definition collate (samples : list Sample) : Tensor2 * list Z :=
  (map fst samples, map snd samples).

(** The batches of one pass over the dataloader, for a given sampling
    order. *)
Definition batches_of (dl : DataLoader) (order : list nat) : list (Tensor2 * list Z) :=
  let groups := chunk (dl_batch_size dl) (select (dataset dl) order) in
  let groups :=
    if drop_last dl
    then List.filter (fun g => (length g =? dl_batch_size dl)%nat) groups
    else groups in
  map collate groups.

(** [len(dataloader)] *)
Definition dataloader_len (dl : DataLoader) : nat :=
  let n := length (dataset dl) in
  if drop_last dl then (n / dl_batch_size dl)%nat
  else ((n + dl_batch_size dl - 1) / dl_batch_size dl)%nat.

(** What a loop does, in the order it does it. *)
Inductive Event {G : Type} : Type :=
| EvForward (grad_enabled : bool) (x : Tensor2)  (** [model(x)] *)
| EvLoss (item : Q)                              (** [loss_fn(pred, target)] *)
| EvZeroGrad                                     (** [optimizer.zero_grad()] *)
| EvBackward                                     (** [loss.backward()] *)
| EvStep (g : G)                                 (** [optimizer.step()], with the gradients it reads *)
| EvAccumulate (v : Q)                           (** [tr_loss += v] *)
| EvPrint (v : Q)                                (** [print(...)] of a loss or an accuracy *)
| EvAppend (v : Q).                              (** [some_list.append(v)] *)
Arguments Event : clear implicits.

(** An event without its numbers: which call it is and, for a forward pass,
    on which batch. *)
Inductive Kind : Type :=
| Forward_ (x : Tensor2)
| EvalForward (x : Tensor2)
| Loss_
| ZeroGrad
| Backward
| OptStep
| Accumulate
| Print
| Append.

Definition kind {G} (e : Event G) : Kind :=
  match e with
  | EvForward true x => Forward_ x
  | EvForward false x => EvalForward x
  | EvLoss _ => Loss_
  | EvZeroGrad => ZeroGrad
  | EvBackward => Backward
  | EvStep _ => OptStep
  | EvAccumulate _ => Accumulate
  | EvPrint _ => Print
  | EvAppend _ => Append
  end.

Section Machine.

Context `{FW : Framework}.

(** A module object: [nn.Module] instances are mutable and shared by
    reference. *)
Record ModuleObj : Type := {
  state : Params;
  grad : Grad;
  training : bool
}.

(** The interpreter state: the objects, the number of random orders drawn
    so far, and the trace of events. *)
Record World : Type := {
  heap : gmap nat ModuleObj;
  draws : nat;
  trace : list (Event Grad)
}.

Definition M (A : Type) : Type := World -> World * Result A.

Definition ret {A} (x : A) : M A := fun w => (w, Ok x).

Definition bind {A B} (m : M A) (k : A -> M B) : M B :=
  fun w =>
    match m w with
    | (w', inr x) => k x w'
    | (w', inl e) => (w', inl e)
    end.

Definition lift {A} (r : Result A) : M A := fun w => (w, r).

Definition tell (e : Event Grad) : M unit :=
  fun w => ({| heap := heap w; draws := draws w; trace := trace w ++ [e] |}, Ok tt).

Definition get_obj (a : nat) : M ModuleObj :=
  fun w =>
    match heap w !! a with
    | Some o => (w, Ok o)
    | None => (w, Raise RuntimeError)
    end.

Definition set_obj (a : nat) (o : ModuleObj) : M unit :=
  fun w => ({| heap := <[a := o]> (heap w); draws := draws w; trace := trace w |}, Ok tt).

Definition alloc (o : ModuleObj) : M nat :=
  fun w =>
    let a := fresh (dom (heap w)) in
    ({| heap := <[a := o]> (heap w); draws := draws w; trace := trace w |}, Ok a).

Definition draw_order (n : nat) : M (list nat) :=
  fun w =>
    ({| heap := heap w; draws := S (draws w); trace := trace w |},
     Ok (randperm (draws w) n)).

End Machine.

Declare Scope M_scope.
Delimit Scope M_scope with M.
Notation "x <- m ;; k" := (bind m (fun x => k))
  (at level 100, m at next level, right associativity) : M_scope.
Notation "m ;;; k" := (bind m (fun _ => k))
  (at level 100, right associativity) : M_scope.

Section Loops.

Context `{FW : Framework}.
Local Open Scope M_scope.

(** [for x in xs: s = body(x, s)], the loop-carried variables being [s]. *)
Fixpoint for_each {X S} (xs : list X) (body : X -> S -> M S) (s : S) : M S :=
  match xs with
  | [] => ret s
  | x :: xs' => s' <- body x s ;; for_each xs' body s'
  end.

(** [range(n)] *)
Definition range (n : Z) : list nat := seq 0 (Z.to_nat n).

(** [copy.deepcopy(model)]: a new object with the same parameters, buffers
    and mode; the [.grad] of a copied parameter is not copied. *)
Definition deepcopy (model : nat) : M nat :=
  o <- get_obj model ;;
  alloc {| state := state o; grad := grad_zero; training := training o |}.

(** [model.train()] and [model.eval()] *)
Definition set_training (model : nat) (mode : bool) : M unit :=
  o <- get_obj model ;;
  set_obj model {| state := state o; grad := grad o; training := mode |}.

(** The output of a module call, with what autograd recorded of it. *)
Record Pred : Type := {
  value : Tensor2;
  pred_module : nat;
  pred_mode : bool;
  pred_state : Params;
  pred_input : Tensor2
}.

(** [model(x)] *)
Definition call_model (grad_enabled : bool) (model : nat) (x : Tensor2) : M Pred :=
  tell (EvForward grad_enabled x) ;;;
  o <- get_obj model ;;
  py <- lift (module_call (training o) (state o) x) ;;
  set_obj model {| state := fst py; grad := grad o; training := training o |} ;;;
  ret {| value := snd py; pred_module := model; pred_mode := training o;
         pred_state := state o; pred_input := x |}.

(** A loss tensor: its value and the gradient [backward] will add to the
    parameters of the module that produced the predictions. *)
Record Loss : Type := {
  item : Q;
  loss_module : nat;
  loss_grad : Grad
}.

(** [loss_fn(pred, target)] *)
Definition call_loss (loss_fn : LossFn) (pred : Pred) (target : Target) : M Loss :=
  v <- lift (loss_value loss_fn (value pred) target) ;;
  tell (EvLoss v) ;;;
  ret {| item := v;
         loss_module := pred_module pred;
         loss_grad := module_vjp (pred_mode pred) (pred_state pred) (pred_input pred)
                        (loss_dpred loss_fn (value pred) target) |}.

(** An optimizer object: the module whose parameters it updates, its
    learning rate and its state. *)
Record OptimizerObj (O : Optimizer Params Grad) : Type := {
  opt_params : nat;
  opt_lr : Q;
  opt_state : OptState O
}.
Arguments opt_params {O} _.
Arguments opt_lr {O} _.
Arguments opt_state {O} _.

(** [torch.optim.X(model.parameters(), lr=lr)] *)
Definition optim_new (O : Optimizer Params Grad) (model : nat) (lr : Q) : OptimizerObj O :=
  {| opt_params := model; opt_lr := lr; opt_state := opt_init O |}.

(** [optimizer.zero_grad()] *)
Definition zero_grad {O} (optimizer : OptimizerObj O) : M unit :=
  tell EvZeroGrad ;;;
  o <- get_obj (opt_params optimizer) ;;
  set_obj (opt_params optimizer)
    {| state := state o; grad := grad_zero; training := training o |}.

(** [loss.backward()]: gradients accumulate in [.grad]. *)
Definition backward (loss : Loss) : M unit :=
  tell EvBackward ;;;
  o <- get_obj (loss_module loss) ;;
  set_obj (loss_module loss)
    {| state := state o; grad := grad_add (grad o) (loss_grad loss);
       training := training o |}.

(** [optimizer.step()] *)
Definition step {O} (optimizer : OptimizerObj O) : M (OptimizerObj O) :=
  o <- get_obj (opt_params optimizer) ;;
  tell (EvStep (grad o)) ;;;
  let sp := opt_update O (opt_lr optimizer) (opt_state optimizer) (grad o) (state o) in
  set_obj (opt_params optimizer)
    {| state := snd sp; grad := grad o; training := training o |} ;;;
  ret {| opt_params := opt_params optimizer; opt_lr := opt_lr optimizer;
         opt_state := fst sp |}.

(** [tr_loss += v] *)
Definition accumulate (tr_loss v : Q) : M Q :=
  tell (EvAccumulate v) ;;; ret (tr_loss + v)%Q.

(** [print(v)] *)
Definition print (v : Q) : M unit := tell (EvPrint v).

(** [l.append(v)] *)
Definition append (l : list Q) (v : Q) : M (list Q) :=
  tell (EvAppend v) ;;; ret (l ++ [v]).

(** [a / b] on a float [a] and an integer [b] *)
Definition float_div (a : Q) (b : Z) : Result Q :=
  if (b =? 0)%Z then Raise ZeroDivisionError else Ok (a / inject_Z b)%Q.

(** [a / b] on integers: true division *)
Definition int_div (a b : Z) : Result Q := float_div (inject_Z a) b.

(** [iter(dataloader)]: one sampling order is drawn when shuffling. *)
Definition iter (dl : DataLoader) : M (list (Tensor2 * list Z)) :=
  order <- (if shuffle dl then draw_order (length (dataset dl))
            else ret (seq 0 (length (dataset dl)))) ;;
  ret (batches_of dl order).

End Loops.

Arguments opt_params {FW O} _.
Arguments opt_lr {FW O} _.
Arguments opt_state {FW O} _.

(** ** The notebooks' loops and functions *)

Section Notebooks.

Context `{FW : Framework}.
Local Open Scope M_scope.

(** The notebooks' global [batch_size], which [training_mlp_classifier]
    and [eval_mlp_classifier] read. *)
Variable batch_size : nat.

(** *** Lab 2: regression *)

(** [[
    optimizer = torch.optim.SGD(lin_reg_model.parameters(), lr=0.01)
    for epoch in range(10):
        y_pred = lin_reg_model(x)
        loss = loss_fn(y_pred, y)
        optimizer.zero_grad()
        loss.backward()
        optimizer.step()
        print(loss.item())
    ]] *)
Definition linear_regression_epoch (lin_reg_model : nat) (loss_fn : LossFn)
    (x y : Tensor2) (epoch : nat) (optimizer : OptimizerObj SGD) : M (OptimizerObj SGD) :=
  y_pred <- call_model true lin_reg_model x ;;
  loss <- call_loss loss_fn y_pred (Values y) ;;
  zero_grad optimizer ;;;
  backward loss ;;;
  optimizer <- step optimizer ;;
  print (item loss) ;;;
  ret optimizer.

Definition linear_regression_training (lin_reg_model : nat) (loss_fn : LossFn)
    (x y : Tensor2) : M unit :=
  let optimizer := optim_new SGD lin_reg_model (1 # 100) in
  optimizer <- for_each (range 10)
                 (linear_regression_epoch lin_reg_model loss_fn x y) optimizer ;;
  ret tt.

(** [[
    optimizer = torch.optim.SGD(nonlin_reg_model.parameters(), lr=0.1)
    loss_records = []
    for epoch in range(50):
        y_pred = nonlin_reg_model(x)
        loss = loss_fn(y_pred, y)
        optimizer.zero_grad()
        loss.backward()
        optimizer.step()
        print(loss.item())
        loss_records.append(loss.item())
    ]] *)
Definition nonlinear_regression_epoch (nonlin_reg_model : nat) (loss_fn : LossFn)
    (x y : Tensor2) (epoch : nat) (st : OptimizerObj SGD * list Q)
  : M (OptimizerObj SGD * list Q) :=
  let '(optimizer, loss_records) := st in
  y_pred <- call_model true nonlin_reg_model x ;;
  loss <- call_loss loss_fn y_pred (Values y) ;;
  zero_grad optimizer ;;;
  backward loss ;;;
  optimizer <- step optimizer ;;
  print (item loss) ;;;
  loss_records <- append loss_records (item loss) ;;
  ret (optimizer, loss_records).

Definition nonlinear_regression_training (nonlin_reg_model : nat) (loss_fn : LossFn)
    (x y : Tensor2) : M (list Q) :=
  let optimizer := optim_new SGD nonlin_reg_model (1 # 10) in
  let loss_records : list Q := [] in
  st <- for_each (range 50)
          (nonlinear_regression_epoch nonlin_reg_model loss_fn x y)
          (optimizer, loss_records) ;;
  ret (snd st).

(** *** Lab 3: [training_mlp_classifier] and [eval_mlp_classifier] *)

(** The body of the batch loop of [training_mlp_classifier]; the
    loop-carried variables are [optimizer] and [tr_loss]. *)
Definition training_mlp_batch (model_tr : nat) (loss_fn : LossFn)
    (batch : Tensor2 * list Z) (st : OptimizerObj SGD * Q) : M (OptimizerObj SGD * Q) :=
  let '(images, labels) := batch in
  let '(optimizer, tr_loss) := st in
  images <- lift (Tensor.view_infer images batch_size) ;;
  labels_pred <- call_model true model_tr images ;;
  loss <- call_loss loss_fn labels_pred (ClassLabels labels) ;;
  zero_grad optimizer ;;;
  backward loss ;;;
  optimizer <- step optimizer ;;
  tr_loss <- accumulate tr_loss (item loss * inject_Z (Z.of_nat batch_size)) ;;
  ret (optimizer, tr_loss).

(** The body of its epoch loop. *)
Definition training_mlp_epoch (model_tr : nat) (train_dataloader : DataLoader)
    (loss_fn : LossFn) (verbose : bool)
    (epoch : nat) (st : OptimizerObj SGD * list Q) : M (OptimizerObj SGD * list Q) :=
  let '(optimizer, train_losses) := st in
  let tr_loss := 0%Q in
  batches <- iter train_dataloader ;;
  st <- for_each batches (training_mlp_batch model_tr loss_fn) (optimizer, tr_loss) ;;
  let '(optimizer, tr_loss) := st in
  tr_loss <- lift (float_div tr_loss
                     (Z.of_nat (dataloader_len train_dataloader * batch_size))) ;;
  train_losses <- append train_losses tr_loss ;;
  (if verbose then print tr_loss else ret tt) ;;;
  ret (optimizer, train_losses).

Definition training_mlp_classifier (model : nat) (train_dataloader : DataLoader)
    (num_epochs : Z) (loss_fn : LossFn) (learning_rate : Q) (verbose : bool)
  : M (nat * list Q) :=
  model_tr <- deepcopy model ;;
  set_training model_tr true ;;;
  let optimizer := optim_new SGD model_tr learning_rate in
  let train_losses : list Q := [] in
  st <- for_each (range num_epochs)
          (training_mlp_epoch model_tr train_dataloader loss_fn verbose)
          (optimizer, train_losses) ;;
  ret (model_tr, snd st).

(** The body of the loop of [eval_mlp_classifier]; the loop-carried
    variables are [correct_labels] and [total_labels]. *)
Definition eval_mlp_batch (model : nat) (batch : Tensor2 * list Z) (st : Z * Z)
  : M (Z * Z) :=
  let '(images, labels) := batch in
  let '(correct_labels, total_labels) := st in
  images <- lift (Tensor.view_infer images batch_size) ;;
  y_predicted <- call_model false model images ;;
  labels_predicted <- lift (Tensor.argmax_dim1 (value y_predicted)) ;;
  let total_labels := (total_labels + Z.of_nat (length labels))%Z in
  matches <- lift (Tensor.eq_sum labels_predicted labels) ;;
  let correct_labels := (correct_labels + matches)%Z in
  ret (correct_labels, total_labels).

(** The evaluation function of labs 3 and 4; the [with torch.no_grad()]
    block makes its forward passes record nothing for autograd. *)
Definition eval_mlp_classifier (model : nat) (eval_dataloader : DataLoader) : M Q :=
  set_training model false ;;;
  let correct_labels := 0%Z in
  let total_labels := 0%Z in
  batches <- iter eval_dataloader ;;
  st <- for_each batches (eval_mlp_batch model) (correct_labels, total_labels) ;;
  let '(correct_labels, total_labels) := st in
  accuracy <- lift (int_div (100 * correct_labels) total_labels) ;;
  ret accuracy.

(** *** Lab 4: [train_val_mlp_classifier] *)

Definition train_val_mlp_batch (model_tr : nat) (input_size batch_size : nat)
    (loss_fn : LossFn)
    (batch : Tensor2 * list Z) (st : OptimizerObj Adam * Q) : M (OptimizerObj Adam * Q) :=
  let '(images, labels) := batch in
  let '(optimizer, tr_loss) := st in
  images <- lift (Tensor.view images batch_size input_size) ;;
  labels_pred <- call_model true model_tr images ;;
  loss <- call_loss loss_fn labels_pred (ClassLabels labels) ;;
  zero_grad optimizer ;;;
  backward loss ;;;
  optimizer <- step optimizer ;;
  tr_loss <- accumulate tr_loss (item loss * inject_Z (Z.of_nat batch_size)) ;;
  ret (optimizer, tr_loss).

(** The loop-carried variables of the epoch loops that keep the best
    model. In [train_val_mlp_classifier] the variable [model_opt] is bound
    before the loop; in [training_val_cnn_classifier] it is unbound ([None])
    until an epoch improves on the best accuracy. *)
Record BestState (O : Optimizer Params Grad) : Type := {
  bs_optimizer : OptimizerObj O;
  bs_train_losses : list Q;
  bs_accuracy_max : Q;
  bs_val_accuracies : list Q;
  bs_model_opt : option nat
}.
Arguments bs_optimizer {O} _.
Arguments bs_train_losses {O} _.
Arguments bs_accuracy_max {O} _.
Arguments bs_val_accuracies {O} _.
Arguments bs_model_opt {O} _.

Definition train_val_mlp_epoch (model_tr : nat)
    (train_dataloader valid_dataloader : DataLoader)
    (input_size batch_size : nat) (loss_fn : LossFn) (verbose : bool)
    (epoch : nat) (st : BestState Adam) : M (BestState Adam) :=
  let optimizer := bs_optimizer st in
  let train_losses := bs_train_losses st in
  let accuracy_max := bs_accuracy_max st in
  let val_accuracies := bs_val_accuracies st in
  let model_opt := bs_model_opt st in
  let tr_loss := 0%Q in
  batches <- iter train_dataloader ;;
  st <- for_each batches
          (train_val_mlp_batch model_tr input_size batch_size loss_fn)
          (optimizer, tr_loss) ;;
  let '(optimizer, tr_loss) := st in
  tr_loss <- lift (float_div tr_loss
                     (Z.of_nat (dataloader_len train_dataloader * batch_size))) ;;
  train_losses <- append train_losses tr_loss ;;
  (if verbose then print tr_loss else ret tt) ;;;
  accuracy <- eval_mlp_classifier model_tr valid_dataloader ;;
  val_accuracies <- append val_accuracies accuracy ;;
  st <- (if Qltb accuracy_max accuracy
         then model_opt <- deepcopy model_tr ;; ret (accuracy, Some model_opt)
         else ret (accuracy_max, model_opt)) ;;
  let '(accuracy_max, model_opt) := st in
  (if verbose then print accuracy else ret tt) ;;;
  ret {| bs_optimizer := optimizer; bs_train_losses := train_losses;
         bs_accuracy_max := accuracy_max; bs_val_accuracies := val_accuracies;
         bs_model_opt := model_opt |}.

(** [return model_opt, train_losses, val_accuracies] *)
Definition return_best {O} (st : BestState O) : M (nat * list Q * list Q) :=
  match bs_model_opt st with
  | Some model_opt => ret (model_opt, bs_train_losses st, bs_val_accuracies st)
  | None => lift (Raise UnboundLocalError)
  end.

Definition train_val_mlp_classifier (model : nat)
    (train_dataloader valid_dataloader : DataLoader)
    (input_size batch_size : nat) (num_epochs : Z) (loss_fn : LossFn)
    (learning_rate : Q) (verbose : bool)
  : M (nat * list Q * list Q) :=
  model_tr <- deepcopy model ;;
  set_training model_tr true ;;;
  let optimizer := optim_new Adam model_tr learning_rate in
  let train_losses : list Q := [] in
  let accuracy_max := 0%Q in
  let val_accuracies : list Q := [] in
  model_opt <- deepcopy model_tr ;;
  st <- for_each (range num_epochs)
          (train_val_mlp_epoch model_tr train_dataloader valid_dataloader
             input_size batch_size loss_fn verbose)
          {| bs_optimizer := optimizer; bs_train_losses := train_losses;
             bs_accuracy_max := accuracy_max; bs_val_accuracies := val_accuracies;
             bs_model_opt := Some model_opt |} ;;
  return_best st.

(** *** Lab 6: [eval_cnn_classifier] and [training_val_cnn_classifier] *)

Definition eval_cnn_batch (model : nat) (batch : Tensor2 * list Z) (st : Z * Z)
  : M (Z * Z) :=
  let '(images, labels) := batch in
  let '(correct, total) := st in
  y_predicted <- call_model false model images ;;
  label_predicted <- lift (Tensor.argmax_dim1 (value y_predicted)) ;;
  let total := (total + Z.of_nat (length labels))%Z in
  matches <- lift (Tensor.eq_sum label_predicted labels) ;;
  let correct := (correct + matches)%Z in
  ret (correct, total).

Definition eval_cnn_classifier (model : nat) (eval_dataloader : DataLoader) : M Q :=
  set_training model false ;;;
  let correct := 0%Z in
  let total := 0%Z in
  batches <- iter eval_dataloader ;;
  st <- for_each batches (eval_cnn_batch model) (correct, total) ;;
  let '(correct, total) := st in
  accuracy <- lift (int_div (100 * correct) total) ;;
  ret accuracy.

Definition training_val_cnn_batch (model_tr : nat) (loss_fn : LossFn)
    (batch : Tensor2 * list Z) (st : OptimizerObj Adam * Q) : M (OptimizerObj Adam * Q) :=
  let '(images, labels) := batch in
  let '(optimizer, tr_loss) := st in
  y_predicted <- call_model true model_tr images ;;
  loss <- call_loss loss_fn y_predicted (ClassLabels labels) ;;
  zero_grad optimizer ;;;
  backward loss ;;;
  optimizer <- step optimizer ;;
  tr_loss <- accumulate tr_loss (item loss * inject_Z (Z.of_nat (length images))) ;;
  ret (optimizer, tr_loss).

Definition training_val_cnn_epoch (model_tr : nat)
    (train_dataloader valid_dataloader : DataLoader)
    (loss_fn : LossFn) (verbose : bool)
    (epoch : nat) (st : BestState Adam) : M (BestState Adam) :=
  let optimizer := bs_optimizer st in
  let train_losses := bs_train_losses st in
  let val_accuracies := bs_val_accuracies st in
  let val_acc_opt := bs_accuracy_max st in
  let model_opt := bs_model_opt st in
  let tr_loss := 0%Q in
  batches <- iter train_dataloader ;;
  st <- for_each batches (training_val_cnn_batch model_tr loss_fn) (optimizer, tr_loss) ;;
  let '(optimizer, tr_loss) := st in
  tr_loss <- lift (float_div tr_loss
                     (Z.of_nat (length (dataset train_dataloader)))) ;;
  train_losses <- append train_losses tr_loss ;;
  val_acc <- eval_cnn_classifier model_tr valid_dataloader ;;
  val_accuracies <- append val_accuracies val_acc ;;
  (if verbose then print tr_loss else ret tt) ;;;
  st <- (if Qltb val_acc_opt val_acc
         then model_opt <- deepcopy model_tr ;; ret (Some model_opt, val_acc)
         else ret (model_opt, val_acc_opt)) ;;
  let '(model_opt, val_acc_opt) := st in
  ret {| bs_optimizer := optimizer; bs_train_losses := train_losses;
         bs_accuracy_max := val_acc_opt; bs_val_accuracies := val_accuracies;
         bs_model_opt := model_opt |}.

Definition training_val_cnn_classifier (model : nat)
    (train_dataloader valid_dataloader : DataLoader)
    (num_epochs : Z) (loss_fn : LossFn) (learning_rate : Q) (verbose : bool)
  : M (nat * list Q * list Q) :=
  model_tr <- deepcopy model ;;
  set_training model_tr true ;;;
  let optimizer := optim_new Adam model_tr learning_rate in
  let train_losses : list Q := [] in
  let val_accuracies : list Q := [] in
  let val_acc_opt := 0%Q in
  st <- for_each (range num_epochs)
          (training_val_cnn_epoch model_tr train_dataloader valid_dataloader
             loss_fn verbose)
          {| bs_optimizer := optimizer; bs_train_losses := train_losses;
             bs_accuracy_max := val_acc_opt; bs_val_accuracies := val_accuracies;
             bs_model_opt := None |} ;;
  return_best st.

End Notebooks.

Arguments bs_optimizer {FW O} _.
Arguments bs_train_losses {FW O} _.
Arguments bs_accuracy_max {FW O} _.
Arguments bs_val_accuracies {FW O} _.
Arguments bs_model_opt {FW O} _.

(** ** A small framework instance for the examples

    The module class is [nn.Linear] with its usual backward pass, the loss is
    the mean squared error (against one-hot rows when the targets are class
    labels), [SGD] is plain gradient descent, and the second optimizer is
    gradient descent with momentum and a step counter, standing in for
    [Adam], whose update involves square roots. Sampling orders alternate
    between the identity and its reverse. *)

Module Demo.

Definition sumQ (l : list Q) : Q := fold_left (fun a b => Qred (a + b)) l 0%Q.

Definition entry (x : Tensor2) (n i : nat) : Q := nth i (nth n x []) 0%Q.

Definition zip_with {A B C} (f : A -> B -> C) (a : list A) (b : list B) : list C :=
  map (fun ab => f (fst ab) (snd ab)) (combine a b).

Definition LinGrad : Type := option (list (list Q) * list Q).

Definition lin_grad_add (g h : LinGrad) : LinGrad :=
  match g, h with
  | None, _ => h
  | _, None => g
  | Some (gw, gb), Some (hw, hb) =>
      Some (zip_with (zip_with (fun a b => Qred (a + b))) gw hw,
            zip_with (fun a b => Qred (a + b)) gb hb)
  end.

Definition lin_call (mode : bool) (p : Linear.t) (x : Tensor2)
  : Result (Linear.t * Tensor2) :=
  (y <-? Linear.forward_ p x ;; Ok (p, map (map Qred) y))%result.

(** [dW[j][i] = sum_n dout[n][j] * x[n][i]] and [db[j] = sum_n dout[n][j]]. *)
Definition lin_vjp (mode : bool) (p : Linear.t) (x dout : Tensor2) : LinGrad :=
  let ns := seq 0 (length x) in
  Some
    (map (fun j =>
            map (fun i => sumQ (map (fun n => (entry dout n j * entry x n i)%Q) ns))
                (seq 0 (Linear.in_features p)))
         (seq 0 (Linear.out_features p)),
     map (fun j => sumQ (map (fun n => entry dout n j) ns))
         (seq 0 (Linear.out_features p))).

Definition descend (lr : Q) (p : Linear.t) (gw : list (list Q)) (gb : list Q) : Linear.t :=
  {| Linear.in_features := Linear.in_features p;
     Linear.out_features := Linear.out_features p;
     Linear.weight :=
       zip_with (zip_with (fun w g => Qred (w - lr * g))) (Linear.weight p) gw;
     Linear.bias := zip_with (fun b g => Qred (b - lr * g)) (Linear.bias p) gb |}.

Definition sgd : Optimizer Linear.t LinGrad :=
  {| OptState := unit;
     opt_init := tt;
     opt_update := fun lr s g p =>
       match g with
       | None => (s, p)
       | Some (gw, gb) => (s, descend lr p gw gb)
       end |}.

(** Momentum [m <- 9/10 m + g], update [p <- p - lr m], and a counter of the
    steps taken. *)
Definition momentum : Optimizer Linear.t LinGrad :=
  {| OptState := (nat * LinGrad)%type;
     opt_init := (O, None);
     opt_update := fun lr s g p =>
       match g with
       | None => (s, p)
       | Some (gw, gb) =>
           let m :=
             match snd s with
             | None => (gw, gb)
             | Some (mw, mb) =>
                 (zip_with (zip_with (fun m g => Qred ((9 # 10) * m + g))) mw gw,
                  zip_with (fun m g => Qred ((9 # 10) * m + g)) mb gb)
             end in
           ((S (fst s), Some m), descend lr p (fst m) (snd m))
       end |}.

Definition order (k n : nat) : list nat :=
  if Nat.even k then seq 0 n else rev (seq 0 n).

Lemma order_perm k n : Permutation (order k n) (seq 0 n).
Proof.
  unfold order. destruct (Nat.even k).
  - apply Permutation_refl.
  - apply Permutation_sym, Permutation_rev.
Qed.

#[global] Instance framework : Framework := {|
  Params := Linear.t;
  Grad := LinGrad;
  grad_zero := None;
  grad_add := lin_grad_add;
  module_call := lin_call;
  module_vjp := lin_vjp;
  SGD := sgd;
  Adam := momentum;
  randperm := order;
  randperm_perm := order_perm
|}.

Definition one_hot (classes : nat) (label : Z) : list Q :=
  map (fun j => if (Z.of_nat j =? label)%Z then 1%Q else 0%Q) (seq 0 classes).

Definition targets_of (pred : Tensor2) (t : Target) : Tensor2 :=
  match t with
  | Values y => y
  | ClassLabels labels =>
      zip_with (fun row label => one_hot (length row) label) pred labels
  end.

(** [nn.MSELoss()]: the mean of the squared differences; the predictions
    and the targets must have the same number of rows. *)
Definition mse : LossFn :=
  {| loss_value := fun pred t =>
       let y := targets_of pred t in
       if (length pred =? length y)%nat then
         match Tensor.numel pred with
         | O => Raise ZeroDivisionError
         | S _ =>
             Ok (Qred (sumQ (concat (zip_with (zip_with (fun a b => ((a - b) * (a - b))%Q)) pred y))
                       / inject_Z (Z.of_nat (Tensor.numel pred))))
         end
       else Raise RuntimeError;
     loss_dpred := fun pred t =>
       let y := targets_of pred t in
       zip_with (zip_with (fun a b =>
         Qred (2 * (a - b) / inject_Z (Z.of_nat (Tensor.numel pred))))) pred y |}.

Definition obj (p : Linear.t) : ModuleObj :=
  {| state := p; grad := None; training := false |}.

Definition world0 (p : Linear.t) : World :=
  {| heap := {[ 0%nat := obj p ]}; draws := 0; trace := [] |}.

(** The linear model of lab 2 at the point where its first gradients are
    read: [w = 1], [b = 3]. *)
Definition lin_1_3 : Linear.t :=
  Linear.__init__ 1 1 (fun _ _ => 1%Q) (fun _ => 3%Q).

(** A two-class linear classifier that maps a one-hot row to itself. *)
Definition identity2 : Linear.t :=
  Linear.__init__ 2 2 (fun j i => if (j =? i)%nat then 1%Q else 0%Q) (fun _ => 0%Q).

Definition three_samples : list Sample :=
  [ ([1; 0]%Q, 0%Z); ([0; 1]%Q, 1%Z); ([1; 0]%Q, 1%Z) ].

Definition four_samples : list Sample :=
  [ ([1; 0]%Q, 0%Z); ([0; 1]%Q, 1%Z); ([1; 0]%Q, 1%Z); ([0; 1]%Q, 1%Z) ].

Definition loader (samples : list Sample) (bs : nat) (sh dl : bool) : DataLoader :=
  {| dataset := samples; dl_batch_size := bs; shuffle := sh; drop_last := dl |}.

(** A two-class linear classifier that maps a one-hot row to the other
    one. *)
Definition swapped2 : Linear.t :=
  Linear.__init__ 2 2 (fun j i => if (j =? i)%nat then 0%Q else 1%Q) (fun _ => 0%Q).

Definition odd_samples : list Sample :=
  [ ([1; 0]%Q, 0%Z); ([0; 1]%Q, 1%Z); ([1; 1]%Q, 1%Z) ].

(** Four samples in batches of two: a shuffling training loader and a
    validation loader. *)
Definition train : DataLoader := loader four_samples 2 true true.
Definition valid : DataLoader := loader four_samples 2 false true.
Definition w0 : World := world0 identity2.

(** The linear classifiers on two features, with at least one class. *)
Definition two_features (p : Linear.t) : Prop :=
  Linear.in_features p = 2%nat /\ Linear.weight p <> [] /\ Linear.bias p <> [].

End Demo.

(** A framework whose module raises on every call, as one whose parameters
    live on a device the input is not on. *)
Module Failing.

Definition call (mode : bool) (p : Linear.t) (x : Tensor2)
  : Result (Linear.t * Tensor2) := Raise RuntimeError.

Definition framework : Framework := {|
  Params := Linear.t;
  Grad := Demo.LinGrad;
  grad_zero := None;
  grad_add := Demo.lin_grad_add;
  module_call := call;
  module_vjp := Demo.lin_vjp;
  SGD := Demo.sgd;
  Adam := Demo.momentum;
  randperm := Demo.order;
  randperm_perm := Demo.order_perm
|}.

Definition obj (p : Linear.t) : ModuleObj (FW := framework) :=
  @Build_ModuleObj framework p None false.

Definition world0 (p : Linear.t) : World (FW := framework) :=
  @Build_World framework {[ 0%nat := obj p ]} 0 [].

End Failing.

(** The gradients lab 2 asks for: with [w = 1], [b = 3], [x = 2] and [y = 10]
    the loss has gradient [-20] in [w] and [-10] in [b]. *)
Example lab2_gradients :
  module_vjp true Demo.lin_1_3 [[2]]%Q (loss_dpred Demo.mse [[5]]%Q (Values [[10]]%Q))
  = Some ([[(-20)%Q]], [(-10)%Q]).
Proof. reflexivity. Qed.


(** ** More modules of the notebooks *)

(** [nn.Sequential(m0, m1, m2)] *)
Record Sequential3 (A B C : Type) : Type := { seq0 : A; seq1 : B; seq2 : C }.
Arguments seq0 {A B C} _.
Arguments seq1 {A B C} _.
Arguments seq2 {A B C} _.

(** The model of the nonlinear regression of lab 2:
    [[
    first_layer = nn.Linear(in_features=1, out_features=3, bias=True)
    second_layer = nn.Linear(in_features=3, out_features=1, bias=True)
    nonlin_reg_model = nn.Sequential(first_layer, nn.ReLU(), second_layer)
    ]] *)
Definition nonlin_reg_model (w1 w2 : nat -> nat -> Q) (b1 b2 : nat -> Q)
  : Sequential3 Linear.t Activation Linear.t :=
  let first_layer := Linear.__init__ 1 3 w1 b1 in
  let second_layer := Linear.__init__ 3 1 w2 b2 in
  {| seq0 := first_layer; seq1 := ReLU; seq2 := second_layer |}.

(** The classifier of lab 4 with a variable number of hidden layers. *)
Module MLPClassif_var.

Record t : Type := {
  input_layer : Sequential Linear.t Activation;
  hidden_layers : list (Sequential Linear.t Activation);
  output_layer : Linear.t
}.

(** [hidden_layers] is the [nn.ModuleList] of one [nn.Sequential] per
    [layer in range(hidden_layers_number)]; the initial weights of the
    [layer]-th one are [w_hidden layer] and [b_hidden layer]. *)
Definition __init__ (hidden_layers_number : Z) (input_size hidden_size output_size : nat)
    (w_in : nat -> nat -> Q) (b_in : nat -> Q)
    (w_hidden : nat -> nat -> nat -> Q) (b_hidden : nat -> nat -> Q)
    (w_out : nat -> nat -> Q) (b_out : nat -> Q) : t :=
  {| input_layer :=
       {| first := Linear.__init__ input_size hidden_size w_in b_in; second := ReLU |};
     hidden_layers :=
       map (fun layer =>
              {| first := Linear.__init__ hidden_size hidden_size
                            (w_hidden layer) (b_hidden layer);
                 second := ReLU |})
           (seq 0 (Z.to_nat hidden_layers_number));
     output_layer := Linear.__init__ hidden_size output_size w_out b_out |}.

(** [for hidden_layer in self.hidden_layers: y = hidden_layer(y)] *)
Fixpoint through (layers : list (Sequential Linear.t Activation)) (y : Tensor2)
  : Result Tensor2 :=
  match layers with
  | [] => Ok y
  | hidden_layer :: layers' =>
      (y <-? forward hidden_layer y ;; through layers' y)%result
  end.

Definition forward_ (self : t) (x : Tensor2) : Result Tensor2 :=
  (y <-? forward (input_layer self) x ;;
   y <-? through (hidden_layers self) y ;;
   out <-? forward (output_layer self) y ;;
   Ok out)%result.

End MLPClassif_var.

#[export] Instance MLPClassif_var_Forward : Forward MLPClassif_var.t :=
  MLPClassif_var.forward_.

(** ** Parameters: counting and initialization *)

(** [model.parameters()]: the parameter tensors in registration order, each
    one flattened; [p.numel()] is the length of its data. *)
Class Parameters (M : Type) : Type := parameters : M -> list (list Q).

#[export] Instance Linear_Parameters : Parameters Linear.t :=
  fun self => [concat (Linear.weight self); Linear.bias self].

#[export] Instance Activation_Parameters : Parameters Activation := fun _ => [].

#[export] Instance Sequential_Parameters {A B} `{Parameters A, Parameters B}
  : Parameters (Sequential A B) :=
  fun self => parameters (first self) ++ parameters (second self).

#[export] Instance Sequential3_Parameters {A B C} `{Parameters A, Parameters B, Parameters C}
  : Parameters (Sequential3 A B C) :=
  fun self => parameters (seq0 self) ++ parameters (seq1 self) ++ parameters (seq2 self).

#[export] Instance MLPClassif_Parameters : Parameters MLPClassif.t :=
  fun self =>
    parameters (MLPClassif.input_layer self)
    ++ parameters (MLPClassif.hidden_layer self)
    ++ parameters (MLPClassif.output_layer self).

#[export] Instance MLPClassif_var_Parameters : Parameters MLPClassif_var.t :=
  fun self =>
    parameters (MLPClassif_var.input_layer self)
    ++ flat_map parameters (MLPClassif_var.hidden_layers self)
    ++ parameters (MLPClassif_var.output_layer self).

(** [sum(p.numel() for p in model.parameters())] *)
Definition num_parameters {M} `{Parameters M} (model : M) : nat :=
  list_sum (map (@length Q) (parameters model)).

(** The random number generator of the framework: [torch.manual_seed] sets
    its state, and [torch.nn.init.xavier_uniform_] overwrites a tensor with
    draws that depend on the state of the generator and on the shape of the
    tensor only, which it keeps. *)
Class Random : Type := {
  Generator : Type;
  manual_seed : Z -> Generator;
  xavier_uniform_ : Generator -> list (list Q) -> list (list Q) * Generator;
  xavier_shape : forall g t,
    map (@length Q) (fst (xavier_uniform_ g t)) = map (@length Q) t;
  xavier_by_shape : forall g t t',
    map (@length Q) t = map (@length Q) t' -> xavier_uniform_ g t = xavier_uniform_ g t'
}.

Section Initialization.

Context `{RNG : Random}.

(** [tensor.fill_(v)] *)
Definition fill_ (t : list Q) (v : Q) : list Q := map (fun _ => v) t.

(** The body of [init_weights(m)] when [isinstance(m, nn.Linear)]:
    [[
    torch.nn.init.xavier_uniform_(m.weight.data)
    m.bias.data.fill_(0.01)
    ]] *)
Definition init_weights_Linear (m : Linear.t) (g : Generator) : Linear.t * Generator :=
  let wg := xavier_uniform_ g (Linear.weight m) in
  ({| Linear.in_features := Linear.in_features m;
      Linear.out_features := Linear.out_features m;
      Linear.weight := fst wg;
      Linear.bias := fill_ (Linear.bias m) (1 # 100) |},
   snd wg).

(** [module.apply(init_weights)]: [init_weights] is called on every child,
    in registration order, and then on the module itself, where it does
    something only if the module is an [nn.Linear]. *)
Class Apply (M : Type) : Type := apply_init_weights : M -> Generator -> M * Generator.

#[export] Instance Linear_Apply : Apply Linear.t := init_weights_Linear.

#[export] Instance Activation_Apply : Apply Activation := fun self g => (self, g).

#[export] Instance Sequential_Apply {A B} `{Apply A, Apply B} : Apply (Sequential A B) :=
  fun self g =>
    let ag := apply_init_weights (first self) g in
    let bg := apply_init_weights (second self) (snd ag) in
    ({| first := fst ag; second := fst bg |}, snd bg).

#[export] Instance MLPClassif_Apply : Apply MLPClassif.t :=
  fun self g =>
    let ig := apply_init_weights (MLPClassif.input_layer self) g in
    let hg := apply_init_weights (MLPClassif.hidden_layer self) (snd ig) in
    let og := apply_init_weights (MLPClassif.output_layer self) (snd hg) in
    ({| MLPClassif.input_layer := fst ig;
        MLPClassif.hidden_layer := fst hg;
        MLPClassif.output_layer := fst og |},
     snd og).

(** [[
    torch.manual_seed(0)
    model.apply(init_weights)
    ]] *)
Definition seeded_init {M} `{Apply M} (model : M) : M :=
  fst (apply_init_weights model (manual_seed 0)).

End Initialization.

(** A generator for the examples: a linear congruential sequence, read
    once per entry of the tensor, row after row. *)
Module DemoRandom.

Definition next (g : Z) : Z := ((1103515245 * g + 12345) mod 2147483648)%Z.

Definition value (g : Z) : Q := Qred (inject_Z (2 * g - 2147483648) / 2147483648).

Fixpoint row (n : nat) (g : Z) : list Q * Z :=
  match n with
  | O => ([], g)
  | S k => let r := row k (next g) in (value (next g) :: fst r, snd r)
  end.

Fixpoint rows (sizes : list nat) (g : Z) : list (list Q) * Z :=
  match sizes with
  | [] => ([], g)
  | n :: sizes' =>
      let r := row n g in
      let rs := rows sizes' (snd r) in
      (fst r :: fst rs, snd rs)
  end.

Definition xavier (g : Z) (t : list (list Q)) : list (list Q) * Z :=
  rows (map (@length Q) t) g.

Lemma length_row (n : nat) (g : Z) : length (fst (row n g)) = n.
Proof. revert g. induction n as [|n IH]; intros g; cbn [row fst length]; [|rewrite IH]; reflexivity. Qed.

Lemma xavier_sizes (g : Z) (t : list (list Q)) :
  map (@length Q) (fst (xavier g t)) = map (@length Q) t.
Proof.
  unfold xavier. generalize (map (@length Q) t) as sizes. clear t. intros sizes.
  revert g. induction sizes as [|n sizes IH]; intros g; cbn [rows fst map]; [reflexivity|].
  rewrite length_row, IH. reflexivity.
Qed.

Lemma xavier_by_sizes (g : Z) (t t' : list (list Q)) :
  map (@length Q) t = map (@length Q) t' -> xavier g t = xavier g t'.
Proof. unfold xavier. intros ->. reflexivity. Qed.

Definition random : Random := {|
  Generator := Z;
  manual_seed := fun seed => seed;
  xavier_uniform_ := xavier;
  xavier_shape := xavier_sizes;
  xavier_by_shape := xavier_by_sizes
|}.

End DemoRandom.

(** A directory whose only text file has no tab on its first line. *)
Definition unlabelled_os : OSEnv := {|
  os_walk := fun directory => [ (directory, [], ["plain.txt"]) ];
  io_imread := fun _ => Raise OSError;
  sf_read := fun _ => Raise OSError;
  open_lines := fun path =>
    if String.eqb path "corpus/plain.txt" then Ok [("no label here" ++ nl)%string]
    else Raise OSError;
  float_tensor := Float32.tensor
|}.

(** * Properties *)

(** ** Reasoning about [M]: weakest preconditions *)

Section WP.

Context `{FW : Framework}.

(** [wp m Q E w]: running [m] from [w] either returns [x] in a world [w']
    with [Q x w'], or raises [e] in a world [w'] with [E e w']. *)
Definition wp {A} (m : M A) (Q : A -> World -> Prop) (E : PyErr -> World -> Prop)
    (w : World) : Prop :=
  match m w with
  | (w', inr x) => Q x w'
  | (w', inl e) => E e w'
  end.

Lemma wp_run {A} (m : M A) Q E w w' r :
  wp m Q E w -> m w = (w', r) ->
  match r with inr x => Q x w' | inl e => E e w' end.
Proof. unfold wp. intros H Hm. rewrite Hm in H. exact H. Qed.

Lemma wp_mono {A} (m : M A) (Q Q' : A -> World -> Prop) (E E' : PyErr -> World -> Prop) w :
  wp m Q E w ->
  (forall x w', Q x w' -> Q' x w') ->
  (forall e w', E e w' -> E' e w') ->
  wp m Q' E' w.
Proof.
  unfold wp. destruct (m w) as [w' [e|x]]; auto.
Qed.

Lemma wp_ret {A} (x : A) Q E w : wp (ret x) Q E w = Q x w.
Proof. reflexivity. Qed.

Lemma wp_bind {A B} (m : M A) (k : A -> M B) Q E w :
  wp (bind m k) Q E w = wp m (fun x w' => wp (k x) Q E w') E w.
Proof.
  unfold wp, bind. destruct (m w) as [w' [e|x]]; reflexivity.
Qed.

Lemma wp_lift {A} (r : Result A) Q E w :
  wp (lift r) Q E w = match r with inr x => Q x w | inl e => E e w end.
Proof. unfold wp, lift. destruct r; reflexivity. Qed.

Lemma wp_tell e Q E w :
  wp (tell e) Q E w
  = Q tt {| heap := heap w; draws := draws w; trace := trace w ++ [e] |}.
Proof. reflexivity. Qed.

Lemma wp_get_obj a Q E w :
  wp (get_obj a) Q E w
  = match heap w !! a with Some o => Q o w | None => E RuntimeError w end.
Proof. unfold wp, get_obj. destruct (heap w !! a); reflexivity. Qed.

Lemma wp_set_obj a o Q E w :
  wp (set_obj a o) Q E w
  = Q tt {| heap := <[a := o]> (heap w); draws := draws w; trace := trace w |}.
Proof. reflexivity. Qed.

Lemma wp_alloc o Q E w :
  wp (alloc o) Q E w
  = Q (fresh (dom (heap w)))
      {| heap := <[fresh (dom (heap w)) := o]> (heap w); draws := draws w; trace := trace w |}.
Proof. reflexivity. Qed.

Lemma wp_draw_order n Q E w :
  wp (draw_order n) Q E w
  = Q (randperm (draws w) n)
      {| heap := heap w; draws := S (draws w); trace := trace w |}.
Proof. reflexivity. Qed.

Lemma wp_if {A} (b : bool) (m1 m2 : M A) Q E w :
  wp (if b then m1 else m2) Q E w = if b then wp m1 Q E w else wp m2 Q E w.
Proof. destruct b; reflexivity. Qed.

(** The loop rule: an invariant [I], indexed by the items already
    processed, that every iteration maintains. *)
Lemma wp_for_each {X S} (body : X -> S -> M S)
    (I : list X -> S -> World -> Prop) (E : PyErr -> World -> Prop) :
  forall xs done s w,
    I done s w ->
    (forall done' x s w, I done' s w ->
       wp (body x s) (fun s' w' => I (done' ++ [x]) s' w') E w) ->
    wp (for_each xs body s) (fun s' w' => I (done ++ xs) s' w') E w.
Proof.
  induction xs as [|x xs IH]; intros done s w HI Hbody; simpl.
  - rewrite wp_ret, app_nil_r. exact HI.
  - rewrite wp_bind.
    eapply wp_mono; [apply (Hbody done x s w HI) | | auto].
    intros s' w' HI'. simpl.
    replace (done ++ x :: xs) with ((done ++ [x]) ++ xs)
      by (rewrite <- app_assoc; reflexivity).
    apply IH; auto.
Qed.

(** The same rule when every item is known to satisfy [P]. *)
Lemma wp_for_each_in {X S} (body : X -> S -> M S) (P : X -> Prop)
    (I : list X -> S -> World -> Prop) (E : PyErr -> World -> Prop) :
  forall xs done s w,
    Forall P xs ->
    I done s w ->
    (forall done' x s w, P x -> I done' s w ->
       wp (body x s) (fun s' w' => I (done' ++ [x]) s' w') E w) ->
    wp (for_each xs body s) (fun s' w' => I (done ++ xs) s' w') E w.
Proof.
  induction xs as [|x xs IH]; intros done s w HP HI Hbody; simpl.
  - rewrite wp_ret, app_nil_r. exact HI.
  - rewrite wp_bind. inversion HP as [|? ? Hx Hxs]; subst.
    eapply wp_mono; [apply (Hbody done x s w Hx HI) | | auto].
    intros s' w' HI'. simpl.
    replace (done ++ x :: xs) with ((done ++ [x]) ++ xs)
      by (rewrite <- app_assoc; reflexivity).
    apply IH; auto.
Qed.

(** Iterating over a dataloader gives the batches of some sampling order
    and touches neither the objects nor the trace. *)
Lemma wp_iter dl (Q : list (Tensor2 * list Z) -> World -> Prop) E w :
  (forall order d', Permutation order (seq 0 (length (dataset dl))) ->
     Q (batches_of dl order) {| heap := heap w; draws := d'; trace := trace w |}) ->
  wp (iter dl) Q E w.
Proof.
  intros H. unfold iter. rewrite wp_bind. destruct (shuffle dl).
  - rewrite wp_draw_order, wp_ret. apply H. apply randperm_perm.
  - rewrite !wp_ret. destruct w. apply H. apply Permutation_refl.
Qed.

Lemma for_each_app {X S} (body : X -> S -> M S) xs ys s w :
  for_each (xs ++ ys) body s w = bind (for_each xs body s) (for_each ys body) w.
Proof.
  revert s w. induction xs as [|x xs IH]; intros s w; simpl.
  - reflexivity.
  - unfold bind in *.
    destruct (body x s w) as [w' [e|s']]; [reflexivity|].
    apply IH.
Qed.

End WP.

(** Symbolic execution of the next primitive steps of a [wp] goal. *)
Ltac wp_simpl :=
  repeat progress
    (repeat first
       [ rewrite wp_bind | rewrite wp_tell | rewrite wp_ret | rewrite wp_set_obj
       | rewrite wp_alloc | rewrite wp_draw_order | rewrite wp_lift
       | rewrite wp_get_obj ];
     cbn [heap draws trace Ok Raise]).

(** ** What the loops do, in order *)

Section Traces.

Context `{FW : Framework}.

(** The trace of a world with the numbers erased. *)
Definition ktrace (w : World) : list Kind := map kind (trace w).

Definition anyE : PyErr -> World -> Prop := fun _ _ => True.

Lemma ktrace_tell w e :
  ktrace {| heap := heap w; draws := draws w; trace := trace w ++ [e] |}
  = ktrace w ++ [kind e].
Proof. unfold ktrace. simpl. rewrite map_app. reflexivity. Qed.

(** Each framework call appends its own event and nothing else. *)

Lemma silent_get_obj a (Q : ModuleObj -> World -> Prop) w :
  (forall o, Q o w) -> wp (get_obj a) Q anyE w.
Proof. intros H. rewrite wp_get_obj. destruct (heap w !! a); [auto | exact Logic.I]. Qed.

Lemma silent_set_obj a o (Q : unit -> World -> Prop) w :
  (forall w', ktrace w' = ktrace w -> Q tt w') -> wp (set_obj a o) Q anyE w.
Proof. intros H. rewrite wp_set_obj. apply H. reflexivity. Qed.

Lemma silent_deepcopy a (Q : nat -> World -> Prop) w :
  (forall b w', ktrace w' = ktrace w -> Q b w') -> wp (deepcopy a) Q anyE w.
Proof.
  intros H. unfold deepcopy. rewrite wp_bind. apply silent_get_obj. intros o.
  rewrite wp_alloc. apply H. reflexivity.
Qed.

Lemma silent_set_training a mode (Q : unit -> World -> Prop) w :
  (forall w', ktrace w' = ktrace w -> Q tt w') -> wp (set_training a mode) Q anyE w.
Proof.
  intros H. unfold set_training. rewrite wp_bind. apply silent_get_obj. intros o.
  apply silent_set_obj. exact H.
Qed.

Lemma emits_call_model ge a x (Q : Pred -> World -> Prop) w :
  (forall p w', ktrace w' = ktrace w ++ [kind (EvForward (G := Grad) ge x)] -> Q p w') ->
  wp (call_model ge a x) Q anyE w.
Proof.
  intros H. unfold call_model. rewrite wp_bind, wp_tell, wp_bind.
  apply silent_get_obj. intros o. rewrite wp_bind, wp_lift.
  destruct (module_call (training o) (state o) x) as [e|py]; [exact Logic.I|].
  rewrite wp_bind. apply silent_set_obj. intros w' Hw'. rewrite wp_ret.
  apply H. rewrite Hw'. apply ktrace_tell.
Qed.

Lemma emits_call_loss loss_fn pred target (Q : Loss -> World -> Prop) w :
  (forall l w', ktrace w' = ktrace w ++ [Loss_] -> Q l w') ->
  wp (call_loss loss_fn pred target) Q anyE w.
Proof.
  intros H. unfold call_loss. rewrite wp_bind, wp_lift.
  destruct (loss_value loss_fn (value pred) target) as [e|v]; [exact Logic.I|].
  rewrite wp_bind, wp_tell, wp_ret. apply H. apply ktrace_tell.
Qed.

Lemma emits_zero_grad {O} (optimizer : OptimizerObj O) (Q : unit -> World -> Prop) w :
  (forall w', ktrace w' = ktrace w ++ [ZeroGrad] -> Q tt w') ->
  wp (zero_grad optimizer) Q anyE w.
Proof.
  intros H. unfold zero_grad. rewrite wp_bind, wp_tell, wp_bind.
  apply silent_get_obj. intros o. apply silent_set_obj. intros w' Hw'.
  apply H. rewrite Hw'. apply ktrace_tell.
Qed.

Lemma emits_backward loss (Q : unit -> World -> Prop) w :
  (forall w', ktrace w' = ktrace w ++ [Backward] -> Q tt w') ->
  wp (backward loss) Q anyE w.
Proof.
  intros H. unfold backward. rewrite wp_bind, wp_tell, wp_bind.
  apply silent_get_obj. intros o. apply silent_set_obj. intros w' Hw'.
  apply H. rewrite Hw'. apply ktrace_tell.
Qed.

Lemma emits_step {O} (optimizer : OptimizerObj O) (Q : OptimizerObj O -> World -> Prop) w :
  (forall o' w', ktrace w' = ktrace w ++ [OptStep] -> Q o' w') ->
  wp (step optimizer) Q anyE w.
Proof.
  intros H. unfold step. rewrite wp_bind. apply silent_get_obj. intros o.
  rewrite wp_bind, wp_tell, wp_bind. apply silent_set_obj. intros w' Hw'.
  rewrite wp_ret. apply H. rewrite Hw'. apply ktrace_tell.
Qed.

Lemma emits_accumulate tr_loss v (Q : Q -> World -> Prop) w :
  (forall t w', ktrace w' = ktrace w ++ [Accumulate] -> Q t w') ->
  wp (accumulate tr_loss v) Q anyE w.
Proof.
  intros H. unfold accumulate. rewrite wp_bind, wp_tell, wp_ret.
  apply H. apply ktrace_tell.
Qed.

Lemma emits_print v (Q : unit -> World -> Prop) w :
  (forall w', ktrace w' = ktrace w ++ [Print] -> Q tt w') ->
  wp (print v) Q anyE w.
Proof. intros H. unfold print. rewrite wp_tell. apply H. apply ktrace_tell. Qed.

Lemma emits_append l v (Q : list Q -> World -> Prop) w :
  (forall l' w', ktrace w' = ktrace w ++ [Append] -> Q l' w') ->
  wp (append l v) Q anyE w.
Proof.
  intros H. unfold append. rewrite wp_bind, wp_tell, wp_ret.
  apply H. apply ktrace_tell.
Qed.

Lemma emits_print_if (verbose : bool) v (Q : unit -> World -> Prop) w :
  (forall w', ktrace w' = ktrace w ++ (if verbose then [Print] else []) -> Q tt w') ->
  wp (if verbose then print v else ret tt) Q anyE w.
Proof.
  intros H. destruct verbose.
  - apply emits_print. exact H.
  - rewrite wp_ret. apply H. rewrite app_nil_r. reflexivity.
Qed.

(** A sampling order of [n] items. *)
Definition sampling_order (n : nat) (order : list nat) : Prop :=
  Permutation order (seq 0 n).

(** The sampling order of one iteration over [dl]: the indices of the
    dataset in the order the sampler draws them, which is their own order
    when the dataloader does not shuffle. *)
Definition yields_in (dl : DataLoader) (order : list nat) : Prop :=
  sampling_order (length (dataset dl)) order /\
  (shuffle dl = false -> order = seq 0 (length (dataset dl))).

Lemma silent_iter dl (Q : list (Tensor2 * list Z) -> World -> Prop) w :
  (forall order w', yields_in dl order ->
     ktrace w' = ktrace w -> Q (batches_of dl order) w') ->
  wp (iter dl) Q anyE w.
Proof.
  intros H. unfold iter. rewrite wp_bind. destruct (shuffle dl) eqn:Es.
  - rewrite wp_draw_order, wp_ret.
    apply H; [split; [apply randperm_perm | intros E; congruence] | reflexivity].
  - rewrite !wp_ret.
    apply H; [split; [apply Permutation_refl | reflexivity] | reflexivity].
Qed.

(** The steps of one training batch [x]. *)
Definition batch_steps (x : Tensor2) : list Kind :=
  [Forward_ x; Loss_; ZeroGrad; Backward; OptStep; Accumulate].

(** The steps of one evaluation batch. *)
Definition eval_steps (x : Tensor2) : list Kind := [EvalForward x].

(** A loop whose body, on item [x], does the steps [steps r] for some [r]
    related to [x] by [ok]. *)
Lemma loop_steps {X S R} (body : X -> S -> M S)
    (ok : X -> R -> Prop) (steps : R -> list Kind) :
  (forall x st (Q : S -> World -> Prop) w,
     (forall r st' w', ok x r -> ktrace w' = ktrace w ++ steps r -> Q st' w') ->
     wp (body x st) Q anyE w) ->
  forall xs st (Q : S -> World -> Prop) w,
    (forall rs st' w',
       Forall2 ok xs rs ->
       ktrace w' = ktrace w ++ flat_map steps rs -> Q st' w') ->
    wp (for_each xs body st) Q anyE w.
Proof.
  intros Hbody xs st Q w HQ.
  eapply wp_mono with
    (Q := fun st' w' => exists rs,
            Forall2 ok ([] ++ xs) rs /\
            ktrace w' = ktrace w ++ flat_map steps rs).
  - apply (wp_for_each body
             (fun done st' w' => exists rs,
                Forall2 ok done rs /\
                ktrace w' = ktrace w ++ flat_map steps rs)).
    + exists []. split; [constructor | simpl; rewrite app_nil_r; reflexivity].
    + intros done' x s1 w1 (rs & Hrs & Hk). apply Hbody.
      intros r st' w' Hr Hk'. exists (rs ++ [r]). split.
      * apply Forall2_app; [exact Hrs | constructor; [exact Hr | constructor]].
      * rewrite Hk', Hk, flat_map_app. simpl. rewrite app_nil_r, app_assoc. reflexivity.
  - intros st' w' (rs & Hrs & Hk). eapply HQ; eauto.
  - auto.
Qed.

(** The batch [b] reshaped by [prep] is [x]. *)
Definition prepared (prep : Tensor2 -> Result Tensor2)
    (b : Tensor2 * list Z) (x : Tensor2) : Prop :=
  prep (fst b) = Ok x.

(** [xs] are the tensors one pass over [dl] feeds to the model: the
    batches the dataloader yields, in the order it yields them, each going
    through the reshaping [prep] first. *)
Definition pass (dl : DataLoader) (prep : Tensor2 -> Result Tensor2)
    (xs : list Tensor2) : Prop :=
  exists order,
    yields_in dl order /\
    Forall2 (prepared prep) (batches_of dl order) xs.

Section WithBatchSize.

Variable batch_size : nat.

Lemma training_mlp_batch_steps model_tr loss_fn batch st
    (Q : OptimizerObj SGD * Q -> World -> Prop) w :
  (forall x st' w', Tensor.view_infer (fst batch) batch_size = Ok x ->
     ktrace w' = ktrace w ++ batch_steps x -> Q st' w') ->
  wp (training_mlp_batch batch_size model_tr loss_fn batch st) Q anyE w.
Proof.
  intros H. unfold training_mlp_batch. destruct batch as [images labels].
  destruct st as [optimizer tr_loss]. simpl in H.
  rewrite wp_bind, wp_lift.
  destruct (Tensor.view_infer images batch_size) as [e|x]; [exact Logic.I|].
  rewrite wp_bind. apply emits_call_model. intros p w1 H1.
  rewrite wp_bind. apply emits_call_loss. intros l w2 H2.
  rewrite wp_bind. apply emits_zero_grad. intros w3 H3.
  rewrite wp_bind. apply emits_backward. intros w4 H4.
  rewrite wp_bind. apply emits_step. intros o' w5 H5.
  rewrite wp_bind. apply emits_accumulate. intros t w6 H6.
  rewrite wp_ret. apply (H x); [reflexivity|].
  rewrite H6, H5, H4, H3, H2, H1. unfold batch_steps. simpl.
  rewrite <- !app_assoc. reflexivity.
Qed.

Lemma eval_mlp_batch_steps model batch st (Q : Z * Z -> World -> Prop) w :
  (forall x st' w', Tensor.view_infer (fst batch) batch_size = Ok x ->
     ktrace w' = ktrace w ++ eval_steps x -> Q st' w') ->
  wp (eval_mlp_batch batch_size model batch st) Q anyE w.
Proof.
  intros H. unfold eval_mlp_batch. destruct batch as [images labels].
  destruct st as [correct total]. simpl in H.
  rewrite wp_bind, wp_lift.
  destruct (Tensor.view_infer images batch_size) as [e|x]; [exact Logic.I|].
  rewrite wp_bind. apply emits_call_model. intros p w1 H1.
  rewrite wp_bind, wp_lift.
  destruct (Tensor.argmax_dim1 (value p)) as [e|lp]; [exact Logic.I|].
  rewrite wp_bind, wp_lift.
  destruct (Tensor.eq_sum lp labels) as [e|c]; [exact Logic.I|].
  rewrite wp_ret. apply (H x); [reflexivity | exact H1].
Qed.

(** One call of [eval_mlp_classifier] is one pass over its dataloader, each
    batch reshaped to [(batch_size, -1)]. *)
Lemma eval_mlp_classifier_steps model dl (Q : Q -> World -> Prop) w :
  (forall xs acc w',
     pass dl (fun x => Tensor.view_infer x batch_size) xs ->
     ktrace w' = ktrace w ++ flat_map eval_steps xs -> Q acc w') ->
  wp (eval_mlp_classifier batch_size model dl) Q anyE w.
Proof.
  intros H. unfold eval_mlp_classifier.
  rewrite wp_bind. apply silent_set_training. intros w1 H1.
  rewrite wp_bind. apply silent_iter. intros order w2 Ho H2.
  rewrite wp_bind.
  apply (loop_steps (eval_mlp_batch batch_size model)
           (prepared (fun x => Tensor.view_infer x batch_size)) eval_steps).
  { intros. apply eval_mlp_batch_steps. assumption. }
  intros xs [correct total] w3 Hxs H3.
  rewrite wp_bind, wp_lift.
  destruct (int_div (100 * correct) total) as [e|acc]; [exact Logic.I|].
  rewrite wp_ret. apply (H xs).
  - exists order. split; assumption.
  - rewrite H3, H2, H1. reflexivity.
Qed.

End WithBatchSize.

(** *** [training_mlp_classifier] *)

Section TrainingMlp.

Variable batch_size : nat.

Definition mlp_epoch_steps (verbose : bool) (xs : list Tensor2) : list Kind :=
  flat_map batch_steps xs ++ [Append] ++ (if verbose then [Print] else []).

Lemma training_mlp_epoch_steps model_tr dl loss_fn verbose epoch st
    (Q : OptimizerObj SGD * list Q -> World -> Prop) w :
  (forall xs st' w',
     pass dl (fun x => Tensor.view_infer x batch_size) xs ->
     ktrace w' = ktrace w ++ mlp_epoch_steps verbose xs -> Q st' w') ->
  wp (training_mlp_epoch batch_size model_tr dl loss_fn verbose epoch st) Q anyE w.
Proof.
  intros H. unfold training_mlp_epoch. destruct st as [optimizer train_losses].
  rewrite wp_bind. apply silent_iter. intros order w1 Ho H1.
  rewrite wp_bind.
  apply (loop_steps (training_mlp_batch batch_size model_tr loss_fn)
           (prepared (fun x => Tensor.view_infer x batch_size)) batch_steps).
  { intros. apply training_mlp_batch_steps. assumption. }
  intros xs [optimizer' tr_loss] w2 Hxs H2.
  rewrite wp_bind, wp_lift.
  destruct (float_div tr_loss _) as [e|tr_loss']; [exact Logic.I|].
  rewrite wp_bind. apply emits_append. intros l' w3 H3.
  rewrite wp_bind. apply emits_print_if. intros w4 H4.
  rewrite wp_ret. apply (H xs).
  - exists order. split; assumption.
  - rewrite H4, H3, H2, H1. unfold mlp_epoch_steps.
    rewrite <- !app_assoc. reflexivity.
Qed.

(** Every normal run of [training_mlp_classifier] has this trace: one
    pass over the dataloader per epoch, six steps per batch, then the
    epoch's bookkeeping. *)
Lemma training_mlp_classifier_steps model dl num_epochs loss_fn lr verbose w w' r :
  training_mlp_classifier batch_size model dl num_epochs loss_fn lr verbose w = (w', Ok r) ->
  exists xss,
    length xss = Z.to_nat num_epochs /\
    Forall (pass dl (fun x => Tensor.view_infer x batch_size)) xss /\
    ktrace w' = ktrace w ++ flat_map (mlp_epoch_steps verbose) xss.
Proof.
  intros Hrun.
  refine (wp_run _ (fun _ w' => _) anyE w w' (Ok r) _ Hrun).
  unfold training_mlp_classifier.
  rewrite wp_bind. apply silent_deepcopy. intros model_tr w1 H1.
  rewrite wp_bind. apply silent_set_training. intros w2 H2.
  rewrite wp_bind.
  apply (loop_steps (training_mlp_epoch batch_size model_tr dl loss_fn verbose)
           (fun _ xs => pass dl (fun x => Tensor.view_infer x batch_size) xs)
           (mlp_epoch_steps verbose)).
  { intros. apply training_mlp_epoch_steps. assumption. }
  intros xss st' w3 Hxss H3. rewrite wp_ret.
  exists xss. split; [|split].
  - apply Forall2_length in Hxss. rewrite <- Hxss. unfold range. apply length_seq.
  - clear -Hxss. induction Hxss; constructor; auto.
  - rewrite H3, H2, H1. reflexivity.
Qed.

End TrainingMlp.

(** *** [train_val_mlp_classifier] *)

Section TrainVal.

(** The notebook's global [batch_size], read by [eval_mlp_classifier]. *)
Variable global_batch_size : nat.

(** What one epoch with validation needs of the batches: the inputs of the
    training pass and those of the validation pass. *)
Definition val_epoch_steps (verbose : bool) (xv : list Tensor2 * list Tensor2) : list Kind :=
  flat_map batch_steps (fst xv) ++ [Append] ++ (if verbose then [Print] else [])
  ++ flat_map eval_steps (snd xv) ++ [Append] ++ (if verbose then [Print] else []).

Definition val_pass (dl vdl : DataLoader) (prep vprep : Tensor2 -> Result Tensor2)
    (xv : list Tensor2 * list Tensor2) : Prop :=
  pass dl prep (fst xv) /\ pass vdl vprep (snd xv).

Lemma train_val_mlp_batch_steps model_tr input_size batch_size loss_fn batch st
    (Q : OptimizerObj Adam * Q -> World -> Prop) w :
  (forall x st' w', Tensor.view (fst batch) batch_size input_size = Ok x ->
     ktrace w' = ktrace w ++ batch_steps x -> Q st' w') ->
  wp (train_val_mlp_batch model_tr input_size batch_size loss_fn batch st) Q anyE w.
Proof.
  intros H. unfold train_val_mlp_batch. destruct batch as [images labels].
  destruct st as [optimizer tr_loss]. simpl in H.
  rewrite wp_bind, wp_lift.
  destruct (Tensor.view images batch_size input_size) as [e|x]; [exact Logic.I|].
  rewrite wp_bind. apply emits_call_model. intros p w1 H1.
  rewrite wp_bind. apply emits_call_loss. intros l w2 H2.
  rewrite wp_bind. apply emits_zero_grad. intros w3 H3.
  rewrite wp_bind. apply emits_backward. intros w4 H4.
  rewrite wp_bind. apply emits_step. intros o' w5 H5.
  rewrite wp_bind. apply emits_accumulate. intros t w6 H6.
  rewrite wp_ret. apply (H x); [reflexivity|].
  rewrite H6, H5, H4, H3, H2, H1. unfold batch_steps. simpl.
  rewrite <- !app_assoc. reflexivity.
Qed.

Lemma train_val_mlp_epoch_steps model_tr dl vdl input_size batch_size loss_fn verbose
    epoch st (Q : BestState Adam -> World -> Prop) w :
  (forall xv st' w',
     val_pass dl vdl (fun x => Tensor.view x batch_size input_size)
       (fun x => Tensor.view_infer x global_batch_size) xv ->
     ktrace w' = ktrace w ++ val_epoch_steps verbose xv -> Q st' w') ->
  wp (train_val_mlp_epoch global_batch_size model_tr dl vdl input_size batch_size
        loss_fn verbose epoch st) Q anyE w.
Proof.
  intros H. unfold train_val_mlp_epoch.
  rewrite wp_bind. apply silent_iter. intros order w1 Ho H1.
  rewrite wp_bind.
  apply (loop_steps (train_val_mlp_batch model_tr input_size batch_size loss_fn)
           (prepared (fun x => Tensor.view x batch_size input_size)) batch_steps).
  { intros. apply train_val_mlp_batch_steps. assumption. }
  intros xs [optimizer' tr_loss] w2 Hxs H2.
  rewrite wp_bind, wp_lift.
  destruct (float_div tr_loss _) as [e|tr_loss']; [exact Logic.I|].
  rewrite wp_bind. apply emits_append. intros l' w3 H3.
  rewrite wp_bind. apply emits_print_if. intros w4 H4.
  rewrite wp_bind. apply eval_mlp_classifier_steps. intros vxs acc w5 Hvxs H5.
  rewrite wp_bind. apply emits_append. intros accs' w6 H6.
  rewrite wp_bind.
  assert (Hdone : forall am (mo : option nat) w7, ktrace w7 = ktrace w6 ->
            wp (bind (if verbose then print acc else ret tt)
                  (fun _ => ret {| bs_optimizer := optimizer';
                                   bs_train_losses := l';
                                   bs_accuracy_max := am;
                                   bs_val_accuracies := accs';
                                   bs_model_opt := mo |})) Q anyE w7).
  { intros am mo w7 H7. rewrite wp_bind. apply emits_print_if. intros w8 H8.
    rewrite wp_ret. apply (H (xs, vxs)).
    - split; [exists order; split; assumption | exact Hvxs].
    - rewrite H8, H7, H6, H5, H4, H3, H2, H1. unfold val_epoch_steps. simpl.
      rewrite <- !app_assoc. reflexivity. }
  destruct (Qltb (bs_accuracy_max st) acc).
  - rewrite wp_bind. apply silent_deepcopy. intros mo w7 H7.
    rewrite wp_ret. apply Hdone. exact H7.
  - rewrite wp_ret. apply Hdone. reflexivity.
Qed.

Lemma silent_return_best {O} (st : BestState O)
    (Q : nat * list Q * list Q -> World -> Prop) w :
  (forall r, Q r w) -> wp (return_best st) Q anyE w.
Proof.
  intros H. unfold return_best. destruct (bs_model_opt st).
  - rewrite wp_ret. apply H.
  - rewrite wp_lift. exact Logic.I.
Qed.

Lemma train_val_mlp_classifier_steps model dl vdl input_size batch_size num_epochs
    loss_fn lr verbose w w' r :
  train_val_mlp_classifier global_batch_size model dl vdl input_size batch_size
    num_epochs loss_fn lr verbose w = (w', Ok r) ->
  exists xvs,
    length xvs = Z.to_nat num_epochs /\
    Forall (val_pass dl vdl (fun x => Tensor.view x batch_size input_size)
              (fun x => Tensor.view_infer x global_batch_size)) xvs /\
    ktrace w' = ktrace w ++ flat_map (val_epoch_steps verbose) xvs.
Proof.
  intros Hrun.
  refine (wp_run _ (fun _ w' => _) anyE w w' (Ok r) _ Hrun).
  unfold train_val_mlp_classifier.
  rewrite wp_bind. apply silent_deepcopy. intros model_tr w1 H1.
  rewrite wp_bind. apply silent_set_training. intros w2 H2.
  rewrite wp_bind. apply silent_deepcopy. intros model_opt w3 H3.
  rewrite wp_bind.
  apply (loop_steps
           (train_val_mlp_epoch global_batch_size model_tr dl vdl input_size
              batch_size loss_fn verbose)
           (fun _ xv => val_pass dl vdl (fun x => Tensor.view x batch_size input_size)
                          (fun x => Tensor.view_infer x global_batch_size) xv)
           (val_epoch_steps verbose)).
  { intros. apply train_val_mlp_epoch_steps. assumption. }
  intros xvs st' w4 Hxvs H4. apply silent_return_best. intros _.
  exists xvs. split; [|split].
  - apply Forall2_length in Hxvs. rewrite <- Hxvs. unfold range. apply length_seq.
  - clear -Hxvs. induction Hxvs; constructor; auto.
  - rewrite H4, H3, H2, H1. reflexivity.
Qed.

End TrainVal.

(** *** [training_val_cnn_classifier] *)

Definition cnn_epoch_steps (verbose : bool) (xv : list Tensor2 * list Tensor2) : list Kind :=
  flat_map batch_steps (fst xv) ++ [Append]
  ++ flat_map eval_steps (snd xv) ++ [Append] ++ (if verbose then [Print] else []).

Lemma training_val_cnn_batch_steps model_tr loss_fn batch st
    (Q : OptimizerObj Adam * Q -> World -> Prop) w :
  (forall st' w', ktrace w' = ktrace w ++ batch_steps (fst batch) -> Q st' w') ->
  wp (training_val_cnn_batch model_tr loss_fn batch st) Q anyE w.
Proof.
  intros H. unfold training_val_cnn_batch. destruct batch as [images labels].
  destruct st as [optimizer tr_loss]. simpl in H.
  rewrite wp_bind. apply emits_call_model. intros p w1 H1.
  rewrite wp_bind. apply emits_call_loss. intros l w2 H2.
  rewrite wp_bind. apply emits_zero_grad. intros w3 H3.
  rewrite wp_bind. apply emits_backward. intros w4 H4.
  rewrite wp_bind. apply emits_step. intros o' w5 H5.
  rewrite wp_bind. apply emits_accumulate. intros t w6 H6.
  rewrite wp_ret. apply H.
  rewrite H6, H5, H4, H3, H2, H1. unfold batch_steps. simpl.
  rewrite <- !app_assoc. reflexivity.
Qed.

Lemma eval_cnn_batch_steps model batch st (Q : Z * Z -> World -> Prop) w :
  (forall st' w', ktrace w' = ktrace w ++ eval_steps (fst batch) -> Q st' w') ->
  wp (eval_cnn_batch model batch st) Q anyE w.
Proof.
  intros H. unfold eval_cnn_batch. destruct batch as [images labels].
  destruct st as [correct total]. simpl in H.
  rewrite wp_bind. apply emits_call_model. intros p w1 H1.
  rewrite wp_bind, wp_lift.
  destruct (Tensor.argmax_dim1 (value p)) as [e|lp]; [exact Logic.I|].
  rewrite wp_bind, wp_lift.
  destruct (Tensor.eq_sum lp labels) as [e|c]; [exact Logic.I|].
  rewrite wp_ret. apply H. exact H1.
Qed.

Lemma eval_cnn_classifier_steps model dl (Q : Q -> World -> Prop) w :
  (forall xs acc w',
     pass dl Ok xs ->
     ktrace w' = ktrace w ++ flat_map eval_steps xs -> Q acc w') ->
  wp (eval_cnn_classifier model dl) Q anyE w.
Proof.
  intros H. unfold eval_cnn_classifier.
  rewrite wp_bind. apply silent_set_training. intros w1 H1.
  rewrite wp_bind. apply silent_iter. intros order w2 Ho H2.
  rewrite wp_bind.
  apply (loop_steps (eval_cnn_batch model) (prepared Ok) eval_steps).
  { intros b st0 Q0 w0 HQ0. apply eval_cnn_batch_steps. intros st' w0' Hk.
    apply (HQ0 (fst b)); [reflexivity | exact Hk]. }
  intros xs [correct total] w3 Hxs H3.
  rewrite wp_bind, wp_lift.
  destruct (int_div (100 * correct) total) as [e|acc]; [exact Logic.I|].
  rewrite wp_ret. apply (H xs).
  - exists order. split; assumption.
  - rewrite H3, H2, H1. reflexivity.
Qed.

Lemma training_val_cnn_epoch_steps model_tr dl vdl loss_fn verbose
    epoch st (Q : BestState Adam -> World -> Prop) w :
  (forall xv st' w',
     val_pass dl vdl Ok Ok xv ->
     ktrace w' = ktrace w ++ cnn_epoch_steps verbose xv -> Q st' w') ->
  wp (training_val_cnn_epoch model_tr dl vdl loss_fn verbose epoch st) Q anyE w.
Proof.
  intros H. unfold training_val_cnn_epoch.
  rewrite wp_bind. apply silent_iter. intros order w1 Ho H1.
  rewrite wp_bind.
  apply (loop_steps (training_val_cnn_batch model_tr loss_fn) (prepared Ok) batch_steps).
  { intros b st0 Q0 w0 HQ0. apply training_val_cnn_batch_steps. intros st' w0' Hk.
    apply (HQ0 (fst b)); [reflexivity | exact Hk]. }
  intros xs [optimizer' tr_loss] w2 Hxs H2.
  rewrite wp_bind, wp_lift.
  destruct (float_div tr_loss _) as [e|tr_loss']; [exact Logic.I|].
  rewrite wp_bind. apply emits_append. intros l' w3 H3.
  rewrite wp_bind. apply eval_cnn_classifier_steps. intros vxs acc w4 Hvxs H4.
  rewrite wp_bind. apply emits_append. intros accs' w5 H5.
  rewrite wp_bind. apply emits_print_if. intros w6 H6.
  rewrite wp_bind.
  assert (Hdone : forall (mo : option nat) am w7, ktrace w7 = ktrace w6 ->
            wp (ret {| bs_optimizer := optimizer';
                       bs_train_losses := l';
                       bs_accuracy_max := am;
                       bs_val_accuracies := accs';
                       bs_model_opt := mo |}) Q anyE w7).
  { intros mo am w7 H7. rewrite wp_ret. apply (H (xs, vxs)).
    - split; [exists order; split; assumption | exact Hvxs].
    - rewrite H7, H6, H5, H4, H3, H2, H1. unfold cnn_epoch_steps. simpl.
      rewrite <- !app_assoc. reflexivity. }
  destruct (Qltb (bs_accuracy_max st) acc).
  - rewrite wp_bind. apply silent_deepcopy. intros mo w7 H7.
    rewrite wp_ret. apply Hdone. exact H7.
  - rewrite wp_ret. apply Hdone. reflexivity.
Qed.

Lemma training_val_cnn_classifier_steps model dl vdl num_epochs loss_fn lr verbose w w' r :
  training_val_cnn_classifier model dl vdl num_epochs loss_fn lr verbose w = (w', Ok r) ->
  exists xvs,
    length xvs = Z.to_nat num_epochs /\
    Forall (val_pass dl vdl Ok Ok) xvs /\
    ktrace w' = ktrace w ++ flat_map (cnn_epoch_steps verbose) xvs.
Proof.
  intros Hrun.
  refine (wp_run _ (fun _ w' => _) anyE w w' (Ok r) _ Hrun).
  unfold training_val_cnn_classifier.
  rewrite wp_bind. apply silent_deepcopy. intros model_tr w1 H1.
  rewrite wp_bind. apply silent_set_training. intros w2 H2.
  rewrite wp_bind.
  apply (loop_steps (training_val_cnn_epoch model_tr dl vdl loss_fn verbose)
           (fun _ xv => val_pass dl vdl Ok Ok xv) (cnn_epoch_steps verbose)).
  { intros. apply training_val_cnn_epoch_steps. assumption. }
  intros xvs st' w3 Hxvs H3. apply silent_return_best. intros _.
  exists xvs. split; [|split].
  - apply Forall2_length in Hxvs. rewrite <- Hxvs. unfold range. apply length_seq.
  - clear -Hxvs. induction Hxvs; constructor; auto.
  - rewrite H3, H2, H1. reflexivity.
Qed.

(** *** The regression loops of lab 2 *)

Definition linear_regression_steps (x : Tensor2) : list Kind :=
  [Forward_ x; Loss_; ZeroGrad; Backward; OptStep; Print].

Definition nonlinear_regression_steps (x : Tensor2) : list Kind :=
  [Forward_ x; Loss_; ZeroGrad; Backward; OptStep; Print; Append].

Lemma linear_regression_epoch_steps model loss_fn x y epoch st
    (Q : OptimizerObj SGD -> World -> Prop) w :
  (forall st' w', ktrace w' = ktrace w ++ linear_regression_steps x -> Q st' w') ->
  wp (linear_regression_epoch model loss_fn x y epoch st) Q anyE w.
Proof.
  intros H. unfold linear_regression_epoch.
  rewrite wp_bind. apply emits_call_model. intros p w1 H1.
  rewrite wp_bind. apply emits_call_loss. intros l w2 H2.
  rewrite wp_bind. apply emits_zero_grad. intros w3 H3.
  rewrite wp_bind. apply emits_backward. intros w4 H4.
  rewrite wp_bind. apply emits_step. intros o' w5 H5.
  rewrite wp_bind. apply emits_print. intros w6 H6.
  rewrite wp_ret. apply H.
  rewrite H6, H5, H4, H3, H2, H1. unfold linear_regression_steps. simpl.
  rewrite <- !app_assoc. reflexivity.
Qed.

Lemma nonlinear_regression_epoch_steps model loss_fn x y epoch st
    (Q : OptimizerObj SGD * list Q -> World -> Prop) w :
  (forall st' w', ktrace w' = ktrace w ++ nonlinear_regression_steps x -> Q st' w') ->
  wp (nonlinear_regression_epoch model loss_fn x y epoch st) Q anyE w.
Proof.
  intros H. unfold nonlinear_regression_epoch. destruct st as [optimizer loss_records].
  rewrite wp_bind. apply emits_call_model. intros p w1 H1.
  rewrite wp_bind. apply emits_call_loss. intros l w2 H2.
  rewrite wp_bind. apply emits_zero_grad. intros w3 H3.
  rewrite wp_bind. apply emits_backward. intros w4 H4.
  rewrite wp_bind. apply emits_step. intros o' w5 H5.
  rewrite wp_bind. apply emits_print. intros w6 H6.
  rewrite wp_bind. apply emits_append. intros l' w7 H7.
  rewrite wp_ret. apply H.
  rewrite H7, H6, H5, H4, H3, H2, H1. unfold nonlinear_regression_steps. simpl.
  rewrite <- !app_assoc. reflexivity.
Qed.

Lemma flat_map_const {A B} (l : list A) (ys : list B) :
  flat_map (fun _ => ys) l = concat (repeat ys (length l)).
Proof. induction l; simpl; [reflexivity | rewrite IHl; reflexivity]. Qed.

Lemma Forall2_eq_repeat {A B} (xs : list A) (rs : list B) (r0 : B) :
  Forall2 (fun _ r => r = r0) xs rs -> rs = repeat r0 (length xs).
Proof. induction 1; simpl; [reflexivity | subst; f_equal; assumption]. Qed.

Lemma linear_regression_training_steps model loss_fn x y w w' r :
  linear_regression_training model loss_fn x y w = (w', Ok r) ->
  ktrace w' = ktrace w ++ concat (repeat (linear_regression_steps x) 10).
Proof.
  intros Hrun.
  refine (wp_run _ (fun _ w' => _) anyE w w' (Ok r) _ Hrun).
  unfold linear_regression_training.
  rewrite wp_bind.
  apply (loop_steps (linear_regression_epoch model loss_fn x y)
           (fun _ x' => x' = x) linear_regression_steps).
  { intros e st Q0 w0 HQ0. apply linear_regression_epoch_steps. intros st' w0' Hk.
    apply (HQ0 x); [reflexivity | exact Hk]. }
  intros rs st' w1 Hrs H1. rewrite wp_ret.
  apply Forall2_eq_repeat in Hrs. subst rs. rewrite H1. reflexivity.
Qed.

Lemma nonlinear_regression_training_steps model loss_fn x y w w' r :
  nonlinear_regression_training model loss_fn x y w = (w', Ok r) ->
  ktrace w' = ktrace w ++ concat (repeat (nonlinear_regression_steps x) 50).
Proof.
  intros Hrun.
  refine (wp_run _ (fun _ w' => _) anyE w w' (Ok r) _ Hrun).
  unfold nonlinear_regression_training.
  rewrite wp_bind.
  apply (loop_steps (nonlinear_regression_epoch model loss_fn x y)
           (fun _ x' => x' = x) nonlinear_regression_steps).
  { intros e st Q0 w0 HQ0. apply nonlinear_regression_epoch_steps. intros st' w0' Hk.
    apply (HQ0 x); [reflexivity | exact Hk]. }
  intros rs st' w1 Hrs H1. rewrite wp_ret.
  apply Forall2_eq_repeat in Hrs. subst rs. rewrite H1. reflexivity.
Qed.

End Traces.

(** ** Batches of a dataloader *)

Section Batches.

Lemma chunk_go_fuel {A} (k : nat) :
  (0 < k)%nat ->
  forall fuel (l : list A), (length l <= fuel)%nat ->
    chunk_go fuel k l = chunk_go (length l) k l.
Proof.
  intros Hk fuel. induction fuel as [fuel IH] using lt_wf_ind.
  intros l Hl. destruct l as [|a l].
  - destruct fuel; reflexivity.
  - destruct fuel as [|fuel]; [simpl in Hl; lia|].
    cbn [length chunk_go]. f_equal.
    assert (Hs : (length (skipn k (a :: l)) <= length l)%nat).
    { rewrite length_skipn. clear -Hk. simpl. lia. }
    assert (Hf : (length l <= fuel)%nat) by (clear -Hl; simpl in Hl; lia).
    rewrite (IH fuel); [|clear; lia|clear -Hs Hf; lia].
    rewrite (IH (length l)); [reflexivity|clear -Hf; lia|exact Hs].
Qed.

Lemma chunk_nil {A} (k : nat) : chunk k (@nil A) = [].
Proof. reflexivity. Qed.

Lemma chunk_cons {A} (k : nat) (a : A) (l : list A) :
  (0 < k)%nat ->
  chunk k (a :: l) = firstn k (a :: l) :: chunk k (skipn k (a :: l)).
Proof.
  intros Hk. unfold chunk. cbn [length chunk_go]. f_equal.
  apply chunk_go_fuel; [exact Hk|]. rewrite length_skipn. simpl. lia.
Qed.

(** Induction along the groups of a list. *)
Lemma chunk_ind {A} (k : nat) (P : list A -> Prop) :
  (0 < k)%nat ->
  P [] ->
  (forall a l, P (skipn k (a :: l)) -> P (a :: l)) ->
  forall l, P l.
Proof.
  intros Hk Hnil Hcons l.
  induction l as [l IH] using (induction_ltof1 _ (@length A)). unfold ltof in IH.
  destruct l as [|a l]; [exact Hnil|].
  apply Hcons. apply IH. rewrite length_skipn. simpl. lia.
Qed.

Lemma concat_chunk {A} (k : nat) (l : list A) :
  (0 < k)%nat -> concat (chunk k l) = l.
Proof.
  intros Hk. revert l. apply chunk_ind with (k := k); [exact Hk | reflexivity | intros a l IH].
  rewrite chunk_cons by exact Hk. cbn [concat]. rewrite IH.
  apply firstn_skipn.
Qed.

Lemma chunk_nonempty {A} (k : nat) (l : list A) :
  (0 < k)%nat -> Forall (fun g => (0 < length g <= k)%nat) (chunk k l).
Proof.
  intros Hk. revert l. apply chunk_ind with (k := k); [exact Hk | constructor | intros a l IH].
  rewrite chunk_cons by exact Hk. constructor; [|exact IH].
  rewrite length_firstn. simpl. lia.
Qed.

Lemma chunk_full {A} (k : nat) (l : list A) :
  (0 < k)%nat -> (length l mod k = 0)%nat ->
  Forall (fun g => length g = k) (chunk k l).
Proof.
  intros Hk. revert l.
  apply (@chunk_ind A k (fun l => (length l mod k = 0)%nat ->
                                   Forall (fun g => length g = k) (chunk k l)));
    [exact Hk | intros _; constructor | intros a l IH].
  intros Hmod. rewrite chunk_cons by exact Hk.
  assert (Hge : (k <= length (a :: l))%nat).
  { destruct (Nat.le_gt_cases k (length (a :: l))) as [?|Hlt]; [assumption|].
    rewrite Nat.mod_small in Hmod by exact Hlt. simpl in Hmod. lia. }
  constructor.
  - rewrite length_firstn. lia.
  - apply IH. rewrite length_skipn.
    replace (length (a :: l)) with ((length (a :: l) - k) + 1 * k)%nat in Hmod by lia.
    rewrite Nat.Div0.mod_add in Hmod. exact Hmod.
Qed.

Lemma ceil_div_step (n k : nat) :
  (0 < k)%nat -> (0 < n)%nat -> S ((n - k + k - 1) / k) = ((n + k - 1) / k)%nat.
Proof.
  intros Hk Hn. destruct (Nat.le_gt_cases k n) as [Hge|Hlt].
  - replace (n - k + k - 1)%nat with (n - 1)%nat by lia.
    replace (n + k - 1)%nat with ((n - 1) + 1 * k)%nat by lia.
    rewrite Nat.div_add by lia. lia.
  - replace (n - k + k - 1)%nat with (k - 1)%nat by lia.
    rewrite (Nat.div_small (k - 1) k) by lia.
    apply (Nat.div_unique _ _ 1 (n - 1)%nat); lia.
Qed.

Lemma floor_div_step (n k : nat) :
  (0 < k)%nat -> (k <= n)%nat -> S ((n - k) / k) = (n / k)%nat.
Proof.
  intros Hk Hge.
  replace n with ((n - k) + 1 * k)%nat at 2 by lia.
  rewrite Nat.div_add by lia. lia.
Qed.

Lemma length_chunk {A} (k : nat) (l : list A) :
  (0 < k)%nat -> length (chunk k l) = ((length l + k - 1) / k)%nat.
Proof.
  intros Hk. revert l. apply chunk_ind with (k := k); [exact Hk | | intros a l IH].
  - simpl. symmetry. apply Nat.div_small. lia.
  - rewrite chunk_cons by exact Hk. cbn [length]. rewrite IH, length_skipn.
    apply (ceil_div_step (S (length l)) k); [exact Hk | lia].
Qed.

Lemma length_chunk_full {A} (k : nat) (l : list A) :
  (0 < k)%nat ->
  length (List.filter (fun g => (length g =? k)%nat) (chunk k l)) = (length l / k)%nat.
Proof.
  intros Hk. revert l. apply chunk_ind with (k := k); [exact Hk | | intros a l IH].
  - simpl. symmetry. apply Nat.div_small. lia.
  - rewrite chunk_cons by exact Hk. cbn [List.filter].
    rewrite length_firstn.
    destruct (Nat.le_gt_cases k (length (a :: l))) as [Hge|Hlt].
    + rewrite Nat.min_l by exact Hge. rewrite Nat.eqb_refl. cbn [length].
      rewrite IH, length_skipn.
      apply (floor_div_step (S (length l)) k); [exact Hk | exact Hge].
    + rewrite Nat.min_r by lia.
      destruct (Nat.eqb_spec (length (a :: l)) k) as [Heq|_]; [lia|].
      rewrite IH, length_skipn.
      replace (length (a :: l) - k)%nat with 0%nat by lia.
      rewrite (Nat.div_small (length (a :: l)) k) by exact Hlt.
      apply Nat.div_small. lia.
Qed.

Lemma select_seq {A} (l : list A) : select l (seq 0 (length l)) = l.
Proof.
  unfold select.
  assert (H : forall pre, flat_map
            (fun i => match nth_error (pre ++ l) i with Some x => [x] | None => [] end)
            (seq (length pre) (length l)) = l).
  { induction l as [|a l IH]; intros pre; [reflexivity|].
    cbn [length seq flat_map].
    rewrite nth_error_app2 by lia. rewrite Nat.sub_diag. cbn [nth_error app].
    f_equal. specialize (IH (pre ++ [a])).
    rewrite <- app_assoc in IH. cbn [app] in IH.
    rewrite length_app in IH. cbn [length] in IH.
    rewrite Nat.add_1_r in IH. exact IH. }
  apply (H []).
Qed.

Lemma select_perm {A} (l : list A) (order : list nat) :
  Permutation order (seq 0 (length l)) -> Permutation (select l order) l.
Proof.
  intros H. rewrite <- (select_seq l) at 2.
  unfold select. apply Permutation_flat_map. exact H.
Qed.

Lemma length_select {A} (l : list A) (order : list nat) :
  Permutation order (seq 0 (length l)) -> length (select l order) = length l.
Proof. intros H. apply Permutation_length, select_perm, H. Qed.

(** [len(dataloader)] is the number of batches of every pass. *)
Lemma length_batches_of (dl : DataLoader) (order : list nat) :
  (0 < dl_batch_size dl)%nat ->
  Permutation order (seq 0 (length (dataset dl))) ->
  length (batches_of dl order) = dataloader_len dl.
Proof.
  intros Hk Ho. unfold batches_of, dataloader_len. rewrite length_map.
  destruct (drop_last dl).
  - rewrite length_chunk_full by exact Hk. rewrite length_select by exact Ho. reflexivity.
  - rewrite length_chunk by exact Hk. rewrite length_select by exact Ho. reflexivity.
Qed.

(** The groups a pass makes of the samples: each has between one and
    [batch_size] samples, all from the dataset. *)
Lemma batches_of_groups (dl : DataLoader) (order : list nat) :
  (0 < dl_batch_size dl)%nat ->
  exists groups,
    batches_of dl order = map collate groups /\
    Forall (fun g => (0 < length g <= dl_batch_size dl)%nat) groups /\
    Forall (fun g => Forall (fun s => In s (dataset dl)) g) groups.
Proof.
  intros Hk. unfold batches_of.
  set (all := chunk (dl_batch_size dl) (select (dataset dl) order)).
  assert (Hall : Forall (fun g => (0 < length g <= dl_batch_size dl)%nat) all)
    by (apply chunk_nonempty; exact Hk).
  assert (Hin : Forall (fun g => Forall (fun s => In s (dataset dl)) g) all).
  { assert (Hsel : Forall (fun s => In s (dataset dl)) (concat all)).
    { unfold all. rewrite concat_chunk by exact Hk.
      unfold select. apply List.Forall_forall. intros s Hs.
      apply in_flat_map in Hs. destruct Hs as (i & _ & Hi).
      destruct (nth_error (dataset dl) i) eqn:E; [|destruct Hi].
      destruct Hi as [<-|[]]. eapply nth_error_In; eauto. }
    clear -Hsel. induction all as [|g all IH]; [constructor|].
    cbn [concat] in Hsel. apply Forall_app in Hsel. destruct Hsel.
    constructor; auto. }
  destruct (drop_last dl).
  - exists (List.filter (fun g => (length g =? dl_batch_size dl)%nat) all).
    split; [reflexivity|]. split.
    + apply List.Forall_forall. intros g Hg. apply List.filter_In in Hg.
      destruct Hg as [Hg _]. revert g Hg. apply List.Forall_forall. exact Hall.
    + apply List.Forall_forall. intros g Hg. apply List.filter_In in Hg.
      destruct Hg as [Hg _]. revert g Hg. apply List.Forall_forall. exact Hin.
  - exists all. auto.
Qed.

(** With [drop_last=True], or when the batch size divides the number of
    samples, every batch is full. *)
Lemma batches_of_full (dl : DataLoader) (order : list nat) :
  (0 < dl_batch_size dl)%nat ->
  Permutation order (seq 0 (length (dataset dl))) ->
  drop_last dl = true \/ (length (dataset dl) mod dl_batch_size dl = 0)%nat ->
  Forall (fun b => length (fst b) = dl_batch_size dl) (batches_of dl order).
Proof.
  intros Hk Ho Hfull. unfold batches_of.
  apply List.Forall_forall. intros b Hb. apply in_map_iff in Hb.
  destruct Hb as (g & <- & Hg). unfold collate. cbn [fst]. rewrite length_map.
  destruct (drop_last dl) eqn:Edl.
  - apply List.filter_In in Hg. destruct Hg as [_ Hg]. apply Nat.eqb_eq. exact Hg.
  - destruct Hfull as [?|Hmod]; [discriminate|].
    revert g Hg. apply List.Forall_forall. apply chunk_full; [exact Hk|].
    rewrite length_select by exact Ho. exact Hmod.
Qed.

(** When the batch size divides the number of samples, the batches of a
    pass hold every sample exactly once. *)
Lemma batches_of_cover (dl : DataLoader) (order : list nat) :
  (0 < dl_batch_size dl)%nat ->
  Permutation order (seq 0 (length (dataset dl))) ->
  (length (dataset dl) mod dl_batch_size dl = 0)%nat ->
  Permutation (concat (map fst (batches_of dl order))) (map fst (dataset dl)).
Proof.
  intros Hk Ho Hmod. unfold batches_of.
  set (all := chunk (dl_batch_size dl) (select (dataset dl) order)).
  assert (Hfilter : List.filter (fun g => (length g =? dl_batch_size dl)%nat) all = all).
  { assert (Hfull : Forall (fun g => length g = dl_batch_size dl) all).
    { apply chunk_full; [exact Hk|]. rewrite length_select by exact Ho. exact Hmod. }
    clear -Hfull. induction Hfull as [|g all Hg _ IH]; [reflexivity|].
    cbn [List.filter]. rewrite Hg, Nat.eqb_refl, IH. reflexivity. }
  assert (Hgroups : (if drop_last dl
                     then List.filter (fun g => (length g =? dl_batch_size dl)%nat) all
                     else all) = all).
  { destruct (drop_last dl); [exact Hfilter | reflexivity]. }
  rewrite Hgroups. rewrite map_map.
  assert (Hc : concat (map (fun g => fst (collate g)) all) = map fst (concat all)).
  { clear. induction all as [|g all IH]; [reflexivity|].
    cbn [map concat]. rewrite map_app, IH. reflexivity. }
  rewrite Hc. unfold all. rewrite concat_chunk by exact Hk.
  apply Permutation_map, select_perm, Ho.
Qed.

(** The full groups of a list are a prefix of it: what they leave out is
    the incomplete last group. *)
Lemma chunk_full_rest {A} (k : nat) (l : list A) :
  (0 < k)%nat ->
  exists rest,
    concat (List.filter (fun g => (length g =? k)%nat) (chunk k l)) ++ rest = l /\
    length rest = (length l mod k)%nat.
Proof.
  intros Hk. revert l.
  apply (@chunk_ind A k (fun l => exists rest,
           concat (List.filter (fun g => (length g =? k)%nat) (chunk k l)) ++ rest = l /\
           length rest = (length l mod k)%nat));
    [exact Hk | | intros a l (rest & Heq & Hlen)].
  - exists []. split; [reflexivity|]. cbn [length]. symmetry. apply Nat.Div0.mod_0_l.
  - rewrite chunk_cons by exact Hk. cbn [List.filter]. rewrite length_firstn.
    destruct (Nat.le_gt_cases k (length (a :: l))) as [Hge|Hlt].
    + rewrite Nat.min_l by exact Hge. rewrite Nat.eqb_refl. cbn [concat].
      exists rest. split.
      * rewrite <- app_assoc, Heq. apply firstn_skipn.
      * rewrite Hlen, length_skipn.
        replace (length (a :: l)) with ((length (a :: l) - k) + 1 * k)%nat at 2 by lia.
        rewrite Nat.Div0.mod_add. reflexivity.
    + rewrite Nat.min_r by lia.
      destruct (Nat.eqb_spec (length (a :: l)) k) as [Heqk|_]; [lia|].
      rewrite skipn_all2 by lia. rewrite chunk_nil. cbn [List.filter concat app].
      exists (a :: l). split; [reflexivity|]. symmetry. apply Nat.mod_small. exact Hlt.
Qed.

(** The batches of a pass hold every sample exactly once, but for the
    samples of the incomplete last batch when [drop_last=True]. *)
Lemma batches_of_rest (dl : DataLoader) (order : list nat) :
  (0 < dl_batch_size dl)%nat ->
  Permutation order (seq 0 (length (dataset dl))) ->
  exists rest,
    Permutation (concat (map fst (batches_of dl order)) ++ rest) (map fst (dataset dl)) /\
    length rest
    = (if drop_last dl then length (dataset dl) mod dl_batch_size dl else 0)%nat.
Proof.
  intros Hk Ho. unfold batches_of.
  assert (Hc : forall groups : list (list Sample),
             concat (map (fun g => fst (collate g)) groups) = map fst (concat groups)).
  { induction groups as [|g groups IH]; [reflexivity|].
    cbn [map concat]. rewrite map_app, IH. reflexivity. }
  destruct (drop_last dl).
  - destruct (chunk_full_rest (dl_batch_size dl) (select (dataset dl) order) Hk)
      as (rest & Heq & Hlen).
    exists (map fst rest). rewrite map_map, Hc, <- map_app, length_map.
    split; [|etransitivity; [exact Hlen|];
             rewrite length_select by exact Ho; reflexivity].
    apply Permutation_map.
    exact (eq_ind_r (fun l => Permutation l (dataset dl)) (select_perm _ _ Ho) Heq).
  - exists []. rewrite map_map, Hc, app_nil_r, concat_chunk by exact Hk.
    split; [apply Permutation_map, select_perm, Ho | reflexivity].
Qed.

End Batches.

(** ** Reshaping full batches, and the accuracy *)

Section TensorFacts.

Lemma length_concat_uniform (d : nat) (x : Tensor2) :
  Forall (fun r => length r = d) x -> length (concat x) = (length x * d)%nat.
Proof.
  induction 1 as [|r x Hr _ IH]; [reflexivity|].
  cbn [concat length]. rewrite length_app, IH, Hr. reflexivity.
Qed.

Lemma rows_of_concat (d : nat) (x : Tensor2) :
  Forall (fun r => length r = d) x -> Tensor.rows_of (length x) d (concat x) = x.
Proof.
  induction 1 as [|r x Hr _ IH]; [reflexivity|].
  cbn [concat length Tensor.rows_of].
  assert (Hf : firstn d (r ++ concat x) = r) by (rewrite <- Hr; apply take_app_length).
  assert (Hs : skipn d (r ++ concat x) = concat x) by (rewrite <- Hr; apply drop_app_length).
  rewrite Hf, Hs, IH. reflexivity.
Qed.

(** [x.view(batch_size, -1)] leaves a full batch as it is. *)
Lemma concat_rows_of (rows cols : nat) (flat : list Q) :
  length flat = (rows * cols)%nat -> concat (Tensor.rows_of rows cols flat) = flat.
Proof.
  revert flat. induction rows as [|rows IH]; intros flat Hlen; cbn [Tensor.rows_of concat].
  - destruct flat; [reflexivity | discriminate Hlen].
  - rewrite IH by (rewrite length_skipn; lia). apply firstn_skipn.
Qed.

(** [view] regroups the values of a tensor, in the same row-major order. *)
Lemma view_infer_values (x x' : Tensor2) (rows : nat) :
  Tensor.view_infer x rows = Ok x' -> concat x' = concat x.
Proof.
  unfold Tensor.view_infer. destruct rows as [|k]; [discriminate|].
  destruct (Nat.eqb_spec (Tensor.numel x mod S k) 0) as [Hmod|_]; [|discriminate].
  intros H. unfold Ok in H.
  replace x' with (Tensor.rows_of (S k) (Tensor.numel x / S k) (concat x)) by congruence.
  apply concat_rows_of. apply Nat.Div0.div_exact in Hmod. exact Hmod.
Qed.

Lemma view_values (x x' : Tensor2) (rows cols : nat) :
  Tensor.view x rows cols = Ok x' -> concat x' = concat x.
Proof.
  unfold Tensor.view.
  destruct (Nat.eqb_spec (Tensor.numel x) (rows * cols)) as [Hn|_]; [|discriminate].
  intros H. unfold Ok in H.
  replace x' with (Tensor.rows_of rows cols (concat x)) by congruence.
  apply concat_rows_of. exact Hn.
Qed.

Lemma view_infer_full (d batch_size : nat) (x : Tensor2) :
  (0 < batch_size)%nat -> length x = batch_size ->
  Forall (fun r => length r = d) x ->
  Tensor.view_infer x batch_size = Ok x.
Proof.
  intros Hb Hx Hd. unfold Tensor.view_infer, Tensor.numel.
  destruct batch_size as [|b]; [lia|].
  rewrite (length_concat_uniform d x Hd), Hx.
  rewrite Nat.mul_comm, Nat.Div0.mod_mul, Nat.eqb_refl.
  rewrite Nat.div_mul by lia.
  rewrite <- Hx. rewrite rows_of_concat by exact Hd. reflexivity.
Qed.

(** [x.view(batch_size, input_size)] leaves a full batch as it is. *)
Lemma view_full (input_size batch_size : nat) (x : Tensor2) :
  length x = batch_size ->
  Forall (fun r => length r = input_size) x ->
  Tensor.view x batch_size input_size = Ok x.
Proof.
  intros Hx Hd. unfold Tensor.view, Tensor.numel.
  rewrite (length_concat_uniform input_size x Hd), Hx, Nat.eqb_refl.
  rewrite <- Hx. rewrite rows_of_concat by exact Hd. reflexivity.
Qed.

Lemma argmax_dim1_ok (y : Tensor2) :
  Forall (fun r => r <> []) y ->
  exists idx, Tensor.argmax_dim1 y = Ok idx /\ length idx = length y.
Proof.
  induction 1 as [|r y Hr _ (idx & Hidx & Hlen)].
  - exists []. split; reflexivity.
  - destruct r as [|v r]; [congruence|].
    exists (Z.of_nat (Tensor.argmax_go v 0 1 r) :: idx).
    unfold Tensor.argmax_dim1 in *. cbn [rmap Tensor.row_argmax rbind].
    rewrite Hidx. cbn [rbind]. split; [reflexivity | simpl; congruence].
Qed.

Lemma count_eq_range (a b : list Z) :
  (0 <= Tensor.count_eq a b <= Z.of_nat (length b))%Z.
Proof.
  unfold Tensor.count_eq. split; [lia|].
  apply Nat2Z.inj_le.
  etransitivity; [apply List.filter_length_le|].
  rewrite length_combine. lia.
Qed.

Lemma eq_sum_same_length (a b : list Z) :
  length a = length b -> Tensor.eq_sum a b = Ok (Tensor.count_eq a b).
Proof. intros H. unfold Tensor.eq_sum. rewrite H, Nat.eqb_refl. reflexivity. Qed.

(** [100 * correct / total] lies between 0 and 100. *)
Lemma accuracy_range (correct total : Z) :
  (0 <= correct <= total)%Z -> (0 < total)%Z ->
  exists acc, int_div (100 * correct) total = Ok acc /\ (0 <= acc)%Q /\ (acc <= 100)%Q.
Proof.
  intros Hc Ht. unfold int_div, float_div.
  destruct (Z.eqb_spec total 0) as [?|_]; [lia|].
  eexists. split; [reflexivity|].
  assert (Hpos : (0 < inject_Z total)%Q).
  { replace 0%Q with (inject_Z 0) by reflexivity. rewrite <- Zlt_Qlt. exact Ht. }
  split.
  - apply Qle_shift_div_l; [exact Hpos|].
    rewrite Qmult_0_l. replace 0%Q with (inject_Z 0) by reflexivity.
    rewrite <- Zle_Qle. lia.
  - apply Qle_shift_div_r; [exact Hpos|].
    replace 100%Q with (inject_Z 100) by reflexivity.
    rewrite <- inject_Z_mult, <- Zle_Qle. lia.
Qed.

End TensorFacts.

(** ** The evaluation functions *)

Section Evaluation.

Context `{FW : Framework}.

(** The module classifies batches of rows of length [d]: as long as its
    state satisfies [inv], a call on such a batch succeeds, keeps [inv] and
    returns one non-empty row of scores per sample. *)
Definition classifier_on (d : nat) (inv : Params -> Prop) : Prop :=
  forall mode p x,
    inv p -> Forall (fun r => length r = d) x ->
    exists p' y,
      module_call mode p x = Ok (p', y) /\ inv p' /\
      length y = length x /\ Forall (fun r => r <> []) y.

Variable d : nat.
Variable inv : Params -> Prop.
Hypothesis Hcls : classifier_on d inv.

(** The module object is there and satisfies [inv]. *)
Definition model_ok (model : nat) (w : World) : Prop :=
  exists o, heap w !! model = Some o /\ inv (state o).

Definition never : PyErr -> World -> Prop := fun _ _ => False.

(** The invariant of the evaluation loops after the batches [done]. *)
Definition eval_inv (model : nat) (done : list (Tensor2 * list Z))
    (st : Z * Z) (w : World) : Prop :=
  model_ok model w /\
  (0 <= fst st <= snd st)%Z /\
  (Z.of_nat (length done) <= snd st)%Z /\
  (done = [] -> snd st = 0%Z).

(** A batch as a dataloader over rows of length [d] makes them. *)
Definition good_batch (b : Tensor2 * list Z) : Prop :=
  Forall (fun r => length r = d) (fst b) /\
  (0 < length (fst b))%nat /\
  length (snd b) = length (fst b).

Lemma eval_cnn_batch_ok model b done st w :
  good_batch b -> eval_inv model done st w ->
  wp (eval_cnn_batch model b st)
     (fun st' w' => eval_inv model (done ++ [b]) st' w') never w.
Proof.
  intros (Hd & Hpos & Hlab) ((o & Hheap & Hinv) & Hc & Hn & _).
  destruct b as [images labels]. destruct st as [c t]. cbn [fst snd] in *.
  unfold eval_cnn_batch, call_model.
  wp_simpl. rewrite Hheap.
  destruct (Hcls (training o) (state o) images Hinv Hd)
    as (p' & y & Hcall & Hinv' & Hlen & Hne).
  wp_simpl. rewrite Hcall. wp_simpl. cbn [value snd fst].
  destruct (argmax_dim1_ok y Hne) as (idx & Hidx & Hl).
  rewrite Hidx. wp_simpl. rewrite eq_sum_same_length by congruence.
  wp_simpl. unfold eval_inv, model_ok. cbn [heap fst snd].
  pose proof (count_eq_range idx labels) as Hcount.
  split; [|split; [|split]].
  - eexists. rewrite lookup_insert_eq. split; [reflexivity | exact Hinv'].
  - lia.
  - rewrite length_app. cbn [length]. lia.
  - intros Hnil. destruct done; discriminate Hnil.
Qed.

Lemma eval_mlp_batch_ok batch_size model b done st w :
  (0 < batch_size)%nat -> length (fst b) = batch_size ->
  good_batch b -> eval_inv model done st w ->
  wp (eval_mlp_batch batch_size model b st)
     (fun st' w' => eval_inv model (done ++ [b]) st' w') never w.
Proof.
  intros Hb Hfull (Hd & Hpos & Hlab) ((o & Hheap & Hinv) & Hc & Hn & _).
  destruct b as [images labels]. destruct st as [c t]. cbn [fst snd] in *.
  unfold eval_mlp_batch, call_model.
  wp_simpl. rewrite (view_infer_full d batch_size images Hb Hfull Hd).
  wp_simpl. rewrite Hheap.
  destruct (Hcls (training o) (state o) images Hinv Hd)
    as (p' & y & Hcall & Hinv' & Hlen & Hne).
  wp_simpl. rewrite Hcall. wp_simpl. cbn [value snd fst].
  destruct (argmax_dim1_ok y Hne) as (idx & Hidx & Hl).
  rewrite Hidx. wp_simpl. rewrite eq_sum_same_length by congruence.
  wp_simpl. unfold eval_inv, model_ok. cbn [heap fst snd].
  pose proof (count_eq_range idx labels) as Hcount.
  split; [|split; [|split]].
  - eexists. rewrite lookup_insert_eq. split; [reflexivity | exact Hinv'].
  - lia.
  - rewrite length_app. cbn [length]. lia.
  - intros Hnil. destruct done; discriminate Hnil.
Qed.

Lemma good_batches (dl : DataLoader) (order : list nat) :
  (0 < dl_batch_size dl)%nat ->
  Forall (fun s => length (fst s) = d) (dataset dl) ->
  Forall good_batch (batches_of dl order).
Proof.
  intros Hk Hds.
  destruct (batches_of_groups dl order Hk) as (groups & -> & Hlen & Hin).
  apply List.Forall_forall. intros b Hb. apply in_map_iff in Hb.
  destruct Hb as (g & <- & Hg).
  pose proof (proj1 (List.Forall_forall _ _) Hlen g Hg) as Hg1.
  pose proof (proj1 (List.Forall_forall _ _) Hin g Hg) as Hg2.
  unfold good_batch, collate. cbn [fst snd]. rewrite !length_map.
  split; [|split; [exact (proj1 Hg1) | reflexivity]].
  apply List.Forall_forall. intros r Hr. apply in_map_iff in Hr.
  destruct Hr as (s & <- & Hs).
  pose proof (proj1 (List.Forall_forall _ _) Hg2 s Hs) as Hs'.
  exact (proj1 (List.Forall_forall _ _) Hds s Hs').
Qed.

(** What is left of an evaluation function after its loop. *)
Lemma eval_result model done st w :
  eval_inv model done st w ->
  match int_div (100 * fst st) (snd st) with
  | inr acc => (0 < length done)%nat /\ (0 <= acc)%Q /\ (acc <= 100)%Q
  | inl e => done = [] /\ e = ZeroDivisionError
  end.
Proof.
  intros (_ & Hc & Hn & H0). destruct done as [|b done].
  - rewrite (H0 eq_refl). cbn. auto.
  - cbn [length] in Hn.
    destruct (accuracy_range (fst st) (snd st)) as (acc & -> & H1 & H2); [lia | lia |].
    split; [cbn [length]; apply Nat.lt_0_succ | auto].
Qed.

End Evaluation.

Section EvaluationClaims.

Context `{FW : Framework}.

Lemma eval_cnn_classifier_total d inv model dl w :
  classifier_on d inv ->
  (0 < dl_batch_size dl)%nat ->
  Forall (fun s => length (fst s) = d) (dataset dl) ->
  model_ok inv model w ->
  wp (eval_cnn_classifier model dl)
     (fun acc _ => (0 < dataloader_len dl)%nat /\ (0 <= acc)%Q /\ (acc <= 100)%Q)
     (fun e _ => dataloader_len dl = 0%nat /\ e = ZeroDivisionError) w.
Proof.
  intros Hcls Hk Hds (o & Hheap & Hinv).
  unfold eval_cnn_classifier, set_training.
  wp_simpl. rewrite Hheap. wp_simpl.
  apply wp_iter. intros order d' Ho. wp_simpl.
  eapply wp_mono.
  - apply (wp_for_each_in (eval_cnn_batch model) (good_batch d)
             (eval_inv inv model) (never)) with (done := []).
    + apply good_batches; assumption.
    + unfold eval_inv, model_ok. cbn [heap fst snd length].
      split; [|split; [lia | split; [lia | reflexivity]]].
      eexists. rewrite lookup_insert_eq. split; [reflexivity | exact Hinv].
    + intros done' b st w1 Hb HI. apply (eval_cnn_batch_ok d inv Hcls); assumption.
  - intros [correct total] w1 HI. cbn [app] in HI.
    pose proof (eval_result inv model _ _ _ HI) as Hres. cbn [fst snd] in Hres.
    wp_simpl. destruct (int_div (100 * correct) total) as [e|acc].
    + destruct Hres as [Hnil ->]. split; [|reflexivity].
      rewrite <- (length_batches_of dl order Hk Ho), Hnil. reflexivity.
    + wp_simpl. destruct Hres as (Hpos & H0 & H100).
      rewrite <- (length_batches_of dl order Hk Ho). auto.
  - intros e w1 [].
Qed.

Lemma eval_mlp_classifier_total d inv batch_size model dl w :
  classifier_on d inv ->
  (0 < dl_batch_size dl)%nat ->
  dl_batch_size dl = batch_size ->
  drop_last dl = true \/ (length (dataset dl) mod dl_batch_size dl = 0)%nat ->
  Forall (fun s => length (fst s) = d) (dataset dl) ->
  model_ok inv model w ->
  wp (eval_mlp_classifier batch_size model dl)
     (fun acc _ => (0 < dataloader_len dl)%nat /\ (0 <= acc)%Q /\ (acc <= 100)%Q)
     (fun e _ => dataloader_len dl = 0%nat /\ e = ZeroDivisionError) w.
Proof.
  intros Hcls Hk Hbs Hfull Hds (o & Hheap & Hinv).
  unfold eval_mlp_classifier, set_training.
  wp_simpl. rewrite Hheap. wp_simpl.
  apply wp_iter. intros order d' Ho. wp_simpl.
  eapply wp_mono.
  - apply (wp_for_each_in (eval_mlp_batch batch_size model)
             (fun b => good_batch d b /\ length (fst b) = batch_size)
             (eval_inv inv model) (never)) with (done := []).
    + pose proof (good_batches d dl order Hk Hds) as Hg.
      pose proof (batches_of_full dl order Hk Ho Hfull) as Hf.
      rewrite Hbs in Hf. clear -Hg Hf.
      induction Hg as [|b bs Hb _ IH]; [constructor|].
      inversion Hf; subst. constructor; auto.
    + unfold eval_inv, model_ok. cbn [heap fst snd length].
      split; [|split; [lia | split; [lia | reflexivity]]].
      eexists. rewrite lookup_insert_eq. split; [reflexivity | exact Hinv].
    + intros done' b st w1 [Hb Hlen] HI.
      apply (eval_mlp_batch_ok d inv Hcls); try assumption.
      rewrite <- Hbs. exact Hk.
  - intros [correct total] w1 HI. cbn [app] in HI.
    pose proof (eval_result inv model _ _ _ HI) as Hres. cbn [fst snd] in Hres.
    wp_simpl. destruct (int_div (100 * correct) total) as [e|acc].
    + destruct Hres as [Hnil ->]. split; [|reflexivity].
      rewrite <- (length_batches_of dl order Hk Ho), Hnil. reflexivity.
    + wp_simpl. destruct Hres as (Hpos & H0 & H100).
      rewrite <- (length_batches_of dl order Hk Ho). auto.
  - intros e w1 [].
Qed.


End EvaluationClaims.

(** ** Which objects a computation writes to *)

Section Confined.

Context `{FW : Framework}.

(** From [w] to [w'] no object that existed in [w] has changed, except
    possibly the one at [tr]. *)
Definition touches_only (tr : nat) (w w' : World) : Prop :=
  forall a, a <> tr -> is_Some (heap w !! a) -> heap w' !! a = heap w !! a.

Lemma touches_only_refl tr w : touches_only tr w w.
Proof. intros a _ _. reflexivity. Qed.

Lemma touches_only_trans tr w1 w2 w3 :
  touches_only tr w1 w2 -> touches_only tr w2 w3 -> touches_only tr w1 w3.
Proof.
  intros H12 H23 a Ha Hs. rewrite <- (H12 a Ha Hs). apply H23; [exact Ha|].
  rewrite (H12 a Ha Hs). exact Hs.
Qed.

(** [m] writes to no existing object other than [tr], and its results
    satisfy [R]. *)
Definition confined {A} (tr : nat) (m : M A) (R : A -> Prop) : Prop :=
  forall w w' r, m w = (w', r) ->
    touches_only tr w w' /\ (forall x, r = inr x -> R x).

Lemma confined_weaken {A} tr (m : M A) (R R' : A -> Prop) :
  confined tr m R -> (forall x, R x -> R' x) -> confined tr m R'.
Proof.
  intros Hm HR w w' r Hrun. destruct (Hm w w' r Hrun) as [Ht Hx].
  split; [exact Ht | intros x Hr; apply HR, Hx, Hr].
Qed.

Lemma confined_ret {A} tr (x : A) (R : A -> Prop) : R x -> confined tr (ret x) R.
Proof.
  intros HR w w' r Hrun. inversion Hrun; subst.
  split; [apply touches_only_refl | intros y Hy; inversion Hy; subst; exact HR].
Qed.

Lemma confined_lift {A} tr (r : Result A) : confined tr (lift r) (fun x => r = inr x).
Proof.
  intros w w' r' Hrun. inversion Hrun; subst.
  split; [apply touches_only_refl | intros y Hy; exact Hy].
Qed.

Lemma confined_bind {A B} tr (m : M A) (k : A -> M B) (R1 : A -> Prop) (R2 : B -> Prop) :
  confined tr m R1 -> (forall x, R1 x -> confined tr (k x) R2) ->
  confined tr (bind m k) R2.
Proof.
  intros Hm Hk w w' r Hrun. unfold bind in Hrun.
  destruct (m w) as [w1 [e|x]] eqn:E1.
  - inversion Hrun; subst. destruct (Hm w w' (inl e) E1) as [Ht _].
    split; [exact Ht | intros y Hy; discriminate].
  - destruct (Hm w w1 (inr x) E1) as [Ht1 Hx].
    destruct (Hk x (Hx x eq_refl) w1 w' r Hrun) as [Ht2 Hy].
    split; [eapply touches_only_trans; eauto | exact Hy].
Qed.

Lemma confined_tell tr e : confined tr (tell e) (fun _ => True).
Proof.
  intros w w' r Hrun. inversion Hrun; subst.
  split; [intros a _ _; reflexivity | auto].
Qed.

Lemma confined_get_obj tr a : confined tr (get_obj a) (fun _ => True).
Proof.
  intros w w' r Hrun. unfold get_obj in Hrun.
  destruct (heap w !! a); inversion Hrun; subst;
    (split; [apply touches_only_refl | auto]).
Qed.

Lemma confined_set_obj tr o : confined tr (set_obj tr o) (fun _ => True).
Proof.
  intros w w' r Hrun. inversion Hrun; subst.
  split; [|auto]. intros a Ha _. cbn [heap]. apply lookup_insert_ne. congruence.
Qed.

Lemma confined_alloc tr o : confined tr (alloc o) (fun _ => True).
Proof.
  intros w w' r Hrun. inversion Hrun; subst.
  split; [|auto]. intros a Ha Hs. cbn [heap]. apply lookup_insert_ne.
  intros Heq. subst a. apply elem_of_dom in Hs. exact (is_fresh _ Hs).
Qed.

Lemma confined_draw_order tr n : confined tr (draw_order n) (fun _ => True).
Proof.
  intros w w' r Hrun. inversion Hrun; subst.
  split; [intros a _ _; reflexivity | auto].
Qed.

Lemma confined_for_each {X S} tr (body : X -> S -> M S) (I : S -> Prop) :
  (forall x s, I s -> confined tr (body x s) I) ->
  forall xs s, I s -> confined tr (for_each xs body s) I.
Proof.
  intros Hbody xs. induction xs as [|x xs IH]; intros s Hs; simpl.
  - apply confined_ret. exact Hs.
  - eapply confined_bind; [apply Hbody; exact Hs | intros s' Hs'; apply IH; exact Hs'].
Qed.

(** Chaining when the result of the first step does not matter. *)
Lemma confined_seq {A B} tr (m : M A) (k : A -> M B) (R1 : A -> Prop) (R2 : B -> Prop) :
  confined tr m R1 -> (forall x, confined tr (k x) R2) ->
  confined tr (bind m k) R2.
Proof. intros Hm Hk. eapply confined_bind; [exact Hm | intros x _; apply Hk]. Qed.

Lemma confined_any {A} tr (m : M A) (R : A -> Prop) :
  confined tr m R -> confined tr m (fun _ => True).
Proof. intros H. eapply confined_weaken; [exact H | auto]. Qed.

Lemma confined_deepcopy tr a : confined tr (deepcopy a) (fun _ => True).
Proof.
  unfold deepcopy. eapply confined_seq; [apply confined_get_obj | intros o].
  apply confined_alloc.
Qed.

Lemma confined_set_training tr mode : confined tr (set_training tr mode) (fun _ => True).
Proof.
  unfold set_training. eapply confined_seq; [apply confined_get_obj | intros o].
  apply confined_set_obj.
Qed.

Lemma confined_call_model tr ge x :
  confined tr (call_model ge tr x) (fun p => pred_module p = tr).
Proof.
  unfold call_model.
  eapply confined_seq; [apply confined_tell | intros _].
  eapply confined_seq; [apply confined_get_obj | intros o].
  eapply confined_seq; [apply confined_lift | intros py].
  eapply confined_seq; [apply confined_set_obj | intros _].
  apply confined_ret. reflexivity.
Qed.

Lemma confined_call_loss tr loss_fn pred target :
  pred_module pred = tr ->
  confined tr (call_loss loss_fn pred target) (fun l => loss_module l = tr).
Proof.
  intros Hp. unfold call_loss.
  eapply confined_seq; [apply confined_lift | intros v].
  eapply confined_seq; [apply confined_tell | intros _].
  apply confined_ret. exact Hp.
Qed.

Lemma confined_zero_grad {O} tr (optimizer : OptimizerObj O) :
  opt_params optimizer = tr -> confined tr (zero_grad optimizer) (fun _ => True).
Proof.
  intros <-. unfold zero_grad.
  eapply confined_seq; [apply confined_tell | intros _].
  eapply confined_seq; [apply confined_get_obj | intros o].
  apply confined_set_obj.
Qed.

Lemma confined_backward tr loss :
  loss_module loss = tr -> confined tr (backward loss) (fun _ => True).
Proof.
  intros <-. unfold backward.
  eapply confined_seq; [apply confined_tell | intros _].
  eapply confined_seq; [apply confined_get_obj | intros o].
  apply confined_set_obj.
Qed.

Lemma confined_step {O} tr (optimizer : OptimizerObj O) :
  opt_params optimizer = tr ->
  confined tr (step optimizer) (fun o' => opt_params o' = tr).
Proof.
  intros <-. unfold step.
  eapply confined_seq; [apply confined_get_obj | intros o].
  eapply confined_seq; [apply confined_tell | intros _].
  eapply confined_seq; [apply confined_set_obj | intros _].
  apply confined_ret. reflexivity.
Qed.

Lemma confined_accumulate tr t v : confined tr (accumulate t v) (fun _ => True).
Proof.
  unfold accumulate. eapply confined_seq; [apply confined_tell | intros _].
  apply confined_ret. exact Logic.I.
Qed.

Lemma confined_print tr v : confined tr (print v) (fun _ => True).
Proof. apply confined_tell. Qed.

Lemma confined_print_if tr (verbose : bool) v :
  confined tr (if verbose then print v else ret tt) (fun _ => True).
Proof. destruct verbose; [apply confined_print | apply confined_ret; exact Logic.I]. Qed.

Lemma confined_append tr l v : confined tr (append l v) (fun _ => True).
Proof.
  unfold append. eapply confined_seq; [apply confined_tell | intros _].
  apply confined_ret. exact Logic.I.
Qed.

Lemma confined_iter tr dl : confined tr (iter dl) (fun _ => True).
Proof.
  unfold iter. eapply confined_seq.
  - destruct (shuffle dl);
      [apply confined_draw_order | apply (confined_ret tr _ (fun _ => True)); exact Logic.I].
  - intros order. apply confined_ret. exact Logic.I.
Qed.

(** The six steps of a training batch, after the reshaping. *)
Lemma confined_train_steps {O} tr loss_fn (images : Tensor2) (labels : list Z)
    (optimizer : OptimizerObj O) (tr_loss : Q) (scale : Q) :
  opt_params optimizer = tr ->
  confined tr
    (bind (call_model true tr images) (fun labels_pred =>
     bind (call_loss loss_fn labels_pred (ClassLabels labels)) (fun loss =>
     bind (zero_grad optimizer) (fun _ =>
     bind (backward loss) (fun _ =>
     bind (step optimizer) (fun optimizer =>
     bind (accumulate tr_loss (item loss * scale)) (fun tr_loss =>
     ret (optimizer, tr_loss))))))))
    (fun st => opt_params (fst st) = tr).
Proof.
  intros Ho.
  eapply confined_bind; [apply confined_call_model | intros p Hp].
  eapply confined_bind; [apply confined_call_loss; exact Hp | intros l Hl].
  eapply confined_seq; [apply confined_zero_grad; exact Ho | intros _].
  eapply confined_seq; [apply confined_backward; exact Hl | intros _].
  eapply confined_bind; [apply confined_step; exact Ho | intros o' Ho'].
  eapply confined_seq; [apply confined_accumulate | intros t].
  apply confined_ret. exact Ho'.
Qed.

Lemma confined_training_mlp_batch batch_size tr loss_fn batch st :
  opt_params (fst st) = tr ->
  confined tr (training_mlp_batch batch_size tr loss_fn batch st)
    (fun st' => opt_params (fst st') = tr).
Proof.
  intros Ho. unfold training_mlp_batch. destruct batch as [images labels].
  destruct st as [optimizer tr_loss]. cbn [fst] in Ho.
  eapply confined_seq; [apply confined_lift | intros x].
  apply confined_train_steps. exact Ho.
Qed.

Lemma confined_train_val_mlp_batch tr input_size batch_size loss_fn batch st :
  opt_params (fst st) = tr ->
  confined tr (train_val_mlp_batch tr input_size batch_size loss_fn batch st)
    (fun st' => opt_params (fst st') = tr).
Proof.
  intros Ho. unfold train_val_mlp_batch. destruct batch as [images labels].
  destruct st as [optimizer tr_loss]. cbn [fst] in Ho.
  eapply confined_seq; [apply confined_lift | intros x].
  apply confined_train_steps. exact Ho.
Qed.

Lemma confined_training_val_cnn_batch tr loss_fn batch st :
  opt_params (fst st) = tr ->
  confined tr (training_val_cnn_batch tr loss_fn batch st)
    (fun st' => opt_params (fst st') = tr).
Proof.
  intros Ho. unfold training_val_cnn_batch. destruct batch as [images labels].
  destruct st as [optimizer tr_loss]. cbn [fst] in Ho.
  apply confined_train_steps. exact Ho.
Qed.

Lemma confined_eval_mlp_classifier batch_size tr dl :
  confined tr (eval_mlp_classifier batch_size tr dl) (fun _ => True).
Proof.
  unfold eval_mlp_classifier.
  eapply confined_seq; [apply confined_set_training | intros _].
  eapply confined_seq; [apply confined_iter | intros batches].
  eapply confined_seq.
  - apply (confined_for_each tr (eval_mlp_batch batch_size tr) (fun _ => True));
      [|exact Logic.I].
    intros [images labels] [c t] _. unfold eval_mlp_batch.
    eapply confined_seq; [apply confined_lift | intros x].
    eapply confined_seq; [apply confined_call_model | intros p].
    eapply confined_seq; [apply confined_lift | intros idx].
    eapply confined_seq; [apply confined_lift | intros m].
    apply confined_ret. exact Logic.I.
  - intros [c t].
    eapply confined_seq; [apply confined_lift | intros acc].
    apply confined_ret. exact Logic.I.
Qed.

Lemma confined_eval_cnn_classifier tr dl :
  confined tr (eval_cnn_classifier tr dl) (fun _ => True).
Proof.
  unfold eval_cnn_classifier.
  eapply confined_seq; [apply confined_set_training | intros _].
  eapply confined_seq; [apply confined_iter | intros batches].
  eapply confined_seq.
  - apply (confined_for_each tr (eval_cnn_batch tr) (fun _ => True));
      [|exact Logic.I].
    intros [images labels] [c t] _. unfold eval_cnn_batch.
    eapply confined_seq; [apply confined_call_model | intros p].
    eapply confined_seq; [apply confined_lift | intros idx].
    eapply confined_seq; [apply confined_lift | intros m].
    apply confined_ret. exact Logic.I.
  - intros [c t].
    eapply confined_seq; [apply confined_lift | intros acc].
    apply confined_ret. exact Logic.I.
Qed.

Lemma confined_training_mlp_epoch batch_size tr dl loss_fn verbose epoch st :
  opt_params (fst st) = tr ->
  confined tr (training_mlp_epoch batch_size tr dl loss_fn verbose epoch st)
    (fun st' => opt_params (fst st') = tr).
Proof.
  intros Ho. unfold training_mlp_epoch. destruct st as [optimizer train_losses].
  cbn [fst] in Ho.
  eapply confined_seq; [apply confined_iter | intros batches].
  eapply confined_bind.
  - apply (confined_for_each tr (training_mlp_batch batch_size tr loss_fn)
             (fun st => opt_params (fst st) = tr)); [|exact Ho].
    intros b s Hs. apply confined_training_mlp_batch. exact Hs.
  - intros [optimizer' tr_loss] Ho'. cbn [fst] in Ho'.
    eapply confined_seq; [apply confined_lift | intros t].
    eapply confined_seq; [apply confined_append | intros l].
    eapply confined_seq; [apply confined_print_if | intros _].
    apply confined_ret. exact Ho'.
Qed.

Lemma confined_train_val_mlp_epoch global_batch_size tr dl vdl input_size batch_size
    loss_fn verbose epoch st :
  opt_params (bs_optimizer st) = tr ->
  confined tr
    (train_val_mlp_epoch global_batch_size tr dl vdl input_size batch_size
       loss_fn verbose epoch st)
    (fun st' => opt_params (bs_optimizer st') = tr).
Proof.
  intros Ho. unfold train_val_mlp_epoch.
  eapply confined_seq; [apply confined_iter | intros batches].
  eapply confined_bind.
  - apply (confined_for_each tr (train_val_mlp_batch tr input_size batch_size loss_fn)
             (fun st => opt_params (fst st) = tr)); [|exact Ho].
    intros b s Hs. apply confined_train_val_mlp_batch. exact Hs.
  - intros [optimizer' tr_loss] Ho'. cbn [fst] in Ho'.
    eapply confined_seq; [apply confined_lift | intros t].
    eapply confined_seq; [apply confined_append | intros l].
    eapply confined_seq; [apply confined_print_if | intros _].
    eapply confined_seq; [apply confined_eval_mlp_classifier | intros acc].
    eapply confined_seq; [apply confined_append | intros accs].
    eapply confined_seq.
    + destruct (Qltb (bs_accuracy_max st) acc).
      * eapply confined_seq; [apply confined_deepcopy | intros mo].
        apply (confined_ret tr _ (fun _ => True)). exact Logic.I.
      * apply (confined_ret tr _ (fun _ => True)). exact Logic.I.
    + intros [am mo].
      eapply confined_seq; [apply confined_print_if | intros _].
      apply confined_ret. exact Ho'.
Qed.

Lemma confined_training_val_cnn_epoch tr dl vdl loss_fn verbose epoch st :
  opt_params (bs_optimizer st) = tr ->
  confined tr (training_val_cnn_epoch tr dl vdl loss_fn verbose epoch st)
    (fun st' => opt_params (bs_optimizer st') = tr).
Proof.
  intros Ho. unfold training_val_cnn_epoch.
  eapply confined_seq; [apply confined_iter | intros batches].
  eapply confined_bind.
  - apply (confined_for_each tr (training_val_cnn_batch tr loss_fn)
             (fun st => opt_params (fst st) = tr)); [|exact Ho].
    intros b s Hs. apply confined_training_val_cnn_batch. exact Hs.
  - intros [optimizer' tr_loss] Ho'. cbn [fst] in Ho'.
    eapply confined_seq; [apply confined_lift | intros t].
    eapply confined_seq; [apply confined_append | intros l].
    eapply confined_seq; [apply confined_eval_cnn_classifier | intros acc].
    eapply confined_seq; [apply confined_append | intros accs].
    eapply confined_seq; [apply confined_print_if | intros _].
    eapply confined_seq.
    + destruct (Qltb (bs_accuracy_max st) acc).
      * eapply confined_seq; [apply confined_deepcopy | intros mo].
        apply (confined_ret tr _ (fun _ => True)). exact Logic.I.
      * apply (confined_ret tr _ (fun _ => True)). exact Logic.I.
    + intros [mo am]. apply confined_ret. exact Ho'.
Qed.

Lemma confined_return_best {O} tr (st : BestState O) :
  confined tr (return_best st) (fun _ => True).
Proof.
  unfold return_best. destruct (bs_model_opt st).
  - apply confined_ret. exact Logic.I.
  - apply confined_any with (R := fun x => Raise UnboundLocalError = inr x).
    apply confined_lift.
Qed.

End Confined.

(** ** The argument model is left alone *)

Section Frame.

Context `{FW : Framework}.

(** A computation that starts by deep-copying [model] and then writes only
    to the copy leaves [model] as it was. *)
Lemma deepcopy_then_confined {A} (model : nat) (k : nat -> M A) w w' r o :
  heap w !! model = Some o ->
  (forall tr, confined tr (k tr) (fun _ => True)) ->
  bind (deepcopy model) k w = (w', r) ->
  heap w' !! model = Some o.
Proof.
  intros Hheap Hk Hrun.
  unfold bind at 1, deepcopy, bind, get_obj, alloc in Hrun. rewrite Hheap in Hrun.
  set (tr := fresh (dom (heap w))) in *.
  destruct (Hk tr _ _ _ Hrun) as [Ht _].
  assert (Hne : model <> tr).
  { intros Heq. apply (is_fresh (dom (heap w))). fold tr. rewrite <- Heq.
    apply elem_of_dom. rewrite Hheap. eauto. }
  rewrite (Ht model Hne); cbn [heap].
  - rewrite lookup_insert_ne by congruence. exact Hheap.
  - rewrite lookup_insert_ne by congruence. rewrite Hheap. eauto.
Qed.

(** C8. The three training functions leave the model they are given
    unchanged, whether they return or raise: every parameter, buffer and
    flag of the argument has its value of before the call. *)
Theorem training_leaves_model_unchanged
    (global_batch_size model : nat) (train_dataloader valid_dataloader : DataLoader)
    (input_size batch_size : nat) (num_epochs : Z) (loss_fn : LossFn)
    (learning_rate : Q) (verbose : bool) (w : World) (o : ModuleObj) :
  heap w !! model = Some o ->
  (forall w' r,
     training_mlp_classifier global_batch_size model train_dataloader num_epochs
       loss_fn learning_rate verbose w = (w', r) ->
     heap w' !! model = Some o) /\
  (forall w' r,
     train_val_mlp_classifier global_batch_size model train_dataloader
       valid_dataloader input_size batch_size num_epochs loss_fn learning_rate
       verbose w = (w', r) ->
     heap w' !! model = Some o) /\
  (forall w' r,
     training_val_cnn_classifier model train_dataloader valid_dataloader
       num_epochs loss_fn learning_rate verbose w = (w', r) ->
     heap w' !! model = Some o).
Proof.
  intros Hheap. split; [|split]; intros w' r Hrun.
  - unfold training_mlp_classifier in Hrun.
    eapply deepcopy_then_confined; [exact Hheap | | exact Hrun].
    intros tr.
    eapply confined_seq; [apply confined_set_training | intros _].
    eapply confined_seq.
    + apply (confined_for_each tr
               (training_mlp_epoch global_batch_size tr train_dataloader loss_fn verbose)
               (fun st => opt_params (fst st) = tr)); [|reflexivity].
      intros e st Hst. apply confined_training_mlp_epoch. exact Hst.
    + intros st. apply confined_ret. exact Logic.I.
  - unfold train_val_mlp_classifier in Hrun.
    eapply deepcopy_then_confined; [exact Hheap | | exact Hrun].
    intros tr.
    eapply confined_seq; [apply confined_set_training | intros _].
    eapply confined_seq; [apply confined_deepcopy | intros mo].
    eapply confined_seq.
    + apply (confined_for_each tr
               (train_val_mlp_epoch global_batch_size tr train_dataloader
                  valid_dataloader input_size batch_size loss_fn verbose)
               (fun st => opt_params (bs_optimizer st) = tr)); [|reflexivity].
      intros e st Hst. apply confined_train_val_mlp_epoch. exact Hst.
    + intros st. apply confined_return_best.
  - unfold training_val_cnn_classifier in Hrun.
    eapply deepcopy_then_confined; [exact Hheap | | exact Hrun].
    intros tr.
    eapply confined_seq; [apply confined_set_training | intros _].
    eapply confined_seq.
    + apply (confined_for_each tr
               (training_val_cnn_epoch tr train_dataloader valid_dataloader
                  loss_fn verbose)
               (fun st => opt_params (bs_optimizer st) = tr)); [|reflexivity].
      intros e st Hst. apply confined_training_val_cnn_epoch. exact Hst.
    + intros st. apply confined_return_best.
Qed.

End Frame.

(** ** Keeping the best model *)

Section BestModel.

Context `{FW : Framework}.

Lemma Qltb_true (a b : Q) : Qltb a b = true -> (a < b)%Q.
Proof.
  unfold Qltb. intros H. apply Qnot_le_lt. intros Hle.
  apply Qle_bool_iff in Hle. rewrite Hle in H. discriminate.
Qed.

Lemma Qltb_false (a b : Q) : Qltb a b = false -> (b <= a)%Q.
Proof.
  unfold Qltb. intros H. apply Qle_bool_iff.
  destruct (Qle_bool b a); [reflexivity | discriminate].
Qed.

(** [deepcopy] of an object: same parameters, buffers and mode. *)
Definition copy_of (o : ModuleObj) : ModuleObj :=
  {| state := state o; grad := grad_zero; training := training o |}.

(** In [w] the object at [mo] is a copy of the one at [tr]. *)
Definition is_copy (w : World) (mo tr : nat) : Prop :=
  exists otr, heap w !! tr = Some otr /\ heap w !! mo = Some (copy_of otr).

(** What one epoch does to the loop-carried variables: it appends the
    accuracy of the epoch and, on a strict improvement only, records it and
    rebinds [model_opt] to a fresh copy of the model under training. *)
Definition best_step (tr : nat) (st st' : BestState Adam) (w' : World) : Prop :=
  exists acc,
    bs_val_accuracies st' = bs_val_accuracies st ++ [acc] /\
    if Qltb (bs_accuracy_max st) acc
    then bs_accuracy_max st' = acc /\
         exists mo, bs_model_opt st' = Some mo /\ mo <> tr /\ is_copy w' mo tr
    else bs_accuracy_max st' = bs_accuracy_max st /\
         bs_model_opt st' = bs_model_opt st.

(** Skipping over a part of a computation whose effect does not matter. *)
Lemma wp_skip {A B} (m : M A) (k : A -> M B) (Q : B -> World -> Prop) w :
  (forall x w', wp (k x) Q anyE w') -> wp (bind m k) Q anyE w.
Proof.
  intros H. rewrite wp_bind. unfold wp at 1.
  destruct (m w) as [w' [e|x]]; [exact Logic.I | apply H].
Qed.

Lemma is_copy_insert w mo tr otr tr' :
  mo <> tr -> heap w !! tr = Some otr ->
  is_copy {| heap := <[mo := copy_of otr]> (heap w); draws := draws w; trace := tr' |} mo tr.
Proof.
  intros Hne Htr. exists otr. cbn [heap].
  rewrite lookup_insert_ne by congruence. rewrite lookup_insert_eq. auto.
Qed.

Lemma fresh_ne (w : World) (tr : nat) (otr : ModuleObj) :
  heap w !! tr = Some otr -> fresh (dom (heap w)) <> tr.
Proof.
  intros Htr Heq. apply (is_fresh (dom (heap w))). rewrite Heq.
  apply elem_of_dom. rewrite Htr. eauto.
Qed.

(** The branch on the accuracy at the end of an epoch, in a goal
    [wp (if Qltb amax acc then ... deepcopy ... else ...) ...]. *)
Ltac best_branch st acc tr :=
  let Hlt := fresh "Hlt" in
  let Htr := fresh "Htr" in
  let otr := fresh "otr" in
  destruct (Qltb (bs_accuracy_max st) acc) eqn:Hlt;
  [ unfold deepcopy; wp_simpl;
    match goal with
    | |- context [heap ?w !! tr] =>
        destruct (heap w !! tr) as [otr|] eqn:Htr; [|exact Logic.I];
        wp_simpl; try (destruct_verbose_print);
        exists acc; cbn [bs_val_accuracies bs_accuracy_max bs_model_opt];
        (split; [reflexivity|]); rewrite Hlt; (split; [reflexivity|]);
        eexists; (split; [reflexivity|]);
        (split; [exact (fresh_ne w tr otr Htr)|]);
        (apply (is_copy_insert w); [exact (fresh_ne w tr otr Htr) | exact Htr])
    end
  | wp_simpl; try (destruct_verbose_print);
    exists acc; cbn [bs_val_accuracies bs_accuracy_max bs_model_opt];
    (split; [reflexivity|]); rewrite Hlt; split; reflexivity ]
with destruct_verbose_print :=
  match goal with
  | |- context [if ?v then print _ else ret tt] => destruct v; unfold print; wp_simpl
  end.

Lemma train_val_mlp_epoch_best global_batch_size tr dl vdl input_size batch_size
    loss_fn verbose epoch st w :
  wp (train_val_mlp_epoch global_batch_size tr dl vdl input_size batch_size
        loss_fn verbose epoch st)
     (fun st' w' => best_step tr st st' w') anyE w.
Proof.
  unfold train_val_mlp_epoch.
  apply wp_skip. intros batches w1.
  apply wp_skip. intros [optimizer tr_loss] w2.
  apply wp_skip. intros tr_loss' w3.
  apply wp_skip. intros train_losses w4.
  apply wp_skip. intros _ w5.
  apply wp_skip. intros acc w6.
  unfold append. wp_simpl.
  best_branch st acc tr.
Qed.

Lemma training_val_cnn_epoch_best tr dl vdl loss_fn verbose epoch st w :
  wp (training_val_cnn_epoch tr dl vdl loss_fn verbose epoch st)
     (fun st' w' => best_step tr st st' w') anyE w.
Proof.
  unfold training_val_cnn_epoch.
  apply wp_skip. intros batches w1.
  apply wp_skip. intros [optimizer tr_loss] w2.
  apply wp_skip. intros tr_loss' w3.
  apply wp_skip. intros train_losses w4.
  apply wp_skip. intros acc w5.
  unfold append. wp_simpl.
  destruct verbose; unfold print; wp_simpl; best_branch st acc tr.
Qed.

End BestModel.

Section BestLoop.

Context `{FW : Framework}.

(** An epoch loop that keeps the best model: [body] writes only to the model
    under training [tr] and to fresh objects, and ends with the branch on
    the accuracy. *)
Variable tr : nat.
Variable body : nat -> BestState Adam -> M (BestState Adam).
Variable I : BestState Adam -> Prop.
Hypothesis body_confined : forall e st, I st -> confined tr (body e st) I.
Hypothesis body_best :
  forall e st w, wp (body e st) (fun st' w' => best_step tr st st' w') anyE w.

(** The loop starts from [st0] in [w0], with no accuracy recorded. *)
Variable st0 : BestState Adam.
Variable w0 : World.
Hypothesis I0 : I st0.
Hypothesis accs0 : bs_val_accuracies st0 = [].
Hypothesis amax0 : bs_accuracy_max st0 = 0%Q.

(** [k] is the first position of the largest element of [accs]. *)
Definition first_maximum (accs : list Q) (k : nat) : Prop :=
  (k < length accs)%nat /\
  (forall j, (j < k)%nat -> (nth j accs 0 < nth k accs 0)%Q) /\
  (forall a, In a accs -> (a <= nth k accs 0)%Q).

(** After its epoch [k] the loop had bound [model_opt] to [mo], a copy of
    the model under training as that epoch left it. *)
Definition recorded_at (k : nat) (accs : list Q) (mo : nat) (otr : ModuleObj) : Prop :=
  exists wk stk,
    for_each (seq 0 (S k)) body st0 w0 = (wk, inr stk) /\
    bs_val_accuracies stk = firstn (S k) accs /\
    bs_model_opt stk = Some mo /\
    heap wk !! tr = Some otr /\
    heap wk !! mo = Some (copy_of otr).

Definition best_inv (n : nat) (st : BestState Adam) (w : World) : Prop :=
  I st /\
  length (bs_val_accuracies st) = n /\
  (0 <= bs_accuracy_max st)%Q /\
  (forall a, In a (bs_val_accuracies st) -> (a <= bs_accuracy_max st)%Q) /\
  ((bs_accuracy_max st = 0%Q /\ bs_model_opt st = bs_model_opt st0) \/
   (exists k mo otr,
      (k < n)%nat /\
      nth k (bs_val_accuracies st) 0%Q = bs_accuracy_max st /\
      (0 < bs_accuracy_max st)%Q /\
      (forall j, (j < k)%nat ->
         (nth j (bs_val_accuracies st) 0 < bs_accuracy_max st)%Q) /\
      recorded_at k (bs_val_accuracies st) mo otr /\
      bs_model_opt st = Some mo /\ mo <> tr /\
      heap w !! mo = Some (copy_of otr))).

Lemma for_each_snoc n st w :
  for_each (seq 0 (S n)) body st0 w0 = (w, inr st) ->
  exists wn stn,
    for_each (seq 0 n) body st0 w0 = (wn, inr stn) /\
    body n stn wn = (w, inr st).
Proof.
  rewrite seq_S, for_each_app. cbn [Nat.add]. unfold bind at 1.
  destruct (for_each (seq 0 n) body st0 w0) as [wn [e|stn]]; [discriminate|].
  intros H. exists wn, stn. split; [reflexivity|].
  cbn [for_each] in H. unfold bind, ret, Ok in H.
  destruct (body n stn wn) as [w1 [e|s1]]; congruence.
Qed.

Lemma best_loop n :
  forall st w,
    for_each (seq 0 n) body st0 w0 = (w, inr st) -> best_inv n st w.
Proof.
  induction n as [|n IH]; intros st w Hrun.
  - cbn in Hrun. inversion Hrun; subst. unfold best_inv.
    rewrite accs0, amax0. split; [exact I0|].
    split; [reflexivity|]. split; [apply Qle_refl|].
    split; [intros a []|]. left. split; reflexivity.
  - pose proof Hrun as Hfull.
    apply for_each_snoc in Hrun. destruct Hrun as (wn & stn & Hpre & Hbody).
    destruct (IH stn wn Hpre) as (HI & Hlen & Hpos & Hmax & Hcase).
    pose proof (wp_run _ _ _ _ _ _ (body_best n stn wn) Hbody) as Hstep.
    cbn beta iota in Hstep. destruct Hstep as (acc & Haccs & Hstep).
    destruct (body_confined n stn HI wn w (inr st) Hbody) as [Htouch HI'].
    specialize (HI' st eq_refl).
    destruct (Qltb (bs_accuracy_max stn) acc) eqn:Hlt.
    + destruct Hstep as (Hamax & mo & Hmo & Hne & otr & Htr & Hcopy).
      apply Qltb_true in Hlt.
      unfold best_inv. rewrite Haccs, Hamax, length_app, Hlen. cbn [length].
      split; [exact HI'|].
      split; [lia|]. split; [apply Qlt_le_weak; eapply Qle_lt_trans; eauto|].
      split.
      { intros a Ha. apply in_app_or in Ha. destruct Ha as [Ha|[<-|[]]].
        - apply Qlt_le_weak. eapply Qle_lt_trans; [apply Hmax, Ha | exact Hlt].
        - apply Qle_refl. }
      right. exists n, mo, otr.
      split; [lia|]. split.
      { rewrite app_nth2 by lia. rewrite Hlen, Nat.sub_diag. reflexivity. }
      split; [eapply Qle_lt_trans; eauto|]. split.
      { intros j Hj. rewrite app_nth1 by lia.
        eapply Qle_lt_trans; [|exact Hlt]. apply Hmax. apply nth_In. lia. }
      split.
      { exists w, st. split; [exact Hfull|]. split.
        - rewrite Haccs. rewrite firstn_all2; [reflexivity|].
          rewrite length_app, Hlen. cbn [length]. lia.
        - auto. }
      auto.
    + destruct Hstep as (Hamax & Hmo). apply Qltb_false in Hlt.
      unfold best_inv. rewrite Haccs, Hamax, length_app, Hlen. cbn [length].
      split; [exact HI'|].
      split; [lia|]. split; [exact Hpos|]. split.
      { intros a Ha. apply in_app_or in Ha. destruct Ha as [Ha|[<-|[]]];
          [apply Hmax, Ha | exact Hlt]. }
      destruct Hcase as [[H0 Hsame]|(k & mo & otr & Hk & Hnth & Hgt & Hbefore & Hrec & Hopt & Hne & Hmo')].
      * left. split; [exact H0 | congruence].
      * right. exists k, mo, otr.
        split; [lia|]. split; [rewrite app_nth1 by lia; exact Hnth|].
        split; [exact Hgt|]. split.
        { intros j Hj. rewrite app_nth1 by lia. apply Hbefore, Hj. }
        split.
        { destruct Hrec as (wk & stk & Hk1 & Hk2 & Hk3).
          exists wk, stk. split; [exact Hk1|]. split; [|exact Hk3].
          rewrite Hk2. rewrite firstn_app.
          replace (S k - length (bs_val_accuracies stn))%nat with 0%nat by lia.
          rewrite firstn_O, app_nil_r. reflexivity. }
        split; [congruence|]. split; [exact Hne|].
        rewrite (Htouch mo Hne); [exact Hmo' | rewrite Hmo'; eauto].
Qed.

(** When some accuracy is positive, the loop ends with [model_opt] bound to
    the copy made at the first epoch of maximal accuracy, unchanged since. *)
Lemma best_loop_result n st w :
  for_each (seq 0 n) body st0 w0 = (w, inr st) ->
  Exists (fun a => (0 < a)%Q) (bs_val_accuracies st) ->
  exists k mo otr,
    first_maximum (bs_val_accuracies st) k /\
    recorded_at k (bs_val_accuracies st) mo otr /\
    bs_model_opt st = Some mo /\
    heap w !! mo = Some (copy_of otr).
Proof.
  intros Hrun Hex. destruct (best_loop n st w Hrun) as (_ & Hlen & Hpos & Hmax & Hcase).
  destruct Hcase as [[H0 _]|(k & mo & otr & Hk & Hnth & Hgt & Hbefore & Hrec & Hopt & Hne & Hmo)].
  - exfalso. apply List.Exists_exists in Hex. destruct Hex as (a & Ha & Hapos).
    apply Hmax in Ha. rewrite H0 in Ha.
    exact (Qlt_not_le _ _ Hapos Ha).
  - exists k, mo, otr. split; [|auto].
    unfold first_maximum. rewrite Hnth, Hlen. auto.
Qed.

End BestLoop.

Section BestModelClaims.

Context `{FW : Framework}.

Lemma bind_ok_inv {A B} (m : M A) (k : A -> M B) w w' y :
  bind m k w = (w', inr y) ->
  exists w1 x, m w = (w1, inr x) /\ k x w1 = (w', inr y).
Proof.
  unfold bind. destruct (m w) as [w1 [e|x]]; [discriminate|].
  intros H. exists w1, x. auto.
Qed.

Lemma bind_ok {A B} (m : M A) (k : A -> M B) w w1 x :
  m w = (w1, inr x) -> bind m k w = k x w1.
Proof. unfold bind. intros ->. reflexivity. Qed.

Lemma deepcopy_ok_inv model w w1 a :
  deepcopy model w = (w1, inr a) -> a = fresh (dom (heap w)).
Proof.
  unfold deepcopy, bind, get_obj, alloc.
  destruct (heap w !! model); [|discriminate]. unfold Ok. congruence.
Qed.

Lemma return_best_inv {O} (st : BestState O) w w' mo ls accs :
  return_best st w = (w', inr (mo, ls, accs)) ->
  w' = w /\ bs_model_opt st = Some mo /\ bs_val_accuracies st = accs.
Proof.
  unfold return_best. destruct (bs_model_opt st) as [m|].
  - unfold ret, Ok. intros H. inversion H; subst. auto.
  - unfold lift, Raise. discriminate.
Qed.

Lemma return_best_ok {O} (st : BestState O) w mo :
  bs_model_opt st = Some mo ->
  return_best st w = (w, Ok (mo, bs_train_losses st, bs_val_accuracies st)).
Proof. unfold return_best. intros ->. reflexivity. Qed.

Lemma range_of_nat (n : nat) : range (Z.of_nat n) = seq 0 n.
Proof. unfold range. rewrite Nat2Z.id. reflexivity. Qed.

(** C9. When some recorded validation accuracy is positive, the model the
    two training functions with validation return is the deep copy taken at
    the first epoch whose accuracy is the maximum of the returned
    [val_accuracies]: stopping after that epoch returns the very same object,
    which then is a copy of the model under training, and the later epochs
    leave it unchanged. *)
Theorem best_model_is_first_maximum
    (global_batch_size model : nat) (train_dataloader valid_dataloader : DataLoader)
    (input_size batch_size : nat) (num_epochs : Z) (loss_fn : LossFn)
    (learning_rate : Q) (verbose : bool) (w : World) :
  (forall w' model_opt train_losses val_accuracies,
     train_val_mlp_classifier global_batch_size model train_dataloader
       valid_dataloader input_size batch_size num_epochs loss_fn learning_rate
       verbose w = (w', Ok (model_opt, train_losses, val_accuracies)) ->
     Exists (fun a => (0 < a)%Q) val_accuracies ->
     exists k model_tr_k,
       first_maximum val_accuracies k /\
       (exists wk train_losses_k,
          train_val_mlp_classifier global_batch_size model train_dataloader
            valid_dataloader input_size batch_size (Z.of_nat (S k)) loss_fn
            learning_rate verbose w
          = (wk, Ok (model_opt, train_losses_k, firstn (S k) val_accuracies)) /\
          heap wk !! fresh (dom (heap w)) = Some model_tr_k /\
          heap wk !! model_opt = Some (copy_of model_tr_k)) /\
       heap w' !! model_opt = Some (copy_of model_tr_k)) /\
  (forall w' model_opt train_losses val_accuracies,
     training_val_cnn_classifier model train_dataloader valid_dataloader
       num_epochs loss_fn learning_rate verbose w
     = (w', Ok (model_opt, train_losses, val_accuracies)) ->
     Exists (fun a => (0 < a)%Q) val_accuracies ->
     exists k model_tr_k,
       first_maximum val_accuracies k /\
       (exists wk train_losses_k,
          training_val_cnn_classifier model train_dataloader valid_dataloader
            (Z.of_nat (S k)) loss_fn learning_rate verbose w
          = (wk, Ok (model_opt, train_losses_k, firstn (S k) val_accuracies)) /\
          heap wk !! fresh (dom (heap w)) = Some model_tr_k /\
          heap wk !! model_opt = Some (copy_of model_tr_k)) /\
       heap w' !! model_opt = Some (copy_of model_tr_k)).
Proof.
  split; intros w' mo ls accs Hrun Hex.
  - unfold train_val_mlp_classifier in Hrun. unfold Ok in Hrun.
    apply bind_ok_inv in Hrun. destruct Hrun as (w1 & tr & E1 & Hrun).
    apply bind_ok_inv in Hrun. destruct Hrun as (w2 & [] & E2 & Hrun).
    apply bind_ok_inv in Hrun. destruct Hrun as (w3 & mo0 & E3 & Hrun).
    apply bind_ok_inv in Hrun. destruct Hrun as (w4 & st & E4 & Hrun).
    apply return_best_inv in Hrun. destruct Hrun as (-> & Hmo & Haccs).
    pose proof (deepcopy_ok_inv _ _ _ _ E1) as Htr.
    unfold range in E4.
    rewrite <- Haccs in Hex.
    match type of E4 with
    | for_each _ ?body ?s0 _ = _ =>
        destruct (best_loop_result tr body
                    (fun st' => opt_params (bs_optimizer st') = tr)
                    (fun e st' Hst' =>
                       confined_train_val_mlp_epoch _ _ _ _ _ _ _ _ e st' Hst')
                    (fun e st' w0 => train_val_mlp_epoch_best _ _ _ _ _ _ _ _ e st' w0)
                    s0 w3 eq_refl eq_refl eq_refl _ _ _ E4 Hex)
          as (k & mo' & otr & Hfirst & (wk & stk & Hk1 & Hk2 & Hk3 & Hk4 & Hk5)
              & Hopt & Hfin)
    end.
    rewrite Haccs in *. rewrite Hmo in Hopt. inversion Hopt; subst mo'.
    exists k, otr. split; [exact Hfirst|]. split; [|exact Hfin].
    exists wk, (bs_train_losses stk).
    split; [|split; [rewrite <- Htr; exact Hk4 | exact Hk5]].
    unfold train_val_mlp_classifier.
    rewrite (bind_ok _ _ _ _ _ E1), (bind_ok _ _ _ _ _ E2), (bind_ok _ _ _ _ _ E3).
    rewrite range_of_nat. rewrite (bind_ok _ _ _ _ _ Hk1).
    rewrite (return_best_ok stk wk mo Hk3), Hk2. reflexivity.
  - unfold training_val_cnn_classifier in Hrun. unfold Ok in Hrun.
    apply bind_ok_inv in Hrun. destruct Hrun as (w1 & tr & E1 & Hrun).
    apply bind_ok_inv in Hrun. destruct Hrun as (w2 & [] & E2 & Hrun).
    apply bind_ok_inv in Hrun. destruct Hrun as (w4 & st & E4 & Hrun).
    apply return_best_inv in Hrun. destruct Hrun as (-> & Hmo & Haccs).
    pose proof (deepcopy_ok_inv _ _ _ _ E1) as Htr.
    unfold range in E4.
    rewrite <- Haccs in Hex.
    match type of E4 with
    | for_each _ ?body ?s0 _ = _ =>
        destruct (best_loop_result tr body
                    (fun st' => opt_params (bs_optimizer st') = tr)
                    (fun e st' Hst' =>
                       confined_training_val_cnn_epoch _ _ _ _ _ e st' Hst')
                    (fun e st' w0 => training_val_cnn_epoch_best _ _ _ _ _ e st' w0)
                    s0 w2 eq_refl eq_refl eq_refl _ _ _ E4 Hex)
          as (k & mo' & otr & Hfirst & (wk & stk & Hk1 & Hk2 & Hk3 & Hk4 & Hk5)
              & Hopt & Hfin)
    end.
    rewrite Haccs in *. rewrite Hmo in Hopt. inversion Hopt; subst mo'.
    exists k, otr. split; [exact Hfirst|]. split; [|exact Hfin].
    exists wk, (bs_train_losses stk).
    split; [|split; [rewrite <- Htr; exact Hk4 | exact Hk5]].
    unfold training_val_cnn_classifier.
    rewrite (bind_ok _ _ _ _ _ E1), (bind_ok _ _ _ _ _ E2).
    rewrite range_of_nat. rewrite (bind_ok _ _ _ _ _ Hk1).
    rewrite (return_best_ok stk wk mo Hk3), Hk2. reflexivity.
Qed.

End BestModelClaims.

(** ** The claims about the training loops *)

Section LoopClaims.

Context `{FW : Framework}.

(** C1 (amended). In every training loop each batch goes through the
    forward pass, the loss computation, the zeroing of the gradients, the
    backward pass and the optimizer step, in this order. The three classifier
    functions then add the batch loss to the running loss of the epoch, and
    after the batches of an epoch come the epoch's own records (the appended
    mean loss, the optional print, the validation pass). The regression
    loops, whose single batch per epoch is the whole data set, add nothing
    up: the linear one prints the loss, the nonlinear one prints it and
    appends it to [loss_records]. *)
Theorem training_loops_steps
    (global_batch_size model : nat) (train_dataloader valid_dataloader : DataLoader)
    (input_size batch_size : nat) (num_epochs : Z) (loss_fn : LossFn)
    (learning_rate : Q) (verbose : bool) (x y : Tensor2) (w : World) :
  (forall w' r,
     linear_regression_training model loss_fn x y w = (w', Ok r) ->
     ktrace w' = ktrace w
       ++ concat (repeat [Forward_ x; Loss_; ZeroGrad; Backward; OptStep; Print] 10)) /\
  (forall w' r,
     nonlinear_regression_training model loss_fn x y w = (w', Ok r) ->
     ktrace w' = ktrace w
       ++ concat (repeat [Forward_ x; Loss_; ZeroGrad; Backward; OptStep; Print; Append] 50)) /\
  (forall w' r,
     training_mlp_classifier global_batch_size model train_dataloader num_epochs
       loss_fn learning_rate verbose w = (w', Ok r) ->
     exists xss,
       length xss = Z.to_nat num_epochs /\
       Forall (pass train_dataloader (fun x => Tensor.view_infer x global_batch_size)) xss /\
       ktrace w' = ktrace w
         ++ flat_map (fun xs =>
              flat_map (fun x => [Forward_ x; Loss_; ZeroGrad; Backward; OptStep; Accumulate]) xs
              ++ [Append] ++ (if verbose then [Print] else [])) xss) /\
  (forall w' r,
     train_val_mlp_classifier global_batch_size model train_dataloader
       valid_dataloader input_size batch_size num_epochs loss_fn learning_rate
       verbose w = (w', Ok r) ->
     exists xvs,
       length xvs = Z.to_nat num_epochs /\
       Forall (val_pass train_dataloader valid_dataloader
                 (fun x => Tensor.view x batch_size input_size)
                 (fun x => Tensor.view_infer x global_batch_size)) xvs /\
       ktrace w' = ktrace w
         ++ flat_map (fun xv =>
              flat_map (fun x => [Forward_ x; Loss_; ZeroGrad; Backward; OptStep; Accumulate]) (fst xv)
              ++ [Append] ++ (if verbose then [Print] else [])
              ++ flat_map (fun x => [EvalForward x]) (snd xv)
              ++ [Append] ++ (if verbose then [Print] else [])) xvs) /\
  (forall w' r,
     training_val_cnn_classifier model train_dataloader valid_dataloader
       num_epochs loss_fn learning_rate verbose w = (w', Ok r) ->
     exists xvs,
       length xvs = Z.to_nat num_epochs /\
       Forall (val_pass train_dataloader valid_dataloader Ok Ok) xvs /\
       ktrace w' = ktrace w
         ++ flat_map (fun xv =>
              flat_map (fun x => [Forward_ x; Loss_; ZeroGrad; Backward; OptStep; Accumulate]) (fst xv)
              ++ [Append]
              ++ flat_map (fun x => [EvalForward x]) (snd xv)
              ++ [Append] ++ (if verbose then [Print] else [])) xvs).
Proof.
  split; [|split; [|split; [|split]]]; intros w' r Hrun.
  - exact (linear_regression_training_steps _ _ _ _ _ _ _ Hrun).
  - exact (nonlinear_regression_training_steps _ _ _ _ _ _ _ Hrun).
  - exact (training_mlp_classifier_steps _ _ _ _ _ _ _ _ _ _ Hrun).
  - exact (train_val_mlp_classifier_steps _ _ _ _ _ _ _ _ _ _ _ _ _ Hrun).
  - exact (training_val_cnn_classifier_steps _ _ _ _ _ _ _ _ _ _ Hrun).
Qed.

(** *** Every batch gets its optimizer step *)

Definition is_opt_step (k : Kind) : bool :=
  match k with OptStep => true | _ => false end.

Definition is_forward (k : Kind) : bool :=
  match k with Forward_ _ => true | _ => false end.

(** The number of steps of a trace that satisfy [p]. *)
Definition count (p : Kind -> bool) (ks : list Kind) : nat :=
  length (List.filter p ks).

Lemma count_app p ks1 ks2 : count p (ks1 ++ ks2) = (count p ks1 + count p ks2)%nat.
Proof. unfold count. rewrite List.filter_app, length_app. reflexivity. Qed.

Lemma count_flat_map {A} p (f : A -> list Kind) (c : A -> nat) (l : list A) :
  (forall a, count p (f a) = c a) ->
  count p (flat_map f l) = list_sum (map c l).
Proof.
  intros H. induction l as [|a l IH]; [reflexivity|].
  cbn [flat_map map list_sum]. rewrite count_app, H, IH. reflexivity.
Qed.

Lemma count_batch_steps_opt xs :
  count is_opt_step (flat_map batch_steps xs) = length xs.
Proof.
  rewrite (count_flat_map _ _ (fun _ => 1%nat)) by reflexivity.
  induction xs; simpl; congruence.
Qed.

Lemma count_batch_steps_forward xs :
  count is_forward (flat_map batch_steps xs) = length xs.
Proof.
  rewrite (count_flat_map _ _ (fun _ => 1%nat)) by reflexivity.
  induction xs; simpl; congruence.
Qed.

Lemma count_eval_steps p xs :
  (forall x, p (EvalForward x) = false) ->
  count p (flat_map eval_steps xs) = 0%nat.
Proof.
  intros Hp. rewrite (count_flat_map _ _ (fun _ => 0%nat)).
  - induction xs; simpl; congruence.
  - intros x. unfold count, eval_steps. cbn [List.filter]. rewrite Hp. reflexivity.
Qed.

Lemma count_print_if p (verbose : bool) :
  p Print = false -> count p (if verbose then [Print] else []) = 0%nat.
Proof. intros Hp. destruct verbose; unfold count; cbn [List.filter]; rewrite ?Hp; reflexivity. Qed.

Lemma length_pass dl prep xs :
  (0 < dl_batch_size dl)%nat -> pass dl prep xs -> length xs = dataloader_len dl.
Proof.
  intros Hk (order & [Ho _] & Hxs). apply Forall2_length in Hxs.
  rewrite <- Hxs. apply length_batches_of; assumption.
Qed.

Lemma list_sum_const {A} (c : A -> nat) (n : nat) (l : list A) :
  Forall (fun a => c a = n) l -> list_sum (map c l) = (length l * n)%nat.
Proof.
  induction 1 as [|a l Ha _ IH]; [reflexivity|].
  change (list_sum (map c (a :: l))) with (c a + list_sum (map c l))%nat.
  rewrite Ha, IH. cbn [length]. lia.
Qed.

(** The number of optimizer steps, and of forward passes, in a trace made of
    whole epochs. *)
Lemma count_epochs {A} (steps : A -> list Kind) (inputs : A -> list Tensor2)
    (n : nat) (xss : list A) :
  (forall a, count is_opt_step (steps a) = length (inputs a)) ->
  (forall a, count is_forward (steps a) = length (inputs a)) ->
  Forall (fun a => length (inputs a) = n) xss ->
  count is_opt_step (flat_map steps xss) = (length xss * n)%nat /\
  count is_forward (flat_map steps xss) = (length xss * n)%nat.
Proof.
  intros Hs Hf Hn. split.
  - rewrite (count_flat_map _ _ (fun a => length (inputs a))) by exact Hs.
    apply list_sum_const. exact Hn.
  - rewrite (count_flat_map _ _ (fun a => length (inputs a))) by exact Hf.
    apply list_sum_const. exact Hn.
Qed.

Lemma count_mlp_epoch verbose xs :
  count is_opt_step (mlp_epoch_steps verbose xs) = length xs /\
  count is_forward (mlp_epoch_steps verbose xs) = length xs.
Proof.
  unfold mlp_epoch_steps. rewrite !count_app.
  rewrite count_batch_steps_opt, count_batch_steps_forward.
  rewrite !count_print_if by reflexivity. unfold count. cbn. lia.
Qed.

Lemma count_val_epoch verbose xv :
  count is_opt_step (val_epoch_steps verbose xv) = length (fst xv) /\
  count is_forward (val_epoch_steps verbose xv) = length (fst xv).
Proof.
  unfold val_epoch_steps. rewrite !count_app.
  rewrite count_batch_steps_opt, count_batch_steps_forward.
  rewrite !count_eval_steps by reflexivity.
  rewrite !count_print_if by reflexivity. unfold count. cbn. lia.
Qed.

Lemma count_cnn_epoch verbose xv :
  count is_opt_step (cnn_epoch_steps verbose xv) = length (fst xv) /\
  count is_forward (cnn_epoch_steps verbose xv) = length (fst xv).
Proof.
  unfold cnn_epoch_steps. rewrite !count_app.
  rewrite count_batch_steps_opt, count_batch_steps_forward.
  rewrite !count_eval_steps by reflexivity.
  rewrite !count_print_if by reflexivity. unfold count. cbn. lia.
Qed.

End LoopClaims.

Section StepClaims.

Context `{FW : Framework}.

(** When the module's forward pass always raises, nothing in the loops
    catches it. *)
Definition forward_always_raises : Prop :=
  forall mode p x, exists e, module_call mode p x = Raise e.

Definition no_return {A} : A -> World -> Prop := fun _ _ => False.

Lemma call_model_raises ge a x w :
  forward_always_raises -> wp (call_model ge a x) no_return anyE w.
Proof.
  intros Hraise. unfold call_model. wp_simpl.
  destruct (heap w !! a) as [o|]; [|exact Logic.I].
  wp_simpl. destruct (Hraise (training o) (state o) x) as [e ->]. exact Logic.I.
Qed.

(** A loop over at least one item whose body raises on every item. *)
Lemma for_each_raises {X S} (body : X -> S -> M S) (xs : list X) (st : S) w :
  xs <> [] ->
  (forall x st w, wp (body x st) no_return anyE w) ->
  wp (for_each xs body st) no_return anyE w.
Proof.
  intros Hne Hbody. destruct xs as [|x xs]; [congruence|].
  cbn [for_each]. rewrite wp_bind.
  eapply wp_mono; [apply Hbody | intros ? ? [] | auto].
Qed.

Lemma bind_raises {A B} (m : M A) (k : A -> M B) w :
  wp m no_return anyE w -> wp (bind m k) no_return anyE w.
Proof.
  intros H. rewrite wp_bind. eapply wp_mono; [exact H | intros ? ? [] | auto].
Qed.

Lemma range_nonempty (n : Z) : (0 < n)%Z -> range n <> [].
Proof.
  intros Hn. unfold range. destruct (Z.to_nat n) eqn:E; [lia|]. discriminate.
Qed.

Lemma batches_nonempty dl order :
  (0 < dl_batch_size dl)%nat -> (0 < dataloader_len dl)%nat ->
  Permutation order (seq 0 (length (dataset dl))) ->
  batches_of dl order <> [].
Proof.
  intros Hk Hlen Ho Hnil.
  pose proof (length_batches_of dl order Hk Ho) as H.
  rewrite Hnil in H. simpl in H. lia.
Qed.

Lemma no_return_run {A} (m : M A) w w' r :
  wp m no_return anyE w -> m w = (w', r) -> exists e, r = inl e.
Proof.
  intros H Hrun. pose proof (wp_run _ _ _ _ _ _ H Hrun) as Hr.
  destruct r as [e|x]; [eauto | destruct Hr].
Qed.

(** One epoch of each function raises when the forward pass does. *)
Lemma epoch_raises {S S'} (dl : DataLoader)
    (batch_body : Tensor2 * list Z -> S -> M S) (st : S) (k : S -> M S') w :
  (0 < dl_batch_size dl)%nat -> (0 < dataloader_len dl)%nat ->
  (forall b st w, wp (batch_body b st) no_return anyE w) ->
  wp (bind (iter dl) (fun batches => bind (for_each batches batch_body st) k))
     no_return anyE w.
Proof.
  intros Hk Hlen Hbody. rewrite wp_bind. apply wp_iter. intros order d' Ho.
  apply bind_raises. apply for_each_raises; [|exact Hbody].
  apply batches_nonempty; assumption.
Qed.


End StepClaims.

Section CoverageClaims.

Context `{FW : Framework}.

Lemma Forall2_prepared_id prep (bs : list (Tensor2 * list Z)) (xs : list Tensor2) :
  Forall (fun b => prep (fst b) = Ok (fst b)) bs ->
  Forall2 (prepared prep) bs xs -> xs = map fst bs.
Proof.
  intros Hid H. induction H as [|b x bs xs Hb _ IH]; [reflexivity|].
  inversion Hid as [|? ? Hb' Hbs']; subst. cbn [map]. f_equal; [|apply IH; exact Hbs'].
  unfold prepared in Hb. rewrite Hb' in Hb. unfold Ok in Hb. congruence.
Qed.

(** [xs] are the batches of images one iteration over [dl] yields, as they
    are and in the order they are yielded. *)
Definition consumes (dl : DataLoader) (xs : list Tensor2) : Prop :=
  exists order, yields_in dl order /\ xs = map fst (batches_of dl order).

(** [xs] hold every sample of the dataset of [dl] exactly once, but for
    the [len(dataset) mod batch_size] samples of the incomplete last batch
    when [drop_last=True]. *)
Definition covers (dl : DataLoader) (xs : list Tensor2) : Prop :=
  exists rest,
    Permutation (concat xs ++ rest) (map fst (dataset dl)) /\
    length rest
    = (if drop_last dl then length (dataset dl) mod dl_batch_size dl else 0)%nat.

Lemma covers_all dl xs :
  drop_last dl = false \/ (length (dataset dl) mod dl_batch_size dl = 0)%nat ->
  covers dl xs -> Permutation (concat xs) (map fst (dataset dl)).
Proof.
  intros Hall (rest & Hperm & Hlen).
  assert (Hrest : rest = []).
  { destruct rest; [reflexivity|]. exfalso.
    destruct Hall as [Hd|Hmod]; [rewrite Hd in Hlen | rewrite Hmod in Hlen];
      [discriminate Hlen | destruct (drop_last dl); discriminate Hlen]. }
  subst rest. rewrite app_nil_r in Hperm. exact Hperm.
Qed.

(** [xs] are the batches one iteration over [dl] yields, in the order they
    are yielded, each reshaped by [prep], which keeps the values of the
    batch in their row-major order; the batches yielded hold every sample
    exactly once, but for those of a dropped last batch. *)
Definition fed (dl : DataLoader) (prep : Tensor2 -> Result Tensor2)
    (xs : list Tensor2) : Prop :=
  exists order,
    yields_in dl order /\
    covers dl (map fst (batches_of dl order)) /\
    Forall2 (fun b x => prep (fst b) = Ok x /\ concat x = concat (fst b))
      (batches_of dl order) xs.

Lemma pass_fed dl prep xs :
  (0 < dl_batch_size dl)%nat ->
  (forall x x', prep x = Ok x' -> concat x' = concat x) ->
  pass dl prep xs -> fed dl prep xs.
Proof.
  intros Hk Hprep (order & Ho & Hxs). exists order. split; [exact Ho|].
  split; [apply batches_of_rest; [exact Hk | exact (proj1 Ho)]|].
  eapply List.Forall2_impl; [|exact Hxs].
  intros b x Hb. split; [exact Hb | exact (Hprep _ _ Hb)].
Qed.

(** A pass whose reshaping leaves the batches as they are. *)
Lemma pass_consumes dl prep xs :
  (0 < dl_batch_size dl)%nat ->
  (forall order, Permutation order (seq 0 (length (dataset dl))) ->
     Forall (fun b => prep (fst b) = Ok (fst b)) (batches_of dl order)) ->
  pass dl prep xs ->
  consumes dl xs /\ covers dl xs.
Proof.
  intros Hk Hid (order & Ho & Hxs).
  pose proof (Forall2_prepared_id prep _ _ (Hid order (proj1 Ho)) Hxs) as ->.
  split; [exists order; split; [exact Ho | reflexivity]|].
  apply batches_of_rest; [exact Hk | exact (proj1 Ho)].
Qed.

Lemma full_batches_view_infer d dl order :
  (0 < dl_batch_size dl)%nat ->
  drop_last dl = true \/ (length (dataset dl) mod dl_batch_size dl = 0)%nat ->
  Forall (fun s => length (fst s) = d) (dataset dl) ->
  Permutation order (seq 0 (length (dataset dl))) ->
  Forall (fun b => Tensor.view_infer (fst b) (dl_batch_size dl) = Ok (fst b))
    (batches_of dl order).
Proof.
  intros Hk Hfull Hd Ho.
  pose proof (good_batches d dl order Hk Hd) as Hg.
  pose proof (batches_of_full dl order Hk Ho Hfull) as Hf.
  induction Hg as [|b bs (Hb & _ & _) _ IH]; [constructor|].
  inversion Hf; subst. constructor; [|apply IH; assumption].
  apply (view_infer_full d); assumption.
Qed.

Lemma full_batches_view d dl order :
  (0 < dl_batch_size dl)%nat ->
  drop_last dl = true \/ (length (dataset dl) mod dl_batch_size dl = 0)%nat ->
  Forall (fun s => length (fst s) = d) (dataset dl) ->
  Permutation order (seq 0 (length (dataset dl))) ->
  Forall (fun b => Tensor.view (fst b) (dl_batch_size dl) d = Ok (fst b))
    (batches_of dl order).
Proof.
  intros Hk Hfull Hd Ho.
  pose proof (good_batches d dl order Hk Hd) as Hg.
  pose proof (batches_of_full dl order Hk Ho Hfull) as Hf.
  induction Hg as [|b bs (Hb & _ & _) _ IH]; [constructor|].
  inversion Hf; subst. constructor; [|apply IH; assumption].
  apply view_full; assumption.
Qed.

(** C5 (amended). In each epoch of every training function the loop
    consumes the batches of one iteration over the training dataloader, one
    forward pass each, in the order they are yielded (the order of the
    dataset when the dataloader does not shuffle). These batches hold every
    sample of the training dataset exactly once, but for the
    [len(dataset) mod batch_size] samples of the incomplete last batch when
    [drop_last=True]: every sample is processed exactly once when
    [drop_last=False] or the batch size divides the number of samples.
    [training_val_cnn_classifier] feeds the model each batch as it is. The
    two MLP functions feed it each batch reshaped by [view] to [batch_size]
    rows, which keeps the values of the batch in their order; the batch
    goes through as it is when the dataloader's batch size is that
    [batch_size], the images all have the same size and the batch is full
    ([drop_last=True], or the batch size divides the number of
    samples). *)
Theorem epoch_covers_dataset
    (global_batch_size model : nat) (train_dataloader valid_dataloader : DataLoader)
    (input_size batch_size : nat) (num_epochs : Z) (loss_fn : LossFn)
    (learning_rate : Q) (verbose : bool) (w : World) :
  (0 < dl_batch_size train_dataloader)%nat ->
  (forall w' r,
     training_mlp_classifier global_batch_size model train_dataloader num_epochs
       loss_fn learning_rate verbose w = (w', Ok r) ->
     exists xss,
       length xss = Z.to_nat num_epochs /\
       ktrace w' = ktrace w ++ flat_map (mlp_epoch_steps verbose) xss /\
       Forall (fed train_dataloader (fun x => Tensor.view_infer x global_batch_size)) xss /\
       forall d,
         dl_batch_size train_dataloader = global_batch_size ->
         Forall (fun s => length (fst s) = d) (dataset train_dataloader) ->
         drop_last train_dataloader = true \/
         (length (dataset train_dataloader) mod dl_batch_size train_dataloader = 0)%nat ->
         Forall (fun xs =>
                   consumes train_dataloader xs /\ covers train_dataloader xs /\
                   ((length (dataset train_dataloader) mod dl_batch_size train_dataloader
                     = 0)%nat ->
                    Permutation (concat xs) (map fst (dataset train_dataloader))))
           xss) /\
  (forall w' r,
     train_val_mlp_classifier global_batch_size model train_dataloader
       valid_dataloader input_size batch_size num_epochs loss_fn learning_rate
       verbose w = (w', Ok r) ->
     exists xvs,
       length xvs = Z.to_nat num_epochs /\
       ktrace w' = ktrace w ++ flat_map (val_epoch_steps verbose) xvs /\
       Forall (fun xv =>
                 fed train_dataloader (fun x => Tensor.view x batch_size input_size)
                   (fst xv)) xvs /\
       (dl_batch_size train_dataloader = batch_size ->
        Forall (fun s => length (fst s) = input_size) (dataset train_dataloader) ->
        drop_last train_dataloader = true \/
        (length (dataset train_dataloader) mod dl_batch_size train_dataloader = 0)%nat ->
        Forall (fun xv =>
                  consumes train_dataloader (fst xv) /\ covers train_dataloader (fst xv) /\
                  ((length (dataset train_dataloader) mod dl_batch_size train_dataloader
                    = 0)%nat ->
                   Permutation (concat (fst xv)) (map fst (dataset train_dataloader))))
          xvs)) /\
  (forall w' r,
     training_val_cnn_classifier model train_dataloader valid_dataloader
       num_epochs loss_fn learning_rate verbose w = (w', Ok r) ->
     exists xvs,
       length xvs = Z.to_nat num_epochs /\
       ktrace w' = ktrace w ++ flat_map (cnn_epoch_steps verbose) xvs /\
       Forall (fun xv =>
                 consumes train_dataloader (fst xv) /\ covers train_dataloader (fst xv) /\
                 (drop_last train_dataloader = false \/
                  (length (dataset train_dataloader) mod dl_batch_size train_dataloader
                   = 0)%nat ->
                  Permutation (concat (fst xv)) (map fst (dataset train_dataloader))))
         xvs).
Proof.
  intros Hk. split; [|split].
  - intros w' r Hrun.
    destruct (training_mlp_classifier_steps _ _ _ _ _ _ _ _ _ _ Hrun)
      as (xss & Hlen & Hpass & Htrace).
    exists xss. split; [exact Hlen|]. split; [exact Htrace|]. split.
    { eapply List.Forall_impl; [|exact Hpass]. intros xs Hxs.
      apply (pass_fed _ _ _ Hk); [|exact Hxs].
      intros x x' Hx. exact (view_infer_values _ _ _ Hx). }
    intros d Hbs Hd Hfull.
    eapply List.Forall_impl; [|exact Hpass]. intros xs Hxs. cbn beta in *.
    destruct (pass_consumes _ _ _ Hk
                (fun order Ho =>
                   eq_rect _ (fun b => Forall (fun x => Tensor.view_infer (fst x) b = Ok (fst x))
                                         (batches_of train_dataloader order))
                     (full_batches_view_infer d _ order Hk Hfull Hd Ho) _ Hbs) Hxs)
      as [Hc Hcov].
    split; [exact Hc|]. split; [exact Hcov|].
    intros Hmod. exact (covers_all _ _ (or_intror Hmod) Hcov).
  - intros w' r Hrun.
    destruct (train_val_mlp_classifier_steps _ _ _ _ _ _ _ _ _ _ _ _ _ Hrun)
      as (xvs & Hlen & Hpass & Htrace).
    exists xvs. split; [exact Hlen|]. split; [exact Htrace|]. split.
    + eapply List.Forall_impl; [|exact Hpass]. intros xv [Hxv _].
      apply (pass_fed _ _ _ Hk); [|exact Hxv].
      intros x x' Hx. exact (view_values _ _ _ _ Hx).
    + intros Hbs Hd Hfull.
      eapply List.Forall_impl; [|exact Hpass]. intros xv [Hxv _]. cbn beta in *.
      destruct (pass_consumes _ _ _ Hk
                  (fun order Ho =>
                     eq_rect _ (fun b => Forall (fun x => Tensor.view (fst x) b input_size
                                                          = Ok (fst x))
                                           (batches_of train_dataloader order))
                       (full_batches_view input_size _ order Hk Hfull Hd Ho) _ Hbs) Hxv)
        as [Hc Hcov].
      split; [exact Hc|]. split; [exact Hcov|].
      intros Hmod. exact (covers_all _ _ (or_intror Hmod) Hcov).
  - intros w' r Hrun.
    destruct (training_val_cnn_classifier_steps _ _ _ _ _ _ _ _ _ _ Hrun)
      as (xvs & Hlen & Hpass & Htrace).
    exists xvs. split; [exact Hlen|]. split; [exact Htrace|].
    eapply List.Forall_impl; [|exact Hpass]. intros xv [Hxv _]. cbn beta in *.
    destruct (pass_consumes _ Ok _ Hk
                (fun order _ => proj2 (List.Forall_forall _ _) (fun b _ => eq_refl)) Hxv)
      as [Hc Hcov].
    split; [exact Hc|]. split; [exact Hcov|].
    intros Hall. exact (covers_all _ _ Hall Hcov).
Qed.

End CoverageClaims.

(** ** [MLPClassif] *)

Section MLPClaims.

Lemma Linear_init_affine_length i o w b row :
  length (Linear.affine (Linear.__init__ i o w b) row) = o.
Proof.
  unfold Linear.affine, Linear.__init__. cbn [Linear.weight Linear.bias].
  rewrite length_map, length_combine, !length_map, length_seq. apply Nat.min_id.
Qed.

Lemma Linear_forward_shape (l : Linear.t) (x : Tensor2) :
  Forall (fun r => length r = Linear.in_features l) x ->
  forward l x = Ok (map (Linear.affine l) x).
Proof.
  intros Hx. unfold forward, Linear_Forward, Linear.forward_.
  assert (Hb : forallb (fun row => (length row =? Linear.in_features l)%nat) x = true).
  { apply forallb_forall. intros r Hr. apply Nat.eqb_eq.
    exact (proj1 (List.Forall_forall _ _) Hx r Hr). }
  rewrite Hb. reflexivity.
Qed.

(** One layer [Linear -> activation] of the network on a row. *)
Definition layer_row (s : Sequential Linear.t Activation) (row : list Q) : list Q :=
  map (act (second s)) (Linear.affine (first s) row).

Lemma Sequential_forward_shape (s : Sequential Linear.t Activation) (x : Tensor2) :
  Forall (fun r => length r = Linear.in_features (first s)) x ->
  forward s x = Ok (map (layer_row s) x).
Proof.
  intros Hx. unfold forward at 1, Sequential_Forward.
  rewrite (Linear_forward_shape _ _ Hx). cbn [rbind Ok].
  unfold forward, Activation_Forward, layer_row. rewrite List.map_map. reflexivity.
Qed.

(** C7. On a batch of shape [[batch_size, input_size]] the forward pass of
    [MLPClassif] succeeds and is the composition
    [Linear(input_size, hidden_size) -> activation ->
     Linear(hidden_size, hidden_size) -> activation ->
     Linear(hidden_size, output_size)], row by row, with no activation after
    the output layer; the result has shape [[batch_size, output_size]]. *)
Theorem MLPClassif_forward_composition
    (input_size hidden_size output_size : nat) (act_fn : Activation)
    (w1 w2 w3 : nat -> nat -> Q) (b1 b2 b3 : nat -> Q)
    (x : Tensor2) (batch_size : nat) :
  Tensor.shape x batch_size input_size ->
  let self := MLPClassif.__init__ input_size hidden_size output_size act_fn
                w1 w2 w3 b1 b2 b3 in
  let lin1 := Linear.__init__ input_size hidden_size w1 b1 in
  let lin2 := Linear.__init__ hidden_size hidden_size w2 b2 in
  let lin3 := Linear.__init__ hidden_size output_size w3 b3 in
  let out :=
    map (fun row =>
           Linear.affine lin3
             (map (act act_fn)
                (Linear.affine lin2
                   (map (act act_fn) (Linear.affine lin1 row))))) x in
  forward self x = Ok out /\
  forward self x
  = (y <-? forward (MLPClassif.input_layer self) x ;;
     z <-? forward (MLPClassif.hidden_layer self) y ;;
     forward (MLPClassif.output_layer self) z)%result /\
  Tensor.shape out batch_size output_size.
Proof.
  intros [Hrows Hcols] self lin1 lin2 lin3 out.
  assert (Hcomp : forward self x
    = (y <-? forward (MLPClassif.input_layer self) x ;;
       z <-? forward (MLPClassif.hidden_layer self) y ;;
       forward (MLPClassif.output_layer self) z)%result).
  { unfold forward at 1, MLPClassif_Forward, MLPClassif.forward_.
    destruct (forward (MLPClassif.input_layer self) x) as [e|y]; [reflexivity|].
    cbn [rbind Ok].
    destruct (forward (MLPClassif.hidden_layer self) y) as [e|z]; [reflexivity|].
    cbn [rbind Ok].
    destruct (forward (MLPClassif.output_layer self) z); reflexivity. }
  split; [|split; [exact Hcomp|]].
  - rewrite Hcomp. subst self. cbn [MLPClassif.__init__ MLPClassif.input_layer
      MLPClassif.hidden_layer MLPClassif.output_layer].
    rewrite Sequential_forward_shape by exact Hcols. cbn [rbind Ok].
    rewrite Sequential_forward_shape.
    2:{ apply List.Forall_forall. intros r Hr. apply in_map_iff in Hr.
        destruct Hr as (row & <- & _). unfold layer_row. cbn [first second].
        rewrite length_map. apply Linear_init_affine_length. }
    cbn [rbind Ok]. rewrite Linear_forward_shape.
    2:{ apply List.Forall_forall. intros r Hr. apply in_map_iff in Hr.
        destruct Hr as (row & <- & _). unfold layer_row. cbn [first second].
        rewrite length_map. apply Linear_init_affine_length. }
    rewrite !List.map_map. reflexivity.
  - unfold Tensor.shape, out. rewrite length_map. split; [exact Hrows|].
    apply List.Forall_forall. intros r Hr. apply in_map_iff in Hr.
    destruct Hr as (row & <- & _). apply Linear_init_affine_length.
Qed.

End MLPClaims.

(** ** The [Dataset] classes *)

Section DatasetClaims.

Local Open Scope string_scope.

(** The paths of the files under [directory] whose name matches [pattern],
    in the order [os.walk] meets them. *)
Definition matching_files (os : OSEnv) (directory pattern : string) : list string :=
  flat_map
    (fun entry =>
       map (Str.path_join (fst (fst entry)))
           (List.filter (fun name => Str.fnmatch name pattern) (snd entry)))
    (os_walk os directory).

Lemma fold_left_snoc {A B} (g : A -> B) (l : list A) (acc : list B) :
  fold_left (fun acc a => (acc ++ [g a])%list) l acc = (acc ++ map g l)%list.
Proof.
  revert acc. induction l as [|a l IH]; intros acc; cbn [fold_left map].
  - rewrite app_nil_r. reflexivity.
  - rewrite IH, <- app_assoc. reflexivity.
Qed.

Lemma find_files_loop_spec os directory pattern :
  find_files_loop os directory pattern = matching_files os directory pattern.
Proof.
  unfold find_files_loop, matching_files.
  assert (H : forall l acc,
    fold_left
      (fun path_list entry =>
         let '(root, _, filenames) := entry in
         fold_left
           (fun path_list filename => (path_list ++ [Str.path_join root filename])%list)
           (Str.fnmatch_filter filenames pattern) path_list) l acc
    = (acc ++ flat_map
        (fun entry : string * list string * list string =>
           map (Str.path_join (fst (fst entry)))
               (List.filter (fun name => Str.fnmatch name pattern) (snd entry))) l)%list).
  { induction l as [|[[root dirs] files] l IH]; intros acc; cbn [fold_left flat_map].
    - rewrite app_nil_r. reflexivity.
    - rewrite IH, fold_left_snoc, <- app_assoc. reflexivity. }
  apply (H _ []).
Qed.

Lemma sorted_spec (l : list string) :
  Sorted String.le (Str.sorted l) /\ Permutation (Str.sorted l) l.
Proof.
  unfold Str.sorted. split.
  - apply Sorted_merge_sort. apply _.
  - apply merge_sort_Permutation.
Qed.

Lemma length_sorted (l : list string) : length (Str.sorted l) = length l.
Proof. apply Permutation_length, sorted_spec. Qed.

(** A pattern of literal characters matches itself only. *)
Lemma fnmatch_literal (lit s : list ascii) :
  Forall (fun c => Ascii.eqb c "*" = false /\ Ascii.eqb c "?" = false) lit ->
  Str.fnmatch_chars lit s = true <-> s = lit.
Proof.
  intros Hlit. revert s. induction Hlit as [|c lit [Hs Hq] _ IH]; intros s.
  - destruct s; cbn; split; congruence.
  - cbn [Str.fnmatch_chars]. rewrite Hs, Hq. destruct s as [|d s].
    + split; congruence.
    + rewrite andb_true_iff, Ascii.eqb_eq, IH. split.
      * intros [-> ->]. reflexivity.
      * intros H. inversion H. auto.
Qed.

(** [*] followed by literal characters matches the names that end with
    them. *)
Lemma fnmatch_star_literal (lit s : list ascii) :
  Forall (fun c => Ascii.eqb c "*" = false /\ Ascii.eqb c "?" = false) lit ->
  Str.fnmatch_chars ("*"%char :: lit) s = true <-> exists stem, s = (stem ++ lit)%list.
Proof.
  intros Hlit. cbn [Str.fnmatch_chars]. rewrite Ascii.eqb_refl.
  induction s as [|d s IH].
  - rewrite orb_false_r, (fnmatch_literal lit [] Hlit). split.
    + intros ->. exists []. reflexivity.
    + intros (stem & H). destruct stem; [exact H | discriminate].
  - rewrite orb_true_iff, (fnmatch_literal lit (d :: s) Hlit), IH. split.
    + intros [->|(stem & ->)]; [exists []; reflexivity | exists (d :: stem); reflexivity].
    + intros (stem & H). destruct stem as [|c stem].
      * left. exact H.
      * right. inversion H. exists stem. reflexivity.
Qed.

Lemma list_ascii_of_string_app (a b : string) :
  list_ascii_of_string (a ++ b) = (list_ascii_of_string a ++ list_ascii_of_string b)%list.
Proof. induction a as [|c a IH]; [reflexivity | exact (f_equal (cons c) IH)]. Qed.

Lemma fnmatch_extension (name ext : string) :
  Forall (fun c => Ascii.eqb c "*" = false /\ Ascii.eqb c "?" = false)
    (list_ascii_of_string ext) ->
  Str.fnmatch name (String "*" ext) = true <-> exists stem, name = stem ++ ext.
Proof.
  intros Hlit. unfold Str.fnmatch. cbn [list_ascii_of_string].
  rewrite (fnmatch_star_literal _ _ Hlit). split.
  - intros (stem & H). exists (string_of_list_ascii stem).
    rewrite <- (string_of_list_ascii_of_string name), H.
    rewrite <- (string_of_list_ascii_of_string (string_of_list_ascii stem ++ ext)).
    rewrite list_ascii_of_string_app, list_ascii_of_string_of_list_ascii. reflexivity.
  - intros (stem & ->). exists (list_ascii_of_string stem).
    apply list_ascii_of_string_app.
Qed.

Lemma py_getitem_nth {A} (l : list A) (i : Z) (x : A) :
  (0 <= i)%Z -> nth_error l (Z.to_nat i) = Some x -> py_getitem l i = Ok x.
Proof.
  intros Hi Hx. unfold py_getitem.
  destruct (Z.ltb_spec i 0) as [?|_]; [lia|].
  assert (Hlt : (Z.to_nat i < length l)%nat) by (apply nth_error_Some; congruence).
  destruct (Z.leb_spec 0 i) as [_|?]; [|lia].
  destruct (Z.ltb_spec i (Z.of_nat (length l))) as [_|?]; [|lia].
  cbn [andb]. rewrite Hx. reflexivity.
Qed.

Lemma rbind_ok_inv {A B} (r : Result A) (k : A -> Result B) (y : B) :
  rbind r k = Ok y -> exists x, r = Ok x /\ k x = Ok y.
Proof. destruct r as [e|x]; cbn; [discriminate | eauto]. Qed.

Lemma TextDataset_init_files os text_dir max_seq_length ds :
  TextDataset.__init__ os text_dir max_seq_length = Ok ds ->
  TextDataset.text_files ds = Str.sorted (TextDataset._find_files os text_dir "*.txt") /\
  TextDataset.max_seq_len ds = max_seq_length /\
  exists words,
    TextDataset.vocab ds = Str.sorted words /\
    TextDataset.word_to_index ds
    = <["[PAD]" := (-1)%Z]> (TextDataset.enumerate_dict (Str.sorted (Str.sorted words))).
Proof.
  unfold TextDataset.__init__. intros H.
  apply rbind_ok_inv in H. destruct H as (labels & _ & H).
  apply rbind_ok_inv in H. destruct H as (words & _ & H).
  unfold Ok in H. inversion H; subst. cbn. eauto.
Qed.

(** C6. Each [Dataset] class lists the files under its directory that match
    its pattern ([*.png], [*.wav], [*.txt]: the names ending with the
    extension), sorted; its length is their number, and [__getitem__(index)]
    reads the file at position [index] of that sorted list. *)
Theorem datasets_read_sorted_matching_files
    (os : OSEnv) (directory : string) (max_dur : Q) (max_seq_length : Z) :
  let images := ImageDataset.__init__ os directory in
  let speech := SpeechDataset.__init__ os directory max_dur in
  (Sorted String.le (ImageDataset.image_path_list images) /\
   Permutation (ImageDataset.image_path_list images)
     (matching_files os directory "*.png") /\
   ImageDataset.__len__ images
   = Z.of_nat (length (matching_files os directory "*.png")) /\
   forall index path,
     (0 <= index)%Z ->
     nth_error (ImageDataset.image_path_list images) (Z.to_nat index) = Some path ->
     ImageDataset.__getitem__ os images index
     = (x <-? io_imread os path ;;
        Ok (ImageDataset.normalize x,
            Str.replace (Str.replace path directory "") ".png" ""))%result) /\
  (Sorted String.le (SpeechDataset.audio_path_list speech) /\
   Permutation (SpeechDataset.audio_path_list speech)
     (matching_files os directory "*.wav") /\
   SpeechDataset.__len__ speech
   = Z.of_nat (length (matching_files os directory "*.wav")) /\
   forall index path,
     (0 <= index)%Z ->
     nth_error (SpeechDataset.audio_path_list speech) (Z.to_nat index) = Some path ->
     SpeechDataset.__getitem__ os speech index
     = (xs <-? sf_read os path ;;
        Ok (SpeechDataset._set_duration (fst xs) max_dur (snd xs), snd xs,
            Str.replace (Str.replace path directory "") ".wav" ""))%result) /\
  (forall text,
     TextDataset.__init__ os directory max_seq_length = Ok text ->
     Sorted String.le (TextDataset.text_files text) /\
     Permutation (TextDataset.text_files text)
       (matching_files os directory "*.txt") /\
     TextDataset.__len__ text
     = Z.of_nat (length (matching_files os directory "*.txt")) /\
     forall index path,
       (0 <= index)%Z ->
       nth_error (TextDataset.text_files text) (Z.to_nat index) = Some path ->
       TextDataset.__getitem__ os text index
       = (tokens <-? TextDataset._tokenize_text os max_seq_length path ;;
          x <-? rmap (TextDataset.dict_getitem (TextDataset.word_to_index text)) tokens ;;
          label <-? py_getitem (TextDataset.labels text) index ;;
          y <-? float_tensor os [label] ;;
          Ok {| TextDataset.token_ids := x; TextDataset.labels_ := y |})%result) /\
  (forall name,
     (Str.fnmatch name "*.png" = true <-> exists stem, name = stem ++ ".png") /\
     (Str.fnmatch name "*.wav" = true <-> exists stem, name = stem ++ ".wav") /\
     (Str.fnmatch name "*.txt" = true <-> exists stem, name = stem ++ ".txt")).
Proof.
  intros images speech. split; [|split; [|split]].
  - unfold images, ImageDataset.__init__, ImageDataset.__len__,
      ImageDataset._find_files. cbn [ImageDataset.image_path_list ImageDataset.image_dir].
    rewrite find_files_loop_spec.
    destruct (sorted_spec (matching_files os directory "*.png")) as [Hs Hp].
    split; [exact Hs|]. split; [exact Hp|]. split; [rewrite length_sorted; reflexivity|].
    intros index path Hi Hnth. unfold ImageDataset.__getitem__.
    cbn [ImageDataset.image_path_list ImageDataset.image_dir].
    rewrite (py_getitem_nth _ _ _ Hi Hnth). reflexivity.
  - unfold speech, SpeechDataset.__init__, SpeechDataset.__len__,
      SpeechDataset._find_files.
    cbn [SpeechDataset.audio_path_list SpeechDataset.audio_dir SpeechDataset.max_dur].
    rewrite find_files_loop_spec.
    destruct (sorted_spec (matching_files os directory "*.wav")) as [Hs Hp].
    split; [exact Hs|]. split; [exact Hp|]. split; [rewrite length_sorted; reflexivity|].
    intros index path Hi Hnth. unfold SpeechDataset.__getitem__.
    cbn [SpeechDataset.audio_path_list SpeechDataset.audio_dir SpeechDataset.max_dur].
    rewrite (py_getitem_nth _ _ _ Hi Hnth). reflexivity.
  - intros text Hinit.
    destruct (TextDataset_init_files _ _ _ _ Hinit) as (Hfiles & Hmax & _).
    unfold TextDataset.__len__. rewrite Hfiles. unfold TextDataset._find_files.
    rewrite find_files_loop_spec.
    destruct (sorted_spec (matching_files os directory "*.txt")) as [Hs Hp].
    split; [exact Hs|]. split; [exact Hp|]. split; [rewrite length_sorted; reflexivity|].
    intros index path Hi Hnth. unfold TextDataset.__getitem__.
    rewrite Hfiles. unfold TextDataset._find_files. rewrite find_files_loop_spec.
    rewrite (py_getitem_nth _ _ _ Hi Hnth), Hmax. reflexivity.
  - intros name. split; [|split]; apply fnmatch_extension;
      repeat constructor.
Qed.

End DatasetClaims.

(** ** What the [Dataset] classes do to a sample *)

Section SampleClaims.

Lemma rmap_ok_inv {A B} (f : A -> Result B) (xs : list A) (ys : list B) :
  rmap f xs = Ok ys -> Forall2 (fun x y => f x = Ok y) xs ys.
Proof.
  revert ys. induction xs as [|x xs IH]; intros ys H; cbn [rmap] in H.
  - unfold Ok in H. inversion H. constructor.
  - apply rbind_ok_inv in H. destruct H as (y & Hy & H).
    apply rbind_ok_inv in H. destruct H as (ys' & Hys & H).
    unfold Ok in H. inversion H. subst. constructor; [exact Hy | apply IH, Hys].
Qed.

Lemma py_getitem_In {A} (l : list A) (i : Z) (x : A) : py_getitem l i = Ok x -> In x l.
Proof.
  unfold py_getitem. intros H.
  destruct (_ && _)%bool; [|discriminate].
  destruct (nth_error l _) as [y|] eqn:E; [|discriminate].
  unfold Ok in H. inversion H. subst. eapply nth_error_In, E.
Qed.

Lemma pad_tokens_spec (tokens : list string) (n : Z) :
  TextDataset.pad_tokens tokens n = tokens ++ repeat "[PAD]"%string (Z.to_nat n).
Proof.
  unfold TextDataset.pad_tokens. generalize 0%nat as a. revert tokens.
  induction (Z.to_nat n) as [|k IH]; intros tokens a; cbn [seq fold_left repeat].
  - rewrite app_nil_r. reflexivity.
  - rewrite IH, <- app_assoc. reflexivity.
Qed.

(** Padding never shortens: the token list has [max_seq_len] entries when
    the text has at most that many words, and one entry per word
    otherwise. *)
Lemma length_pad_tokens (tokens : list string) (max_seq_len : Z) :
  Z.of_nat (length (TextDataset.pad_tokens tokens (max_seq_len - Z.of_nat (length tokens))))
  = Z.max (Z.of_nat (length tokens)) max_seq_len.
Proof. rewrite pad_tokens_spec, length_app, repeat_length. lia. Qed.

Lemma length_py_slice_to {A} (l : list A) (k : Z) :
  (0 <= k <= Z.of_nat (length l))%Z -> length (py_slice_to l k) = Z.to_nat k.
Proof.
  intros Hk. unfold py_slice_to.
  destruct (Z.ltb_spec k 0) as [?|_]; [lia|].
  rewrite length_firstn. lia.
Qed.

Lemma length_set_duration (y : list Q) (max_dur : Q) (sampling_frequency : Z) :
  (0 <= int_of_float (max_dur * inject_Z sampling_frequency))%Z ->
  length (SpeechDataset._set_duration y max_dur sampling_frequency)
  = Z.to_nat (int_of_float (max_dur * inject_Z sampling_frequency)).
Proof.
  intros Hpos. unfold SpeechDataset._set_duration. cbv zeta.
  destruct (Z.ltb_spec (int_of_float (max_dur * inject_Z sampling_frequency))
              (Z.of_nat (length y))) as [Hlt|Hge].
  - apply length_py_slice_to. lia.
  - rewrite length_app, repeat_length. lia.
Qed.

(** [_set_duration] crops or appends zeros and rescales nothing: every
    sample it keeps is the sample read from the file. *)
Lemma set_duration_nth (y : list Q) (max_dur : Q) (sampling_frequency : Z) (i : nat) :
  (i < length (SpeechDataset._set_duration y max_dur sampling_frequency))%nat ->
  nth i (SpeechDataset._set_duration y max_dur sampling_frequency) 0%Q = nth i y 0%Q.
Proof.
  unfold SpeechDataset._set_duration. cbv zeta.
  destruct (_ <? _)%Z.
  - unfold py_slice_to. destruct (_ <? 0)%Z; intros Hi;
      rewrite length_firstn in Hi; rewrite nth_firstn;
      (match goal with |- context [(i <? ?n)%nat] =>
         destruct (Nat.ltb_spec i n) as [_|?]; [reflexivity | lia] end).
  - intros _. destruct (Nat.lt_ge_cases i (length y)) as [Hlt|Hge].
    + apply app_nth1, Hlt.
    + rewrite app_nth2 by exact Hge. rewrite nth_repeat.
      symmetry. apply nth_overflow, Hge.
Qed.

Lemma enumerate_dict_range (words : list string) (w : string) (i : Z) :
  TextDataset.enumerate_dict words !! w = Some i ->
  (0 <= i < Z.of_nat (length words))%Z.
Proof.
  unfold TextDataset.enumerate_dict.
  assert (H : forall ws a (d : gmap string Z) bound,
    (forall w i, d !! w = Some i -> (0 <= i < bound)%Z) ->
    (Z.of_nat (a + length ws) <= bound)%Z ->
    forall w i,
      fold_left (fun d iw => <[snd iw := Z.of_nat (fst iw)]> d)
        (combine (seq a (length ws)) ws) d !! w = Some i ->
      (0 <= i < bound)%Z).
  { induction ws as [|x ws IH]; intros a d bound Hd Hb w' i'; cbn [length seq combine fold_left].
    - apply Hd.
    - apply IH.
      + intros w0 i0. cbn [fst snd].
        destruct (decide (x = w0)) as [->|Hne].
        * rewrite lookup_insert_eq. intros [= <-]. cbn [length] in Hb. lia.
        * rewrite lookup_insert_ne by exact Hne. apply Hd.
      + cbn [length] in Hb. lia. }
  apply (H words 0%nat ∅ (Z.of_nat (length words))).
  - intros w0 i0. rewrite lookup_empty. discriminate.
  - cbn. lia.
Qed.

End SampleClaims.

Section SampleTheorems.

Local Open Scope Z_scope.

Lemma normalize_range (raw : list (list (list Z))) :
  Forall (Forall (Forall (fun v => 0 <= v <= 255))) raw ->
  Forall (Forall (Forall (fun q => (0 <= q <= 1)%Q))) (ImageDataset.normalize raw).
Proof.
  unfold ImageDataset.normalize. intros H.
  apply List.Forall_map. eapply List.Forall_impl; [|exact H].
  intros plane Hplane. apply List.Forall_map. eapply List.Forall_impl; [|exact Hplane].
  intros row Hrow. apply List.Forall_map. eapply List.Forall_impl; [|exact Hrow].
  intros v [Hlo Hhi]. cbv beta. split.
  - apply Qle_shift_div_l; [reflexivity|].
    rewrite Qmult_0_l. change 0%Q with (inject_Z 0). rewrite <- Zle_Qle. exact Hlo.
  - apply Qle_shift_div_r; [reflexivity|].
    rewrite Qmult_1_l. change 255%Q with (inject_Z 255). rewrite <- Zle_Qle. exact Hhi.
Qed.

Lemma length_rmap {A B} (f : A -> Result B) (xs : list A) (ys : list B) :
  rmap f xs = Ok ys -> length ys = length xs.
Proof. intros H. symmetry. eapply Forall2_length, rmap_ok_inv, H. Qed.

(** C2. What the code does about sample lengths. [SpeechDataset.__getitem__]
    returns a signal of [int(max_dur * sampling_frequency)] samples whenever
    that number is not negative, whatever the length of the file.
    [TextDataset.__getitem__] returns as many token ids as the larger of
    [max_seq_len] and the number of words of the text: it pads a short text
    and leaves a long one as it is. *)
Theorem dataset_sample_lengths (os : OSEnv) :
  (forall (self : SpeechDataset.t) index path raw sampling_frequency,
     py_getitem (SpeechDataset.audio_path_list self) index = Ok path ->
     sf_read os path = Ok (raw, sampling_frequency) ->
     0 <= int_of_float (SpeechDataset.max_dur self * inject_Z sampling_frequency) ->
     exists y name,
       SpeechDataset.__getitem__ os self index = Ok (y, sampling_frequency, name) /\
       Z.of_nat (length y)
       = int_of_float (SpeechDataset.max_dur self * inject_Z sampling_frequency)) /\
  (forall (self : TextDataset.t) index f,
     TextDataset.__getitem__ os self index = Ok f ->
     exists path line,
       py_getitem (TextDataset.text_files self) index = Ok path /\
       TextDataset.first_line os path = Ok line /\
       let text := Str.lower (Str.strip line) in
       let words := Str.split (TextDataset.blank_out (TextDataset.not_letters text) text) in
       Z.of_nat (length (TextDataset.token_ids f))
       = Z.max (Z.of_nat (length words)) (TextDataset.max_seq_len self)).
Proof.
  split.
  - intros self index path raw sf Hpath Hread Hpos.
    unfold SpeechDataset.__getitem__. rewrite Hpath. cbn [rbind Ok]. rewrite Hread.
    cbn [rbind Ok fst snd]. eexists _, _. split; [reflexivity|].
    rewrite length_set_duration by exact Hpos. lia.
  - intros self index f H. unfold TextDataset.__getitem__ in H.
    apply rbind_ok_inv in H. destruct H as (path & Hpath & H).
    apply rbind_ok_inv in H. destruct H as (tokens & Htok & H).
    apply rbind_ok_inv in H. destruct H as (x & Hx & H).
    apply rbind_ok_inv in H. destruct H as (label & _ & H).
    apply rbind_ok_inv in H. destruct H as (y & _ & H).
    unfold Ok in H. inversion H. subst f. cbn [TextDataset.token_ids].
    unfold TextDataset._tokenize_text in Htok.
    apply rbind_ok_inv in Htok. destruct Htok as (line & Hline & Htok).
    exists path, line. split; [exact Hpath|]. split; [exact Hline|]. cbv zeta.
    cbv zeta in Htok. unfold Ok in Htok. inversion Htok as [Htokens].
    rewrite (length_rmap _ _ _ Hx), <- Htokens. apply length_pad_tokens.
Qed.

End SampleTheorems.

(** * The theorems on concrete runs *)


Lemma run_ok {FW : Framework} {A} (m : M A) (w : World) (r : Result A) :
  snd (m w) = r -> m w = (fst (m w), r).
Proof. destruct (m w) as [w' r']. cbn. intros ->. reflexivity. Qed.

Ltac run_returns out r E :=
  let Er := fresh "Er" in
  assert (Er : exists r, snd out = Ok r) by (vm_compute; eexists; reflexivity);
  destruct Er as [r Er]; pose proof (run_ok _ _ _ Er) as E.


Lemma training_loops_steps_witness :
  (exists w' r,
     linear_regression_training 0 Demo.mse [[2%Q]] [[10%Q]] (Demo.world0 Demo.lin_1_3)
     = (w', Ok r) /\
     ktrace w'
     = concat (repeat [Forward_ [[2%Q]]; Loss_; ZeroGrad; Backward; OptStep; Print] 10)) /\
  (exists w' r,
     nonlinear_regression_training 0 Demo.mse [[2%Q]] [[10%Q]] (Demo.world0 Demo.lin_1_3)
     = (w', Ok r) /\
     ktrace w'
     = concat (repeat [Forward_ [[2%Q]]; Loss_; ZeroGrad; Backward; OptStep; Print; Append] 50)) /\
  (exists w' r xss,
     training_mlp_classifier 2 0 Demo.train 2 Demo.mse (1 # 10) true Demo.w0 = (w', Ok r) /\
     length xss = 2%nat /\
     ktrace w'
     = flat_map (fun xs =>
         flat_map (fun x => [Forward_ x; Loss_; ZeroGrad; Backward; OptStep; Accumulate]) xs
         ++ [Append; Print]) xss) /\
  (exists w' r xvs,
     train_val_mlp_classifier 2 0 Demo.train Demo.valid 2 2 2 Demo.mse (1 # 10) false Demo.w0
     = (w', Ok r) /\
     length xvs = 2%nat /\
     ktrace w'
     = flat_map (fun xv =>
         flat_map (fun x => [Forward_ x; Loss_; ZeroGrad; Backward; OptStep; Accumulate]) (fst xv)
         ++ [Append] ++ flat_map (fun x => [EvalForward x]) (snd xv) ++ [Append]) xvs) /\
  (exists w' r xvs,
     training_val_cnn_classifier 0 Demo.train Demo.valid 2 Demo.mse (1 # 10) false Demo.w0
     = (w', Ok r) /\
     length xvs = 2%nat /\
     ktrace w'
     = flat_map (fun xv =>
         flat_map (fun x => [Forward_ x; Loss_; ZeroGrad; Backward; OptStep; Accumulate]) (fst xv)
         ++ [Append] ++ flat_map (fun x => [EvalForward x]) (snd xv) ++ [Append]) xvs).
Proof.
  pose proof (training_loops_steps 2 0 Demo.train Demo.valid 2 2 2 Demo.mse (1 # 10) true
                [[2%Q]] [[10%Q]] (Demo.world0 Demo.lin_1_3)) as (H1 & H2 & _).
  pose proof (training_loops_steps 2 0 Demo.train Demo.valid 2 2 2 Demo.mse (1 # 10) true
                [[2%Q]] [[10%Q]] Demo.w0) as (_ & _ & H3 & _).
  pose proof (training_loops_steps 2 0 Demo.train Demo.valid 2 2 2 Demo.mse (1 # 10) false
                [[2%Q]] [[10%Q]] Demo.w0) as (_ & _ & _ & H4 & H5).
  split; [|split; [|split; [|split]]].
  - run_returns (linear_regression_training 0 Demo.mse [[2%Q]] [[10%Q]]
                   (Demo.world0 Demo.lin_1_3)) r E.
    eexists _, r. split; [exact E | exact (H1 _ _ E)].
  - run_returns (nonlinear_regression_training 0 Demo.mse [[2%Q]] [[10%Q]]
                   (Demo.world0 Demo.lin_1_3)) r E.
    eexists _, r. split; [exact E | exact (H2 _ _ E)].
  - run_returns (training_mlp_classifier 2 0 Demo.train 2 Demo.mse (1 # 10) true Demo.w0) r E.
    destruct (H3 _ _ E) as (xss & Hlen & _ & Hk).
    eexists _, r, xss. split; [exact E|]. split; [exact Hlen | exact Hk].
  - run_returns (train_val_mlp_classifier 2 0 Demo.train Demo.valid 2 2 2 Demo.mse (1 # 10) false Demo.w0) r E.
    destruct (H4 _ _ E) as (xvs & Hlen & _ & Hk).
    eexists _, r, xvs. split; [exact E|]. split; [exact Hlen | exact Hk].
  - run_returns (training_val_cnn_classifier 0 Demo.train Demo.valid 2 Demo.mse (1 # 10) false Demo.w0) r E.
    destruct (H5 _ _ E) as (xvs & Hlen & _ & Hk).
    eexists _, r, xvs. split; [exact E|]. split; [exact Hlen | exact Hk].
Defined.

(** The regression loops print the loss and never add it to a running
    total. *)
Lemma linear_regression_never_accumulates :
  exists w',
    linear_regression_training 0 Demo.mse [[2%Q]] [[10%Q]] (Demo.world0 Demo.lin_1_3)
    = (w', Ok tt) /\
    length (ktrace w') = 60%nat /\
    count (fun k => match k with Accumulate | Append => true | _ => false end) (ktrace w')
    = 0%nat /\
    count (fun k => match k with Print => true | _ => false end) (ktrace w') = 10%nat.
Proof.
  eexists. split; [apply run_ok; vm_compute; reflexivity|].
  vm_compute. repeat split.
Qed.

Lemma failing_forward_always_raises : forward_always_raises (FW := Failing.framework).
Proof. intros mode p x. exists RuntimeError. reflexivity. Qed.



Lemma epoch_covers_dataset_witness :
  (exists w' r xvs,
     train_val_mlp_classifier 2 0 Demo.train Demo.valid 2 2 2 Demo.mse (1 # 10) false Demo.w0
     = (w', Ok r) /\
     length xvs = 2%nat /\
     ktrace w' = flat_map (val_epoch_steps false) xvs /\
     Forall (fun xv => Permutation (concat (fst xv)) (map fst Demo.four_samples)) xvs) /\
  (exists w' r xvs,
     training_val_cnn_classifier 0 (Demo.loader Demo.odd_samples 2 false false) Demo.valid 2
       Demo.mse (1 # 10) false Demo.w0
     = (w', Ok r) /\
     length xvs = 2%nat /\
     ktrace w' = flat_map (cnn_epoch_steps false) xvs /\
     Forall (fun xv =>
               fst xv = [[[1; 0]; [0; 1]]; [[1; 1]]]%Q /\
               Permutation (concat (fst xv)) (map fst Demo.odd_samples)) xvs).
Proof.
  split.
  - assert (Hbs : (0 < dl_batch_size Demo.train)%nat) by (cbn; lia).
    destruct (epoch_covers_dataset 2 0 Demo.train Demo.valid 2 2 2 Demo.mse (1 # 10) false Demo.w0
                Hbs) as (_ & H & _).
    run_returns (train_val_mlp_classifier 2 0 Demo.train Demo.valid 2 2 2 Demo.mse (1 # 10) false Demo.w0) r E.
    assert (Hd : Forall (fun s : Sample => length (fst s) = 2%nat) (dataset Demo.train))
      by (repeat constructor).
    destruct (H _ _ E) as (xvs & Hlen & Hk & _ & Hcover).
    eexists _, r, xvs. split; [exact E|].
    split; [exact Hlen|]. split; [exact Hk|].
    eapply List.Forall_impl; [|exact (Hcover eq_refl Hd (or_introl eq_refl))].
    intros xv (_ & _ & Hall). exact (Hall eq_refl).
  - assert (Hbs : (0 < dl_batch_size (Demo.loader Demo.odd_samples 2 false false))%nat)
      by (cbn; lia).
    destruct (epoch_covers_dataset 2 0 (Demo.loader Demo.odd_samples 2 false false) Demo.valid
                2 2 2 Demo.mse (1 # 10) false Demo.w0 Hbs) as (_ & _ & H).
    run_returns (training_val_cnn_classifier 0 (Demo.loader Demo.odd_samples 2 false false)
                   Demo.valid 2 Demo.mse (1 # 10) false Demo.w0) r E.
    destruct (H _ _ E) as (xvs & Hlen & Hk & Hcover).
    eexists _, r, xvs. split; [exact E|].
    split; [exact Hlen|]. split; [exact Hk|].
    eapply List.Forall_impl; [|exact Hcover].
    intros xv ((order & (_ & Horder) & Hxs) & _ & Hall).
    cbv beta. split; [|exact (Hall (or_introl eq_refl))].
    etransitivity; [exact Hxs|]. rewrite (Horder eq_refl). reflexivity.
Defined.


(** Three samples in batches of two with [drop_last=True]: the epoch feeds
    the model one batch, and the third sample is never seen. *)
Lemma drop_last_epoch_skips_a_sample :
  exists w' r,
    training_mlp_classifier 2 0 (Demo.loader Demo.odd_samples 2 true true) 1 Demo.mse
      (1 # 10) false Demo.w0 = (w', Ok r) /\
    ktrace w'
    = [Forward_ [[1; 0]; [0; 1]]%Q; Loss_; ZeroGrad; Backward; OptStep; Accumulate; Append] /\
    In [1; 1]%Q (map fst Demo.odd_samples).
Proof.
  eexists _, _. split; [apply run_ok; vm_compute; reflexivity|].
  split; [vm_compute; reflexivity|]. right. right. left. reflexivity.
Qed.

Lemma training_leaves_model_unchanged_witness :
  (exists w' r,
     training_mlp_classifier 2 0 Demo.train 2 Demo.mse (1 # 10) false Demo.w0 = (w', Ok r) /\
     heap w' !! 0%nat = Some (Demo.obj Demo.identity2)) /\
  (exists w' r,
     train_val_mlp_classifier 2 0 Demo.train Demo.valid 2 2 2 Demo.mse (1 # 10) false Demo.w0
     = (w', Ok r) /\
     heap w' !! 0%nat = Some (Demo.obj Demo.identity2)) /\
  (exists w' r,
     training_val_cnn_classifier 0 Demo.train Demo.valid 2 Demo.mse (1 # 10) false Demo.w0
     = (w', Ok r) /\
     heap w' !! 0%nat = Some (Demo.obj Demo.identity2)).
Proof.
  assert (H0 : heap Demo.w0 !! 0%nat = Some (Demo.obj Demo.identity2)) by reflexivity.
  destruct (training_leaves_model_unchanged 2 0 Demo.train Demo.valid 2 2 2 Demo.mse (1 # 10) false
              Demo.w0 _ H0) as (H1 & H2 & H3).
  split; [|split].
  - run_returns (training_mlp_classifier 2 0 Demo.train 2 Demo.mse (1 # 10) false Demo.w0) r E.
    eexists _, r. split; [exact E | exact (H1 _ _ E)].
  - run_returns (train_val_mlp_classifier 2 0 Demo.train Demo.valid 2 2 2 Demo.mse (1 # 10) false Demo.w0) r E.
    eexists _, r. split; [exact E | exact (H2 _ _ E)].
  - run_returns (training_val_cnn_classifier 0 Demo.train Demo.valid 2 Demo.mse (1 # 10) false Demo.w0) r E.
    eexists _, r. split; [exact E | exact (H3 _ _ E)].
Defined.


Lemma best_model_is_first_maximum_witness :
  (exists w' model_opt train_losses k model_tr_k,
     train_val_mlp_classifier 2 0 Demo.train Demo.valid 2 2 4 Demo.mse (1 # 4) false
       (Demo.world0 Demo.swapped2)
     = (w', Ok (model_opt, train_losses, [100 # 4; 300 # 4; 300 # 4; 300 # 4]%Q)) /\
     first_maximum [100 # 4; 300 # 4; 300 # 4; 300 # 4]%Q k /\
     heap w' !! model_opt = Some (copy_of model_tr_k)) /\
  (exists w' model_opt train_losses k model_tr_k,
     training_val_cnn_classifier 0 Demo.train Demo.valid 4 Demo.mse (1 # 4) false
       (Demo.world0 Demo.swapped2)
     = (w', Ok (model_opt, train_losses, [100 # 4; 300 # 4; 300 # 4; 300 # 4]%Q)) /\
     first_maximum [100 # 4; 300 # 4; 300 # 4; 300 # 4]%Q k /\
     heap w' !! model_opt = Some (copy_of model_tr_k)).
Proof.
  destruct (best_model_is_first_maximum 2 0 Demo.train Demo.valid 2 2 4 Demo.mse (1 # 4) false
              (Demo.world0 Demo.swapped2)) as (H1 & H2).
  assert (Hpos : Exists (fun a => (0 < a)%Q) [100 # 4; 300 # 4; 300 # 4; 300 # 4]%Q)
    by (apply Exists_cons_hd; reflexivity).
  split.
  - assert (Er : exists model_opt train_losses,
               snd (train_val_mlp_classifier 2 0 Demo.train Demo.valid 2 2 4 Demo.mse (1 # 4) false
                      (Demo.world0 Demo.swapped2))
               = Ok (model_opt, train_losses, [100 # 4; 300 # 4; 300 # 4; 300 # 4]%Q))
      by (vm_compute; eexists _, _; reflexivity).
    destruct Er as (model_opt & train_losses & Er). apply run_ok in Er.
    destruct (H1 _ _ _ _ Er Hpos) as (k & model_tr_k & Hk & _ & Hcopy).
    eexists _, model_opt, train_losses, k, model_tr_k.
    split; [exact Er|]. split; [exact Hk | exact Hcopy].
  - assert (Er : exists model_opt train_losses,
               snd (training_val_cnn_classifier 0 Demo.train Demo.valid 4 Demo.mse (1 # 4) false
                      (Demo.world0 Demo.swapped2))
               = Ok (model_opt, train_losses, [100 # 4; 300 # 4; 300 # 4; 300 # 4]%Q))
      by (vm_compute; eexists _, _; reflexivity).
    destruct Er as (model_opt & train_losses & Er). apply run_ok in Er.
    destruct (H2 _ _ _ _ Er Hpos) as (k & model_tr_k & Hk & _ & Hcopy).
    eexists _, model_opt, train_losses, k, model_tr_k.
    split; [exact Er|]. split; [exact Hk | exact Hcopy].
Defined.


Lemma linear_classifier_on : classifier_on 2 Demo.two_features.
Proof.
  intros mode p x (Hin & Hw & Hb) Hx.
  exists p, (map (map Qred) (map (Linear.affine p) x)).
  split; [|split; [exact (conj Hin (conj Hw Hb))|split]].
  - cbn. unfold Demo.lin_call, Linear.forward_.
    replace (forallb _ x) with true; [reflexivity|].
    symmetry. apply forallb_forall. intros row Hrow.
    rewrite List.Forall_forall in Hx. rewrite (Hx row Hrow), Hin. reflexivity.
  - rewrite !length_map. reflexivity.
  - apply List.Forall_map, List.Forall_map, List.Forall_forall. intros row _.
    unfold Linear.affine.
    destruct (Linear.weight p); [congruence|]. destruct (Linear.bias p); [congruence|].
    discriminate.
Qed.



Lemma MLPClassif_forward_composition_witness :
  exists out,
    forward demo_mlp [[1; 0]; [0; 1]]%Q = Ok out /\
    forward demo_mlp [[1; 0]; [0; 1]]%Q
    = (y <-? forward (MLPClassif.input_layer demo_mlp) [[1; 0]; [0; 1]]%Q ;;
       z <-? forward (MLPClassif.hidden_layer demo_mlp) y ;;
       forward (MLPClassif.output_layer demo_mlp) z)%result /\
    Tensor.shape out 2 2.
Proof.
  assert (Hx : Tensor.shape [[1; 0]; [0; 1]]%Q 2 2) by (split; repeat constructor).
  eexists. exact (MLPClassif_forward_composition 2 2 2 ReLU _ _ _ _ _ _ _ 2 Hx).
Defined.

Lemma datasets_read_sorted_matching_files_witness :
  (ImageDataset.__len__ (ImageDataset.__init__ demo_os "corpus/") = 2%Z /\
   ImageDataset.__getitem__ demo_os (ImageDataset.__init__ demo_os "corpus/") 1
   = Ok (ImageDataset.normalize [[[0; 51; 255; 255]%Z]], "zed")) /\
  (SpeechDataset.__len__ (SpeechDataset.__init__ demo_os "corpus/" 2) = 2%Z /\
   SpeechDataset.__getitem__ demo_os (SpeechDataset.__init__ demo_os "corpus/" 2) 0
   = Ok ([-1 # 2; 1 # 4; 0; 0; 0; 0; 0; 0]%Q, 4%Z, "clip")) /\
  (exists text,
     TextDataset.__init__ demo_os "corpus/" 6 = Ok text /\
     TextDataset.__len__ text = 2%Z /\
     TextDataset.__getitem__ demo_os text 1
     = Ok {| TextDataset.token_ids := [1; -1; -1; -1; -1; -1]%Z;
             TextDataset.labels_ := [Float32.Finite 0] |}) /\
  Str.fnmatch "zed.png" "*.png" = true.
Proof.
  destruct (datasets_read_sorted_matching_files demo_os "corpus/" 2 6)
    as (Himg & Hsp & Htxt & Hpat).
  split; [|split; [|split]].
  - destruct Himg as (_ & _ & Hlen & Hget). split.
    + rewrite Hlen. vm_compute. reflexivity.
    + rewrite (Hget 1%Z "corpus/zed.png"); [|lia|vm_compute; reflexivity].
      vm_compute. reflexivity.
  - destruct Hsp as (_ & _ & Hlen & Hget). split.
    + rewrite Hlen. vm_compute. reflexivity.
    + rewrite (Hget 0%Z "corpus/clip.wav"); [|lia|vm_compute; reflexivity].
      vm_compute. reflexivity.
  - eassert (E : TextDataset.__init__ demo_os "corpus/" 6 = Ok _)
      by (vm_compute; reflexivity).
    destruct (Htxt _ E) as (_ & _ & Hlen & Hget).
    eexists. split; [exact E|]. split.
    + rewrite Hlen. vm_compute. reflexivity.
    + rewrite (Hget 1%Z "corpus/b.txt"); [|lia|vm_compute; reflexivity].
      vm_compute. reflexivity.
  - apply (proj1 (Hpat "zed.png")). exists "zed". reflexivity.
Defined.

Lemma dataset_sample_lengths_witness :
  (exists y name,
     SpeechDataset.__getitem__ demo_os (SpeechDataset.__init__ demo_os "corpus/" 2) 1
     = Ok (y, 4%Z, name) /\
     Z.of_nat (length y) = 8%Z) /\
  (exists text f,
     TextDataset.__init__ demo_os "corpus/" 6 = Ok text /\
     TextDataset.__getitem__ demo_os text 0 = Ok f /\
     Z.of_nat (length (TextDataset.token_ids f)) = 6%Z).
Proof.
  destruct (dataset_sample_lengths demo_os) as (Hsp & Htxt). split.
  - edestruct (Hsp (SpeechDataset.__init__ demo_os "corpus/" 2) 1%Z "corpus/sub/long.wav")
      as (y & name & E & Hlen);
      [vm_compute; reflexivity | vm_compute; reflexivity | vm_compute; discriminate |].
    exists y, name. split; [exact E|]. rewrite Hlen. vm_compute. reflexivity.
  - eassert (E : TextDataset.__init__ demo_os "corpus/" 6 = Ok _)
      by (vm_compute; reflexivity).
    match type of E with
    | _ = Ok ?text =>
        eassert (Eg : TextDataset.__getitem__ demo_os text 0 = Ok _)
          by (vm_compute; reflexivity)
    end.
    destruct (Htxt _ _ _ Eg) as (path & line & Hpath & Hline & Hlen).
    eexists _, _. split; [exact E|]. split; [exact Eg|].
    vm_compute in Hpath. inversion Hpath. subst path.
    vm_compute in Hline. inversion Hline. subst line.
    rewrite Hlen. vm_compute. reflexivity.
Defined.

(** A text of four words read with [max_seq_length = 3]: four token ids
    come back, one more than [max_seq_len]. *)
Lemma text_sample_longer_than_max_seq_len :
  exists text,
    TextDataset.__init__ demo_os "corpus/" 3 = Ok text /\
    TextDataset.max_seq_len text = 3%Z /\
    TextDataset.__getitem__ demo_os text 0
    = Ok {| TextDataset.token_ids := [0; 2; 2; 3]%Z; TextDataset.labels_ := [Float32.Finite 1] |}.
Proof.
  eexists. split; [vm_compute; reflexivity|]. split; vm_compute; reflexivity.
Qed.


(** * Further properties of the notebooks' code *)

(** ** What the evaluation functions compute *)

Section EvaluationValue.

Context `{FW : Framework}.

(** In evaluation mode the module scores every row on its own and keeps its
    parameters and buffers: [scores p row] is the row of class scores. *)
Definition scores_rows (d : nat) (inv : Params -> Prop)
    (scores : Params -> list Q -> list Q) : Prop :=
  forall p x,
    inv p -> Forall (fun r => length r = d) x ->
    module_call false p x = Ok (p, map (scores p) x) /\
    Forall (fun r => scores p r <> []) x.

(** The class [torch.max(..., 1)] reports for a sample is its label. *)
Definition predicts (scores : Params -> list Q -> list Q) (p : Params) (s : Sample) : bool :=
  match Tensor.row_argmax (scores p (fst s)) with
  | inr i => (i =? snd s)%Z
  | inl _ => false
  end.

(** The samples of a batch. *)
Definition samples_of (b : Tensor2 * list Z) : list Sample := combine (fst b) (snd b).

(** The samples a pass over the dataloader yields, in order. *)
Definition samples_seen (dl : DataLoader) (order : list nat) : list Sample :=
  flat_map samples_of (batches_of dl order).

Lemma samples_of_collate (g : list Sample) : samples_of (collate g) = g.
Proof.
  unfold samples_of, collate. cbn [fst snd].
  induction g as [|[x l] g IH]; [reflexivity|]. cbn [map combine fst snd]. rewrite IH. reflexivity.
Qed.

Lemma flat_map_samples_of_collate (groups : list (list Sample)) :
  flat_map samples_of (map collate groups) = concat groups.
Proof.
  induction groups as [|g groups IH]; [reflexivity|].
  cbn [map flat_map concat]. rewrite samples_of_collate, IH. reflexivity.
Qed.

Lemma length_filter_Permutation {A} (f : A -> bool) (l l' : list A) :
  Permutation l l' -> length (List.filter f l) = length (List.filter f l').
Proof.
  induction 1 as [|x l l' _ IH|x y l|l l' l'' _ IH1 _ IH2]; cbn [List.filter].
  - reflexivity.
  - destruct (f x); cbn [length]; congruence.
  - destruct (f x), (f y); reflexivity.
  - congruence.
Qed.

Lemma filter_full_id {A} (k : nat) (all : list (list A)) :
  Forall (fun g => length g = k) all ->
  List.filter (fun g => (length g =? k)%nat) all = all.
Proof.
  induction 1 as [|g all Hg _ IH]; [reflexivity|].
  cbn [List.filter]. rewrite Hg, Nat.eqb_refl, IH. reflexivity.
Qed.

(** When no sample is dropped, a pass yields the samples of the dataset, in
    the order of the sampler. *)
Lemma samples_seen_all (dl : DataLoader) (order : list nat) :
  (0 < dl_batch_size dl)%nat ->
  Permutation order (seq 0 (length (dataset dl))) ->
  drop_last dl = false \/ (length (dataset dl) mod dl_batch_size dl = 0)%nat ->
  samples_seen dl order = select (dataset dl) order.
Proof.
  intros Hk Ho Hall. unfold samples_seen, batches_of. cbv zeta.
  rewrite flat_map_samples_of_collate.
  destruct (drop_last dl) eqn:Edl.
  - destruct Hall as [?|Hmod]; [discriminate|].
    rewrite filter_full_id.
    + apply concat_chunk. exact Hk.
    + apply chunk_full; [exact Hk|]. rewrite length_select by exact Ho. exact Hmod.
  - apply concat_chunk. exact Hk.
Qed.

Lemma count_eq_predicts scores p (images : Tensor2) (labels idx : list Z) :
  Tensor.argmax_dim1 (map (scores p) images) = Ok idx ->
  Tensor.count_eq idx labels
  = Z.of_nat (length (List.filter (predicts scores p) (combine images labels))).
Proof.
  unfold Tensor.argmax_dim1, Tensor.count_eq.
  revert labels idx. induction images as [|x images IH]; intros labels idx H.
  - cbn in H. unfold Ok in H. inversion H. reflexivity.
  - cbn [map rmap] in H.
    destruct (Tensor.row_argmax (scores p x)) as [e|i] eqn:Ei; [discriminate|].
    cbn [rbind] in H.
    destruct (rmap Tensor.row_argmax (map (scores p) images)) as [e|idx'] eqn:Er;
      [discriminate|].
    cbn [rbind] in H. unfold Ok in H. inversion H. subst idx.
    destruct labels as [|l labels]; [reflexivity|].
    cbn [combine List.filter fst snd]. unfold predicts at 1. cbn [fst snd]. rewrite Ei.
    specialize (IH labels idx' eq_refl).
    destruct (i =? l)%Z; cbn [length]; lia.
Qed.

Variable d : nat.
Variable inv : Params -> Prop.
Variable scores : Params -> list Q -> list Q.
Hypothesis Hscores : scores_rows d inv scores.

(** The loop invariant: the module is as the call found it, in evaluation
    mode, and the counters count the samples seen so far. *)
Definition counting (model : nat) (o : ModuleObj) (done : list (Tensor2 * list Z))
    (st : Z * Z) (w : World) : Prop :=
  heap w !! model = Some {| state := state o; grad := grad o; training := false |} /\
  st = (Z.of_nat (length (List.filter (predicts scores (state o)) (flat_map samples_of done))),
        Z.of_nat (length (flat_map samples_of done))).

Lemma flat_map_snoc {A B} (f : A -> list B) (l : list A) (a : A) :
  flat_map f (l ++ [a]) = flat_map f l ++ f a.
Proof. rewrite flat_map_app. cbn [flat_map]. rewrite app_nil_r. reflexivity. Qed.

Lemma eval_cnn_batch_counts model o b done st w :
  inv (state o) -> good_batch d b -> counting model o done st w ->
  wp (eval_cnn_batch model b st)
     (fun st' w' => counting model o (done ++ [b]) st' w') never w.
Proof.
  intros Hinv (Hd & Hpos & Hlab) (Hheap & ->).
  destruct b as [images labels]. cbn [fst snd] in *.
  unfold eval_cnn_batch, call_model.
  wp_simpl. rewrite Hheap. wp_simpl. cbn [training state grad].
  destruct (Hscores (state o) images Hinv Hd) as (Hcall & Hne).
  rewrite Hcall. wp_simpl. cbn [value snd fst].
  destruct (argmax_dim1_ok (map (scores (state o)) images)) as (idx & Hidx & Hl).
  { apply List.Forall_map. exact Hne. }
  rewrite Hidx. wp_simpl.
  rewrite length_map in Hl.
  rewrite eq_sum_same_length by congruence.
  wp_simpl. unfold counting. cbn [heap].
  split; [rewrite lookup_insert_eq; reflexivity|].
  rewrite flat_map_snoc, List.filter_app, !length_app.
  change (samples_of (images, labels)) with (combine images labels).
  rewrite (count_eq_predicts scores (state o) images labels idx Hidx).
  unfold Sample. rewrite List.length_combine, Hlab, Nat.min_id.
  f_equal; lia.
Qed.

Lemma eval_mlp_batch_counts batch_size model o b done st w :
  (0 < batch_size)%nat -> length (fst b) = batch_size ->
  inv (state o) -> good_batch d b -> counting model o done st w ->
  wp (eval_mlp_batch batch_size model b st)
     (fun st' w' => counting model o (done ++ [b]) st' w') never w.
Proof.
  intros Hb Hfull Hinv (Hd & Hpos & Hlab) (Hheap & ->).
  destruct b as [images labels]. cbn [fst snd] in *.
  unfold eval_mlp_batch, call_model.
  wp_simpl. rewrite (view_infer_full d batch_size images Hb Hfull Hd).
  wp_simpl. rewrite Hheap. wp_simpl. cbn [training state grad].
  destruct (Hscores (state o) images Hinv Hd) as (Hcall & Hne).
  rewrite Hcall. wp_simpl. cbn [value snd fst].
  destruct (argmax_dim1_ok (map (scores (state o)) images)) as (idx & Hidx & Hl).
  { apply List.Forall_map. exact Hne. }
  rewrite Hidx. wp_simpl.
  rewrite length_map in Hl.
  rewrite eq_sum_same_length by congruence.
  wp_simpl. unfold counting. cbn [heap].
  split; [rewrite lookup_insert_eq; reflexivity|].
  rewrite flat_map_snoc, List.filter_app, !length_app.
  change (samples_of (images, labels)) with (combine images labels).
  rewrite (count_eq_predicts scores (state o) images labels idx Hidx).
  unfold Sample. rewrite List.length_combine, Hlab, Nat.min_id.
  f_equal; lia.
Qed.

Lemma wp_iter_order dl (Q : list (Tensor2 * list Z) -> World -> Prop) E w :
  (forall order d',
     Permutation order (seq 0 (length (dataset dl))) ->
     (shuffle dl = false -> order = seq 0 (length (dataset dl))) ->
     Q (batches_of dl order) {| heap := heap w; draws := d'; trace := trace w |}) ->
  wp (iter dl) Q E w.
Proof.
  intros H. unfold iter. rewrite wp_bind. destruct (shuffle dl).
  - rewrite wp_draw_order, wp_ret. apply H; [apply randperm_perm | discriminate].
  - rewrite !wp_ret. destruct w. apply H; [apply Permutation_refl | reflexivity].
Qed.

(** The accuracy over the samples [seen]. *)
Definition accuracy_over (p : Params) (seen : list Sample) : Result Q :=
  int_div (100 * Z.of_nat (length (List.filter (predicts scores p) seen)))
          (Z.of_nat (length seen)).

Definition accuracy_of_pass (dl : DataLoader) (p : Params) (r : Result Q) : Prop :=
  exists order,
    Permutation order (seq 0 (length (dataset dl))) /\
    (shuffle dl = false -> order = seq 0 (length (dataset dl))) /\
    r = accuracy_over p (samples_seen dl order).

Lemma eval_cnn_classifier_value model dl w o :
  (0 < dl_batch_size dl)%nat ->
  Forall (fun s => length (fst s) = d) (dataset dl) ->
  heap w !! model = Some o -> inv (state o) ->
  wp (eval_cnn_classifier model dl)
     (fun acc _ => accuracy_of_pass dl (state o) (inr acc))
     (fun e _ => accuracy_of_pass dl (state o) (inl e)) w.
Proof.
  intros Hk Hds Hheap Hinv.
  unfold eval_cnn_classifier, set_training.
  wp_simpl. rewrite Hheap. wp_simpl.
  apply wp_iter_order. intros order d' Ho Hseq. wp_simpl.
  eapply wp_mono.
  - apply (wp_for_each_in (eval_cnn_batch model) (good_batch d)
             (counting model o) never) with (done := []).
    + apply good_batches; assumption.
    + split; [cbn [heap]; rewrite lookup_insert_eq; reflexivity | reflexivity].
    + intros done' b st w1 Hb HI. apply eval_cnn_batch_counts; assumption.
  - intros [correct total] w1 [_ HI]. cbn [app] in HI.
    inversion HI; subst correct total. wp_simpl.
    fold (samples_seen dl order). fold (accuracy_over (state o) (samples_seen dl order)).
    destruct (accuracy_over (state o) (samples_seen dl order)) as [e|acc] eqn:E.
    + exists order. rewrite E. auto.
    + wp_simpl. exists order. rewrite E. auto.
  - intros e w1 [].
Qed.

Lemma eval_mlp_classifier_value batch_size model dl w o :
  (0 < dl_batch_size dl)%nat ->
  dl_batch_size dl = batch_size ->
  drop_last dl = true \/ (length (dataset dl) mod dl_batch_size dl = 0)%nat ->
  Forall (fun s => length (fst s) = d) (dataset dl) ->
  heap w !! model = Some o -> inv (state o) ->
  wp (eval_mlp_classifier batch_size model dl)
     (fun acc _ => accuracy_of_pass dl (state o) (inr acc))
     (fun e _ => accuracy_of_pass dl (state o) (inl e)) w.
Proof.
  intros Hk Hbs Hfull Hds Hheap Hinv.
  unfold eval_mlp_classifier, set_training.
  wp_simpl. rewrite Hheap. wp_simpl.
  apply wp_iter_order. intros order d' Ho Hseq. wp_simpl.
  eapply wp_mono.
  - apply (wp_for_each_in (eval_mlp_batch batch_size model)
             (fun b => good_batch d b /\ length (fst b) = batch_size)
             (counting model o) never) with (done := []).
    + pose proof (good_batches d dl order Hk Hds) as Hg.
      pose proof (batches_of_full dl order Hk Ho Hfull) as Hf.
      rewrite Hbs in Hf. clear -Hg Hf.
      induction Hg as [|b bs Hb _ IH]; [constructor|].
      inversion Hf; subst. constructor; auto.
    + split; [cbn [heap]; rewrite lookup_insert_eq; reflexivity | reflexivity].
    + intros done' b st w1 [Hb Hlen] HI.
      apply eval_mlp_batch_counts; try assumption. rewrite <- Hbs. exact Hk.
  - intros [correct total] w1 [_ HI]. cbn [app] in HI.
    inversion HI; subst correct total. wp_simpl.
    fold (samples_seen dl order). fold (accuracy_over (state o) (samples_seen dl order)).
    destruct (accuracy_over (state o) (samples_seen dl order)) as [e|acc] eqn:E.
    + exists order. rewrite E. auto.
    + wp_simpl. exists order. rewrite E. auto.
  - intros e w1 [].
Qed.

(** When no sample is dropped the accuracy of a pass is that of the
    dataset, whatever the order. *)
Lemma accuracy_of_pass_all dl p r :
  (0 < dl_batch_size dl)%nat ->
  drop_last dl = false \/ (length (dataset dl) mod dl_batch_size dl = 0)%nat ->
  accuracy_of_pass dl p r -> r = accuracy_over p (dataset dl).
Proof.
  intros Hk Hall (order & Ho & _ & ->). unfold accuracy_over.
  rewrite (samples_seen_all dl order Hk Ho Hall).
  rewrite (length_filter_Permutation _ _ _ (select_perm (dataset dl) order Ho)).
  rewrite (length_select (dataset dl) order Ho). reflexivity.
Qed.

End EvaluationValue.

Section EvaluationValueTheorem.

Context `{FW : Framework}.

(** X1. For a module that in evaluation mode scores each image on its own
    and keeps its state, the two evaluation functions return
    [100 * correct / total] where [total] is the number of samples the pass
    yields and [correct] the number of them whose largest score is at the
    index of their label. When no sample is dropped this is the share of
    correctly classified samples of the whole dataset, the same for every
    batch size and sampling order, and [ZeroDivisionError] on an empty
    dataset. *)
Theorem eval_accuracy_is_share_of_correct_predictions
    (d : nat) (inv : Params -> Prop) (scores : Params -> list Q -> list Q)
    (batch_size model : nat) (dl : DataLoader) (w : World) (o : ModuleObj) :
  scores_rows d inv scores ->
  (0 < dl_batch_size dl)%nat ->
  Forall (fun s => length (fst s) = d) (dataset dl) ->
  heap w !! model = Some o -> inv (state o) ->
  accuracy_of_pass scores dl (state o) (snd (eval_cnn_classifier model dl w)) /\
  (drop_last dl = false \/ (length (dataset dl) mod dl_batch_size dl = 0)%nat ->
   snd (eval_cnn_classifier model dl w) = accuracy_over scores (state o) (dataset dl)) /\
  (dl_batch_size dl = batch_size ->
   drop_last dl = true \/ (length (dataset dl) mod dl_batch_size dl = 0)%nat ->
   accuracy_of_pass scores dl (state o) (snd (eval_mlp_classifier batch_size model dl w))) /\
  (dl_batch_size dl = batch_size ->
   (length (dataset dl) mod dl_batch_size dl = 0)%nat ->
   snd (eval_mlp_classifier batch_size model dl w)
   = accuracy_over scores (state o) (dataset dl)).
Proof.
  intros Hsc Hk Hds Hheap Hinv.
  assert (Hcnn : accuracy_of_pass scores dl (state o) (snd (eval_cnn_classifier model dl w))).
  { pose proof (eval_cnn_classifier_value d inv scores Hsc model dl w o Hk Hds Hheap Hinv) as H.
    unfold wp in H. destruct (eval_cnn_classifier model dl w) as [w' [e|acc]]; exact H. }
  assert (Hmlp : dl_batch_size dl = batch_size ->
                 drop_last dl = true \/ (length (dataset dl) mod dl_batch_size dl = 0)%nat ->
                 accuracy_of_pass scores dl (state o)
                   (snd (eval_mlp_classifier batch_size model dl w))).
  { intros Hbs Hfull.
    pose proof (eval_mlp_classifier_value d inv scores Hsc batch_size model dl w o
                  Hk Hbs Hfull Hds Hheap Hinv) as H.
    unfold wp in H. destruct (eval_mlp_classifier batch_size model dl w) as [w' [e|acc]];
      exact H. }
  split; [exact Hcnn|]. split; [|split; [exact Hmlp|]].
  - intros Hall. eapply accuracy_of_pass_all; eauto.
  - intros Hbs Hmod. eapply accuracy_of_pass_all; eauto.
Qed.

End EvaluationValueTheorem.

(** ** Edge cases of the training functions *)

Section TrainingEdges.

Context `{FW : Framework}.

Definition zero_division : PyErr -> World -> Prop := fun e _ => e = ZeroDivisionError.

Lemma for_each_first_raises {X S} (body : X -> S -> M S) (xs : list X) (st : S)
    (E : PyErr -> World -> Prop) w :
  xs <> [] ->
  (forall x st w, wp (body x st) no_return E w) ->
  wp (for_each xs body st) no_return E w.
Proof.
  intros Hne Hbody. destruct xs as [|x xs]; [congruence|].
  cbn [for_each]. rewrite wp_bind.
  eapply wp_mono; [apply Hbody | intros ? ? [] | auto].
Qed.

Lemma raises_run {A} (m : M A) (e0 : PyErr) w :
  wp m no_return (fun e _ => e = e0) w -> snd (m w) = Raise e0.
Proof.
  unfold wp. destruct (m w) as [w' [e|x]]; cbn [snd].
  - intros ->. reflexivity.
  - intros [].
Qed.

(** A dataloader of length zero yields no batch. *)
Lemma batches_of_empty dl order :
  (0 < dl_batch_size dl)%nat -> dataloader_len dl = 0%nat ->
  Permutation order (seq 0 (length (dataset dl))) ->
  batches_of dl order = [].
Proof.
  intros Hk Hlen Ho. pose proof (length_batches_of dl order Hk Ho) as H.
  rewrite Hlen in H. destruct (batches_of dl order); [reflexivity | discriminate].
Qed.

Lemma batches_of_no_sample dl order :
  dataset dl = [] -> Permutation order (seq 0 (length (dataset dl))) ->
  batches_of dl order = [].
Proof.
  intros Hnil Ho. rewrite Hnil in Ho. cbn in Ho.
  apply Permutation_sym, Permutation_nil in Ho. subst order.
  unfold batches_of. cbn [select flat_map]. rewrite chunk_nil.
  destruct (drop_last dl); reflexivity.
Qed.

Lemma training_mlp_epoch_empty batch_size tr dl loss_fn verbose epoch st w :
  (0 < dl_batch_size dl)%nat -> dataloader_len dl = 0%nat ->
  wp (training_mlp_epoch batch_size tr dl loss_fn verbose epoch st)
     no_return zero_division w.
Proof.
  intros Hk Hlen. unfold training_mlp_epoch. destruct st as [optimizer train_losses].
  rewrite wp_bind. apply wp_iter. intros order d' Ho.
  rewrite (batches_of_empty dl order Hk Hlen Ho). cbn [for_each].
  wp_simpl. rewrite Hlen. reflexivity.
Qed.

Lemma train_val_mlp_epoch_empty global_batch_size tr dl vdl input_size batch_size
    loss_fn verbose epoch st w :
  (0 < dl_batch_size dl)%nat -> dataloader_len dl = 0%nat ->
  wp (train_val_mlp_epoch global_batch_size tr dl vdl input_size batch_size loss_fn
        verbose epoch st)
     no_return zero_division w.
Proof.
  intros Hk Hlen. unfold train_val_mlp_epoch.
  rewrite wp_bind. apply wp_iter. intros order d' Ho.
  rewrite (batches_of_empty dl order Hk Hlen Ho). cbn [for_each].
  wp_simpl. rewrite Hlen. reflexivity.
Qed.

Lemma training_val_cnn_epoch_empty tr dl vdl loss_fn verbose epoch st w :
  dataset dl = [] ->
  wp (training_val_cnn_epoch tr dl vdl loss_fn verbose epoch st)
     no_return zero_division w.
Proof.
  intros Hnil. unfold training_val_cnn_epoch.
  rewrite wp_bind. apply wp_iter. intros order d' Ho.
  rewrite (batches_of_no_sample dl order Hnil Ho). cbn [for_each].
  wp_simpl. rewrite Hnil. reflexivity.
Qed.

End TrainingEdges.

(** ** What the training functions return *)

Section TrainingResults.

Context `{FW : Framework}.

(** The object [deepcopy] makes of [o] and [model_tr.train()] then puts in
    training mode. *)
Definition training_copy (o : ModuleObj) : ModuleObj :=
  {| state := state o; grad := grad_zero; training := true |}.

Lemma fresh_dom_ne (m : gmap nat ModuleObj) (a : nat) :
  is_Some (m !! a) -> fresh (dom m) <> a.
Proof.
  intros Hs Heq. apply (is_fresh (dom m)). rewrite Heq. apply elem_of_dom. exact Hs.
Qed.

Lemma nth_In_positive (accs : list Q) (k : nat) :
  (k < length accs)%nat -> (0 < nth k accs 0)%Q -> Exists (fun a => (0 < a)%Q) accs.
Proof.
  intros Hk Hpos. apply List.Exists_exists. exists (nth k accs 0%Q).
  split; [apply nth_In; exact Hk | exact Hpos].
Qed.

Lemma cnn_loop_improves tr dl vdl loss_fn verbose (st0 : BestState Adam) n st w0 w :
  for_each (seq 0 n) (training_val_cnn_epoch tr dl vdl loss_fn verbose) st0 w0
  = (w, inr st) ->
  opt_params (bs_optimizer st0) = tr ->
  bs_val_accuracies st0 = [] -> bs_accuracy_max st0 = 0%Q -> bs_model_opt st0 = None ->
  length (bs_val_accuracies st) = n /\
  (forall mo, bs_model_opt st = Some mo -> Exists (fun a => (0 < a)%Q) (bs_val_accuracies st)).
Proof.
  intros Hrun Hopt Haccs Hamax Hnone.
  destruct (best_loop tr (training_val_cnn_epoch tr dl vdl loss_fn verbose)
              (fun st' => opt_params (bs_optimizer st') = tr)
              (fun e st' Hst' => confined_training_val_cnn_epoch _ _ _ _ _ e st' Hst')
              (fun e st' w1 => training_val_cnn_epoch_best _ _ _ _ _ e st' w1)
              st0 w0 Hopt Haccs Hamax n st w Hrun)
    as (_ & Hlen & _ & _ & Hcase).
  split; [exact Hlen|]. intros mo Hmo.
  destruct Hcase as [[_ Hsame]|(k & mo' & otr & Hk & Hnth & Hgt & _)].
  - rewrite Hsame, Hnone in Hmo. discriminate.
  - apply (nth_In_positive _ k); [lia | rewrite Hnth; exact Hgt].
Qed.

(** X3. [training_val_cnn_classifier] binds [model_opt] only when an epoch
    improves on the best accuracy, which starts at 0: it returns only if some
    validation accuracy is positive, and with no epoch to run it raises
    [UnboundLocalError] at its [return]. *)
Theorem cnn_training_returns_only_after_an_improvement
    (model : nat) (train_dataloader valid_dataloader : DataLoader)
    (num_epochs : Z) (loss_fn : LossFn) (learning_rate : Q) (verbose : bool)
    (w : World) :
  (forall w' model_opt train_losses val_accuracies,
     training_val_cnn_classifier model train_dataloader valid_dataloader
       num_epochs loss_fn learning_rate verbose w
     = (w', Ok (model_opt, train_losses, val_accuracies)) ->
     Exists (fun a => (0 < a)%Q) val_accuracies) /\
  (forall o,
     heap w !! model = Some o -> (num_epochs <= 0)%Z ->
     snd (training_val_cnn_classifier model train_dataloader valid_dataloader
            num_epochs loss_fn learning_rate verbose w)
     = Raise UnboundLocalError).
Proof.
  split.
  - intros w' mo ls accs Hrun.
    unfold training_val_cnn_classifier in Hrun. unfold Ok in Hrun.
    apply bind_ok_inv in Hrun. destruct Hrun as (w1 & tr & E1 & Hrun).
    apply bind_ok_inv in Hrun. destruct Hrun as (w2 & [] & E2 & Hrun).
    apply bind_ok_inv in Hrun. destruct Hrun as (w4 & st & E4 & Hrun).
    apply return_best_inv in Hrun. destruct Hrun as (-> & Hmo & Haccs).
    unfold range in E4.
    destruct (cnn_loop_improves _ _ _ _ _ _ _ _ _ _ E4 eq_refl eq_refl eq_refl eq_refl)
      as [_ H].
    rewrite <- Haccs. exact (H mo Hmo).
  - intros o Hheap Hn.
    apply raises_run.
    unfold training_val_cnn_classifier, deepcopy, set_training, range.
    replace (Z.to_nat num_epochs) with 0%nat by lia.
    wp_simpl. rewrite Hheap. wp_simpl. rewrite lookup_insert_eq. wp_simpl.
    cbn [seq for_each]. wp_simpl. reflexivity.
Qed.

(** X4. [train_val_mlp_classifier] binds [model_opt] before its loop: when
    no epoch has a positive validation accuracy (and so when there is no
    epoch at all) it returns that first copy, which has the parameters of
    the model it was given, untrained. *)
Theorem mlp_training_without_improvement_returns_the_initial_copy
    (global_batch_size model : nat) (train_dataloader valid_dataloader : DataLoader)
    (input_size batch_size : nat) (num_epochs : Z) (loss_fn : LossFn)
    (learning_rate : Q) (verbose : bool) (w w' : World) (o : ModuleObj)
    (model_opt : nat) (train_losses val_accuracies : list Q) :
  heap w !! model = Some o ->
  train_val_mlp_classifier global_batch_size model train_dataloader
    valid_dataloader input_size batch_size num_epochs loss_fn learning_rate
    verbose w = (w', Ok (model_opt, train_losses, val_accuracies)) ->
  Forall (fun a => (a <= 0)%Q) val_accuracies ->
  heap w' !! model_opt = Some (training_copy o) /\
  model_opt <> model /\ model_opt <> fresh (dom (heap w)).
Proof.
  intros Hheap Hrun Hnone.
  unfold train_val_mlp_classifier in Hrun. unfold Ok in Hrun.
  apply bind_ok_inv in Hrun. destruct Hrun as (w1 & tr & E1 & Hrun).
  apply bind_ok_inv in Hrun. destruct Hrun as (w2 & [] & E2 & Hrun).
  apply bind_ok_inv in Hrun. destruct Hrun as (w3 & mo0 & E3 & Hrun).
  apply bind_ok_inv in Hrun. destruct Hrun as (w4 & st & E4 & Hrun).
  apply return_best_inv in Hrun. destruct Hrun as (-> & Hmo & Haccs).
  unfold range in E4.
  (* the worlds before the loop *)
  unfold deepcopy, bind, get_obj, alloc in E1. rewrite Hheap in E1.
  unfold Ok in E1. inversion E1. subst w1 tr. clear E1.
  unfold set_training, bind, get_obj, set_obj in E2. cbn [heap] in E2.
  rewrite lookup_insert_eq in E2. unfold Ok in E2. inversion E2. subst w2. clear E2.
  unfold deepcopy, bind, get_obj, alloc in E3. cbn [heap] in E3.
  rewrite lookup_insert_eq in E3. unfold Ok in E3. inversion E3 as [[Hw3 Hmo0]]. clear E3.
  cbn [state grad training] in *.
  set (tr := fresh (dom (heap w))) in *.
  match type of Hmo0 with fresh (dom ?m) = _ => set (m2 := m) in * end.
  assert (Htrm : tr <> model) by (apply fresh_dom_ne; rewrite Hheap; eauto).
  assert (Hne : mo0 <> tr).
  { rewrite <- Hmo0. apply fresh_dom_ne. unfold m2. rewrite lookup_insert_eq. eauto. }
  assert (Hnem : mo0 <> model).
  { rewrite <- Hmo0. apply fresh_dom_ne. unfold m2.
    rewrite !lookup_insert_ne by exact Htrm. rewrite Hheap. eauto. }
  assert (Hmo3 : heap w3 !! mo0 = Some (training_copy o)).
  { subst w3. cbn [heap]. rewrite Hmo0, lookup_insert_eq. reflexivity. }
  (* the loop leaves [mo0] alone and, without improvement, bound to [model_opt] *)
  match type of E4 with
  | for_each _ ?body ?s0 _ = _ =>
      destruct (best_loop tr body
                  (fun st' => opt_params (bs_optimizer st') = tr)
                  (fun e st' Hst' =>
                     confined_train_val_mlp_epoch _ _ _ _ _ _ _ _ e st' Hst')
                  (fun e st' w0 => train_val_mlp_epoch_best _ _ _ _ _ _ _ _ e st' w0)
                  s0 w3 eq_refl eq_refl eq_refl _ _ _ E4)
        as (_ & Hlen & _ & _ & Hcase);
      pose proof (confined_for_each tr body
                    (fun st' => opt_params (bs_optimizer st') = tr)
                    (fun e st' Hst' =>
                       confined_train_val_mlp_epoch _ _ _ _ _ _ _ _ e st' Hst')
                    _ s0 eq_refl _ _ _ E4) as [Htouch _]
  end.
  destruct Hcase as [[_ Hsame]|(k & mo' & otr & Hk & Hnth & Hgt & _)].
  - cbn [bs_model_opt] in Hsame. rewrite Hsame in Hmo. inversion Hmo. subst model_opt.
    split; [|split; [exact Hnem | exact Hne]].
    rewrite (Htouch mo0 Hne); [exact Hmo3 | rewrite Hmo3; eauto].
  - exfalso. rewrite <- Haccs in Hnone.
    assert (Hin : In (nth k (bs_val_accuracies st) 0%Q) (bs_val_accuracies st))
      by (apply nth_In; lia).
    rewrite List.Forall_forall in Hnone. specialize (Hnone _ Hin).
    rewrite Hnth in Hnone. exact (Qlt_not_le _ _ Hgt Hnone).
Qed.

End TrainingResults.

Section TrainingRecords.

Context `{FW : Framework}.

(** One epoch adds one training loss and one validation accuracy. *)
Definition adds_records (st st' : BestState Adam) : Prop :=
  (exists l, bs_train_losses st' = bs_train_losses st ++ [l]) /\
  (exists a, bs_val_accuracies st' = bs_val_accuracies st ++ [a]).

Lemma wp_any {A} (m : M A) (Q : A -> World -> Prop) w :
  (forall x w', Q x w') -> wp m Q anyE w.
Proof. intros H. unfold wp. destruct (m w) as [w' [e|x]]; [exact Logic.I | apply H]. Qed.

Lemma train_val_mlp_epoch_records global_batch_size tr dl vdl input_size batch_size
    loss_fn verbose epoch st w :
  wp (train_val_mlp_epoch global_batch_size tr dl vdl input_size batch_size
        loss_fn verbose epoch st)
     (fun st' _ => adds_records st st') anyE w.
Proof.
  unfold train_val_mlp_epoch.
  apply wp_skip. intros batches w1.
  apply wp_skip. intros [optimizer tr_loss] w2.
  apply wp_skip. intros tr_loss' w3.
  unfold append. wp_simpl.
  apply wp_any. intros _ w5.
  apply wp_skip. intros acc w6.
  wp_simpl.
  apply wp_any. intros [amax mo] w7.
  apply wp_skip. intros _ w8.
  wp_simpl. split; eexists; reflexivity.
Qed.

Lemma training_val_cnn_epoch_records tr dl vdl loss_fn verbose epoch st w :
  wp (training_val_cnn_epoch tr dl vdl loss_fn verbose epoch st)
     (fun st' _ => adds_records st st') anyE w.
Proof.
  unfold training_val_cnn_epoch.
  apply wp_skip. intros batches w1.
  apply wp_skip. intros [optimizer tr_loss] w2.
  apply wp_skip. intros tr_loss' w3.
  unfold append. wp_simpl.
  apply wp_any. intros acc w5.
  wp_simpl.
  apply wp_any. intros _ w6.
  apply wp_skip. intros [mo amax] w7.
  wp_simpl. split; eexists; reflexivity.
Qed.

Lemma training_mlp_epoch_records batch_size tr dl loss_fn verbose epoch st w :
  wp (training_mlp_epoch batch_size tr dl loss_fn verbose epoch st)
     (fun st' _ => exists l, snd st' = snd st ++ [l]) anyE w.
Proof.
  unfold training_mlp_epoch. destruct st as [optimizer train_losses].
  apply wp_skip. intros batches w1.
  apply wp_skip. intros [optimizer' tr_loss] w2.
  apply wp_skip. intros tr_loss' w3.
  unfold append. wp_simpl.
  apply wp_any. intros _ w5.
  wp_simpl. eexists. reflexivity.
Qed.

Lemma records_loop (body : nat -> BestState Adam -> M (BestState Adam)) :
  (forall e st w, wp (body e st) (fun st' _ => adds_records st st') anyE w) ->
  forall xs st w,
    wp (for_each xs body st)
       (fun st' _ =>
          length (bs_train_losses st') = (length (bs_train_losses st) + length xs)%nat /\
          length (bs_val_accuracies st') = (length (bs_val_accuracies st) + length xs)%nat)
       anyE w.
Proof.
  intros Hbody xs. induction xs as [|x xs IH]; intros st w; cbn [for_each].
  - rewrite wp_ret. cbn [length]. lia.
  - rewrite wp_bind. eapply wp_mono; [apply Hbody | | auto].
    intros st1 w1 ((l & Hl) & (a & Ha)). cbv beta.
    eapply wp_mono; [apply IH | | auto].
    intros st2 w2 [H1 H2]. cbv beta. rewrite H1, H2, Hl, Ha, !length_app.
    cbn [length]. lia.
Qed.

Lemma wp_ok_run {A} (m : M A) (Q : A -> World -> Prop) w w' x :
  wp m Q anyE w -> m w = (w', inr x) -> Q x w'.
Proof. intros H Hrun. exact (wp_run _ _ _ _ _ _ H Hrun). Qed.

(** X5. The lists the training functions return have one entry per epoch:
    [range(num_epochs)] iterations, each appending once to each list. *)
Theorem training_returns_one_record_per_epoch
    (global_batch_size model : nat) (train_dataloader valid_dataloader : DataLoader)
    (input_size batch_size : nat) (num_epochs : Z) (loss_fn : LossFn)
    (learning_rate : Q) (verbose : bool) (w : World) :
  (forall w' model_tr train_losses,
     training_mlp_classifier global_batch_size model train_dataloader num_epochs
       loss_fn learning_rate verbose w = (w', Ok (model_tr, train_losses)) ->
     length train_losses = Z.to_nat num_epochs) /\
  (forall w' model_opt train_losses val_accuracies,
     train_val_mlp_classifier global_batch_size model train_dataloader
       valid_dataloader input_size batch_size num_epochs loss_fn learning_rate
       verbose w = (w', Ok (model_opt, train_losses, val_accuracies)) ->
     length train_losses = Z.to_nat num_epochs /\
     length val_accuracies = Z.to_nat num_epochs) /\
  (forall w' model_opt train_losses val_accuracies,
     training_val_cnn_classifier model train_dataloader valid_dataloader
       num_epochs loss_fn learning_rate verbose w
     = (w', Ok (model_opt, train_losses, val_accuracies)) ->
     length train_losses = Z.to_nat num_epochs /\
     length val_accuracies = Z.to_nat num_epochs).
Proof.
  split; [|split].
  - intros w' tr ls Hrun.
    unfold training_mlp_classifier in Hrun. unfold Ok in Hrun.
    apply bind_ok_inv in Hrun. destruct Hrun as (w1 & tr' & E1 & Hrun).
    apply bind_ok_inv in Hrun. destruct Hrun as (w2 & [] & E2 & Hrun).
    apply bind_ok_inv in Hrun. destruct Hrun as (w3 & st & E3 & Hrun).
    unfold ret in Hrun. inversion Hrun. subst.
    assert (H : forall xs st0 w0,
      wp (for_each xs (training_mlp_epoch global_batch_size tr train_dataloader
                         loss_fn verbose) st0)
         (fun st' _ => length (snd st') = (length (snd st0) + length xs)%nat) anyE w0).
    { induction xs as [|x xs IH]; intros st0 w0; cbn [for_each].
      - rewrite wp_ret. cbn [length]. lia.
      - rewrite wp_bind. eapply wp_mono; [apply training_mlp_epoch_records | | auto].
        intros st1 w1' (l & Hl). cbv beta.
        eapply wp_mono; [apply IH | | auto].
        intros st2 w2' H2. cbv beta. rewrite H2, Hl, length_app. cbn [length]. lia. }
    pose proof (wp_ok_run _ _ _ _ _ (H _ _ _) E3) as Hlen. cbn beta in Hlen.
    rewrite Hlen. unfold range. cbn [snd length]. rewrite length_seq. reflexivity.
  - intros w' mo ls accs Hrun.
    unfold train_val_mlp_classifier in Hrun. unfold Ok in Hrun.
    apply bind_ok_inv in Hrun. destruct Hrun as (w1 & tr & E1 & Hrun).
    apply bind_ok_inv in Hrun. destruct Hrun as (w2 & [] & E2 & Hrun).
    apply bind_ok_inv in Hrun. destruct Hrun as (w3 & mo0 & E3 & Hrun).
    apply bind_ok_inv in Hrun. destruct Hrun as (w4 & st & E4 & Hrun).
    unfold return_best in Hrun. destruct (bs_model_opt st); [|discriminate].
    unfold ret, Ok in Hrun. inversion Hrun. subst.
    pose proof (wp_ok_run _ _ _ _ _
                  (records_loop _ (fun e st0 w0 =>
                     train_val_mlp_epoch_records _ _ _ _ _ _ _ _ e st0 w0) _ _ _) E4)
      as [H1 H2].
    cbn [bs_train_losses bs_val_accuracies length] in H1, H2.
    unfold range in H1, H2. rewrite length_seq in H1, H2. auto.
  - intros w' mo ls accs Hrun.
    unfold training_val_cnn_classifier in Hrun. unfold Ok in Hrun.
    apply bind_ok_inv in Hrun. destruct Hrun as (w1 & tr & E1 & Hrun).
    apply bind_ok_inv in Hrun. destruct Hrun as (w2 & [] & E2 & Hrun).
    apply bind_ok_inv in Hrun. destruct Hrun as (w4 & st & E4 & Hrun).
    unfold return_best in Hrun. destruct (bs_model_opt st); [|discriminate].
    unfold ret, Ok in Hrun. inversion Hrun. subst.
    pose proof (wp_ok_run _ _ _ _ _
                  (records_loop _ (fun e st0 w0 =>
                     training_val_cnn_epoch_records _ _ _ _ _ e st0 w0) _ _ _) E4)
      as [H1 H2].
    cbn [bs_train_losses bs_val_accuracies length] in H1, H2.
    unfold range in H1, H2. rewrite length_seq in H1, H2. auto.
Qed.

End TrainingRecords.

(** ** The mode of the models the training functions return *)

Section Modes.

Context `{FW : Framework}.

(** The object at [a] is in training ([true]) or evaluation ([false])
    mode. *)
Definition in_mode (a : nat) (mode : bool) (w : World) : Prop :=
  exists o, heap w !! a = Some o /\ training o = mode.

Lemma in_mode_insert a mode (m : gmap nat ModuleObj) (o : ModuleObj) d' t' :
  training o = mode ->
  in_mode a mode {| heap := <[a := o]> m; draws := d'; trace := t' |}.
Proof. intros H. exists o. cbn [heap]. rewrite lookup_insert_eq. auto. Qed.

Lemma in_mode_trace a mode (w : World) d' t' :
  in_mode a mode w ->
  in_mode a mode {| heap := heap w; draws := d'; trace := t' |}.
Proof. intros H. exact H. Qed.

Lemma in_mode_alloc a mode (w : World) (o : ModuleObj) d' t' :
  in_mode a mode w ->
  in_mode a mode {| heap := <[fresh (dom (heap w)) := o]> (heap w); draws := d'; trace := t' |}.
Proof.
  intros (oa & Ha & Hm). exists oa. cbn [heap]. split; [|exact Hm].
  rewrite lookup_insert_ne; [exact Ha|]. apply fresh_dom_ne. rewrite Ha. eauto.
Qed.

Lemma call_model_mode ge a x mode w :
  in_mode a mode w ->
  wp (call_model ge a x) (fun p w' => in_mode a mode w' /\ pred_module p = a) anyE w.
Proof.
  intros (o & Ha & Hm). unfold call_model. wp_simpl. rewrite Ha. wp_simpl.
  destruct (module_call (training o) (state o) x) as [e|py]; [exact Logic.I|].
  wp_simpl. split; [|reflexivity]. apply in_mode_insert. exact Hm.
Qed.

(** The steps of a training batch after the reshaping of the images. *)
Lemma train_steps_mode {O} tr loss_fn (images : Tensor2) (labels : list Z)
    (optimizer : OptimizerObj O) (tr_loss scale : Q) mode w :
  opt_params optimizer = tr -> in_mode tr mode w ->
  wp (labels_pred <- call_model true tr images ;;
      loss <- call_loss loss_fn labels_pred (ClassLabels labels) ;;
      zero_grad optimizer ;;;
      backward loss ;;;
      optimizer <- step optimizer ;;
      tr_loss <- accumulate tr_loss (item loss * scale) ;;
      ret (optimizer, tr_loss))%M
     (fun st' w' => opt_params (fst st') = tr /\ in_mode tr mode w') anyE w.
Proof.
  intros Hopt Hmode. rewrite wp_bind.
  eapply wp_mono; [apply (call_model_mode true tr images mode w Hmode) | | auto].
  intros p w1 ((o1 & H1 & Hm1) & Hp). cbv beta.
  unfold call_loss, zero_grad, backward, step, accumulate. wp_simpl.
  destruct (loss_value loss_fn (value p) (ClassLabels labels)) as [e|v]; [exact Logic.I|].
  wp_simpl. rewrite Hopt, H1. wp_simpl. cbn [loss_module]. rewrite Hp.
  rewrite lookup_insert_eq. wp_simpl. rewrite lookup_insert_eq. wp_simpl.
  cbn [opt_params fst training]. split; [reflexivity|].
  apply in_mode_insert. exact Hm1.
Qed.

Lemma eval_batch_mode (prep : Tensor2 -> Result Tensor2) a b st mode w :
  in_mode a mode w ->
  wp (let '(images, labels) := b in
      let '(correct_labels, total_labels) := st in
      images <- lift (prep images) ;;
      y_predicted <- call_model false a images ;;
      labels_predicted <- lift (Tensor.argmax_dim1 (value y_predicted)) ;;
      let total_labels := (total_labels + Z.of_nat (length labels))%Z in
      matches <- lift (Tensor.eq_sum labels_predicted labels) ;;
      let correct_labels := (correct_labels + matches)%Z in
      ret (correct_labels, total_labels))%M
     (fun (_ : Z * Z) w' => in_mode a mode w') anyE w.
Proof.
  intros Hmode. destruct b as [images labels]. destruct st as [c t].
  wp_simpl. destruct (prep images) as [e|x]; [exact Logic.I|].
  rewrite wp_bind.
  eapply wp_mono; [apply (call_model_mode false a x mode w Hmode) | | auto].
  intros p w1 [Hm _]. cbv beta. wp_simpl.
  destruct (Tensor.argmax_dim1 (value p)) as [e|idx]; [exact Logic.I|].
  wp_simpl. destruct (Tensor.eq_sum idx labels) as [e|m]; [exact Logic.I|].
  wp_simpl. exact Hm.
Qed.

Lemma for_each_keeps {X S} (body : X -> S -> M S) (P : World -> Prop) :
  (forall x st w, P w -> wp (body x st) (fun _ w' => P w') anyE w) ->
  forall xs st w, P w -> wp (for_each xs body st) (fun _ w' => P w') anyE w.
Proof.
  intros Hbody xs. induction xs as [|x xs IH]; intros st w HP; cbn [for_each].
  - rewrite wp_ret. exact HP.
  - rewrite wp_bind. eapply wp_mono; [apply Hbody; exact HP | | auto].
    intros st1 w1 HP1. apply IH. exact HP1.
Qed.

Lemma for_each_keeps_state {X S} (body : X -> S -> M S) (I : S -> World -> Prop) :
  (forall x st w, I st w -> wp (body x st) I anyE w) ->
  forall xs st w, I st w -> wp (for_each xs body st) I anyE w.
Proof.
  intros Hbody xs. induction xs as [|x xs IH]; intros st w HI; cbn [for_each].
  - rewrite wp_ret. exact HI.
  - rewrite wp_bind. eapply wp_mono; [apply Hbody; exact HI | | auto].
    intros st1 w1 HI1. apply IH. exact HI1.
Qed.

Lemma wp_iter_keeps dl (P : World -> Prop) (Q : list (Tensor2 * list Z) -> World -> Prop) w :
  (forall d' t', P {| heap := heap w; draws := d'; trace := t' |}) ->
  (forall batches w', P w' -> Q batches w') ->
  wp (iter dl) Q anyE w.
Proof.
  intros HP HQ. apply wp_iter. intros order d' _. apply HQ, HP.
Qed.

Lemma eval_mlp_classifier_mode batch_size a dl w :
  wp (eval_mlp_classifier batch_size a dl) (fun _ w' => in_mode a false w') anyE w.
Proof.
  unfold eval_mlp_classifier, set_training. wp_simpl.
  destruct (heap w !! a) as [o|]; [|exact Logic.I]. wp_simpl.
  apply wp_iter. intros order d' _. wp_simpl.
  eapply wp_mono.
  - apply (for_each_keeps (eval_mlp_batch batch_size a) (in_mode a false)).
    + intros b st w1 Hm. apply (eval_batch_mode (fun x => Tensor.view_infer x batch_size)).
      exact Hm.
    + apply in_mode_insert. reflexivity.
  - intros [c t] w1 Hm. cbv beta. wp_simpl.
    destruct (int_div (100 * c) t); [exact Logic.I|]. wp_simpl. exact Hm.
  - auto.
Qed.

Lemma eval_cnn_classifier_mode a dl w :
  wp (eval_cnn_classifier a dl) (fun _ w' => in_mode a false w') anyE w.
Proof.
  unfold eval_cnn_classifier, set_training. wp_simpl.
  destruct (heap w !! a) as [o|]; [|exact Logic.I]. wp_simpl.
  apply wp_iter. intros order d' _. wp_simpl.
  eapply wp_mono.
  - apply (for_each_keeps (eval_cnn_batch a) (in_mode a false)).
    + intros b st w1 Hm. apply (eval_batch_mode Ok). exact Hm.
    + apply in_mode_insert. reflexivity.
  - intros [c t] w1 Hm. cbv beta. wp_simpl.
    destruct (int_div (100 * c) t); [exact Logic.I|]. wp_simpl. exact Hm.
  - auto.
Qed.

Lemma train_val_mlp_epoch_mode global_batch_size tr dl vdl input_size batch_size
    loss_fn verbose epoch st w :
  wp (train_val_mlp_epoch global_batch_size tr dl vdl input_size batch_size
        loss_fn verbose epoch st)
     (fun _ w' => in_mode tr false w') anyE w.
Proof.
  unfold train_val_mlp_epoch.
  apply wp_skip. intros batches w1.
  apply wp_skip. intros [optimizer tr_loss] w2.
  apply wp_skip. intros tr_loss' w3.
  apply wp_skip. intros train_losses w4.
  apply wp_skip. intros _ w5.
  rewrite wp_bind. eapply wp_mono; [apply eval_mlp_classifier_mode | | auto].
  intros acc w6 Hm. cbv beta. unfold append. wp_simpl.
  destruct (Qltb (bs_accuracy_max st) acc).
  - unfold deepcopy. wp_simpl. destruct Hm as (o & Ha & Hm). rewrite Ha. wp_simpl.
    destruct verbose; unfold print; wp_simpl; apply in_mode_alloc; exists o; auto.
  - wp_simpl. destruct verbose; unfold print; wp_simpl; exact Hm.
Qed.

Lemma training_val_cnn_epoch_mode tr dl vdl loss_fn verbose epoch st w :
  wp (training_val_cnn_epoch tr dl vdl loss_fn verbose epoch st)
     (fun _ w' => in_mode tr false w') anyE w.
Proof.
  unfold training_val_cnn_epoch.
  apply wp_skip. intros batches w1.
  apply wp_skip. intros [optimizer tr_loss] w2.
  apply wp_skip. intros tr_loss' w3.
  apply wp_skip. intros train_losses w4.
  rewrite wp_bind. eapply wp_mono; [apply eval_cnn_classifier_mode | | auto].
  intros acc w6 Hm. cbv beta. unfold append. wp_simpl.
  destruct verbose; unfold print; wp_simpl;
    (destruct (Qltb (bs_accuracy_max st) acc);
     [ unfold deepcopy; wp_simpl; destruct Hm as (o & Ha & Hm); rewrite Ha; wp_simpl;
       apply in_mode_alloc; exists o; auto
     | wp_simpl; exact Hm ]).
Qed.

Lemma training_mlp_epoch_mode batch_size tr dl loss_fn verbose epoch st mode w :
  opt_params (fst st) = tr /\ in_mode tr mode w ->
  wp (training_mlp_epoch batch_size tr dl loss_fn verbose epoch st)
     (fun st' w' => opt_params (fst st') = tr /\ in_mode tr mode w') anyE w.
Proof.
  intros [Hopt Hm]. unfold training_mlp_epoch. destruct st as [optimizer train_losses].
  cbn [fst] in Hopt.
  rewrite wp_bind. apply wp_iter. intros order d' _. rewrite wp_bind.
  eapply wp_mono.
  - apply (for_each_keeps_state (training_mlp_batch batch_size tr loss_fn)
             (fun st w => opt_params (fst st) = tr /\ in_mode tr mode w)).
    + intros [images labels] [opt tl] w1 [Ho1 Hm1]. cbn [fst] in Ho1.
      unfold training_mlp_batch. wp_simpl.
      destruct (Tensor.view_infer images batch_size) as [e|x]; [exact Logic.I|].
      apply train_steps_mode; assumption.
    + split; [exact Hopt | exact Hm].
  - intros [opt tl] w1 [Ho1 Hm1]. cbv beta. cbn [fst] in Ho1. wp_simpl.
    destruct (float_div tl _) as [e|v]; [exact Logic.I|].
    unfold append. wp_simpl. destruct verbose; unfold print; wp_simpl; auto.
  - auto.
Qed.

(** A loop over at least one epoch, each of which ends in evaluation
    mode. *)
Lemma epochs_end_in_eval_mode {S} tr (body : nat -> S -> M S) :
  (forall e st w, wp (body e st) (fun _ w' => in_mode tr false w') anyE w) ->
  forall xs st w, xs <> [] ->
    wp (for_each xs body st) (fun _ w' => in_mode tr false w') anyE w.
Proof.
  intros Hbody xs st w Hne. destruct xs as [|x xs]; [congruence|].
  cbn [for_each]. rewrite wp_bind. eapply wp_mono; [apply Hbody | | auto].
  intros st1 w1 Hm. cbv beta.
  apply (for_each_keeps body (in_mode tr false)); [|exact Hm].
  intros e st2 w2 _. apply Hbody.
Qed.

Lemma seq_nonempty (n : nat) : (0 < n)%nat -> seq 0 n <> [].
Proof. destruct n; [lia | discriminate]. Qed.

(** X6. [model_tr.train()] is called once, before the loop, and the
    validation pass of every epoch calls [model.eval()]: after a run of at
    least one epoch of the two functions with validation, the model under
    training is in evaluation mode, and so is the best model they return
    when some accuracy is positive. [training_mlp_classifier], which never
    evaluates, returns its model in training mode. *)
Theorem mode_of_the_returned_models
    (global_batch_size model : nat) (train_dataloader valid_dataloader : DataLoader)
    (input_size batch_size : nat) (num_epochs : Z) (loss_fn : LossFn)
    (learning_rate : Q) (verbose : bool) (w : World) :
  (forall w' model_tr train_losses,
     training_mlp_classifier global_batch_size model train_dataloader num_epochs
       loss_fn learning_rate verbose w = (w', Ok (model_tr, train_losses)) ->
     model_tr = fresh (dom (heap w)) /\ in_mode model_tr true w') /\
  (forall w' model_opt train_losses val_accuracies,
     train_val_mlp_classifier global_batch_size model train_dataloader
       valid_dataloader input_size batch_size num_epochs loss_fn learning_rate
       verbose w = (w', Ok (model_opt, train_losses, val_accuracies)) ->
     (0 < num_epochs)%Z ->
     in_mode (fresh (dom (heap w))) false w' /\
     (Exists (fun a => (0 < a)%Q) val_accuracies -> in_mode model_opt false w')) /\
  (forall w' model_opt train_losses val_accuracies,
     training_val_cnn_classifier model train_dataloader valid_dataloader
       num_epochs loss_fn learning_rate verbose w
     = (w', Ok (model_opt, train_losses, val_accuracies)) ->
     in_mode (fresh (dom (heap w))) false w' /\ in_mode model_opt false w').
Proof.
  split; [|split].
  - intros w' tr ls Hrun.
    unfold training_mlp_classifier in Hrun. unfold Ok in Hrun.
    apply bind_ok_inv in Hrun. destruct Hrun as (w1 & tr' & E1 & Hrun).
    apply bind_ok_inv in Hrun. destruct Hrun as (w2 & [] & E2 & Hrun).
    apply bind_ok_inv in Hrun. destruct Hrun as (w3 & st & E3 & Hrun).
    unfold ret in Hrun. inversion Hrun. subst. clear Hrun.
    split; [exact (deepcopy_ok_inv _ _ _ _ E1)|].
    assert (Hm2 : in_mode tr true w2).
    { unfold set_training, bind, get_obj, set_obj in E2.
      destruct (heap w1 !! tr) as [o1|]; [|discriminate].
      unfold Ok in E2. inversion E2. apply in_mode_insert. reflexivity. }
    assert (H3 : wp (for_each (range num_epochs)
                       (training_mlp_epoch global_batch_size tr train_dataloader
                          loss_fn verbose)
                       (optim_new SGD tr learning_rate, []))
                    (fun st w => opt_params (fst st) = tr /\ in_mode tr true w) anyE w2).
    { apply for_each_keeps_state.
      - intros e st0 w0 H. apply training_mlp_epoch_mode. exact H.
      - split; [reflexivity | exact Hm2]. }
    exact (proj2 (wp_ok_run _ _ _ _ _ H3 E3)).
  - intros w' mo ls accs Hrun Hn.
    unfold train_val_mlp_classifier in Hrun. unfold Ok in Hrun.
    apply bind_ok_inv in Hrun. destruct Hrun as (w1 & tr & E1 & Hrun).
    apply bind_ok_inv in Hrun. destruct Hrun as (w2 & [] & E2 & Hrun).
    apply bind_ok_inv in Hrun. destruct Hrun as (w3 & mo0 & E3 & Hrun).
    apply bind_ok_inv in Hrun. destruct Hrun as (w4 & st & E4 & Hrun).
    apply return_best_inv in Hrun. destruct Hrun as (-> & Hmo & Haccs).
    rewrite <- (deepcopy_ok_inv _ _ _ _ E1). unfold range in E4.
    assert (Hloop : forall xs st0 w0, xs <> [] ->
      wp (for_each xs (train_val_mlp_epoch global_batch_size tr train_dataloader
                         valid_dataloader input_size batch_size loss_fn verbose) st0)
         (fun _ w' => in_mode tr false w') anyE w0).
    { apply epochs_end_in_eval_mode. intros e st0 w0. apply train_val_mlp_epoch_mode. }
    split.
    + assert (Hn' : (0 < Z.to_nat num_epochs)%nat) by lia.
      apply (wp_ok_run _ _ _ _ _ (Hloop _ _ _ (seq_nonempty _ Hn')) E4).
    + intros Hex. rewrite <- Haccs in Hex.
      match type of E4 with
      | for_each _ ?body ?s0 _ = _ =>
          destruct (best_loop_result tr body
                      (fun st' => opt_params (bs_optimizer st') = tr)
                      (fun e st' Hst' =>
                         confined_train_val_mlp_epoch _ _ _ _ _ _ _ _ e st' Hst')
                      (fun e st' w0 => train_val_mlp_epoch_best _ _ _ _ _ _ _ _ e st' w0)
                      s0 w3 eq_refl eq_refl eq_refl _ _ _ E4 Hex)
            as (k & mo' & otr & _ & (wk & stk & Hk1 & _ & _ & Hk4 & _) & Hopt & Hfin)
      end.
      rewrite Hmo in Hopt. inversion Hopt; subst mo'.
      destruct (wp_ok_run _ _ _ _ _ (Hloop _ _ _ (seq_nonempty (S k) (Nat.lt_0_succ k))) Hk1)
        as (otr' & Hotr & Hmode).
      rewrite Hk4 in Hotr. inversion Hotr; subst otr'.
      exists (copy_of otr). split; [exact Hfin | exact Hmode].
  - intros w' mo ls accs Hrun.
    unfold training_val_cnn_classifier in Hrun. unfold Ok in Hrun.
    apply bind_ok_inv in Hrun. destruct Hrun as (w1 & tr & E1 & Hrun).
    apply bind_ok_inv in Hrun. destruct Hrun as (w2 & [] & E2 & Hrun).
    apply bind_ok_inv in Hrun. destruct Hrun as (w4 & st & E4 & Hrun).
    apply return_best_inv in Hrun. destruct Hrun as (-> & Hmo & Haccs).
    rewrite <- (deepcopy_ok_inv _ _ _ _ E1). unfold range in E4.
    destruct (cnn_loop_improves _ _ _ _ _ _ _ _ _ _ E4 eq_refl eq_refl eq_refl eq_refl)
      as [Hlen Hex]. specialize (Hex mo Hmo).
    assert (Hn : (0 < Z.to_nat num_epochs)%nat).
    { rewrite <- Hlen. destruct (bs_val_accuracies st); [inversion Hex | cbn; lia]. }
    assert (Hloop : forall xs st0 w0, xs <> [] ->
      wp (for_each xs (training_val_cnn_epoch tr train_dataloader valid_dataloader
                         loss_fn verbose) st0)
         (fun _ w' => in_mode tr false w') anyE w0).
    { apply epochs_end_in_eval_mode. intros e st0 w0. apply training_val_cnn_epoch_mode. }
    split.
    + apply (wp_ok_run _ _ _ _ _ (Hloop _ _ _ (seq_nonempty _ Hn)) E4).
    + match type of E4 with
      | for_each _ ?body ?s0 _ = _ =>
          destruct (best_loop_result tr body
                      (fun st' => opt_params (bs_optimizer st') = tr)
                      (fun e st' Hst' =>
                         confined_training_val_cnn_epoch _ _ _ _ _ e st' Hst')
                      (fun e st' w0 => training_val_cnn_epoch_best _ _ _ _ _ e st' w0)
                      s0 w2 eq_refl eq_refl eq_refl _ _ _ E4 Hex)
            as (k & mo' & otr & _ & (wk & stk & Hk1 & _ & _ & Hk4 & _) & Hopt & Hfin)
      end.
      rewrite Hmo in Hopt. inversion Hopt; subst mo'.
      destruct (wp_ok_run _ _ _ _ _ (Hloop _ _ _ (seq_nonempty (S k) (Nat.lt_0_succ k))) Hk1)
        as (otr' & Hotr & Hmode).
      rewrite Hk4 in Hotr. inversion Hotr; subst otr'.
      exists (copy_of otr). split; [exact Hfin | exact Hmode].
Qed.

End Modes.

(** ** The classifiers as modules *)

Section Modules.

(** A linear layer whose tensors have the sizes it announces, as
    [nn.Linear] builds them. *)
Definition Linear_sized (l : Linear.t) : Prop :=
  length (Linear.weight l) = Linear.out_features l /\
  Forall (fun r => length r = Linear.in_features l) (Linear.weight l) /\
  length (Linear.bias l) = Linear.out_features l.

Lemma Linear_init_sized i o w b : Linear_sized (Linear.__init__ i o w b).
Proof.
  unfold Linear_sized, Linear.__init__.
  cbn [Linear.weight Linear.bias Linear.in_features Linear.out_features].
  rewrite !length_map, !length_seq. split; [reflexivity|]. split; [|reflexivity].
  apply List.Forall_map, List.Forall_forall. intros j _.
  rewrite length_map, length_seq. reflexivity.
Qed.

Lemma length_affine l row :
  Linear_sized l -> length (Linear.affine l row) = Linear.out_features l.
Proof.
  intros (Hw & _ & Hb). unfold Linear.affine.
  rewrite length_map, List.length_combine, Hw, Hb. apply Nat.min_id.
Qed.

(** A layer [Linear(h_in, h_out) -> activation]. *)
Definition layer_sized (h_in h_out : nat) (s : Sequential Linear.t Activation) : Prop :=
  Linear_sized (first s) /\
  Linear.in_features (first s) = h_in /\ Linear.out_features (first s) = h_out.

Lemma length_layer_row h_in h_out s row :
  layer_sized h_in h_out s -> length (layer_row s row) = h_out.
Proof.
  intros (Hs & _ & Hout). unfold layer_row.
  rewrite length_map, length_affine by exact Hs. exact Hout.
Qed.

Lemma Forall_length_map {A} (f : A -> list Q) (n : nat) (x : list A) :
  (forall a, length (f a) = n) -> Forall (fun r => length r = n) (map f x).
Proof. intros H. apply List.Forall_map, List.Forall_forall. intros a _. apply H. Qed.

(** The hidden layers, one after the other, on a row. *)
Definition through_row (layers : list (Sequential Linear.t Activation)) (row : list Q)
  : list Q :=
  fold_left (fun r hidden_layer => layer_row hidden_layer r) layers row.

Lemma length_through_row h layers row :
  Forall (layer_sized h h) layers -> length row = h ->
  length (through_row layers row) = h.
Proof.
  intros Hl. revert row. induction Hl as [|s layers Hs _ IH]; intros row Hrow.
  - exact Hrow.
  - cbn [through_row fold_left]. apply IH. apply (length_layer_row h h). exact Hs.
Qed.

Lemma through_rows h layers (y : Tensor2) :
  Forall (layer_sized h h) layers ->
  Forall (fun r => length r = h) y ->
  MLPClassif_var.through layers y = Ok (map (through_row layers) y).
Proof.
  intros Hl. revert y. induction Hl as [|s layers Hs _ IH]; intros y Hy.
  - cbn. rewrite map_id. reflexivity.
  - cbn [MLPClassif_var.through].
    destruct Hs as (Hsz & Hin & Hout).
    rewrite Sequential_forward_shape by (rewrite Hin; exact Hy).
    cbn [rbind Ok]. rewrite IH.
    + rewrite List.map_map. reflexivity.
    + apply Forall_length_map. intros r.
      apply (length_layer_row h h). exact (conj Hsz (conj Hin Hout)).
Qed.

Lemma hidden_layers_sized n i h o w_in b_in w_h b_h w_out b_out :
  Forall (layer_sized h h)
    (MLPClassif_var.hidden_layers
       (MLPClassif_var.__init__ n i h o w_in b_in w_h b_h w_out b_out)).
Proof.
  cbn [MLPClassif_var.__init__ MLPClassif_var.hidden_layers].
  apply List.Forall_map, List.Forall_forall. intros layer _.
  split; [apply Linear_init_sized | split; reflexivity].
Qed.

Lemma MLPClassif_forward_sized i h (self : MLPClassif.t) (x : Tensor2) :
  layer_sized i h (MLPClassif.input_layer self) ->
  layer_sized h h (MLPClassif.hidden_layer self) ->
  Linear.in_features (MLPClassif.output_layer self) = h ->
  Forall (fun r => length r = i) x ->
  forward self x
  = Ok (map (fun row =>
               Linear.affine (MLPClassif.output_layer self)
                 (layer_row (MLPClassif.hidden_layer self)
                    (layer_row (MLPClassif.input_layer self) row))) x).
Proof.
  intros H1 H2 H3 Hx.
  unfold forward at 1, MLPClassif_Forward, MLPClassif.forward_.
  rewrite Sequential_forward_shape
    by (rewrite (proj1 (proj2 H1)); exact Hx).
  cbn [rbind Ok].
  rewrite Sequential_forward_shape
    by (rewrite (proj1 (proj2 H2)); apply Forall_length_map; intros r;
        apply (length_layer_row i h); exact H1).
  cbn [rbind Ok]. rewrite Linear_forward_shape.
  - cbn [rbind Ok]. rewrite !List.map_map. reflexivity.
  - rewrite H3, List.map_map. apply Forall_length_map. intros r.
    apply (length_layer_row h h). exact H2.
Qed.

Lemma MLPClassif_forward_rows i h o act_fn w1 w2 w3 b1 b2 b3 (x : Tensor2) :
  Forall (fun r => length r = i) x ->
  let self := MLPClassif.__init__ i h o act_fn w1 w2 w3 b1 b2 b3 in
  forward self x
  = Ok (map (fun row =>
               Linear.affine (MLPClassif.output_layer self)
                 (layer_row (MLPClassif.hidden_layer self)
                    (layer_row (MLPClassif.input_layer self) row))) x).
Proof.
  intros Hx self. apply (MLPClassif_forward_sized i h); try exact Hx; try reflexivity;
    (split; [apply Linear_init_sized | split; reflexivity]).
Qed.

(** X7. On a batch of shape [[batch_size, input_size]] the forward pass of
    [MLPClassif_var] succeeds: each row goes through the input layer, the
    [hidden_layers_number] hidden layers in order and the output layer, and
    the result has shape [[batch_size, output_size]]. With one hidden layer
    it is the forward pass of the [MLPClassif] with the same weights; with
    [hidden_layers_number <= 0] there is no hidden layer at all. *)
Theorem MLPClassif_var_forward
    (hidden_layers_number : Z) (input_size hidden_size output_size : nat)
    (w_in : nat -> nat -> Q) (b_in : nat -> Q)
    (w_hidden : nat -> nat -> nat -> Q) (b_hidden : nat -> nat -> Q)
    (w_out : nat -> nat -> Q) (b_out : nat -> Q)
    (x : Tensor2) (batch_size : nat) :
  Tensor.shape x batch_size input_size ->
  let self := MLPClassif_var.__init__ hidden_layers_number input_size hidden_size
                output_size w_in b_in w_hidden b_hidden w_out b_out in
  let out :=
    map (fun row =>
           Linear.affine (MLPClassif_var.output_layer self)
             (through_row (MLPClassif_var.hidden_layers self)
                (layer_row (MLPClassif_var.input_layer self) row))) x in
  forward self x = Ok out /\
  Tensor.shape out batch_size output_size /\
  length (MLPClassif_var.hidden_layers self) = Z.to_nat hidden_layers_number /\
  (hidden_layers_number = 1%Z ->
   forward self x
   = forward (MLPClassif.__init__ input_size hidden_size output_size ReLU
                w_in (w_hidden 0%nat) w_out b_in (b_hidden 0%nat) b_out) x).
Proof.
  intros [Hrows Hcols] self out.
  assert (Hin : layer_sized input_size hidden_size (MLPClassif_var.input_layer self)).
  { split; [apply Linear_init_sized | split; reflexivity]. }
  pose proof (hidden_layers_sized hidden_layers_number input_size hidden_size output_size
                w_in b_in w_hidden b_hidden w_out b_out) as Hhid.
  fold self in Hhid.
  assert (Hfw : forward self x = Ok out).
  { unfold forward at 1, MLPClassif_var_Forward, MLPClassif_var.forward_.
    rewrite Sequential_forward_shape by exact Hcols. cbn [rbind Ok].
    rewrite (through_rows hidden_size) by
      (try exact Hhid; apply Forall_length_map; intros r;
       apply (length_layer_row input_size hidden_size); exact Hin).
    cbn [rbind Ok]. rewrite Linear_forward_shape.
    - cbn [rbind Ok]. unfold out. rewrite !List.map_map. reflexivity.
    - rewrite !List.map_map. apply Forall_length_map. intros r.
      apply (length_through_row hidden_size); [exact Hhid|].
      apply (length_layer_row input_size hidden_size). exact Hin. }
  split; [exact Hfw|]. split; [|split].
  - unfold Tensor.shape, out. rewrite length_map. split; [exact Hrows|].
    apply Forall_length_map. intros r. apply Linear_init_affine_length.
  - cbn. rewrite length_map, length_seq. reflexivity.
  - intros ->. rewrite Hfw.
    rewrite (MLPClassif_forward_rows input_size hidden_size output_size ReLU
               w_in (w_hidden 0%nat) w_out b_in (b_hidden 0%nat) b_out x Hcols).
    reflexivity.
Qed.

End Modules.

(** ** Counting and initializing the parameters *)

Section ParameterFacts.

Lemma num_parameters_Linear (l : Linear.t) :
  Linear_sized l ->
  list_sum (map (@length Q) (parameters l))
  = (Linear.out_features l * Linear.in_features l + Linear.out_features l)%nat.
Proof.
  intros (Hw & Hrows & Hb). cbn [parameters Linear_Parameters map list_sum].
  rewrite (length_concat_uniform _ _ Hrows), Hw, Hb.
  unfold list_sum. cbn [fold_right]. rewrite Nat.add_0_r. reflexivity.
Qed.

Lemma num_parameters_layer h_in h_out (s : Sequential Linear.t Activation) :
  layer_sized h_in h_out s ->
  list_sum (map (@length Q) (parameters s)) = (h_out * h_in + h_out)%nat.
Proof.
  intros (Hs & Hin & Hout). unfold parameters, Sequential_Parameters.
  unfold parameters at 2, Activation_Parameters. rewrite app_nil_r.
  rewrite (num_parameters_Linear _ Hs), Hin, Hout. reflexivity.
Qed.

Lemma list_sum_map_app {A} (f : A -> nat) (l l' : list A) :
  list_sum (map f (l ++ l')) = (list_sum (map f l) + list_sum (map f l'))%nat.
Proof. rewrite map_app, list_sum_app. reflexivity. Qed.

Lemma num_parameters_layers h (layers : list (Sequential Linear.t Activation)) :
  Forall (layer_sized h h) layers ->
  list_sum (map (@length Q) (flat_map parameters layers))
  = (length layers * (h * h + h))%nat.
Proof.
  induction 1 as [|s layers Hs _ IH]; [reflexivity|].
  cbn [flat_map length]. rewrite list_sum_map_app, IH, (num_parameters_layer h h s Hs).
  lia.
Qed.

(** X8. [sum(p.numel() for p in model.parameters())]: an [MLPClassif]
    has [(input_size + 1) * hidden_size + (hidden_size + 1) * hidden_size +
    (hidden_size + 1) * output_size] parameters, whatever its activation, and
    8070 for the sizes 784, 10 and 10 of lab 3; every hidden layer of an
    [MLPClassif_var] adds [(hidden_size + 1) * hidden_size]; the model of
    the nonlinear regression has 10. *)
Theorem number_of_parameters
    (hidden_layers_number : Z) (input_size hidden_size output_size : nat)
    (act_fn : Activation)
    (w1 w2 w3 : nat -> nat -> Q) (b1 b2 b3 : nat -> Q)
    (w_hidden : nat -> nat -> nat -> Q) (b_hidden : nat -> nat -> Q) :
  num_parameters (MLPClassif.__init__ input_size hidden_size output_size act_fn
                    w1 w2 w3 b1 b2 b3)
  = ((input_size + 1) * hidden_size + (hidden_size + 1) * hidden_size
     + (hidden_size + 1) * output_size)%nat /\
  Z.of_nat (num_parameters (MLPClassif.__init__ 784 10 10 act_fn w1 w2 w3 b1 b2 b3))
  = 8070%Z /\
  num_parameters (MLPClassif_var.__init__ hidden_layers_number input_size hidden_size
                    output_size w1 b1 w_hidden b_hidden w3 b3)
  = ((input_size + 1) * hidden_size
     + Z.to_nat hidden_layers_number * ((hidden_size + 1) * hidden_size)
     + (hidden_size + 1) * output_size)%nat /\
  num_parameters (nonlin_reg_model w1 w2 b1 b2) = 10%nat.
Proof.
  assert (Hmlp : forall i h o,
    num_parameters (MLPClassif.__init__ i h o act_fn w1 w2 w3 b1 b2 b3)
    = ((i + 1) * h + (h + 1) * h + (h + 1) * o)%nat).
  { intros i h o. unfold num_parameters, parameters, MLPClassif_Parameters.
    rewrite !list_sum_map_app.
    rewrite (num_parameters_layer i h), (num_parameters_layer h h)
      by (split; [apply Linear_init_sized | split; reflexivity]).
    rewrite num_parameters_Linear by apply Linear_init_sized.
    cbn [MLPClassif.__init__ MLPClassif.output_layer Linear.__init__
         Linear.in_features Linear.out_features]. nia. }
  split; [apply Hmlp|]. split; [rewrite Hmlp; reflexivity|]. split.
  - unfold num_parameters, parameters, MLPClassif_var_Parameters.
    rewrite !list_sum_map_app.
    rewrite (num_parameters_layer input_size hidden_size)
      by (split; [apply Linear_init_sized | split; reflexivity]).
    rewrite (num_parameters_layers hidden_size) by apply hidden_layers_sized.
    rewrite num_parameters_Linear by apply Linear_init_sized.
    cbn [MLPClassif_var.__init__ MLPClassif_var.hidden_layers MLPClassif_var.output_layer
         Linear.__init__ Linear.in_features Linear.out_features].
    rewrite length_map, length_seq. nia.
  - unfold num_parameters, nonlin_reg_model, parameters, Sequential3_Parameters.
    cbn [seq0 seq1 seq2]. rewrite !list_sum_map_app.
    rewrite !num_parameters_Linear by apply Linear_init_sized.
    reflexivity.
Qed.

End ParameterFacts.

Section InitializationFacts.

Context `{RNG : Random}.

(** Two linear layers with tensors of the same sizes. *)
Definition same_sizes (l l' : Linear.t) : Prop :=
  Linear.in_features l = Linear.in_features l' /\
  Linear.out_features l = Linear.out_features l' /\
  map (@length Q) (Linear.weight l) = map (@length Q) (Linear.weight l') /\
  length (Linear.bias l) = length (Linear.bias l').

Lemma fill_repeat (t : list Q) (v : Q) : fill_ t v = repeat v (length t).
Proof. unfold fill_. induction t as [|a t IH]; [reflexivity|]. cbn. rewrite IH. reflexivity. Qed.

Lemma init_weights_Linear_by_sizes (l l' : Linear.t) (g : Generator) :
  same_sizes l l' -> init_weights_Linear l g = init_weights_Linear l' g.
Proof.
  intros (Hin & Hout & Hw & Hb). unfold init_weights_Linear. cbv zeta.
  rewrite (xavier_by_shape g _ _ Hw), Hin, Hout, !fill_repeat, Hb. reflexivity.
Qed.

Lemma same_sizes_init i o w b w' b' :
  same_sizes (Linear.__init__ i o w b) (Linear.__init__ i o w' b').
Proof.
  unfold same_sizes, Linear.__init__.
  cbn [Linear.in_features Linear.out_features Linear.weight Linear.bias].
  rewrite !List.map_map, !length_map.
  split; [reflexivity|]. split; [reflexivity|]. split; [|reflexivity].
  apply map_ext. intros j. rewrite !length_map. reflexivity.
Qed.

Lemma map_length_Forall (t t' : list (list Q)) (n : nat) :
  map (@length Q) t = map (@length Q) t' ->
  Forall (fun r => length r = n) t' -> Forall (fun r => length r = n) t.
Proof.
  revert t'. induction t as [|r t IH]; intros [|r' t'] H Hf; try discriminate.
  - constructor.
  - cbn [map] in H. inversion H. inversion Hf; subst.
    constructor; [congruence | eapply IH; eauto].
Qed.

(** What [init_weights] leaves of a linear layer: its sizes, with every
    bias at 0.01. *)
Lemma init_weights_Linear_sized (l : Linear.t) (g : Generator) :
  Linear_sized l ->
  let l' := fst (init_weights_Linear l g) in
  Linear_sized l' /\
  Linear.in_features l' = Linear.in_features l /\
  Linear.out_features l' = Linear.out_features l /\
  Linear.bias l' = repeat (1 # 100)%Q (Linear.out_features l).
Proof.
  intros (Hw & Hrows & Hb) l'. subst l'. unfold init_weights_Linear. cbv zeta.
  cbn [fst Linear.in_features Linear.out_features Linear.weight Linear.bias].
  pose proof (xavier_shape g (Linear.weight l)) as Hs.
  pose proof (f_equal (@length nat) Hs) as Hlen. rewrite !length_map in Hlen.
  rewrite fill_repeat, Hb.
  split; [|split; [reflexivity | split; reflexivity]].
  unfold Linear_sized.
  cbn [Linear.in_features Linear.out_features Linear.weight Linear.bias].
  split; [rewrite Hlen; exact Hw|].
  split; [eapply map_length_Forall; [exact Hs | exact Hrows] | apply repeat_length].
Qed.

Lemma init_layer_sized h_in h_out (s : Sequential Linear.t Activation) (g : Generator) :
  layer_sized h_in h_out s ->
  layer_sized h_in h_out (fst (apply_init_weights s g)) /\
  second (fst (apply_init_weights s g)) = second s /\
  Linear.bias (first (fst (apply_init_weights s g))) = repeat (1 # 100)%Q h_out.
Proof.
  intros (Hs & Hin & Hout).
  destruct (init_weights_Linear_sized (first s) g Hs) as (H1 & H2 & H3 & H4).
  change (fst (apply_init_weights s g))
    with {| first := fst (init_weights_Linear (first s) g); second := second s |}.
  unfold layer_sized. cbn [first second].
  rewrite H2, H3, H4, Hin, Hout.
  split; [split; [exact H1 | split; reflexivity] | split; reflexivity].
Qed.

Lemma apply_layer_by_sizes (s s' : Sequential Linear.t Activation) (g : Generator) :
  same_sizes (first s) (first s') -> second s = second s' ->
  apply_init_weights s g = apply_init_weights s' g.
Proof.
  intros H1 H2.
  change (apply_init_weights s g)
    with ({| first := fst (init_weights_Linear (first s) g); second := second s |},
          snd (init_weights_Linear (first s) g)).
  change (apply_init_weights s' g)
    with ({| first := fst (init_weights_Linear (first s') g); second := second s' |},
          snd (init_weights_Linear (first s') g)).
  rewrite (init_weights_Linear_by_sizes _ _ g H1), H2. reflexivity.
Qed.

Lemma MLPClassif_apply_by_layers (m m' : MLPClassif.t) (g : Generator) :
  (forall g, apply_init_weights (MLPClassif.input_layer m) g
             = apply_init_weights (MLPClassif.input_layer m') g) ->
  (forall g, apply_init_weights (MLPClassif.hidden_layer m) g
             = apply_init_weights (MLPClassif.hidden_layer m') g) ->
  (forall g, apply_init_weights (MLPClassif.output_layer m) g
             = apply_init_weights (MLPClassif.output_layer m') g) ->
  apply_init_weights m g = apply_init_weights m' g.
Proof.
  intros E1 E2 E3.
  change (apply_init_weights m g) with (MLPClassif_Apply m g).
  change (apply_init_weights m' g) with (MLPClassif_Apply m' g).
  unfold MLPClassif_Apply. cbv zeta. rewrite E1, E2, E3. reflexivity.
Qed.

(** X9. [torch.manual_seed(0)] followed by [model.apply(init_weights)]
    overwrites every weight and every bias of an [MLPClassif]: the result
    depends on the sizes and the activation of the model only, not on the
    values its parameters had. Every bias is then 0.01, the sizes and the
    number of parameters are unchanged, and the forward pass still maps
    a batch of shape [[batch_size, input_size]] to one of shape
    [[batch_size, output_size]]. *)
Theorem init_weights_depends_on_the_sizes_only
    (input_size hidden_size output_size : nat) (act_fn : Activation)
    (w1 w2 w3 w1' w2' w3' : nat -> nat -> Q) (b1 b2 b3 b1' b2' b3' : nat -> Q) :
  let model := MLPClassif.__init__ input_size hidden_size output_size act_fn
                 w1 w2 w3 b1 b2 b3 in
  let model' := MLPClassif.__init__ input_size hidden_size output_size act_fn
                  w1' w2' w3' b1' b2' b3' in
  seeded_init model = seeded_init model' /\
  Linear.bias (first (MLPClassif.input_layer (seeded_init model)))
  = repeat (1 # 100)%Q hidden_size /\
  Linear.bias (first (MLPClassif.hidden_layer (seeded_init model)))
  = repeat (1 # 100)%Q hidden_size /\
  Linear.bias (MLPClassif.output_layer (seeded_init model))
  = repeat (1 # 100)%Q output_size /\
  second (MLPClassif.input_layer (seeded_init model)) = act_fn /\
  second (MLPClassif.hidden_layer (seeded_init model)) = act_fn /\
  num_parameters (seeded_init model) = num_parameters model /\
  (forall (x : Tensor2) (batch_size : nat),
     Tensor.shape x batch_size input_size ->
     exists out,
       forward (seeded_init model) x = Ok out /\
       Tensor.shape out batch_size output_size).
Proof.
  intros model model'.
  set (g0 := manual_seed 0).
  assert (Hin : layer_sized input_size hidden_size (MLPClassif.input_layer model))
    by (split; [apply Linear_init_sized | split; reflexivity]).
  assert (Hhid : layer_sized hidden_size hidden_size (MLPClassif.hidden_layer model))
    by (split; [apply Linear_init_sized | split; reflexivity]).
  assert (Hout : Linear_sized (MLPClassif.output_layer model)) by apply Linear_init_sized.
  set (ig := apply_init_weights (MLPClassif.input_layer model) g0).
  set (hg := apply_init_weights (MLPClassif.hidden_layer model) (snd ig)).
  set (og := apply_init_weights (MLPClassif.output_layer model) (snd hg)).
  assert (Hseed : seeded_init model
                  = {| MLPClassif.input_layer := fst ig;
                       MLPClassif.hidden_layer := fst hg;
                       MLPClassif.output_layer := fst og |}) by reflexivity.
  destruct (init_layer_sized _ _ _ g0 Hin) as (Hin' & Hact1 & Hb1).
  destruct (init_layer_sized _ _ _ (snd ig) Hhid) as (Hhid' & Hact2 & Hb2).
  destruct (init_weights_Linear_sized _ (snd hg) Hout) as (Hout' & Ho1 & Ho2 & Hb3).
  fold ig in Hin', Hact1, Hb1. fold hg in Hhid', Hact2, Hb2.
  change (init_weights_Linear (MLPClassif.output_layer model) (snd hg)) with og
    in Hout', Ho1, Ho2, Hb3.
  split; [|rewrite Hseed; cbn [MLPClassif.input_layer MLPClassif.hidden_layer
                                MLPClassif.output_layer];
          split; [|split; [|split; [|split; [|split; [|split]]]]]].
  - unfold seeded_init. f_equal. apply MLPClassif_apply_by_layers; intros g.
    + apply apply_layer_by_sizes; [apply same_sizes_init | reflexivity].
    + apply apply_layer_by_sizes; [apply same_sizes_init | reflexivity].
    + apply init_weights_Linear_by_sizes, same_sizes_init.
  - exact Hb1.
  - exact Hb2.
  - rewrite Hb3. reflexivity.
  - exact Hact1.
  - exact Hact2.
  - unfold num_parameters, parameters, MLPClassif_Parameters.
    cbn [MLPClassif.input_layer MLPClassif.hidden_layer MLPClassif.output_layer].
    rewrite !list_sum_map_app.
    rewrite (num_parameters_layer _ _ _ Hin'), (num_parameters_layer _ _ _ Hhid'),
      (num_parameters_layer _ _ _ Hin), (num_parameters_layer _ _ _ Hhid).
    rewrite (num_parameters_Linear _ Hout'), (num_parameters_Linear _ Hout), Ho1, Ho2.
    reflexivity.
  - intros x batch_size [Hrows Hcols]. eexists. split.
    + apply (MLPClassif_forward_sized input_size hidden_size);
        cbn [MLPClassif.input_layer MLPClassif.hidden_layer MLPClassif.output_layer];
        [exact Hin' | exact Hhid' | rewrite Ho1; reflexivity | exact Hcols].
    + unfold Tensor.shape. rewrite length_map. split; [exact Hrows|].
      apply Forall_length_map. intros r.
      cbn [MLPClassif.output_layer]. rewrite (length_affine _ _ Hout'), Ho2. reflexivity.
Qed.

End InitializationFacts.

Section Words.

(** [all_chars P s]: every character of [s] satisfies [P]. *)
Fixpoint all_chars (P : ascii -> bool) (s : string) : bool :=
  match s with
  | EmptyString => true
  | String c s' => P c && all_chars P s'
  end.

Fixpoint map_chars (f : ascii -> ascii) (s : string) : string :=
  match s with
  | EmptyString => EmptyString
  | String c s' => String (f c) (map_chars f s')
  end.

(** What the loop over [not_letters] makes of one character. *)
Definition clean (c : ascii) : ascii :=
  if Str.in_ascii_lowercase c || Ascii.eqb c " " then c else " "%char.

Lemma append_cons (c : ascii) (a b : string) : (String c a ++ b)%string = String c (a ++ b).
Proof. reflexivity. Qed.

Lemma append_nil (b : string) : (EmptyString ++ b)%string = b.
Proof. reflexivity. Qed.

Lemma map_chars_app (f : ascii -> ascii) (a b : string) :
  map_chars f (a ++ b) = (map_chars f a ++ map_chars f b)%string.
Proof.
  induction a as [|c a IH]; [reflexivity|].
  rewrite append_cons. cbn [map_chars]. rewrite append_cons, IH. reflexivity.
Qed.

Lemma map_chars_ext_in (f g : ascii -> ascii) (s : string) :
  (forall c, In c (list_ascii_of_string s) -> f c = g c) -> map_chars f s = map_chars g s.
Proof.
  induction s as [|c s IH]; intros H; [reflexivity|].
  cbn [map_chars]. rewrite (H c) by (left; reflexivity).
  rewrite IH; [reflexivity|]. intros d Hd. apply H. right. exact Hd.
Qed.

Lemma map_chars_map_chars (f g : ascii -> ascii) (s : string) :
  map_chars f (map_chars g s) = map_chars (fun c => f (g c)) s.
Proof. induction s as [|c s IH]; [reflexivity|]. cbn [map_chars]. rewrite IH. reflexivity. Qed.

(** [s.replace(c, " ")] for a single character [c]. *)
Lemma replace_char (s : string) (c : ascii) :
  Str.replace s (String c EmptyString) " "
  = map_chars (fun x => if Ascii.eqb x c then " "%char else x) s.
Proof.
  unfold Str.replace. induction s as [|a s IH]; [reflexivity|].
  cbn [Str.replace_go map_chars String.prefix String.length Nat.sub].
  destruct (ascii_dec c a) as [<-|Hne].
  - rewrite Ascii.eqb_refl.
    assert (Hp : String.prefix EmptyString s = true) by (destruct s; reflexivity).
    rewrite Hp, IH. reflexivity.
  - destruct (Ascii.eqb_spec a c) as [->|_]; [contradiction|].
    rewrite IH. reflexivity.
Qed.

Lemma blank_out_spec (chars : gset ascii) (s : string) :
  TextDataset.blank_out chars s
  = map_chars (fun c => if decide (c ∈ chars) then " "%char else c) s.
Proof.
  unfold TextDataset.blank_out. revert chars.
  apply (set_fold_ind_L
           (fun r (X : gset ascii) =>
              r = map_chars (fun c => if decide (c ∈ X) then " "%char else c) s)).
  - induction s as [|c s IH]; [reflexivity|]. cbn [map_chars]. rewrite <- IH.
    rewrite decide_False by apply not_elem_of_empty. reflexivity.
  - intros x X r Hx ->. rewrite replace_char, map_chars_map_chars.
    apply map_chars_ext_in. intros c _.
    destruct (decide (c ∈ X)) as [Hc|Hc].
    + rewrite decide_True by (apply elem_of_union; right; exact Hc).
      destruct (Ascii.eqb " " x); reflexivity.
    + destruct (Ascii.eqb_spec c x) as [->|Hne].
      * rewrite decide_True by (apply elem_of_union; left; apply elem_of_singleton; reflexivity).
        reflexivity.
      * rewrite decide_False; [reflexivity|].
        intros [Hin|Hin]%elem_of_union; [apply elem_of_singleton in Hin|]; contradiction.
Qed.

Lemma elem_of_not_letters (s : string) (c : ascii) :
  c ∈ TextDataset.not_letters s <->
  In c (list_ascii_of_string s) /\
  Str.in_ascii_lowercase c = false /\ Ascii.eqb c " " = false.
Proof.
  unfold TextDataset.not_letters.
  rewrite elem_of_list_to_set, list_elem_of_In, List.filter_In, andb_true_iff,
    !negb_true_iff. tauto.
Qed.

(** The loop over [not_letters] blanks out every character that is neither
    a lowercase letter nor a space, whatever the order in which the set is
    traversed. *)
Lemma blank_out_not_letters (s : string) :
  TextDataset.blank_out (TextDataset.not_letters s) s = map_chars clean s.
Proof.
  rewrite blank_out_spec. apply map_chars_ext_in. intros c Hc. unfold clean.
  destruct (decide (c ∈ TextDataset.not_letters s)) as [Hin|Hn].
  - apply elem_of_not_letters in Hin. destruct Hin as (_ & -> & ->). reflexivity.
  - destruct (Str.in_ascii_lowercase c) eqn:El; [reflexivity|].
    destruct (Ascii.eqb c " ") eqn:Es; [reflexivity|].
    exfalso. apply Hn, elem_of_not_letters. auto.
Qed.

Lemma split_go_space (cur a b : string) :
  Str.split_go cur (a ++ String " " b) = (Str.split_go cur a ++ Str.split b)%list.
Proof.
  revert cur. induction a as [|c a IH]; intros cur.
  - rewrite append_nil. cbn [Str.split_go]. change (Str.is_space " ") with true. cbv iota.
    destruct cur; reflexivity.
  - rewrite append_cons. cbn [Str.split_go].
    destruct (Str.is_space c); [destruct cur|]; rewrite IH; reflexivity.
Qed.

(** The words of one text are among the words of the texts joined with
    spaces. *)
Lemma split_join (texts : list string) (t w : string) :
  In t texts ->
  In w (Str.split (map_chars clean t)) ->
  In w (Str.split (map_chars clean (Str.join " " texts))).
Proof.
  unfold Str.join. induction texts as [|x xs IH]; intros Ht Hw; [contradiction|].
  destruct xs as [|y xs].
  - destruct Ht as [->|[]]. exact Hw.
  - change (String.concat " " (x :: y :: xs))
      with (x ++ String " " (String.concat " " (y :: xs)))%string.
    rewrite map_chars_app. cbn [map_chars]. change (clean " ") with " "%char.
    unfold Str.split at 1. rewrite split_go_space. apply in_or_app.
    destruct Ht as [->|Ht]; [left; exact Hw | right; apply IH; assumption].
Qed.

Lemma all_chars_rev_app (P : ascii -> bool) (a b : string) :
  all_chars P (String.rev_app a b) = all_chars P a && all_chars P b.
Proof.
  revert b. induction a as [|c a IH]; intros b; [reflexivity|].
  cbn [String.rev_app all_chars]. rewrite IH. cbn [all_chars].
  destruct (P c), (all_chars P a), (all_chars P b); reflexivity.
Qed.

Lemma rev_app_empty (a b : string) : String.rev_app a b = EmptyString -> a = EmptyString.
Proof.
  revert b. induction a as [|c a IH]; intros b H; [reflexivity|].
  cbn [String.rev_app] in H. pose proof (IH _ H) as Ha. subst a.
  cbn [String.rev_app] in H. discriminate H.
Qed.

(** A word returned by [split] is not empty and holds no whitespace. *)
Lemma split_go_words (P : ascii -> bool) (cur s w : string) :
  all_chars P cur = true ->
  all_chars (fun c => Str.is_space c || P c) s = true ->
  In w (Str.split_go cur s) ->
  all_chars P w = true /\ w <> EmptyString.
Proof.
  assert (Hrev : forall cur, cur <> EmptyString -> all_chars P cur = true ->
                 all_chars P (String.rev cur) = true /\ String.rev cur <> EmptyString).
  { intros c Hne Hc. unfold String.rev. rewrite all_chars_rev_app, Hc. split; [reflexivity|].
    intros E. apply rev_app_empty in E. contradiction. }
  revert cur. induction s as [|c s IH]; intros cur Hcur Hs Hw; cbn [Str.split_go] in Hw.
  - destruct cur as [|d cur]; [contradiction|]. destruct Hw as [<-|[]].
    apply Hrev; [discriminate | exact Hcur].
  - cbn [all_chars] in Hs. apply andb_true_iff in Hs. destruct Hs as [Hc Hs].
    destruct (Str.is_space c) eqn:Esp.
    + destruct cur as [|d cur]; [exact (IH EmptyString eq_refl Hs Hw)|].
      destruct Hw as [<-|Hw]; [apply Hrev; [discriminate | exact Hcur]|].
      exact (IH EmptyString eq_refl Hs Hw).
    + eapply IH; [|exact Hs | exact Hw]. cbn [all_chars]. cbn [orb] in Hc.
      rewrite Hc, Hcur. reflexivity.
Qed.

Lemma clean_chars (s : string) :
  all_chars (fun c => Str.is_space c || Str.in_ascii_lowercase c) (map_chars clean s) = true.
Proof.
  induction s as [|c s IH]; [reflexivity|]. cbn [map_chars all_chars]. rewrite IH, andb_true_r.
  unfold clean. destruct (Str.in_ascii_lowercase c) eqn:El.
  - cbn [orb]. rewrite El. apply orb_true_r.
  - cbn [orb]. destruct (Ascii.eqb_spec c " ") as [->|_]; reflexivity.
Qed.

(** The words of a cleaned text are non-empty runs of lowercase letters. *)
Lemma split_clean_words (s w : string) :
  In w (Str.split (map_chars clean s)) ->
  all_chars Str.in_ascii_lowercase w = true /\ w <> EmptyString.
Proof. apply split_go_words; [reflexivity | apply clean_chars]. Qed.

End Words.

Section Indexing.

Lemma py_getitem_out {A} (l : list A) (i : Z) :
  (i < - Z.of_nat (length l) \/ Z.of_nat (length l) <= i)%Z ->
  py_getitem l i = Raise IndexError.
Proof.
  intros Hi. unfold py_getitem. cbv zeta.
  destruct (Z.ltb_spec i 0) as [Hneg|Hpos].
  - destruct (Z.leb_spec 0 (i + Z.of_nat (length l))) as [?|_]; [|reflexivity].
    destruct (Z.ltb_spec (i + Z.of_nat (length l)) (Z.of_nat (length l))) as [?|_];
      [lia | reflexivity].
  - destruct (Z.leb_spec 0 i) as [_|?]; [|lia].
    destruct (Z.ltb_spec i (Z.of_nat (length l))) as [?|_]; [lia | reflexivity].
Qed.

Lemma py_getitem_neg {A} (l : list A) (i : Z) :
  (- Z.of_nat (length l) <= i < 0)%Z ->
  py_getitem l i = py_getitem l (i + Z.of_nat (length l)).
Proof.
  intros Hi. unfold py_getitem. cbv zeta.
  destruct (Z.ltb_spec i 0) as [_|?]; [|lia].
  destruct (Z.ltb_spec (i + Z.of_nat (length l)) 0) as [?|_]; [lia|]. reflexivity.
Qed.

Lemma py_getitem_in {A} (l : list A) (i : Z) :
  (0 <= i < Z.of_nat (length l))%Z ->
  exists x, py_getitem l i = Ok x /\ nth_error l (Z.to_nat i) = Some x.
Proof.
  intros Hi. destruct (nth_error l (Z.to_nat i)) as [x|] eqn:E.
  - exists x. split; [apply py_getitem_nth; [lia | exact E] | reflexivity].
  - apply nth_error_None in E. lia.
Qed.

Lemma py_getitem_ok_inv {A} (l : list A) (i : Z) (x : A) :
  py_getitem l i = Ok x ->
  let j := if (i <? 0)%Z then (i + Z.of_nat (length l))%Z else i in
  (0 <= j < Z.of_nat (length l))%Z /\ nth_error l (Z.to_nat j) = Some x.
Proof.
  unfold py_getitem. cbv zeta. intros H.
  destruct (Z.leb_spec 0 (if (i <? 0)%Z then (i + Z.of_nat (length l))%Z else i));
    [|discriminate H].
  destruct (Z.ltb_spec (if (i <? 0)%Z then (i + Z.of_nat (length l))%Z else i)
              (Z.of_nat (length l))); [|discriminate H].
  cbn [andb] in H. destruct (nth_error l _) as [y|]; [|discriminate H].
  unfold Ok in H. inversion H. subst y. split; [lia | reflexivity].
Qed.

Lemma Forall2_nth_error_l {A B} (R : A -> B -> Prop) (xs : list A) (ys : list B) i x :
  Forall2 R xs ys -> nth_error xs i = Some x ->
  exists y, nth_error ys i = Some y /\ R x y.
Proof.
  intros H. revert i. induction H as [|a b xs ys Hab _ IH]; intros [|i] Hx;
    cbn [nth_error] in *; try discriminate.
  - inversion Hx. subst. eauto.
  - apply IH, Hx.
Qed.

Lemma rmap_ok {A B} (f : A -> Result B) (xs : list A) :
  Forall (fun x => exists y, f x = Ok y) xs -> exists ys, rmap f xs = Ok ys.
Proof.
  induction 1 as [|x xs [y Hy] _ [ys IH]]; cbn [rmap]; [eexists; reflexivity|].
  rewrite Hy, IH. eexists. reflexivity.
Qed.

End Indexing.

Section Vocabulary.

Lemma sorted_sorted (l : list string) : Str.sorted (Str.sorted l) = Str.sorted l.
Proof.
  apply (Sorted_unique String.le).
  - apply sorted_spec.
  - apply sorted_spec.
  - apply sorted_spec.
Qed.

(** The comprehension [{word: idx for idx, word in enumerate(words)}] over
    a list without duplicates maps each word to its position and nothing
    else. *)
Lemma enumerate_dict_spec (words : list string) (w : string) (i : Z) :
  NoDup words ->
  TextDataset.enumerate_dict words !! w = Some i <->
  (0 <= i)%Z /\ nth_error words (Z.to_nat i) = Some w.
Proof.
  intros Hnd. unfold TextDataset.enumerate_dict.
  assert (H : forall ws a (d : gmap string Z),
    NoDup ws -> (forall x, In x ws -> d !! x = None) ->
    fold_left (fun d iw => <[snd iw := Z.of_nat (fst iw)]> d)
      (combine (seq a (length ws)) ws) d !! w = Some i <->
    d !! w = Some i \/ exists k, nth_error ws k = Some w /\ i = Z.of_nat (a + k)).
  { induction ws as [|x ws IH]; intros a d Hn Hd; cbn [length seq combine fold_left].
    - split; [auto|]. intros [?|(k & Hk & _)]; [assumption|]. destruct k; discriminate Hk.
    - apply NoDup_cons in Hn. destruct Hn as [Hx Hn].
      rewrite list_elem_of_In in Hx. cbn [fst snd].
      rewrite IH; [|exact Hn|].
      + split.
        * intros [Hl|(k & Hk & ->)].
          -- destruct (decide (x = w)) as [->|Hne].
             ++ rewrite lookup_insert_eq in Hl. inversion Hl. right. exists 0%nat.
                split; [reflexivity | f_equal; lia].
             ++ rewrite lookup_insert_ne in Hl by exact Hne. left. exact Hl.
          -- right. exists (S k). split; [exact Hk | f_equal; lia].
        * intros [Hl|(k & Hk & ->)].
          -- left. destruct (decide (x = w)) as [->|Hne].
             ++ rewrite (Hd w) in Hl by (left; reflexivity). discriminate Hl.
             ++ rewrite lookup_insert_ne by exact Hne. exact Hl.
          -- destruct k as [|k]; cbn [nth_error] in Hk.
             ++ inversion Hk. subst x. left. rewrite lookup_insert_eq. do 2 f_equal. lia.
             ++ right. exists k. split; [exact Hk | f_equal; lia].
      + intros y Hy. rewrite lookup_insert_ne.
        * apply Hd. right. exact Hy.
        * intros ->. contradiction. }
  rewrite (H words 0%nat ∅ Hnd) by (intros; apply lookup_empty).
  split.
  - intros [Hl|(k & Hk & ->)]; [rewrite lookup_empty in Hl; discriminate Hl|].
    cbn [Nat.add]. rewrite Nat2Z.id. split; [lia | exact Hk].
  - intros [Hi Hk]. right. exists (Z.to_nat i). split; [exact Hk | cbn [Nat.add]; lia].
Qed.

(** What a successful [TextDataset.__init__] has computed. *)
Lemma TextDataset_init_inv os text_dir max_seq_length self :
  TextDataset.__init__ os text_dir max_seq_length = Ok self ->
  exists all_texts,
    TextDataset._get_labels os (TextDataset.text_files self) = Ok (TextDataset.labels self) /\
    rmap (fun filepath =>
            (line <-? TextDataset.first_line os filepath ;;
             Ok (Str.lower (Str.strip line)))%result)
      (TextDataset.text_files self) = Ok all_texts /\
    TextDataset.vocab self
    = Str.sorted (elements (list_to_set (Str.split (map_chars clean (Str.join " " all_texts)))
                            : gset string)) /\
    TextDataset.word_to_index self
    = <["[PAD]" := (-1)%Z]> (TextDataset.enumerate_dict (TextDataset.vocab self)) /\
    TextDataset.max_seq_len self = max_seq_length.
Proof.
  unfold TextDataset.__init__. intros H.
  apply rbind_ok_inv in H. destruct H as (lbls & Hl & H).
  apply rbind_ok_inv in H. destruct H as (words & Hw & H).
  unfold Ok in H. inversion H; subst self; clear H.
  cbn [TextDataset.text_files TextDataset.labels TextDataset.vocab
       TextDataset.word_to_index TextDataset.max_seq_len].
  unfold TextDataset._create_vocabulary in Hw.
  apply rbind_ok_inv in Hw. destruct Hw as (all_texts & Ht & Hw).
  cbv zeta in Hw. unfold Ok in Hw. inversion Hw as [Hwords]; clear Hw.
  exists all_texts. rewrite sorted_sorted, blank_out_not_letters.
  repeat split; assumption || reflexivity.
Qed.

Lemma NoDup_vocabulary (ws : list string) :
  NoDup (Str.sorted (elements (list_to_set ws : gset string))).
Proof.
  eapply NoDup_Permutation_proper; [apply sorted_spec|]. apply NoDup_elements.
Qed.

Lemma In_vocabulary (ws : list string) (w : string) :
  In w (Str.sorted (elements (list_to_set ws : gset string))) <-> In w ws.
Proof.
  split; intros H.
  - apply (Permutation_in _ (proj2 (sorted_spec _))) in H.
    apply list_elem_of_In, elem_of_elements, elem_of_list_to_set, list_elem_of_In in H.
    exact H.
  - apply (Permutation_in _ (Permutation_sym (proj2 (sorted_spec _)))).
    apply list_elem_of_In, elem_of_elements, elem_of_list_to_set, list_elem_of_In. exact H.
Qed.

End Vocabulary.

Section TextSamples.

Lemma rmap_ok_Forall2 {A B} (f : A -> Result B) (R : A -> B -> Prop) (xs : list A) :
  Forall (fun x => exists y, f x = Ok y /\ R x y) xs ->
  exists ys, rmap f xs = Ok ys /\ Forall2 R xs ys.
Proof.
  induction 1 as [|x xs (y & Hy & Hxy) _ (ys & IH & HR)]; cbn [rmap].
  - exists []. split; [reflexivity | constructor].
  - rewrite Hy, IH. exists (y :: ys). split; [reflexivity | constructor; assumption].
Qed.

Lemma rmap_app {A B} (f : A -> Result B) (xs xs' : list A) (ys ys' : list B) :
  rmap f xs = Ok ys -> rmap f xs' = Ok ys' -> rmap f (xs ++ xs') = Ok (ys ++ ys').
Proof.
  revert ys. induction xs as [|x xs IH]; intros ys H H'; cbn [rmap app] in *.
  - unfold Ok in H. inversion H. exact H'.
  - apply rbind_ok_inv in H. destruct H as (y & Hy & H).
    apply rbind_ok_inv in H. destruct H as (ys0 & Hys & H).
    unfold Ok in H. inversion H. subst ys.
    rewrite Hy, (IH _ Hys H'). reflexivity.
Qed.

Lemma rmap_repeat {A B} (f : A -> Result B) (x : A) (y : B) (k : nat) :
  f x = Ok y -> rmap f (repeat x k) = Ok (repeat y k).
Proof.
  intros H. induction k as [|k IH]; cbn [repeat rmap]; [reflexivity|].
  rewrite H, IH. reflexivity.
Qed.

(** A Python index in range, brought back to a position. *)
Definition position {A} (l : list A) (index : Z) : nat :=
  Z.to_nat (if (index <? 0)%Z then (index + Z.of_nat (length l))%Z else index).

Lemma py_getitem_position {A} (l : list A) (index : Z) :
  (- Z.of_nat (length l) <= index < Z.of_nat (length l))%Z ->
  exists x, py_getitem l index = Ok x /\ nth_error l (position l index) = Some x.
Proof.
  intros Hi. unfold position. destruct (Z.ltb_spec index 0) as [Hneg|Hpos].
  - rewrite py_getitem_neg by lia. apply py_getitem_in. lia.
  - apply py_getitem_in. lia.
Qed.

Lemma position_same_length {A B} (l : list A) (l' : list B) (index : Z) :
  length l = length l' -> position l index = position l' index.
Proof. intros H. unfold position. rewrite H. reflexivity. Qed.

(** Looking up a word of the vocabulary, or the padding token, in
    [word_to_index]. *)
Lemma dict_getitem_word (vocab : list string) (w : string) :
  NoDup vocab -> w <> "[PAD]" -> In w vocab ->
  exists id,
    TextDataset.dict_getitem (<["[PAD]" := (-1)%Z]> (TextDataset.enumerate_dict vocab)) w
    = Ok id /\
    (0 <= id)%Z /\ nth_error vocab (Z.to_nat id) = Some w.
Proof.
  intros Hnd Hne Hin. apply In_nth_error in Hin. destruct Hin as [k Hk].
  exists (Z.of_nat k). unfold TextDataset.dict_getitem.
  rewrite lookup_insert_ne by (intros E; apply Hne; symmetry; exact E).
  assert (E : TextDataset.enumerate_dict vocab !! w = Some (Z.of_nat k)).
  { apply enumerate_dict_spec; [exact Hnd|]. rewrite Nat2Z.id. split; [lia | exact Hk]. }
  rewrite E, Nat2Z.id. split; [reflexivity|]. split; [lia | exact Hk].
Qed.

Lemma lowercase_not_pad (w : string) :
  all_chars Str.in_ascii_lowercase w = true -> w <> "[PAD]".
Proof. intros H ->. discriminate H. Qed.

Lemma py_getitem_ok_range {A} (l : list A) (i : Z) (x : A) :
  py_getitem l i = Ok x -> (- Z.of_nat (length l) <= i < Z.of_nat (length l))%Z.
Proof.
  intros H. apply py_getitem_ok_inv in H. cbv zeta in H. destruct H as [H _].
  destruct (Z.ltb_spec i 0); lia.
Qed.

(** The position of a word in the vocabulary. *)
Definition rank_in (vocab : list string) (w : string) (id : Z) : Prop :=
  (0 <= id < Z.of_nat (length vocab))%Z /\ nth_error vocab (Z.to_nat id) = Some w.

(** What [__getitem__] computes on a dataset that [__init__] has built, for
    an index in range: everything up to the conversion of the label to a
    tensor succeeds, the words of the cleaned first line are looked up in
    [word_to_index] and the padding tokens give [-1]. *)
Lemma TextDataset_getitem_spec
    (os : OSEnv) (text_dir : string) (max_seq_length : Z) (self : TextDataset.t)
    (index : Z) :
  TextDataset.__init__ os text_dir max_seq_length = Ok self ->
  (- TextDataset.__len__ self <= index < TextDataset.__len__ self)%Z ->
  exists path line text label_text label ranks,
    py_getitem (TextDataset.text_files self) index = Ok path /\
    TextDataset.first_line os path = Ok line /\
    Str.split_on (ascii_of_nat 9) line = [text; label_text] /\
    Str.int label_text = Ok label /\
    let cleaned := Str.lower (Str.strip line) in
    let words := Str.split (TextDataset.blank_out (TextDataset.not_letters cleaned) cleaned) in
    Forall2 (rank_in (TextDataset.vocab self)) words ranks /\
    TextDataset.__getitem__ os self index
    = (y <-? float_tensor os [label] ;;
       Ok {| TextDataset.token_ids :=
               ranks ++ repeat (-1)%Z (Z.to_nat (max_seq_length - Z.of_nat (length words)));
             TextDataset.labels_ := y |})%result.
Proof.
  intros Hinit Hidx. unfold TextDataset.__len__ in Hidx.
  destruct (TextDataset_init_inv _ _ _ _ Hinit) as (all_texts & Hl & Ht & Hv & Hd & Hn).
  pose proof (length_rmap _ _ _ Hl) as Hlen.
  destruct (py_getitem_position _ _ Hidx) as (path & Hpath & Hnth).
  apply rmap_ok_inv in Hl.
  destruct (Forall2_nth_error_l _ _ _ _ _ Hl Hnth) as (label & Hlab & Hline).
  apply rbind_ok_inv in Hline. destruct Hline as (line & Hfirst & Hsplit).
  destruct (Str.split_on (ascii_of_nat 9) line) as [|text [|label_text [|? ?]]] eqn:Es;
    try discriminate Hsplit.
  assert (Hlabel : py_getitem (TextDataset.labels self) index = Ok label).
  { rewrite <- Hlen in Hidx. destruct (py_getitem_position _ _ Hidx) as (l' & Hl' & Hn').
    rewrite (position_same_length _ (TextDataset.text_files self)) in Hn' by exact Hlen.
    rewrite Hlab in Hn'. inversion Hn'. subst l'. exact Hl'. }
  set (words := Str.split (map_chars clean (Str.lower (Str.strip line)))).
  assert (Htok : TextDataset._tokenize_text os (TextDataset.max_seq_len self) path
                 = Ok (words ++ repeat "[PAD]"%string
                                  (Z.to_nat (max_seq_length - Z.of_nat (length words))))%list).
  { unfold TextDataset._tokenize_text. rewrite Hfirst. cbn [rbind Ok]. cbv zeta.
    rewrite blank_out_not_letters, pad_tokens_spec, Hn. reflexivity. }
  assert (Hnd : NoDup (TextDataset.vocab self)) by (rewrite Hv; apply NoDup_vocabulary).
  assert (Hwords : exists ranks,
            rmap (TextDataset.dict_getitem (TextDataset.word_to_index self)) words = Ok ranks /\
            Forall2 (rank_in (TextDataset.vocab self)) words ranks).
  { apply rmap_ok_Forall2, List.Forall_forall. intros w Hw. rewrite Hd.
    destruct (dict_getitem_word (TextDataset.vocab self) w Hnd) as (id & Hid & Hpos & Hnthw).
    - apply lowercase_not_pad. eapply split_clean_words, Hw.
    - rewrite Hv. apply In_vocabulary.
      apply (split_join all_texts (Str.lower (Str.strip line))); [|exact Hw].
      apply rmap_ok_inv in Ht.
      destruct (Forall2_nth_error_l _ _ _ _ _ Ht Hnth) as (t & Htn & Htext).
      rewrite Hfirst in Htext. cbn [rbind Ok] in Htext. unfold Ok in Htext.
      inversion Htext as [Et]. rewrite Et. eapply nth_error_In, Htn.
    - exists id. split; [exact Hid|]. split; [|exact Hnthw].
      assert (Hlt : (Z.to_nat id < length (TextDataset.vocab self))%nat)
        by (apply nth_error_Some; congruence).
      lia. }
  destruct Hwords as (ranks & Hids & Hrank).
  assert (Hpad : TextDataset.dict_getitem (TextDataset.word_to_index self) "[PAD]" = Ok (-1)%Z).
  { unfold TextDataset.dict_getitem. rewrite Hd, lookup_insert_eq. reflexivity. }
  exists path, line, text, label_text, label, ranks.
  split; [exact Hpath|]. split; [exact Hfirst|]. split; [exact Es|].
  split; [exact Hsplit|]. cbv zeta. rewrite blank_out_not_letters. fold words.
  split; [exact Hrank|].
  unfold TextDataset.__getitem__. rewrite Hpath. cbn [rbind Ok]. rewrite Htok.
  cbn [rbind Ok]. rewrite (rmap_app _ _ _ _ _ Hids (rmap_repeat _ _ _ _ Hpad)).
  cbn [rbind Ok]. rewrite Hlabel. reflexivity.
Qed.

End TextSamples.

Section SampleValues.

Local Open Scope Z_scope.


End SampleValues.

Section DatasetTheorems.

(** X10. The dictionary [word_to_index] of a [TextDataset] inverts its
    vocabulary: the vocabulary is sorted, without duplicates and made of
    non-empty words of lowercase letters, and [word_to_index[w] = i] holds
    exactly when [w] is the padding token and [i] is [-1], or [i] is the
    position of [w] in the vocabulary. *)
Theorem word_to_index_inverts_vocab
    (os : OSEnv) (text_dir : string) (max_seq_length : Z) (self : TextDataset.t) :
  TextDataset.__init__ os text_dir max_seq_length = Ok self ->
  Sorted String.le (TextDataset.vocab self) /\
  NoDup (TextDataset.vocab self) /\
  Forall (fun w => all_chars Str.in_ascii_lowercase w = true /\ w <> EmptyString)
    (TextDataset.vocab self) /\
  (forall (w : string) (i : Z),
     TextDataset.word_to_index self !! w = Some i <->
     (w = "[PAD]" /\ i = (-1)%Z) \/
     ((0 <= i)%Z /\ nth_error (TextDataset.vocab self) (Z.to_nat i) = Some w)).
Proof.
  intros Hinit.
  destruct (TextDataset_init_inv _ _ _ _ Hinit) as (all_texts & _ & _ & Hv & Hd & _).
  assert (Hnd : NoDup (TextDataset.vocab self)) by (rewrite Hv; apply NoDup_vocabulary).
  assert (Hlow : Forall (fun w => all_chars Str.in_ascii_lowercase w = true /\ w <> EmptyString)
                   (TextDataset.vocab self)).
  { apply List.Forall_forall. intros w Hw. rewrite Hv in Hw.
    apply (proj1 (In_vocabulary _ _)) in Hw. eapply split_clean_words, Hw. }
  split; [rewrite Hv; apply sorted_spec|]. split; [exact Hnd|]. split; [exact Hlow|].
  intros w i. rewrite Hd. destruct (decide ("[PAD]" = w)) as [<-|Hne].
  - rewrite lookup_insert_eq. split.
    + intros [= <-]. left. split; reflexivity.
    + intros [[_ ->]|[_ Hi]]; [reflexivity|].
      apply nth_error_In in Hi.
      rewrite List.Forall_forall in Hlow. apply Hlow in Hi.
      destruct Hi as [Hi _]. discriminate Hi.
  - rewrite lookup_insert_ne by exact Hne. rewrite (enumerate_dict_spec _ _ _ Hnd).
    split; [intros H; right; exact H|].
    intros [[-> _]|H]; [contradiction Hne; reflexivity | exact H].
Qed.

(** X11. Indexing a [TextDataset] that [__init__] has built, with an index
    in [[-len, len)], raises neither [IndexError] nor [KeyError] (every word
    of a file is in the vocabulary built from all files), and nothing else
    before the label is made a tensor: the result is that of
    [torch.FloatTensor([label])], an exception it raises included, where
    [label] is the integer that follows the tab on the first line of the
    file. When it returns, the sample holds the position in the vocabulary
    of each word of the cleaned line, then [-1] for each padding token. *)
Theorem text_sample_is_defined
    (os : OSEnv) (text_dir : string) (max_seq_length : Z) (self : TextDataset.t)
    (index : Z) :
  TextDataset.__init__ os text_dir max_seq_length = Ok self ->
  (- TextDataset.__len__ self <= index < TextDataset.__len__ self)%Z ->
  exists path line text label_text label ranks,
    py_getitem (TextDataset.text_files self) index = Ok path /\
    TextDataset.first_line os path = Ok line /\
    Str.split_on (ascii_of_nat 9) line = [text; label_text] /\
    Str.int label_text = Ok label /\
    let cleaned := Str.lower (Str.strip line) in
    let words :=
      Str.split (TextDataset.blank_out (TextDataset.not_letters cleaned) cleaned) in
    Forall2 (fun w id =>
               (0 <= id < Z.of_nat (length (TextDataset.vocab self)))%Z /\
               nth_error (TextDataset.vocab self) (Z.to_nat id) = Some w)
      words ranks /\
    TextDataset.__getitem__ os self index
    = (y <-? float_tensor os [label] ;;
       Ok {| TextDataset.token_ids :=
               ranks ++ repeat (-1)%Z (Z.to_nat (max_seq_length - Z.of_nat (length words)));
             TextDataset.labels_ := y |})%result /\
    (forall e, TextDataset.__getitem__ os self index = Raise e ->
               float_tensor os [label] = Raise e) /\
    (forall y, float_tensor os [label] = Ok y ->
               exists f, TextDataset.__getitem__ os self index = Ok f /\
                         TextDataset.labels_ f = y).
Proof.
  intros Hinit Hidx.
  destruct (TextDataset_getitem_spec _ _ _ _ _ Hinit Hidx)
    as (path & line & text & label_text & label & ranks & Hpath & Hline & Hs & Hint & Hspec).
  cbv zeta in Hspec. destruct Hspec as [Hrank Heq].
  exists path, line, text, label_text, label, ranks.
  split; [exact Hpath|]. split; [exact Hline|]. split; [exact Hs|]. split; [exact Hint|].
  cbv zeta. split; [exact Hrank|]. split; [exact Heq|]. split.
  - intros e He. rewrite Heq in He.
    destruct (float_tensor os [label]) as [e'|y]; cbn [rbind] in He;
      [|discriminate He].
    unfold Raise in *. inversion He. reflexivity.
  - intros y Hy. rewrite Heq, Hy. eexists. split; reflexivity.
Qed.

(** X12. The three [Dataset] classes index their sorted file list as a
    Python list: an index outside [[-len, len)] raises [IndexError] before
    any file is read, and a negative index [-k] gives the sample of index
    [len - k]; in a [TextDataset] built by [__init__] the label wraps with
    the text. *)
Theorem dataset_index_bounds (os : OSEnv) :
  (forall (self : ImageDataset.t) (index : Z),
     ((index < - ImageDataset.__len__ self \/ ImageDataset.__len__ self <= index)%Z ->
      ImageDataset.__getitem__ os self index = Raise IndexError) /\
     ((- ImageDataset.__len__ self <= index < 0)%Z ->
      ImageDataset.__getitem__ os self index
      = ImageDataset.__getitem__ os self (index + ImageDataset.__len__ self))) /\
  (forall (self : SpeechDataset.t) (index : Z),
     ((index < - SpeechDataset.__len__ self \/ SpeechDataset.__len__ self <= index)%Z ->
      SpeechDataset.__getitem__ os self index = Raise IndexError) /\
     ((- SpeechDataset.__len__ self <= index < 0)%Z ->
      SpeechDataset.__getitem__ os self index
      = SpeechDataset.__getitem__ os self (index + SpeechDataset.__len__ self))) /\
  (forall (self : TextDataset.t) (index : Z),
     ((index < - TextDataset.__len__ self \/ TextDataset.__len__ self <= index)%Z ->
      TextDataset.__getitem__ os self index = Raise IndexError) /\
     (forall text_dir max_seq_length,
        TextDataset.__init__ os text_dir max_seq_length = Ok self ->
        (- TextDataset.__len__ self <= index < 0)%Z ->
        TextDataset.__getitem__ os self index
        = TextDataset.__getitem__ os self (index + TextDataset.__len__ self))).
Proof.
  split; [|split]; intros self index; split.
  - intros H. unfold ImageDataset.__getitem__.
    rewrite (py_getitem_out _ _ H). reflexivity.
  - intros H. unfold ImageDataset.__getitem__, ImageDataset.__len__.
    rewrite (py_getitem_neg _ _ H). reflexivity.
  - intros H. unfold SpeechDataset.__getitem__.
    rewrite (py_getitem_out _ _ H). reflexivity.
  - intros H. unfold SpeechDataset.__getitem__, SpeechDataset.__len__.
    rewrite (py_getitem_neg _ _ H). reflexivity.
  - intros H. unfold TextDataset.__getitem__.
    rewrite (py_getitem_out _ _ H). reflexivity.
  - intros text_dir max_seq_length Hinit H.
    destruct (TextDataset_init_inv _ _ _ _ Hinit) as (_ & Hl & _).
    apply length_rmap in Hl.
    unfold TextDataset.__getitem__, TextDataset.__len__ in *.
    rewrite (py_getitem_neg _ _ H).
    rewrite (py_getitem_neg (TextDataset.labels self) index) by (rewrite Hl; exact H).
    rewrite Hl. reflexivity.
Qed.

(** X13. [_set_duration] is idempotent for a duration that is not
    negative: a signal already set to [max_dur] is returned unchanged. For
    a negative duration it does not fail: the slice [y[:max_len]] drops
    the last [-max_len] samples, which leaves [len(y) + max_len] samples
    when the signal is longer than [-max_len] and the empty signal when it
    is not. *)
Theorem set_duration_idempotent (y : list Q) (max_dur : Q) (sampling_frequency : Z) :
  let max_len := int_of_float (max_dur * inject_Z sampling_frequency) in
  ((0 <= max_len)%Z ->
   SpeechDataset._set_duration
     (SpeechDataset._set_duration y max_dur sampling_frequency) max_dur sampling_frequency
   = SpeechDataset._set_duration y max_dur sampling_frequency) /\
  ((max_len < 0)%Z ->
   SpeechDataset._set_duration y max_dur sampling_frequency
   = firstn (length y - Z.to_nat (- max_len)) y /\
   ((- max_len < Z.of_nat (length y))%Z ->
    Z.of_nat (length (SpeechDataset._set_duration y max_dur sampling_frequency))
    = (Z.of_nat (length y) + max_len)%Z) /\
   ((Z.of_nat (length y) <= - max_len)%Z ->
    SpeechDataset._set_duration y max_dur sampling_frequency = [])).
Proof.
  intros max_len. split.
  - intros Hpos.
    pose proof (length_set_duration y max_dur sampling_frequency Hpos) as Hlen.
    fold max_len in Hlen.
    unfold SpeechDataset._set_duration at 1. cbv zeta. fold max_len. rewrite Hlen.
    destruct (Z.ltb_spec max_len (Z.of_nat (Z.to_nat max_len))) as [?|_]; [lia|].
    replace (Z.to_nat (max_len - Z.of_nat (Z.to_nat max_len))) with 0%nat by lia.
    apply app_nil_r.
  - intros Hneg.
    assert (Hslice : SpeechDataset._set_duration y max_dur sampling_frequency
                     = firstn (length y - Z.to_nat (- max_len)) y).
    { unfold SpeechDataset._set_duration. cbv zeta. fold max_len.
      destruct (Z.ltb_spec max_len (Z.of_nat (length y))) as [_|?]; [|lia].
      unfold py_slice_to. destruct (Z.ltb_spec max_len 0) as [_|?]; [|lia].
      f_equal. lia. }
    rewrite Hslice. split; [reflexivity|]. split.
    + intros Hlt. rewrite length_firstn. lia.
    + intros Hle. replace (length y - Z.to_nat (- max_len))%nat with 0%nat by lia.
      reflexivity.
Qed.

(** A file that [TextDataset] can read: its first line holds exactly one
    tab, followed by an integer. *)
Definition labelled (os : OSEnv) (path : string) : Prop :=
  exists line text label_text label,
    TextDataset.first_line os path = Ok line /\
    Str.split_on (ascii_of_nat 9) line = [text; label_text] /\
    Str.int label_text = Ok label.

Lemma get_labels_labelled (os : OSEnv) (files : list string) (labels : list Z) :
  TextDataset._get_labels os files = Ok labels -> Forall (labelled os) files.
Proof.
  intros Hl. apply rmap_ok_inv in Hl.
  induction Hl as [|path label ps ls Hp _ IH]; constructor; [|exact IH].
  apply rbind_ok_inv in Hp. destruct Hp as (line & Hline & Hp).
  destruct (Str.split_on (ascii_of_nat 9) line) as [|text [|label_text [|? ?]]] eqn:Es;
    try discriminate Hp.
  exists line, text, label_text, label. auto.
Qed.

(** X14. On a directory whose [*.txt] files start with a line of ASCII
    text, [TextDataset.__init__] returns a dataset exactly when each of
    these first lines has exactly one tab, followed by text that [int]
    accepts: an optional sign and decimal digits, single underscores
    allowed between digits, at most 4300 digits, whitespace around. If the
    first file in sorted order is empty the constructor raises
    [IndexError]; if its first line does not split in two at tabs, or
    [int] raises [ValueError] on what follows the tab, it raises
    [ValueError]. *)
Theorem text_dataset_init_needs_labelled_lines
    (os : OSEnv) (text_dir : string) (max_seq_length : Z) :
  let files := Str.sorted (TextDataset._find_files os text_dir "*.txt") in
  Forall (fun path => forall line,
            TextDataset.first_line os path = Ok line -> Str.isascii line = true) files ->
  ((exists self, TextDataset.__init__ os text_dir max_seq_length = Ok self) <->
   Forall (labelled os) files) /\
  (forall path rest,
     files = path :: rest ->
     (open_lines os path = Ok [] ->
      TextDataset.__init__ os text_dir max_seq_length = Raise IndexError) /\
     (forall line,
        TextDataset.first_line os path = Ok line ->
        length (Str.split_on (ascii_of_nat 9) line) <> 2%nat ->
        TextDataset.__init__ os text_dir max_seq_length = Raise ValueError) /\
     (forall line text label_text,
        TextDataset.first_line os path = Ok line ->
        Str.split_on (ascii_of_nat 9) line = [text; label_text] ->
        Str.int label_text = Raise ValueError ->
        TextDataset.__init__ os text_dir max_seq_length = Raise ValueError)).
Proof.
  intros files _. split; [split|].
  - intros [self Hinit].
    destruct (TextDataset_init_inv _ _ _ _ Hinit) as (_ & Hl & _).
    destruct (TextDataset_init_files _ _ _ _ Hinit) as (Hf & _).
    rewrite Hf in Hl. exact (get_labels_labelled _ _ _ Hl).
  - intros Hfiles. unfold TextDataset.__init__. cbv zeta. fold files.
    assert (Hl : exists labels, TextDataset._get_labels os files = Ok labels).
    { apply rmap_ok. eapply List.Forall_impl; [|exact Hfiles].
      intros path (line & text & label_text & label & Hline & Hs & Hint).
      exists label. rewrite Hline. cbn [rbind Ok]. rewrite Hs. exact Hint. }
    assert (Hv : exists words, TextDataset._create_vocabulary os files = Ok words).
    { unfold TextDataset._create_vocabulary.
      assert (Ht : exists all_texts,
                rmap (fun filepath =>
                        (line <-? TextDataset.first_line os filepath ;;
                         Ok (Str.lower (Str.strip line)))%result) files = Ok all_texts).
      { apply rmap_ok. eapply List.Forall_impl; [|exact Hfiles].
        intros path (line & _ & _ & _ & Hline & _).
        eexists. rewrite Hline. reflexivity. }
      destruct Ht as [all_texts Ht]. rewrite Ht. eexists. reflexivity. }
    destruct Hl as [labels Hl]. destruct Hv as [words Hv].
    rewrite Hl, Hv. eexists. reflexivity.
  - intros path rest Hfiles.
    assert (Hraise : forall e,
              (line <-? TextDataset.first_line os path ;;
               match Str.split_on (ascii_of_nat 9) line with
               | [text; label] => Str.int label
               | _ => Raise ValueError
               end)%result = Raise e ->
              TextDataset.__init__ os text_dir max_seq_length = Raise e).
    { intros e He. unfold TextDataset.__init__. cbv zeta. fold files. rewrite Hfiles.
      unfold TextDataset._get_labels. cbn [rmap]. rewrite He. reflexivity. }
    split; [|split].
    + intros Hopen. apply Hraise. unfold TextDataset.first_line. rewrite Hopen. reflexivity.
    + intros line Hline Hlen. apply Hraise. rewrite Hline. cbn [rbind Ok].
      destruct (Str.split_on (ascii_of_nat 9) line) as [|text [|label_text [|? ?]]];
        try reflexivity. contradiction Hlen. reflexivity.
    + intros line text label_text Hline Hs Hint. apply Hraise.
      rewrite Hline. cbn [rbind Ok]. rewrite Hs. exact Hint.
Qed.

End DatasetTheorems.

(** ** The training loss the functions record *)

Section RecordedLoss.

Context `{FW : Framework}.

(** The values of the losses computed along a trace, in order. *)
Definition losses (t : list (Event Grad)) : list Q :=
  flat_map (fun e => match e with EvLoss v => [v] | _ => [] end) t.

(** [tr_loss] after [tr_loss = 0] and one [tr_loss += v] per item. *)
Definition running_total (vs : list Q) : Q := fold_left Qplus vs 0%Q.

(** The batch sizes [images.shape[0]] of a pass. *)
Definition batch_sizes (batches : list (Tensor2 * list Z)) : list Q :=
  map (fun b => inject_Z (Z.of_nat (length (fst b)))) batches.

Definition weighted (vs ws : list Q) : list Q :=
  map (fun vw => (fst vw * snd vw)%Q) (combine vs ws).

Lemma losses_app (t t' : list (Event Grad)) : losses (t ++ t') = losses t ++ losses t'.
Proof. apply flat_map_app. Qed.

Lemma running_total_snoc (vs : list Q) (v : Q) :
  running_total (vs ++ [v]) = (running_total vs + v)%Q.
Proof. unfold running_total. rewrite fold_left_app. reflexivity. Qed.

Lemma weighted_snoc (vs ws : list Q) (v w : Q) :
  length vs = length ws -> weighted (vs ++ [v]) (ws ++ [w]) = weighted vs ws ++ [(v * w)%Q].
Proof.
  unfold weighted. revert ws. induction vs as [|a vs IH]; intros [|b ws] H;
    try discriminate H; [reflexivity|].
  cbn [app combine map]. rewrite IH by (injection H; auto). reflexivity.
Qed.

(** The steps of a training batch after the reshaping of the images: one
    loss is computed, and [tr_loss] grows by it times [scale]. *)
Lemma train_steps_loss {O} tr loss_fn (images : Tensor2) (labels : list Z)
    (optimizer : OptimizerObj O) (tr_loss scale : Q) w :
  wp (labels_pred <- call_model true tr images ;;
      loss <- call_loss loss_fn labels_pred (ClassLabels labels) ;;
      zero_grad optimizer ;;;
      backward loss ;;;
      optimizer <- step optimizer ;;
      tr_loss <- accumulate tr_loss (item loss * scale) ;;
      ret (optimizer, tr_loss))%M
     (fun st' w' =>
        exists v,
          losses (trace w') = losses (trace w) ++ [v] /\
          snd st' = (tr_loss + v * scale)%Q)
     anyE w.
Proof.
  unfold call_model, call_loss, zero_grad, backward, step, accumulate.
  repeat (wp_simpl;
          try match goal with
              | |- match ?l with _ => _ end => destruct l; try exact Logic.I
              end).
  eexists. cbn [snd item]. split; [|reflexivity].
  rewrite !losses_app. cbn. rewrite !app_nil_r. reflexivity.
Qed.

(** A batch loop whose body computes one loss and adds it to [tr_loss],
    times the weight of the batch. *)
Lemma batch_loop_loss {O}
    (body : Tensor2 * list Z -> OptimizerObj O * Q -> M (OptimizerObj O * Q))
    (weight : Tensor2 * list Z -> Q) :
  (forall b st w,
     wp (body b st)
        (fun st' w' =>
           exists v,
             losses (trace w') = losses (trace w) ++ [v] /\
             snd st' = (snd st + v * weight b)%Q)
        anyE w) ->
  forall batches st w,
    wp (for_each batches body st)
       (fun st' w' =>
          exists vs,
            losses (trace w') = losses (trace w) ++ vs /\
            length vs = length batches /\
            snd st' = fold_left Qplus (weighted vs (map weight batches)) (snd st))
       anyE w.
Proof.
  intros Hbody batches. induction batches as [|b batches IH]; intros st w; cbn [for_each].
  - rewrite wp_ret. exists []. rewrite app_nil_r. auto.
  - rewrite wp_bind. eapply wp_mono; [apply Hbody | | auto].
    intros st1 w1 (v & Hv & Hst). cbv beta.
    eapply wp_mono; [apply IH | | auto].
    intros st2 w2 (vs & Hvs & Hlen & Hst2). cbv beta. exists (v :: vs).
    split; [rewrite Hvs, Hv, <- app_assoc; reflexivity|].
    split; [cbn [length]; rewrite Hlen; reflexivity|].
    rewrite Hst2, Hst. reflexivity.
Qed.

Lemma weighted_const (vs : list Q) (c : Q) {X} (xs : list X) :
  length vs = length xs ->
  weighted vs (map (fun _ => c) xs) = map (fun v => (v * c)%Q) vs.
Proof.
  unfold weighted. revert xs. induction vs as [|v vs IH]; intros [|x xs] H;
    try discriminate H; [reflexivity|].
  cbn [map combine fst snd]. rewrite IH by (injection H; auto). reflexivity.
Qed.

(** Neither evaluation function computes a loss. *)
Lemma eval_batch_losses (prep : Tensor2 -> Result Tensor2) a b st L w :
  losses (trace w) = L ->
  wp (let '(images, labels) := b in
      let '(correct_labels, total_labels) := st in
      images <- lift (prep images) ;;
      y_predicted <- call_model false a images ;;
      labels_predicted <- lift (Tensor.argmax_dim1 (value y_predicted)) ;;
      let total_labels := (total_labels + Z.of_nat (length labels))%Z in
      matches <- lift (Tensor.eq_sum labels_predicted labels) ;;
      let correct_labels := (correct_labels + matches)%Z in
      ret (correct_labels, total_labels))%M
     (fun (_ : Z * Z) w' => losses (trace w') = L) anyE w.
Proof.
  intros HL. destruct b as [images labels]. destruct st as [c t]. unfold call_model.
  repeat (wp_simpl;
          try match goal with
              | |- match ?l with _ => _ end => destruct l; try exact Logic.I
              end).
  rewrite losses_app. cbn. rewrite app_nil_r. exact HL.
Qed.

Lemma eval_mlp_classifier_losses batch_size a dl w :
  wp (eval_mlp_classifier batch_size a dl)
     (fun _ w' => losses (trace w') = losses (trace w)) anyE w.
Proof.
  unfold eval_mlp_classifier, set_training. wp_simpl.
  destruct (heap w !! a) as [o|]; [|exact Logic.I]. wp_simpl.
  apply wp_iter. intros order d' _. wp_simpl.
  eapply wp_mono.
  - apply (for_each_keeps (eval_mlp_batch batch_size a)
             (fun w' => losses (trace w') = losses (trace w))).
    + intros b st w1 Hm.
      apply (eval_batch_losses (fun x => Tensor.view_infer x batch_size)). exact Hm.
    + reflexivity.
  - intros [c t] w1 Hm. cbv beta. wp_simpl.
    destruct (int_div (100 * c) t); [exact Logic.I|]. wp_simpl. exact Hm.
  - auto.
Qed.

Lemma eval_cnn_classifier_losses a dl w :
  wp (eval_cnn_classifier a dl)
     (fun _ w' => losses (trace w') = losses (trace w)) anyE w.
Proof.
  unfold eval_cnn_classifier, set_training. wp_simpl.
  destruct (heap w !! a) as [o|]; [|exact Logic.I]. wp_simpl.
  apply wp_iter. intros order d' _. wp_simpl.
  eapply wp_mono.
  - apply (for_each_keeps (eval_cnn_batch a)
             (fun w' => losses (trace w') = losses (trace w))).
    + intros b st w1 Hm. apply (eval_batch_losses Ok). exact Hm.
    + reflexivity.
  - intros [c t] w1 Hm. cbv beta. wp_simpl.
    destruct (int_div (100 * c) t); [exact Logic.I|]. wp_simpl. exact Hm.
  - auto.
Qed.

(** What an epoch of the two MLP training functions records from the batch
    losses [vs] of the epoch. *)
Definition mlp_epoch_loss (batch_size : nat) (dl : DataLoader) (vs : list Q) (r : Q) : Prop :=
  length vs = dataloader_len dl /\
  (dataloader_len dl * batch_size)%nat <> 0%nat /\
  r = (running_total (map (fun v => v * inject_Z (Z.of_nat batch_size)) vs)
       / inject_Z (Z.of_nat (dataloader_len dl * batch_size)))%Q.

(** What an epoch of [training_val_cnn_classifier] records. *)
Definition cnn_epoch_loss (dl : DataLoader) (vs : list Q) (r : Q) : Prop :=
  exists order,
    Permutation order (seq 0 (length (dataset dl))) /\
    length vs = dataloader_len dl /\
    dataset dl <> [] /\
    r = (running_total (weighted vs (batch_sizes (batches_of dl order)))
         / inject_Z (Z.of_nat (length (dataset dl))))%Q.

Lemma float_div_ok_inv (a : Q) (b : Z) (r : Q) :
  float_div a b = Ok r -> b <> 0%Z /\ r = (a / inject_Z b)%Q.
Proof.
  unfold float_div. destruct (Z.eqb_spec b 0) as [->|Hne]; [discriminate|].
  intros H. unfold Ok in H. inversion H. auto.
Qed.

Lemma training_mlp_batch_loss batch_size tr loss_fn b st w :
  wp (training_mlp_batch batch_size tr loss_fn b st)
     (fun st' w' =>
        exists v,
          losses (trace w') = losses (trace w) ++ [v] /\
          snd st' = (snd st + v * inject_Z (Z.of_nat batch_size))%Q)
     anyE w.
Proof.
  destruct b as [images labels]. destruct st as [optimizer tr_loss].
  unfold training_mlp_batch. wp_simpl.
  destruct (Tensor.view_infer images batch_size) as [e|x]; [exact Logic.I|].
  apply train_steps_loss.
Qed.

Lemma train_val_mlp_batch_loss tr input_size batch_size loss_fn b st w :
  wp (train_val_mlp_batch tr input_size batch_size loss_fn b st)
     (fun st' w' =>
        exists v,
          losses (trace w') = losses (trace w) ++ [v] /\
          snd st' = (snd st + v * inject_Z (Z.of_nat batch_size))%Q)
     anyE w.
Proof.
  destruct b as [images labels]. destruct st as [optimizer tr_loss].
  unfold train_val_mlp_batch. wp_simpl.
  destruct (Tensor.view images batch_size input_size) as [e|x]; [exact Logic.I|].
  apply train_steps_loss.
Qed.

Lemma training_val_cnn_batch_loss tr loss_fn b st w :
  wp (training_val_cnn_batch tr loss_fn b st)
     (fun st' w' =>
        exists v,
          losses (trace w') = losses (trace w) ++ [v] /\
          snd st' = (snd st + v * inject_Z (Z.of_nat (length (fst b))))%Q)
     anyE w.
Proof.
  destruct b as [images labels]. destruct st as [optimizer tr_loss].
  unfold training_val_cnn_batch. apply train_steps_loss.
Qed.

Lemma training_mlp_epoch_loss batch_size tr dl loss_fn verbose epoch st w :
  (0 < dl_batch_size dl)%nat ->
  wp (training_mlp_epoch batch_size tr dl loss_fn verbose epoch st)
     (fun st' w' =>
        exists vs r,
          losses (trace w') = losses (trace w) ++ vs /\
          snd st' = snd st ++ [r] /\
          mlp_epoch_loss batch_size dl vs r)
     anyE w.
Proof.
  intros Hbs. unfold training_mlp_epoch. destruct st as [optimizer train_losses].
  rewrite wp_bind. apply wp_iter. intros order d' Hperm. rewrite wp_bind.
  eapply wp_mono;
    [apply (batch_loop_loss (training_mlp_batch batch_size tr loss_fn)
              (fun _ => inject_Z (Z.of_nat batch_size)));
     intros; apply training_mlp_batch_loss | | auto].
  intros [opt tl] w1 (vs & Hvs & Hlen & Htl). cbv beta. cbn [snd trace] in *. wp_simpl.
  destruct (float_div tl _) as [e|r] eqn:Ediv; [exact Logic.I|].
  apply float_div_ok_inv in Ediv. destruct Ediv as [Hne Hr].
  rewrite (length_batches_of dl order Hbs Hperm) in Hlen.
  unfold append. wp_simpl.
  assert (Hrec : mlp_epoch_loss batch_size dl vs r).
  { split; [exact Hlen|]. split; [lia|]. rewrite Hr, Htl.
    rewrite weighted_const
      by (rewrite Hlen; symmetry; apply length_batches_of; assumption).
    reflexivity. }
  destruct verbose; unfold print; wp_simpl; exists vs, r;
    (split; [|split; [reflexivity | exact Hrec]]);
    rewrite !losses_app, Hvs; cbn; rewrite ?app_nil_r; reflexivity.
Qed.

Lemma append_losses (l : list Q) (v : Q) w :
  wp (append l v)
     (fun l' w' => l' = l ++ [v] /\ losses (trace w') = losses (trace w)) anyE w.
Proof.
  unfold append. wp_simpl. split; [reflexivity|].
  rewrite losses_app. cbn. apply app_nil_r.
Qed.

Lemma print_if_losses (verbose : bool) (v : Q) w :
  wp (if verbose then print v else ret tt)
     (fun _ w' => losses (trace w') = losses (trace w)) anyE w.
Proof.
  destruct verbose; unfold print; wp_simpl; [|reflexivity].
  rewrite losses_app. cbn. apply app_nil_r.
Qed.

Lemma best_update_losses {A} (b : bool) (tr : nat) (f : nat -> A) (y : A) w :
  wp (if b then model_opt <- deepcopy tr ;; ret (f model_opt) else ret y)%M
     (fun _ w' => losses (trace w') = losses (trace w)) anyE w.
Proof.
  destruct b; unfold deepcopy; wp_simpl; [|reflexivity].
  destruct (heap w !! tr); [|exact Logic.I]. wp_simpl. reflexivity.
Qed.

Lemma train_val_mlp_epoch_loss global_batch_size tr dl vdl input_size batch_size
    loss_fn verbose epoch st w :
  (0 < dl_batch_size dl)%nat ->
  wp (train_val_mlp_epoch global_batch_size tr dl vdl input_size batch_size
        loss_fn verbose epoch st)
     (fun st' w' =>
        exists vs r,
          losses (trace w') = losses (trace w) ++ vs /\
          bs_train_losses st' = bs_train_losses st ++ [r] /\
          mlp_epoch_loss batch_size dl vs r)
     anyE w.
Proof.
  intros Hbs. unfold train_val_mlp_epoch.
  rewrite wp_bind. apply wp_iter. intros order d' Hperm. rewrite wp_bind.
  eapply wp_mono;
    [apply (batch_loop_loss (train_val_mlp_batch tr input_size batch_size loss_fn)
              (fun _ => inject_Z (Z.of_nat batch_size)));
     intros; apply train_val_mlp_batch_loss | | auto].
  intros [opt tl] w1 (vs & Hvs & Hlen & Htl). cbv beta. cbn [snd trace] in *.
  rewrite wp_bind, wp_lift.
  destruct (float_div tl _) as [e|r] eqn:Ediv; [exact Logic.I|].
  apply float_div_ok_inv in Ediv. destruct Ediv as [Hne Hr].
  rewrite (length_batches_of dl order Hbs Hperm) in Hlen.
  assert (Hrec : mlp_epoch_loss batch_size dl vs r).
  { split; [exact Hlen|]. split; [lia|]. rewrite Hr, Htl.
    rewrite weighted_const
      by (rewrite Hlen; symmetry; apply length_batches_of; assumption).
    reflexivity. }
  rewrite wp_bind. eapply wp_mono; [apply append_losses | | auto].
  intros train_losses w2 [-> H2]. cbv beta.
  rewrite wp_bind. eapply wp_mono; [apply print_if_losses | | auto].
  intros u3 w3 H3. cbv beta in H3 |- *.
  rewrite wp_bind. eapply wp_mono; [apply eval_mlp_classifier_losses | | auto].
  intros acc w4 H4. cbv beta in H4 |- *.
  rewrite wp_bind. eapply wp_mono; [apply append_losses | | auto].
  intros val_accuracies w5 [-> H5]. cbv beta.
  rewrite wp_bind.
  eapply wp_mono;
    [apply (best_update_losses _ tr (fun model_opt => (acc, Some model_opt))) | | auto].
  intros [accuracy_max model_opt] w6 H6. cbv beta in H6 |- *.
  rewrite wp_bind. eapply wp_mono; [apply print_if_losses | | auto].
  intros u7 w7 H7. cbv beta in H7 |- *. rewrite wp_ret.
  exists vs, r. cbn [bs_train_losses]. split; [|split; [reflexivity | exact Hrec]].
  rewrite H7, H6, H5, H4, H3, H2. exact Hvs.
Qed.

Lemma training_val_cnn_epoch_loss tr dl vdl loss_fn verbose epoch st w :
  (0 < dl_batch_size dl)%nat ->
  wp (training_val_cnn_epoch tr dl vdl loss_fn verbose epoch st)
     (fun st' w' =>
        exists vs r,
          losses (trace w') = losses (trace w) ++ vs /\
          bs_train_losses st' = bs_train_losses st ++ [r] /\
          cnn_epoch_loss dl vs r)
     anyE w.
Proof.
  intros Hbs. unfold training_val_cnn_epoch.
  rewrite wp_bind. apply wp_iter. intros order d' Hperm. rewrite wp_bind.
  eapply wp_mono;
    [apply (batch_loop_loss (training_val_cnn_batch tr loss_fn)
              (fun b => inject_Z (Z.of_nat (length (fst b)))));
     intros; apply training_val_cnn_batch_loss | | auto].
  intros [opt tl] w1 (vs & Hvs & Hlen & Htl). cbv beta. cbn [snd trace] in *.
  rewrite wp_bind, wp_lift.
  destruct (float_div tl _) as [e|r] eqn:Ediv; [exact Logic.I|].
  apply float_div_ok_inv in Ediv. destruct Ediv as [Hne Hr].
  rewrite (length_batches_of dl order Hbs Hperm) in Hlen.
  assert (Hrec : cnn_epoch_loss dl vs r).
  { exists order. split; [exact Hperm|]. split; [exact Hlen|]. split.
    - intros E. rewrite E in Hne. apply Hne. reflexivity.
    - rewrite Hr, Htl. reflexivity. }
  rewrite wp_bind. eapply wp_mono; [apply append_losses | | auto].
  intros train_losses w2 [-> H2]. cbv beta.
  rewrite wp_bind. eapply wp_mono; [apply eval_cnn_classifier_losses | | auto].
  intros acc w4 H4. cbv beta in H4 |- *.
  rewrite wp_bind. eapply wp_mono; [apply append_losses | | auto].
  intros val_accuracies w5 [-> H5]. cbv beta.
  rewrite wp_bind. eapply wp_mono; [apply print_if_losses | | auto].
  intros u3 w3 H3. cbv beta in H3 |- *.
  rewrite wp_bind.
  eapply wp_mono;
    [apply (best_update_losses _ tr (fun model_opt => (Some model_opt, acc))) | | auto].
  intros [model_opt val_acc_opt] w6 H6. cbv beta in H6 |- *. rewrite wp_ret.
  exists vs, r. cbn [bs_train_losses]. split; [|split; [reflexivity | exact Hrec]].
  repeat match goal with H : losses (trace ?a) = losses (trace ?b) |- losses (trace ?a) = _ =>
           rewrite H; clear H end.
  exact Hvs.
Qed.

(** An epoch loop whose body records one value [r] related by [R] to the
    batch losses of the epoch. *)
Lemma epochs_loss {S} (body : nat -> S -> M S) (proj : S -> list Q)
    (R : list Q -> Q -> Prop) :
  (forall e st w,
     wp (body e st)
        (fun st' w' =>
           exists vs r,
             losses (trace w') = losses (trace w) ++ vs /\
             proj st' = proj st ++ [r] /\ R vs r)
        anyE w) ->
  forall xs st w,
    wp (for_each xs body st)
       (fun st' w' =>
          exists vss rs,
            losses (trace w') = losses (trace w) ++ concat vss /\
            proj st' = proj st ++ rs /\ Forall2 R vss rs /\ length rs = length xs)
       anyE w.
Proof.
  intros Hbody xs. induction xs as [|x xs IH]; intros st w; cbn [for_each].
  - rewrite wp_ret. exists [], []. rewrite !app_nil_r. repeat split. constructor.
  - rewrite wp_bind. eapply wp_mono; [apply Hbody | | auto].
    intros st1 w1 (vs & r & Hvs & Hr & HR). cbv beta.
    eapply wp_mono; [apply IH | | auto].
    intros st2 w2 (vss & rs & Hvss & Hrs & HRs & Hlen). cbv beta.
    exists (vs :: vss), (r :: rs). split; [|split; [|split]].
    + rewrite Hvss, Hvs. cbn [concat]. rewrite <- app_assoc. reflexivity.
    + rewrite Hrs, Hr, <- app_assoc. reflexivity.
    + constructor; assumption.
    + cbn [length]. rewrite Hlen. reflexivity.
Qed.

(** The arithmetic mean. *)
Definition mean (vs : list Q) : Q :=
  (running_total vs / inject_Z (Z.of_nat (length vs)))%Q.

Lemma fold_left_Qplus_acc (l : list Q) (a a' : Q) :
  (a == a')%Q -> (fold_left Qplus l a == fold_left Qplus l a')%Q.
Proof.
  revert a a'. induction l as [|x l IH]; intros a a' H; cbn [fold_left]; [exact H|].
  apply IH. rewrite H. reflexivity.
Qed.

Lemma fold_left_Qplus_scale (vs : list Q) (a c : Q) :
  (fold_left Qplus (map (fun v => v * c) vs) (a * c) == fold_left Qplus vs a * c)%Q.
Proof.
  revert a. induction vs as [|v vs IH]; intros a; cbn [map fold_left]; [reflexivity|].
  rewrite <- IH. apply fold_left_Qplus_acc. ring.
Qed.

Lemma running_total_scale (vs : list Q) (c : Q) :
  (running_total (map (fun v => v * c) vs) == running_total vs * c)%Q.
Proof.
  unfold running_total. rewrite <- fold_left_Qplus_scale.
  apply fold_left_Qplus_acc. ring.
Qed.

Lemma inject_nat_nonzero (n : nat) : n <> 0%nat -> ~ (inject_Z (Z.of_nat n) == 0)%Q.
Proof.
  intros Hn H. apply Hn. unfold Qeq in H. cbn in H. lia.
Qed.

Lemma scaled_mean (vs : list Q) (len bs : nat) :
  length vs = len -> (len * bs)%nat <> 0%nat ->
  (running_total (map (fun v => v * inject_Z (Z.of_nat bs)) vs)
   / inject_Z (Z.of_nat (len * bs)) == mean vs)%Q.
Proof.
  intros Hlen Hne. unfold mean. rewrite Hlen, running_total_scale.
  rewrite Nat2Z.inj_mul, inject_Z_mult.
  assert (Hl : ~ (inject_Z (Z.of_nat len) == 0)%Q) by (apply inject_nat_nonzero; lia).
  assert (Hb : ~ (inject_Z (Z.of_nat bs) == 0)%Q) by (apply inject_nat_nonzero; lia).
  field. split; assumption.
Qed.

Lemma weighted_full (vs : list Q) (bs : nat) (batches : list (Tensor2 * list Z)) :
  length vs = length batches ->
  Forall (fun b => length (fst b) = bs) batches ->
  weighted vs (batch_sizes batches) = map (fun v => (v * inject_Z (Z.of_nat bs))%Q) vs.
Proof.
  intros Hlen Hfull. rewrite <- (weighted_const vs _ batches Hlen). f_equal.
  unfold batch_sizes. apply map_ext_in. intros b Hb.
  rewrite List.Forall_forall in Hfull. rewrite (Hfull b Hb). reflexivity.
Qed.

Lemma dataloader_len_exact (dl : DataLoader) :
  (0 < dl_batch_size dl)%nat ->
  (length (dataset dl) mod dl_batch_size dl = 0)%nat ->
  (dataloader_len dl * dl_batch_size dl)%nat = length (dataset dl).
Proof.
  intros Hbs Hmod. unfold dataloader_len. cbv zeta.
  set (n := length (dataset dl)) in *. set (b := dl_batch_size dl) in *.
  pose proof (Nat.div_mod_eq n b) as Hn. rewrite Hmod, Nat.add_0_r in Hn.
  destruct (drop_last dl); [lia|].
  assert (E : ((n + b - 1) / b = n / b)%nat).
  { symmetry. apply (Nat.div_unique (n + b - 1) b (n / b) (b - 1)); lia. }
  rewrite E. lia.
Qed.

Lemma training_mlp_classifier_loss batch_size model dl num_epochs loss_fn learning_rate
    verbose w :
  (0 < dl_batch_size dl)%nat ->
  wp (training_mlp_classifier batch_size model dl num_epochs loss_fn learning_rate verbose)
     (fun r w' =>
        exists vss,
          losses (trace w') = losses (trace w) ++ concat vss /\
          Forall2 (mlp_epoch_loss batch_size dl) vss (snd r))
     anyE w.
Proof.
  intros Hbs. unfold training_mlp_classifier, deepcopy, set_training. wp_simpl.
  destruct (heap w !! model); [|exact Logic.I]. wp_simpl.
  rewrite lookup_insert_eq. wp_simpl.
  eapply wp_mono;
    [apply (epochs_loss _ snd (mlp_epoch_loss batch_size dl));
     intros; apply training_mlp_epoch_loss; exact Hbs | | auto].
  intros st w1 (vss & rs & Hl & Hrs & HR & _). cbv beta. wp_simpl.
  exists vss. cbn [snd trace] in *. split; [exact Hl|]. rewrite Hrs. exact HR.
Qed.

Lemma train_val_mlp_classifier_loss global_batch_size model dl vdl input_size batch_size
    num_epochs loss_fn learning_rate verbose w :
  (0 < dl_batch_size dl)%nat ->
  wp (train_val_mlp_classifier global_batch_size model dl vdl input_size batch_size
        num_epochs loss_fn learning_rate verbose)
     (fun r w' =>
        exists vss,
          losses (trace w') = losses (trace w) ++ concat vss /\
          Forall2 (mlp_epoch_loss batch_size dl) vss (snd (fst r)))
     anyE w.
Proof.
  intros Hbs. unfold train_val_mlp_classifier, deepcopy, set_training. wp_simpl.
  destruct (heap w !! model); [|exact Logic.I]. wp_simpl.
  rewrite lookup_insert_eq. wp_simpl. rewrite lookup_insert_eq. wp_simpl.
  eapply wp_mono;
    [apply (epochs_loss _ bs_train_losses (mlp_epoch_loss batch_size dl));
     intros; apply train_val_mlp_epoch_loss; exact Hbs | | auto].
  intros st w1 (vss & rs & Hl & Hrs & HR & _). cbv beta. unfold return_best.
  destruct (bs_model_opt st); wp_simpl; [|exact Logic.I].
  exists vss. cbn [fst snd trace bs_train_losses] in *. split; [exact Hl|].
  rewrite Hrs. exact HR.
Qed.

Lemma training_val_cnn_classifier_loss model dl vdl num_epochs loss_fn learning_rate
    verbose w :
  (0 < dl_batch_size dl)%nat ->
  wp (training_val_cnn_classifier model dl vdl num_epochs loss_fn learning_rate verbose)
     (fun r w' =>
        exists vss,
          losses (trace w') = losses (trace w) ++ concat vss /\
          Forall2 (cnn_epoch_loss dl) vss (snd (fst r)))
     anyE w.
Proof.
  intros Hbs. unfold training_val_cnn_classifier, deepcopy, set_training. wp_simpl.
  destruct (heap w !! model); [|exact Logic.I]. wp_simpl.
  rewrite lookup_insert_eq. wp_simpl.
  eapply wp_mono;
    [apply (epochs_loss _ bs_train_losses (cnn_epoch_loss dl));
     intros; apply training_val_cnn_epoch_loss; exact Hbs | | auto].
  intros st w1 (vss & rs & Hl & Hrs & HR & _). cbv beta. unfold return_best.
  destruct (bs_model_opt st); wp_simpl; [|exact Logic.I].
  exists vss. cbn [fst snd trace bs_train_losses] in *. split; [exact Hl|].
  rewrite Hrs. exact HR.
Qed.

Lemma nonlinear_regression_epoch_loss m loss_fn x y epoch st w :
  wp (nonlinear_regression_epoch m loss_fn x y epoch st)
     (fun st' w' =>
        exists vs r,
          losses (trace w') = losses (trace w) ++ vs /\
          snd st' = snd st ++ [r] /\ vs = [r])
     anyE w.
Proof.
  unfold nonlinear_regression_epoch. destruct st as [optimizer loss_records].
  unfold call_model, call_loss, zero_grad, backward, step, print, append.
  repeat (wp_simpl;
          try match goal with
              | |- match ?l with _ => _ end => destruct l; try exact Logic.I
              end).
  eexists _, _. cbn [snd item]. split; [|split; reflexivity].
  rewrite !losses_app. cbn. rewrite !app_nil_r. reflexivity.
Qed.

Lemma concat_singletons (vss : list (list Q)) (rs : list Q) :
  Forall2 (fun vs r => vs = [r]) vss rs -> concat vss = rs.
Proof.
  induction 1 as [|vs r vss rs -> _ IH]; [reflexivity|].
  cbn [concat app]. rewrite IH. reflexivity.
Qed.

(** X16. The nonlinear regression loop of lab 2 returns in [loss_records]
    the fifty losses it computed, one per epoch and in order: what it
    records is what [loss_fn] returned, before the update of that epoch. *)
Theorem nonlinear_regression_records_every_loss
    (nonlin_reg_model : nat) (loss_fn : LossFn) (x y : Tensor2) (w w' : World)
    (loss_records : list Q) :
  nonlinear_regression_training nonlin_reg_model loss_fn x y w = (w', Ok loss_records) ->
  length loss_records = 50%nat /\
  losses (trace w') = losses (trace w) ++ loss_records.
Proof.
  intros Hrun.
  assert (H : wp (nonlinear_regression_training nonlin_reg_model loss_fn x y)
                (fun r w' => length r = 50%nat /\
                             losses (trace w') = losses (trace w) ++ r) anyE w).
  { unfold nonlinear_regression_training. cbv zeta. rewrite wp_bind.
    eapply wp_mono;
      [apply (epochs_loss _ snd (fun vs r => vs = [r]));
       intros; apply nonlinear_regression_epoch_loss | | auto].
    intros st w1 (vss & rs & Hl & Hrs & HR & Hlen). cbv beta. rewrite wp_ret.
    cbn [snd app] in Hrs. rewrite Hrs. split; [exact Hlen|].
    rewrite Hl, (concat_singletons _ _ HR). reflexivity. }
  exact (wp_ok_run _ _ _ _ _ H Hrun).
Qed.

(** X15. The training loss a training function records for an epoch, in
    terms of the losses [loss_fn] returned for the batches of that epoch
    (the loss events of the run split in one group of [len(train_dataloader)]
    per epoch). The two MLP functions record the arithmetic mean of the
    batch losses. [training_val_cnn_classifier] records the sum of the batch
    losses, each times the size of its batch, divided by the size of the
    dataset: with full batches that is [batch_size / len(dataset)] times the
    sum, which is the mean of the batch losses when the batch size divides
    the size of the dataset. *)
Theorem recorded_training_loss
    (global_batch_size model : nat) (train_dataloader valid_dataloader : DataLoader)
    (input_size batch_size : nat) (num_epochs : Z) (loss_fn : LossFn)
    (learning_rate : Q) (verbose : bool) (w : World) :
  (0 < dl_batch_size train_dataloader)%nat ->
  (forall w' model_tr train_losses,
     training_mlp_classifier global_batch_size model train_dataloader num_epochs
       loss_fn learning_rate verbose w = (w', Ok (model_tr, train_losses)) ->
     exists vss,
       losses (trace w') = losses (trace w) ++ concat vss /\
       Forall2 (fun vs r =>
                  length vs = dataloader_len train_dataloader /\ (r == mean vs)%Q)
         vss train_losses) /\
  (forall w' model_opt train_losses val_accuracies,
     train_val_mlp_classifier global_batch_size model train_dataloader
       valid_dataloader input_size batch_size num_epochs loss_fn learning_rate
       verbose w = (w', Ok (model_opt, train_losses, val_accuracies)) ->
     exists vss,
       losses (trace w') = losses (trace w) ++ concat vss /\
       Forall2 (fun vs r =>
                  length vs = dataloader_len train_dataloader /\ (r == mean vs)%Q)
         vss train_losses) /\
  (forall w' model_opt train_losses val_accuracies,
     training_val_cnn_classifier model train_dataloader valid_dataloader
       num_epochs loss_fn learning_rate verbose w
     = (w', Ok (model_opt, train_losses, val_accuracies)) ->
     exists vss,
       losses (trace w') = losses (trace w) ++ concat vss /\
       Forall2 (fun vs r =>
                  length vs = dataloader_len train_dataloader /\
                  (exists order,
                     Permutation order (seq 0 (length (dataset train_dataloader))) /\
                     r = (running_total
                            (weighted vs (batch_sizes (batches_of train_dataloader order)))
                          / inject_Z (Z.of_nat (length (dataset train_dataloader))))%Q) /\
                  (drop_last train_dataloader = true \/
                   (length (dataset train_dataloader) mod dl_batch_size train_dataloader
                    = 0)%nat ->
                   (r == running_total vs
                         * inject_Z (Z.of_nat (dl_batch_size train_dataloader))
                         / inject_Z (Z.of_nat (length (dataset train_dataloader))))%Q) /\
                  ((length (dataset train_dataloader) mod dl_batch_size train_dataloader
                    = 0)%nat ->
                   (r == mean vs)%Q))
         vss train_losses).
Proof.
  intros Hbs. split; [|split].
  - intros w' model_tr train_losses Hrun.
    destruct (wp_ok_run _ _ _ _ _
                (training_mlp_classifier_loss global_batch_size model train_dataloader
                   num_epochs loss_fn learning_rate verbose w Hbs) Hrun) as (vss & Hl & HR).
    exists vss. split; [exact Hl|]. cbn [snd] in HR.
    eapply List.Forall2_impl; [|exact HR].
    intros vs r (Hlen & Hne & ->). split; [exact Hlen|].
    apply scaled_mean; assumption.
  - intros w' model_opt train_losses val_accuracies Hrun.
    destruct (wp_ok_run _ _ _ _ _
                (train_val_mlp_classifier_loss global_batch_size model train_dataloader
                   valid_dataloader input_size batch_size num_epochs loss_fn learning_rate
                   verbose w Hbs) Hrun) as (vss & Hl & HR).
    exists vss. split; [exact Hl|]. cbn [fst snd] in HR.
    eapply List.Forall2_impl; [|exact HR].
    intros vs r (Hlen & Hne & ->). split; [exact Hlen|].
    apply scaled_mean; assumption.
  - intros w' model_opt train_losses val_accuracies Hrun.
    destruct (wp_ok_run _ _ _ _ _
                (training_val_cnn_classifier_loss model train_dataloader valid_dataloader
                   num_epochs loss_fn learning_rate verbose w Hbs) Hrun) as (vss & Hl & HR).
    exists vss. split; [exact Hl|]. cbn [fst snd] in HR.
    eapply List.Forall2_impl; [|exact HR].
    intros vs r (order & Hperm & Hlen & Hne & Hr).
    assert (Hfull : drop_last train_dataloader = true \/
                    (length (dataset train_dataloader) mod dl_batch_size train_dataloader
                     = 0)%nat ->
                    (r == running_total vs
                          * inject_Z (Z.of_nat (dl_batch_size train_dataloader))
                          / inject_Z (Z.of_nat (length (dataset train_dataloader))))%Q).
    { intros Hcase. rewrite Hr.
      rewrite (weighted_full vs (dl_batch_size train_dataloader));
        [|rewrite Hlen; symmetry; apply length_batches_of; assumption
         |apply batches_of_full; assumption].
      rewrite running_total_scale. reflexivity. }
    split; [exact Hlen|]. split; [exists order; auto|]. split; [exact Hfull|].
    intros Hmod. rewrite (Hfull (or_intror Hmod)).
    pose proof (dataloader_len_exact train_dataloader Hbs Hmod) as Hexact.
    unfold mean. rewrite Hlen, <- Hexact, Nat2Z.inj_mul, inject_Z_mult.
    assert (Hn : length (dataset train_dataloader) <> 0%nat)
      by (destruct (dataset train_dataloader); [congruence | discriminate]).
    assert (Hl0 : ~ (inject_Z (Z.of_nat (dataloader_len train_dataloader)) == 0)%Q)
      by (apply inject_nat_nonzero; lia).
    assert (Hb0 : ~ (inject_Z (Z.of_nat (dl_batch_size train_dataloader)) == 0)%Q)
      by (apply inject_nat_nonzero; lia).
    field. split; assumption.
Qed.

(** X2. Training on a dataloader that yields no batch
    ([len(dataloader) = 0]). The two MLP functions divide the running loss
    by [len(dataloader) * batch_size], which is zero: their first epoch
    raises [ZeroDivisionError]. [training_val_cnn_classifier] divides by
    [len(dataloader.dataset)] instead: on an empty dataset (whose loader
    does not shuffle: a shuffling one is not built over no sample) its
    first epoch raises [ZeroDivisionError] too, but when the dataset has
    samples (fewer than one batch, with [drop_last=True]) the division goes
    through, and a run that returns has computed no loss and recorded the
    training loss [0 / len(dataset) = 0] for every epoch. *)
Theorem training_on_empty_dataloader_raises
    (global_batch_size model : nat) (train_dataloader valid_dataloader : DataLoader)
    (input_size batch_size : nat) (num_epochs : Z) (loss_fn : LossFn)
    (learning_rate : Q) (verbose : bool) (w : World) (o : ModuleObj) :
  heap w !! model = Some o ->
  (0 < num_epochs)%Z ->
  ((0 < dl_batch_size train_dataloader)%nat ->
   dataloader_len train_dataloader = 0%nat ->
   snd (training_mlp_classifier global_batch_size model train_dataloader num_epochs
          loss_fn learning_rate verbose w) = Raise ZeroDivisionError /\
   snd (train_val_mlp_classifier global_batch_size model train_dataloader
          valid_dataloader input_size batch_size num_epochs loss_fn learning_rate
          verbose w) = Raise ZeroDivisionError /\
   (forall w' model_opt train_losses val_accuracies,
      training_val_cnn_classifier model train_dataloader valid_dataloader
        num_epochs loss_fn learning_rate verbose w
      = (w', Ok (model_opt, train_losses, val_accuracies)) ->
      dataset train_dataloader <> [] /\
      losses (trace w') = losses (trace w) /\
      Forall (fun r =>
                r = (0 / inject_Z (Z.of_nat (length (dataset train_dataloader))))%Q /\
                (r == 0)%Q) train_losses)) /\
  (dataset train_dataloader = [] ->
   snd (training_val_cnn_classifier model train_dataloader valid_dataloader
          num_epochs loss_fn learning_rate verbose w) = Raise ZeroDivisionError).
Proof.
  intros Hheap Hn.
  assert (Hcnn : dataset train_dataloader = [] ->
                 snd (training_val_cnn_classifier model train_dataloader valid_dataloader
                        num_epochs loss_fn learning_rate verbose w)
                 = Raise ZeroDivisionError).
  { intros Hnil. apply raises_run.
    unfold training_val_cnn_classifier, deepcopy, set_training.
    wp_simpl. rewrite Hheap. wp_simpl. rewrite lookup_insert_eq. wp_simpl.
    eapply wp_mono.
    + apply for_each_first_raises; [apply range_nonempty; exact Hn|].
      intros e st w1. apply training_val_cnn_epoch_empty; assumption.
    + intros ? ? [].
    + auto. }
  split; [intros Hk Hlen; split; [|split] | exact Hcnn].
  - apply raises_run. unfold training_mlp_classifier, deepcopy, set_training.
    wp_simpl. rewrite Hheap. wp_simpl. rewrite lookup_insert_eq. wp_simpl.
    eapply wp_mono.
    + apply for_each_first_raises; [apply range_nonempty; exact Hn|].
      intros e st w1. apply training_mlp_epoch_empty; assumption.
    + intros ? ? [].
    + auto.
  - apply raises_run. unfold train_val_mlp_classifier, deepcopy, set_training.
    wp_simpl. rewrite Hheap. wp_simpl. rewrite lookup_insert_eq. wp_simpl.
    rewrite lookup_insert_eq. wp_simpl.
    eapply wp_mono.
    + apply for_each_first_raises; [apply range_nonempty; exact Hn|].
      intros e st w1. apply train_val_mlp_epoch_empty; assumption.
    + intros ? ? [].
    + auto.
  - intros w' model_opt train_losses val_accuracies Hrun.
    split.
    { intros Hnil. apply Hcnn in Hnil. rewrite Hrun in Hnil. discriminate Hnil. }
    destruct (wp_ok_run _ _ _ _ _
                (training_val_cnn_classifier_loss model train_dataloader valid_dataloader
                   num_epochs loss_fn learning_rate verbose w Hk) Hrun) as (vss & Hl & HR).
    cbn [fst snd] in HR.
    assert (Hvss : Forall (fun vs => vs = []) vss /\
                   Forall (fun r =>
                             r = (0 / inject_Z (Z.of_nat (length (dataset train_dataloader))))%Q /\
                             (r == 0)%Q) train_losses).
    { clear -HR Hlen. induction HR as [|vs r vss rs (order & _ & Hvs & _ & Hr) _ [IH1 IH2]];
        [split; constructor|].
      rewrite Hlen in Hvs. destruct vs; [|discriminate Hvs].
      split; constructor; try assumption; [reflexivity|].
      subst r. split; reflexivity. }
    destruct Hvss as [Hnil Hzero]. split; [|exact Hzero].
    rewrite Hl. replace (concat vss) with (@nil Q); [apply app_nil_r|].
    clear -Hnil. induction Hnil as [|vs vss -> _ IH]; [reflexivity | exact IH].
Qed.

End RecordedLoss.

(** * The further properties on concrete runs *)

Definition linear_scores (p : Linear.t) (row : list Q) : list Q :=
  map Qred (Linear.affine p row).

Lemma linear_scores_rows : scores_rows 2 Demo.two_features linear_scores.
Proof.
  intros p x (Hin & Hw & Hb) Hx. split.
  - cbn. unfold Demo.lin_call, Linear.forward_.
    replace (forallb _ x) with true.
    + cbn [rbind Ok]. rewrite List.map_map. reflexivity.
    + symmetry. apply forallb_forall. intros row Hrow.
      rewrite List.Forall_forall in Hx. rewrite (Hx row Hrow), Hin. reflexivity.
  - apply List.Forall_forall. intros row _. unfold linear_scores, Linear.affine.
    destruct (Linear.weight p); [congruence|]. destruct (Linear.bias p); [congruence|].
    discriminate.
Qed.

Lemma eval_accuracy_is_share_of_correct_predictions_witness :
  snd (eval_cnn_classifier 0 Demo.valid Demo.w0)
  = accuracy_over linear_scores Demo.identity2 Demo.four_samples /\
  snd (eval_mlp_classifier 2 0 Demo.valid Demo.w0)
  = accuracy_over linear_scores Demo.identity2 Demo.four_samples /\
  accuracy_over linear_scores Demo.identity2 Demo.four_samples = Ok (300 # 4)%Q.
Proof.
  assert (Hbs : (0 < dl_batch_size Demo.valid)%nat) by (cbn; lia).
  assert (Hd : Forall (fun s : Sample => length (fst s) = 2%nat) (dataset Demo.valid))
    by (repeat constructor).
  assert (Hinv : Demo.two_features Demo.identity2)
    by (split; [reflexivity | split; discriminate]).
  destruct (eval_accuracy_is_share_of_correct_predictions (FW := Demo.framework)
              2 Demo.two_features linear_scores 2 0 Demo.valid Demo.w0
              (Demo.obj Demo.identity2) linear_scores_rows Hbs Hd eq_refl Hinv)
    as (_ & Hcnn & _ & Hmlp).
  split; [exact (Hcnn (or_intror eq_refl))|].
  split; [exact (Hmlp eq_refl eq_refl)|].
  vm_compute. reflexivity.
Defined.

Lemma training_on_empty_dataloader_raises_witness :
  snd (training_mlp_classifier 2 0 (Demo.loader [([1; 0]%Q, 0%Z)] 2 true true) 2 Demo.mse
         (1 # 10) false Demo.w0) = Raise ZeroDivisionError /\
  snd (train_val_mlp_classifier 2 0 (Demo.loader [([1; 0]%Q, 0%Z)] 2 true true) Demo.valid
         2 2 2 Demo.mse (1 # 10) false Demo.w0) = Raise ZeroDivisionError /\
  (exists w' model_opt train_losses val_accuracies,
     training_val_cnn_classifier 0 (Demo.loader [([1; 0]%Q, 0%Z)] 2 true true) Demo.valid 2
       Demo.mse (1 # 10) false Demo.w0
     = (w', Ok (model_opt, train_losses, val_accuracies)) /\
     losses (trace w') = [] /\
     length train_losses = 2%nat /\
     Forall (fun r => (r == 0)%Q) train_losses) /\
  snd (training_val_cnn_classifier 0 (Demo.loader [] 2 false true) Demo.valid 2 Demo.mse
         (1 # 10) false Demo.w0) = Raise ZeroDivisionError.
Proof.
  assert (Hn : (0 < 2)%Z) by lia.
  destruct (training_on_empty_dataloader_raises (FW := Demo.framework)
              2 0 (Demo.loader [([1; 0]%Q, 0%Z)] 2 true true) Demo.valid 2 2 2 Demo.mse
              (1 # 10) false Demo.w0 (Demo.obj Demo.identity2) eq_refl Hn) as (Hone & _).
  destruct (training_on_empty_dataloader_raises (FW := Demo.framework)
              2 0 (Demo.loader [] 2 false true) Demo.valid 2 2 2 Demo.mse
              (1 # 10) false Demo.w0 (Demo.obj Demo.identity2) eq_refl Hn) as (_ & Hnone).
  assert (Hbs : (0 < dl_batch_size (Demo.loader [([1; 0]%Q, 0%Z)] 2 true true))%nat)
    by (cbn; lia).
  destruct (Hone Hbs eq_refl) as (H1 & H2 & H3).
  split; [exact H1|]. split; [exact H2|]. split; [|exact (Hnone eq_refl)].
  assert (Er : exists model_opt train_losses val_accuracies,
             snd (training_val_cnn_classifier 0 (Demo.loader [([1; 0]%Q, 0%Z)] 2 true true)
                    Demo.valid 2 Demo.mse (1 # 10) false Demo.w0)
             = Ok (model_opt, train_losses, val_accuracies) /\
             length train_losses = 2%nat)
    by (vm_compute; eexists _, _, _; split; reflexivity).
  destruct Er as (model_opt & train_losses & val_accuracies & Er & Hlen).
  apply run_ok in Er. destruct (H3 _ _ _ _ Er) as (_ & Hl & Hzero).
  eexists _, model_opt, train_losses, val_accuracies.
  split; [exact Er|]. split; [exact Hl|]. split; [exact Hlen|].
  eapply List.Forall_impl; [|exact Hzero]. intros r [_ Hr]. exact Hr.
Defined.

Lemma cnn_training_returns_only_after_an_improvement_witness :
  (exists w' model_opt train_losses val_accuracies,
     training_val_cnn_classifier 0 Demo.train Demo.valid 2 Demo.mse (1 # 10) false Demo.w0
     = (w', Ok (model_opt, train_losses, val_accuracies)) /\
     Exists (fun a => (0 < a)%Q) val_accuracies) /\
  snd (training_val_cnn_classifier 0 Demo.train Demo.valid 0 Demo.mse (1 # 10) false Demo.w0)
  = Raise UnboundLocalError.
Proof.
  split.
  - destruct (cnn_training_returns_only_after_an_improvement (FW := Demo.framework)
                0 Demo.train Demo.valid 2 Demo.mse (1 # 10) false Demo.w0) as (H & _).
    run_returns (training_val_cnn_classifier 0 Demo.train Demo.valid 2 Demo.mse (1 # 10)
                   false Demo.w0) r E.
    destruct r as [[model_opt train_losses] val_accuracies].
    eexists _, model_opt, train_losses, val_accuracies.
    split; [exact E | exact (H _ _ _ _ E)].
  - destruct (cnn_training_returns_only_after_an_improvement (FW := Demo.framework)
                0 Demo.train Demo.valid 0 Demo.mse (1 # 10) false Demo.w0) as (_ & H).
    assert (Hn : (0 <= 0)%Z) by lia.
    exact (H (Demo.obj Demo.identity2) eq_refl Hn).
Defined.

(** Two samples that [Demo.swapped2] classifies wrongly, and a learning
    rate of 0: no epoch has a positive accuracy. *)
Lemma mlp_training_without_improvement_returns_the_initial_copy_witness :
  exists w' model_opt train_losses,
    train_val_mlp_classifier 2 0 Demo.train
      (Demo.loader [([1; 0]%Q, 0%Z); ([0; 1]%Q, 1%Z)] 2 false true) 2 2 2 Demo.mse 0 false
      (Demo.world0 Demo.swapped2)
    = (w', Ok (model_opt, train_losses, [0 # 2; 0 # 2]%Q)) /\
    heap w' !! model_opt = Some (training_copy (Demo.obj Demo.swapped2)) /\
    model_opt <> 0%nat.
Proof.
  assert (Er : exists model_opt train_losses,
             snd (train_val_mlp_classifier 2 0 Demo.train
                    (Demo.loader [([1; 0]%Q, 0%Z); ([0; 1]%Q, 1%Z)] 2 false true) 2 2 2
                    Demo.mse 0 false (Demo.world0 Demo.swapped2))
             = Ok (model_opt, train_losses, [0 # 2; 0 # 2]%Q))
    by (vm_compute; eexists _, _; reflexivity).
  destruct Er as (model_opt & train_losses & Er). apply run_ok in Er.
  assert (Hacc : Forall (fun a => (a <= 0)%Q) [0 # 2; 0 # 2]%Q)
    by (repeat constructor; discriminate).
  destruct (mlp_training_without_improvement_returns_the_initial_copy
              (FW := Demo.framework) 2 0 Demo.train
              (Demo.loader [([1; 0]%Q, 0%Z); ([0; 1]%Q, 1%Z)] 2 false true) 2 2 2 Demo.mse 0
              false (Demo.world0 Demo.swapped2) _ (Demo.obj Demo.swapped2) model_opt
              train_losses [0 # 2; 0 # 2]%Q eq_refl Er Hacc) as (Hcopy & Hne & _).
  eexists _, model_opt, train_losses. split; [exact Er|]. split; [exact Hcopy | exact Hne].
Defined.

Lemma training_returns_one_record_per_epoch_witness :
  (exists w' model_tr train_losses,
     training_mlp_classifier 2 0 Demo.train 2 Demo.mse (1 # 10) false Demo.w0
     = (w', Ok (model_tr, train_losses)) /\
     length train_losses = 2%nat) /\
  (exists w' model_opt train_losses val_accuracies,
     train_val_mlp_classifier 2 0 Demo.train Demo.valid 2 2 2 Demo.mse (1 # 10) false Demo.w0
     = (w', Ok (model_opt, train_losses, val_accuracies)) /\
     length train_losses = 2%nat /\ length val_accuracies = 2%nat) /\
  (exists w' model_opt train_losses val_accuracies,
     training_val_cnn_classifier 0 Demo.train Demo.valid 2 Demo.mse (1 # 10) false Demo.w0
     = (w', Ok (model_opt, train_losses, val_accuracies)) /\
     length train_losses = 2%nat /\ length val_accuracies = 2%nat).
Proof.
  destruct (training_returns_one_record_per_epoch (FW := Demo.framework)
              2 0 Demo.train Demo.valid 2 2 2 Demo.mse (1 # 10) false Demo.w0)
    as (H1 & H2 & H3).
  split; [|split].
  - run_returns (training_mlp_classifier 2 0 Demo.train 2 Demo.mse (1 # 10) false Demo.w0) r E.
    destruct r as [model_tr train_losses].
    eexists _, model_tr, train_losses. split; [exact E | exact (H1 _ _ _ E)].
  - run_returns (train_val_mlp_classifier 2 0 Demo.train Demo.valid 2 2 2 Demo.mse (1 # 10)
                   false Demo.w0) r E.
    destruct r as [[model_opt train_losses] val_accuracies].
    eexists _, model_opt, train_losses, val_accuracies. split; [exact E | exact (H2 _ _ _ _ E)].
  - run_returns (training_val_cnn_classifier 0 Demo.train Demo.valid 2 Demo.mse (1 # 10)
                   false Demo.w0) r E.
    destruct r as [[model_opt train_losses] val_accuracies].
    eexists _, model_opt, train_losses, val_accuracies. split; [exact E | exact (H3 _ _ _ _ E)].
Defined.

Lemma mode_of_the_returned_models_witness :
  (exists w' model_tr train_losses,
     training_mlp_classifier 2 0 Demo.train 2 Demo.mse (1 # 10) false Demo.w0
     = (w', Ok (model_tr, train_losses)) /\
     in_mode model_tr true w') /\
  (exists w' model_opt train_losses val_accuracies,
     train_val_mlp_classifier 2 0 Demo.train Demo.valid 2 2 2 Demo.mse (1 # 10) false Demo.w0
     = (w', Ok (model_opt, train_losses, val_accuracies)) /\
     in_mode (fresh (dom (heap Demo.w0))) false w') /\
  (exists w' model_opt train_losses val_accuracies,
     training_val_cnn_classifier 0 Demo.train Demo.valid 2 Demo.mse (1 # 10) false Demo.w0
     = (w', Ok (model_opt, train_losses, val_accuracies)) /\
     in_mode (fresh (dom (heap Demo.w0))) false w' /\ in_mode model_opt false w').
Proof.
  destruct (mode_of_the_returned_models (FW := Demo.framework)
              2 0 Demo.train Demo.valid 2 2 2 Demo.mse (1 # 10) false Demo.w0)
    as (H1 & H2 & H3).
  assert (Hn : (0 < 2)%Z) by lia.
  split; [|split].
  - run_returns (training_mlp_classifier 2 0 Demo.train 2 Demo.mse (1 # 10) false Demo.w0) r E.
    destruct r as [model_tr train_losses].
    eexists _, model_tr, train_losses. split; [exact E | exact (proj2 (H1 _ _ _ E))].
  - run_returns (train_val_mlp_classifier 2 0 Demo.train Demo.valid 2 2 2 Demo.mse (1 # 10)
                   false Demo.w0) r E.
    destruct r as [[model_opt train_losses] val_accuracies].
    eexists _, model_opt, train_losses, val_accuracies.
    split; [exact E | exact (proj1 (H2 _ _ _ _ E Hn))].
  - run_returns (training_val_cnn_classifier 0 Demo.train Demo.valid 2 Demo.mse (1 # 10)
                   false Demo.w0) r E.
    destruct r as [[model_opt train_losses] val_accuracies].
    eexists _, model_opt, train_losses, val_accuracies. split; [exact E | exact (H3 _ _ _ _ E)].
Defined.

Lemma MLPClassif_var_forward_witness :
  exists out,
    forward (MLPClassif_var.__init__ 2 2 3 2 (fun j i => inject_Z (Z.of_nat (j + i)))
               (fun _ => 1%Q) (fun k j i => (inject_Z (Z.of_nat (k + j)) - inject_Z (Z.of_nat i))%Q)
               (fun _ _ => 0%Q) (fun _ _ => 1%Q) (fun j => inject_Z (Z.of_nat j)))
      [[1; 0]; [0; 1]]%Q = Ok out /\
    Tensor.shape out 2 2.
Proof.
  assert (Hx : Tensor.shape [[1; 0]; [0; 1]]%Q 2 2) by (split; repeat constructor).
  destruct (MLPClassif_var_forward 2 2 3 2 (fun j i => inject_Z (Z.of_nat (j + i)))
              (fun _ => 1%Q) (fun k j i => (inject_Z (Z.of_nat (k + j)) - inject_Z (Z.of_nat i))%Q)
              (fun _ _ => 0%Q) (fun _ _ => 1%Q) (fun j => inject_Z (Z.of_nat j))
              [[1; 0]; [0; 1]]%Q 2 Hx) as (Hfw & Hshape & _).
  eexists. split; [exact Hfw | exact Hshape].
Defined.

Lemma init_weights_depends_on_the_sizes_only_witness :
  seeded_init (RNG := DemoRandom.random)
    (MLPClassif.__init__ 2 3 2 ReLU (fun _ _ => 1%Q) (fun _ _ => 1%Q) (fun _ _ => 1%Q)
       (fun _ => 0%Q) (fun _ => 0%Q) (fun _ => 0%Q))
  = seeded_init (RNG := DemoRandom.random)
      (MLPClassif.__init__ 2 3 2 ReLU (fun j i => inject_Z (Z.of_nat (j + i)))
         (fun _ _ => 0%Q) (fun _ _ => (1 # 2)%Q) (fun _ => 5%Q) (fun _ => 0%Q) (fun _ => 1%Q)) /\
  exists out,
    forward (seeded_init (RNG := DemoRandom.random)
               (MLPClassif.__init__ 2 3 2 ReLU (fun _ _ => 1%Q) (fun _ _ => 1%Q)
                  (fun _ _ => 1%Q) (fun _ => 0%Q) (fun _ => 0%Q) (fun _ => 0%Q)))
      [[1; 0]; [0; 1]]%Q = Ok out /\
    Tensor.shape out 2 2.
Proof.
  destruct (init_weights_depends_on_the_sizes_only (RNG := DemoRandom.random) 2 3 2 ReLU
              (fun _ _ => 1%Q) (fun _ _ => 1%Q) (fun _ _ => 1%Q)
              (fun j i => inject_Z (Z.of_nat (j + i))) (fun _ _ => 0%Q) (fun _ _ => (1 # 2)%Q)
              (fun _ => 0%Q) (fun _ => 0%Q) (fun _ => 0%Q)
              (fun _ => 5%Q) (fun _ => 0%Q) (fun _ => 1%Q))
    as (Hsame & _ & _ & _ & _ & _ & _ & Hfw).
  split; [exact Hsame|].
  assert (Hx : Tensor.shape [[1; 0]; [0; 1]]%Q 2 2) by (split; repeat constructor).
  exact (Hfw _ 2%nat Hx).
Defined.

Lemma word_to_index_inverts_vocab_witness :
  exists text,
    TextDataset.__init__ demo_os "corpus/" 6 = Ok text /\
    TextDataset.vocab text = ["a"; "bad"; "good"; "movie"] /\
    NoDup (TextDataset.vocab text) /\
    (TextDataset.word_to_index text !! "good" = Some 2%Z <->
     ("good" = "[PAD]" /\ 2%Z = (-1)%Z) \/
     ((0 <= 2)%Z /\ nth_error (TextDataset.vocab text) (Z.to_nat 2) = Some "good")).
Proof.
  eassert (E : TextDataset.__init__ demo_os "corpus/" 6 = Ok _)
    by (vm_compute; reflexivity).
  destruct (word_to_index_inverts_vocab _ _ _ _ E) as (_ & Hnd & _ & Hdict).
  eexists. split; [exact E|]. split; [vm_compute; reflexivity|].
  split; [exact Hnd | exact (Hdict "good" 2%Z)].
Defined.

Lemma text_sample_is_defined_witness :
  exists text f,
    TextDataset.__init__ demo_os "corpus/" 6 = Ok text /\
    TextDataset.__getitem__ demo_os text (-2) = Ok f /\
    TextDataset.labels_ f = [Float32.Finite 1] /\
    TextDataset.token_ids f = [0; 2; 2; 3; -1; -1]%Z.
Proof.
  eassert (E : TextDataset.__init__ demo_os "corpus/" 6 = Ok _)
    by (vm_compute; reflexivity).
  match type of E with
  | _ = Ok ?text =>
      assert (Hidx : (- TextDataset.__len__ text <= -2 < TextDataset.__len__ text)%Z)
        by (vm_compute; split; [discriminate | reflexivity])
  end.
  destruct (text_sample_is_defined _ _ _ _ _ E Hidx)
    as (path & line & t & label_text & label & ranks & Hpath & Hline & Hs & Hint & _ & _
        & _ & Hret).
  vm_compute in Hpath. inversion Hpath. subst path.
  vm_compute in Hline. inversion Hline. subst line.
  vm_compute in Hs. inversion Hs. subst t label_text.
  vm_compute in Hint. inversion Hint. subst label.
  destruct (Hret [Float32.Finite 1] eq_refl) as (f & Hget & Hlab).
  eexists _, f. split; [exact E|]. split; [exact Hget|]. split; [exact Hlab|].
  vm_compute in Hget. inversion Hget. reflexivity.
Defined.



Lemma dataset_index_bounds_witness :
  ImageDataset.__getitem__ demo_os (ImageDataset.__init__ demo_os "corpus/") 2
  = Raise IndexError /\
  SpeechDataset.__getitem__ demo_os (SpeechDataset.__init__ demo_os "corpus/" 2) (-1)
  = SpeechDataset.__getitem__ demo_os (SpeechDataset.__init__ demo_os "corpus/" 2) 1 /\
  exists text,
    TextDataset.__init__ demo_os "corpus/" 6 = Ok text /\
    TextDataset.__getitem__ demo_os text (-3) = Raise IndexError /\
    TextDataset.__getitem__ demo_os text (-1) = TextDataset.__getitem__ demo_os text 1.
Proof.
  destruct (dataset_index_bounds demo_os) as (Himg & Hsp & Htxt).
  split; [|split].
  - apply (proj1 (Himg (ImageDataset.__init__ demo_os "corpus/") 2%Z)).
    right. vm_compute. discriminate.
  - apply (proj2 (Hsp (SpeechDataset.__init__ demo_os "corpus/" 2) (-1)%Z)).
    vm_compute. split; [discriminate | reflexivity].
  - eassert (E : TextDataset.__init__ demo_os "corpus/" 6 = Ok _)
      by (vm_compute; reflexivity).
    eexists. split; [exact E|]. split.
    + apply (proj1 (Htxt _ (-3)%Z)). left. vm_compute. reflexivity.
    + refine (proj2 (Htxt _ (-1)%Z) _ _ E _). vm_compute. split; [discriminate | reflexivity].
Defined.

Lemma set_duration_idempotent_witness :
  SpeechDataset._set_duration (SpeechDataset._set_duration [1; 2; 3]%Q (1 # 2) 4) (1 # 2) 4
  = SpeechDataset._set_duration [1; 2; 3]%Q (1 # 2) 4 /\
  SpeechDataset._set_duration [1; 2; 3]%Q (- (1 # 2)) 4 = [1%Q] /\
  SpeechDataset._set_duration [1; 2; 3]%Q (- (1)) 4 = [].
Proof.
  split; [|split].
  - apply (proj1 (set_duration_idempotent [1; 2; 3]%Q (1 # 2) 4)). vm_compute. discriminate.
  - assert (Hneg : (int_of_float (- (1 # 2) * inject_Z 4) < 0)%Z) by (vm_compute; reflexivity).
    rewrite (proj1 (proj2 (set_duration_idempotent [1; 2; 3]%Q (- (1 # 2)) 4) Hneg)).
    reflexivity.
  - assert (Hneg : (int_of_float (- (1) * inject_Z 4) < 0)%Z) by (vm_compute; reflexivity).
    apply (proj2 (proj2 (proj2 (set_duration_idempotent [1; 2; 3]%Q (- (1)) 4) Hneg))).
    vm_compute. discriminate.
Defined.

Lemma text_dataset_init_needs_labelled_lines_witness :
  Forall (labelled demo_os) ["corpus/a.txt"; "corpus/b.txt"] /\
  TextDataset.__init__ unlabelled_os "corpus/" 6 = Raise ValueError.
Proof.
  split.
  - assert (Hascii : Forall (fun path => forall line,
                               TextDataset.first_line demo_os path = Ok line ->
                               Str.isascii line = true)
                       (Str.sorted (TextDataset._find_files demo_os "corpus/" "*.txt"))).
    { vm_compute. repeat constructor; intros line [= <-]; reflexivity. }
    destruct (text_dataset_init_needs_labelled_lines demo_os "corpus/" 6 Hascii) as (Hiff & _).
    apply (proj1 Hiff). eexists. vm_compute. reflexivity.
  - assert (Hascii : Forall (fun path => forall line,
                               TextDataset.first_line unlabelled_os path = Ok line ->
                               Str.isascii line = true)
                       (Str.sorted (TextDataset._find_files unlabelled_os "corpus/" "*.txt"))).
    { vm_compute. repeat constructor; intros line [= <-]; reflexivity. }
    destruct (text_dataset_init_needs_labelled_lines unlabelled_os "corpus/" 6 Hascii)
      as (_ & Herr).
    destruct (Herr "corpus/plain.txt" [] eq_refl) as (_ & Hsplit & _).
    apply (Hsplit ("no label here" ++ nl)%string); [reflexivity | vm_compute; discriminate].
Defined.

Lemma recorded_training_loss_witness :
  (exists w' model_tr train_losses vss,
     training_mlp_classifier 2 0 Demo.train 2 Demo.mse (1 # 10) false Demo.w0
     = (w', Ok (model_tr, train_losses)) /\
     losses (trace w') = concat vss /\
     Forall2 (fun vs r => length vs = 2%nat /\ (r == mean vs)%Q) vss train_losses) /\
  (exists w' model_opt train_losses val_accuracies vss,
     training_val_cnn_classifier 0 (Demo.loader Demo.three_samples 2 false true) Demo.valid 2
       Demo.mse (1 # 10) false Demo.w0
     = (w', Ok (model_opt, train_losses, val_accuracies)) /\
     losses (trace w') = concat vss /\
     Forall2 (fun vs r => length vs = 1%nat /\ (r == running_total vs * 2 / 3)%Q)
       vss train_losses).
Proof.
  split.
  - assert (Hbs : (0 < dl_batch_size Demo.train)%nat) by (cbn; lia).
    destruct (recorded_training_loss (FW := Demo.framework)
                2 0 Demo.train Demo.valid 2 2 2 Demo.mse (1 # 10) false Demo.w0 Hbs)
      as (H1 & _).
    run_returns (training_mlp_classifier 2 0 Demo.train 2 Demo.mse (1 # 10) false Demo.w0) r E.
    destruct r as [model_tr train_losses].
    destruct (H1 _ _ _ E) as (vss & Hl & HR).
    eexists _, model_tr, train_losses, vss. split; [exact E|]. split; [exact Hl | exact HR].
  - assert (Hbs : (0 < dl_batch_size (Demo.loader Demo.three_samples 2 false true))%nat)
      by (cbn; lia).
    destruct (recorded_training_loss (FW := Demo.framework)
                2 0 (Demo.loader Demo.three_samples 2 false true) Demo.valid 2 2 2 Demo.mse
                (1 # 10) false Demo.w0 Hbs) as (_ & _ & H3).
    run_returns (training_val_cnn_classifier 0 (Demo.loader Demo.three_samples 2 false true)
                   Demo.valid 2 Demo.mse (1 # 10) false Demo.w0) r E.
    destruct r as [[model_opt train_losses] val_accuracies].
    destruct (H3 _ _ _ _ E) as (vss & Hl & HR).
    eexists _, model_opt, train_losses, val_accuracies, vss.
    split; [exact E|]. split; [exact Hl|].
    eapply List.Forall2_impl; [|exact HR].
    intros vs r (Hlen & _ & Hfull & _). split; [exact Hlen|].
    rewrite (Hfull (or_introl eq_refl)). reflexivity.
Defined.

Lemma nonlinear_regression_records_every_loss_witness :
  exists w' loss_records,
    nonlinear_regression_training 0 Demo.mse [[2%Q]] [[10%Q]] (Demo.world0 Demo.lin_1_3)
    = (w', Ok loss_records) /\
    length loss_records = 50%nat /\
    losses (trace w') = loss_records.
Proof.
  run_returns (nonlinear_regression_training 0 Demo.mse [[2%Q]] [[10%Q]]
                 (Demo.world0 Demo.lin_1_3)) r E.
  destruct (nonlinear_regression_records_every_loss (FW := Demo.framework) _ _ _ _ _ _ _ E)
    as (Hlen & Hl).
  eexists _, r. split; [exact E|]. split; [exact Hlen | exact Hl].
Defined.
